(* ===== verification/_CoqProject ===== *)
-Q . S2P
Prelude.v
GoLib.v
Json.v
JsonRpc.v
JsonText.v
Transport.v
Http.v
ConfigData.v
Config.v
ConfigProps.v
ConfigView.v
Telemetry.v
Stdio.v
Resilience.v
RateLimit.v
RedisLimit.v
Router.v
StdioMock.v
AuthStore.v
CachedStore.v
Cluster.v
Auth.v
SharedCaller.v
Proxy.v
AuditStore.v
OAuth.v
Mocks.v
Databases.v
Health.v
Server.v
Tls.v
Admin.v
AdminUI.v
Live.v
AdminClient.v
Cli.v
Gateway.v
Running.v
Metrics.v
Wrap.v
