(* ===== verification/Prelude.v ===== *)
(** * Stile: a verification development of the MCP gateway

    Stile (Go, [cmd/gateway] and [internal/]) is a gateway between agents that
    speak the Model Context Protocol (JSON-RPC over HTTP) and upstream tool
    servers. A request to POST /mcp is authenticated, parsed, and dispatched; a
    tools/call passes the access check, the route table, the rate limiter and
    the resolution of an OAuth token, and goes to one upstream through a
    transport, over HTTP or to a child process, that may be wrapped with retries
    and a circuit breaker. Around that path are the caller store and its cache, the
    OAuth flow by which users connect their accounts, health checks, the audit log,
    the configuration that everything is built from, and the ways to administer a
    gateway: an HTTP API, web pages, and subcommands that work on the database or
    through the API. This library models these parts as Rocq functions on explicit
    states, translated from the sources, and proves what makes them correct.

    ** Files, in dependency order

    - [Prelude]: this file. Results and loops with early returns ([result],
      [for_each], [map_result]), the unspecified order of Go maps ([GoRange]),
      tactics, and lemmas on lists.
    - [GoLib]: what the sources use of the Go standard library: [strings],
      [strconv], [float64] (on SpecFloat, so rounding and out-of-range conversion
      are those of the machine; the latter is a platform parameter), [time]
      durations, [encoding/base64] and [hex].
    - [Json], [JsonText]: JSON documents, a parser from bytes, and decoding into
      Go values (case folding of struct fields, repeated members, [null]); the
      encoder, and that the parser reads back what it writes.
    - [JsonRpc]: [jsonrpc/jsonrpc.go].
    - [Transport]: [transport/transport.go], [sse.go], [http.go], and the context
      values of [auth/auth.go]. The class [Transport] is the interface; the HTTP
      client is the class [HTTPClient].
    - [Http]: URLs, cookies, requests and replies, for the handlers that are
      modelled below the mux.
    - [ConfigData], [Config], [ConfigProps]: [config/config.go]: records;
      validation, conversion and loading; what a converted configuration
      satisfies. The YAML library is a parameter.
    - [ConfigView]: [admin/config_view.go].
    - [Telemetry]: [logging/tracehandler.go], over the class [SlogHandler], and
      [telemetry/telemetry.go].
    - [Stdio]: [transport/stdio.go]: the transport and its child processes, in a
      monad whose computations return, block or panic; a step relation for callers
      that interleave where the lock is released, and for the goroutine that a
      startup ping leaves behind. [Ping] has that goroutine's own steps.
    - [Resilience]: [resilience/circuitbreaker.go], [retry.go], [resilient.go].
    - [RateLimit], [RedisLimit]: [policy/ratelimit.go]; [redis.go] and
      [factory.go]. The class [RateLimiter] is the interface; the token bucket of
      x/time/rate is the class [TokenBucket]; the Lua script runs on a model of
      Redis sorted sets.
    - [Router]: [router/router.go]: the table, and a step relation at the
      granularity of its lock.
    - [StdioMock]: the stdio server of the tests, as a child of [Stdio].
    - [AuthStore], [CachedStore]: [auth/store.go] and [postgres.go];
      [cached_store.go] and [pg_notify.go]. The class [Store] is the interface and
      [StoreLaws] what it promises. Both databases are instances of both; the cache
      is one of [Store], and refines them as [cache_transparent] says.
    - [Cluster]: several instances with their caches on one database, lookups that
      are under way, and the listeners of [pg_notify.go], as a step relation, with
      the invalidations that an instance has missed.
    - [Auth]: [auth/auth.go], [oidc.go].
    - [SharedCaller]: the caller objects that the cache hands to several requests,
      in a heap, with the accesses of [auth.go] to them as a step relation.
    - [Proxy]: [proxy/proxy.go], written against the classes [Transport],
      [RateLimiter] and [UpstreamAuth].
    - [AuditStore]: [audit/audit.go], [postgres.go]: the statements as they are built,
      and what they select.
    - [OAuth]: [auth/tokenstore.go], [oauth_refresh.go], [oauth_resolver.go],
      [oauth_handler.go], [connection_checker.go]; implements [UpstreamAuth]. The
      MAC, the hash, the token endpoints and the JWT library are parameters.
    - [Mocks]: the servers of [scripts/], as a token endpoint of [OAuth] and as
      networks of [Transport].
    - [Databases]: the constructors of all stores with their schemas, migrations and
      locks, on a catalog of tables; the token stores of both back ends.
    - [Health]: [health/health.go], [store.go]; what the handlers do to the shared
      transports between two checks is an argument of the check.
    - [Server]: [server/server.go]: POST /mcp from the header to the response.
    - [Tls]: the TLS configurations of [server.go] and [transport/http.go], and what
      a handshake does with them.
    - [Admin], [AdminUI]: [admin/handler.go] and [session.go], over the class
      [Store]; [ui.go], with the data of each page, and the admin server behind its
      middleware.
    - [Live]: the class [LiveStore], what the handlers of a running gateway rely on
      when they share a store of callers; with and without the cache, whose lookups
      may store an answer late.
    - [AdminClient]: [admin/client.go], over the class [Remote]; its instance
      [Wire_Remote] is a network that carries the bytes of the requests to the admin
      server and the replies back, following redirects.
    - [Cli]: [cmd/gateway/cli.go] and the start of [main.go]: the subcommands
      against the class [cliAdmin], which the client and the local store implement.
    - [Gateway]: the rest of [main.go], [healthagent.go] and [server.New]: how a
      gateway is put together, the guard in front of each route, and the shutdown
      of a gateway, a health agent and a wrapper as a step relation.
    - [Running]: the started gateway as one state: every request through the mux to
      its handler, and the background work, as a step relation.
    - [Metrics]: [metrics/metrics.go], over the class [Meter], fed with what the
      components record.
    - [Wrap]: [wrap/handler.go], [cmd/gateway/wrap.go].

    Definitions have the names of the source; where a name is taken, the type it
    belongs to goes first ([HTTP_RoundTrip], [Redis_Allow]). Methods take the
    receiver last and return its new state. What a call reads from outside (clocks,
    random numbers, failures of a database or a server) is an argument: the
    theorems hold for all of it. Times are nanoseconds. 64-bit arithmetic wraps
    where the source can overflow ([Strconv.wrap64], [Duration.Sub]).

    ** What the theorems show

    - The request path. [mcp_access_end_to_end] composes the server, the
      authenticator and the proxy: an upstream is contacted only for a caller whose
      roles in the store allow the tool. [upstream_contact_guarded] gives the guards
      of the proxy, [listing_matches_calls] the agreement of tools/list with
      tools/call, [outbound_names_tool] what the upstream is sent,
      [call_audited_once] and [rate_denial_response] the records and errors.
      [batch_answered] and [limits_enforced] cover the dispatcher.
    - Authentication. [authentication_sound] and [oidc_identity_sound]
      characterise who gets in and what for; the latter for a validator after any
      validations, with the answers of the userinfo endpoint in its cache.
    - Administration. [admin_requires_auth] is who reaches the admin server,
      [login_opens_session] and [session_sound] are its sessions,
      [issued_key_authenticates] joins the key endpoint to the authenticator,
      [view_hides_secrets] is what the configuration view does not depend on.
      [remote_matches_local] is the refinement of a local store by a remote
      gateway: through client, network, middleware and handlers a subcommand does
      what it does on the database. [audit_page_exact] and [pages_partition] are the
      pages of the audit log, whose statements [query_selects] characterises.
    - The running gateway. [revocation_end_to_end]: once a DELETE of a key through
      the admin API has succeeded, no later request with it passes the
      authenticator, whatever requests and background work come between, with the
      cache or without, unless a lookup of that key was under way and stores its
      outdated answer ([revoked_key_revived]). [audit_trail_complete]: the log only
      grows, and a request that touches an upstream adds one entry under its
      caller's name, or none if the audit store fails.
    - The process. [started_gateway_guarded] is what a gateway that has started
      protects, with a database and without, [health_split] which process checks
      which upstream, [shutdown_orderly] in which order the three programs close
      their resources, [tls_enforced] and [upstream_tls] when a server starts and
      which connections are accepted and opened.
    - Observability. [metrics_match_audit]: the counters on /metrics agree with the
      audit log, up to entries that the audit store failed to write; [circuit_gauge_current] and [health_gauge_current] the gauges;
      [trace_handler_adds_ids] and [tracing_setup] logging and tracing.
    - Child processes. [stdio_invariant] holds under every interleaving of calls;
      [serial_single_child] when calls do not overlap; [permanent_failure_final],
      [first_response_answers]. [round_trip_terminates] and [wrap_answers] are
      total: a call returns unless the child hangs.
    - Stores. [constraints_hold] is the schema as an invariant under faults;
      [added_key_found] and [revocation_complete] the life of a key;
      [cache_transparent] is the refinement of the store by the cache on one
      instance, [staleness_bounded] what is left of it with several, and
      [invalidations_converge] what their notifications add, and in which five ways
      one is missed. [shared_caller_isolated]
      and [uncached_caller_private] are what concurrent requests see of a caller.
      [caller_database_opened] (with faults and without), [audit_log_migrated] and
      [migration_lock_released] are the opening of the databases.
    - OAuth. [connect_flow] and [connect_token_roundtrip] are the protocol's round
      trips, [callback_stores_signed_only] and [tokens_kept_apart] its safety;
      [token_stores_refine] is the refinement of the map of tokens by both
      databases.
    - Stand-in servers. [oauth_end_to_end] takes a connect link through the mock
      provider and a call to the mock upstream, which sees the token;
      [code_exchange_guarded], [mock_refresh], [sse_server_resolved], [fake_echo]
      and [stdio_server_session] are the servers one by one.
    - Limits and failures. [script_is_sliding_log] and [window_respected] for the
      Redis script, [callers_isolated] for the local limiter, [redis_fails_closed];
      [breaker_refines_history] and [breaker_never_wedges] for the circuit breaker,
      [resilient_round_trip] for the retry loop.
    - Routing. [resolve_first_upstream] is the refinement of the table to "the first
      offer wins" in every state the step relation reaches; [listing_agrees],
      [resolve_sound] and [refresh_keeps_stale_tools] follow the same invariant.
    - Messages and configuration. [wire_roundtrip] down to the bytes,
      [response_roundtrip], [ParseMessage_shape], [stream_resolves_to_last];
      [convert_valid].
    - Health. [polled_health] and [ready_iff_some_healthy].

    Some theorems state that the code does not do what it should, on a concrete
    input or in general: [case_variant_evades_acl], [same_member_all_admitted],
    [backends_disagree], [backoff_overflow], [ParseRateLimit_accepts_nan],
    [null_error_reads_as_error], [provisioning_not_atomic], [revoked_key_revived],
    [failed_provisioning_stale], [oidc_label_mistaken], [piped_caller_locked_out],
    [refresh_accepts_empty_token], [slow_probe_never_reported],
    [invalid_request_code], [added_upstream_prefix], [concurrent_restart_orphans],
    [answers_shift], [silent_child_blocks], [startup_timeout_can_crash],
    [abandoned_ping_crashes], [logout_path_shows_dashboard], [audit_limit_wraps],
    [url_credentials_shown], [remote_revoke_keeps_twin], [remote_name_is_path],
    [cache_not_enabled_misread], [refresh_open_without_database],
    [shutdown_cut_short], [missed_while_reconnecting], [half_migration_kept],
    [migration_lock_kept], [auth_cache_counters_unused], [revoked_roles_return],
    [pkce_skipped], [fake_echo_not_json], [discovery_shifted].

    ** Fuel and bounds

    Recursion is structural except in a few places. The JSON parser has fuel twice
    the length of the input plus two: each of its calls consumes a byte or descends
    one of at most two levels per byte. [Json.parse_any_fuel] and
    [Json.read_string_fuel] prove that more fuel changes no answer. The reader of
    server-sent events has one unit per line, and every event takes a line.
    [sanitize], [ParseFloat] and [ParseDuration] are bounded by the length of the
    string, as is the decoding of runes. The retry loop is bounded by the
    configured attempts, a read from a child by fifty lines, and the client follows
    ten redirects, as in the sources. No theorem assumes that fuel suffices.

    ** What is not modelled

    - Spans of tracing, the lines that are logged, and the text of /metrics: calls
      into libraries. What the components observe is recorded as lists, and the
      instruments are a class.
    - HTML templates and the formatting of tables: the data they show is modelled.
    - How the databases write times, and how the text of an error says that a
      constraint is violated: times are numbers, errors are values.
    - The periods of tickers: a tick is a step that can happen at any time.
    - The helpers of the tests. The mux of [net/http] is modelled for the routes that
      the sources register.

    Planned next: interleavings of the requests to a running gateway below the
    granularity of one handler, beyond the lookups of the cache; the goroutine of the health checker with its start
    and stop; the construction of the Postgres listener. *)

From Stdlib Require Export ZArith Lia Ascii String Bool.
From stdpp Require Export base tactics list strings gmap sets fin_maps.

#[global] Open Scope string_scope.
#[global] Open Scope list_scope.
#[global] Open Scope Z_scope.
#[global] Set Default Goal Selector "!".

Declare Scope stile_scope.
Delimit Scope stile_scope with stile.
#[global] Open Scope stile_scope.

(** ** Results: a Go pair [(value, error)] where exactly one side is used *)

Inductive result (E A : Type) : Type :=
| Ok (a : A)
| Err (e : E).
Arguments Ok {E A} a.
Arguments Err {E A} e.

#[global] Instance result_ret {E} : MRet (result E) := λ A a, Ok a.
#[global] Instance result_bind {E} : MBind (result E) := λ A B k c,
  match c with Ok a => k a | Err e => Err e end.
#[global] Instance result_fmap {E} : FMap (result E) := λ A B f c,
  match c with Ok a => Ok (f a) | Err e => Err e end.

(** [check b e]: the Go statement [if !b { return e }]. *)
Definition check {E} (b : bool) (e : E) : result E unit :=
  if b then Ok tt else Err e.

Definition is_ok {E A} (r : result E A) : bool :=
  match r with Ok _ => true | Err _ => false end.

(** [for _, x := range l { if err := f(x); err != nil { return err } }] *)
Fixpoint for_each {E A} (f : A → result E unit) (l : list A) : result E unit :=
  match l with
  | [] => Ok tt
  | x :: l => f x ≫= λ _, for_each f l
  end.

(** A loop that builds a slice and returns at the first error. *)
Fixpoint map_result {E A B} (f : A → result E B) (l : list A) : result E (list B) :=
  match l with
  | [] => Ok []
  | x :: l => y ← f x; ys ← map_result f l; Ok (y :: ys)
  end.

(** ** Go maps *)

(** [range m]: the order in which one Go execution enumerates a map is not
    specified by the language; the development is parametric in it. *)
Class GoRange := {
  go_range : ∀ {V : Type}, gmap string V → list (string * V);
  go_range_perm : ∀ {V : Type} (m : gmap string V), go_range m ≡ₚ map_to_list m;
}.

#[global] Instance sorted_range : GoRange :=
  {| go_range := λ V m, map_to_list m; go_range_perm := λ V m, reflexivity _ |}.

(** ** Tactics *)

(** Split every [match]/[if] of the goal and of the hypotheses, and close the
    contradictory branches. *)
Ltac destruct_matches :=
  repeat match goal with
    | H : context [match ?x with _ => _ end] |- _ =>
        let E := fresh "E" in destruct x eqn:E; try discriminate
    | |- context [match ?x with _ => _ end] =>
        let E := fresh "E" in destruct x eqn:E; try discriminate
    end.

(** Peel the binds of a successful [result] computation. *)
Ltac result_inv :=
  repeat match goal with
    | H : mbind (M:=result _) ?k ?c = Ok _ |- _ =>
        let E := fresh "E" in
        unfold mbind, result_bind in H; destruct c eqn:E; [|discriminate H]
    | H : match ?c with Ok _ => _ | Err _ => _ end = Ok _ |- _ =>
        let E := fresh "E" in destruct c eqn:E; [|discriminate H]
    | H : check ?b ?e = Ok _ |- _ =>
        let E := fresh "E" in
        unfold check in H; destruct b eqn:E; [clear H|discriminate H]
    | H : Ok _ = Ok _ |- _ => injection H as H; try subst
    | H : Err _ = Ok _ |- _ => discriminate H
    | H : Ok _ = Err _ |- _ => discriminate H
    end.

(** ** Generic lemmas *)

Create HintDb stile discriminated.
Create Rewrite HintDb stile.

(** stdpp blocks the reduction of [+:+]; these two equations drive it. *)
Lemma str_app_cons c s t : String c s +:+ t = String c (s +:+ t).
Proof. done. Qed.

Lemma str_app_nil s : "" +:+ s = s.
Proof. done. Qed.

Lemma str_app_assoc (s t u : string) : (s +:+ t) +:+ u = s +:+ (t +:+ u).
Proof. induction s as [|c s IH]; [done|]. by rewrite !str_app_cons, IH. Qed.

Lemma str_length_app s t : String.length (s +:+ t) = (String.length s + String.length t)%nat.
Proof. induction s as [|c s IH]; [done|]. rewrite str_app_cons. simpl. by rewrite IH. Qed.

Lemma str_app_nil_r s : s +:+ "" = s.
Proof. induction s as [|c s IH]; [done|]. by rewrite str_app_cons, IH. Qed.

Ltac str_simpl := repeat (rewrite !str_app_cons || rewrite !str_app_nil); simpl.

Lemma for_each_ok {E A} (f : A → result E unit) l :
  for_each f l = Ok tt ↔ Forall (λ x, f x = Ok tt) l.
Proof.
  induction l as [|x l IH]; simpl; [split; constructor|].
  rewrite Forall_cons, <- IH. unfold mbind, result_bind.
  destruct (f x) as [[]|e]; split; try naive_solver.
Qed.

Lemma for_each_err {E A} (f : A → result E unit) l e :
  for_each f l = Err e →
  ∃ l1 x l2, l = l1 ++ x :: l2 ∧ Forall (λ y, f y = Ok tt) l1 ∧ f x = Err e.
Proof.
  induction l as [|x l IH]; simpl; [done|].
  unfold mbind, result_bind. destruct (f x) as [[]|e'] eqn:Hx; intros H.
  - destruct (IH H) as (l1 & y & l2 & -> & ? & ?).
    exists (x :: l1), y, l2. repeat split; [constructor|]; auto.
  - simplify_eq. exists [], x, l. auto.
Qed.

Lemma for_each_app {E A} (f : A → result E unit) l1 l2 :
  for_each f (l1 ++ l2) = (for_each f l1 ≫= λ _, for_each f l2).
Proof.
  induction l1 as [|x l1 IH]; simpl; [done|].
  rewrite IH. unfold mbind, result_bind. by destruct (f x).
Qed.

Lemma map_result_ok {E A B} (f : A → result E B) l ys :
  map_result f l = Ok ys ↔ Forall2 (λ x y, f x = Ok y) l ys.
Proof.
  revert ys. induction l as [|x l IH]; intros ys; simpl; split; intros H.
  - by simplify_eq.
  - by inv H.
  - unfold mbind, result_bind in H. destruct (f x) eqn:Hx; [|done].
    destruct (map_result f l) eqn:Hl; [|done]. simplify_eq.
    constructor; [done|]. by apply IH.
  - inv H. unfold mbind, result_bind. rewrite H2.
    by rewrite (proj2 (IH _) H4).
Qed.

Lemma map_result_length {E A B} (f : A → result E B) l ys :
  map_result f l = Ok ys → length ys = length l.
Proof. intros H%map_result_ok. symmetry. by eapply Forall2_length. Qed.

Lemma NoDup_keys_inj {K V} (l : list (K * V)) k v1 v2 :
  NoDup l.*1 → (k, v1) ∈ l → (k, v2) ∈ l → v1 = v2.
Proof.
  induction l as [|[k' v'] l IH]; csimpl; intros Hnd H1 H2; [set_solver|]. inv Hnd.
  apply elem_of_cons in H1 as [H1|H1], H2 as [H2|H2]; simplify_eq; [done|..|by apply IH].
  - apply (list_elem_of_fmap_2 fst) in H2. done.
  - apply (list_elem_of_fmap_2 fst) in H1. done.
Qed.

(** A search by a key. *)
Lemma find_key {A K} `{EqDecision K} (f : A → K) (l : list A) (k : K) (x : A) :
  NoDup (f <$> l) → List.find (λ a, bool_decide (f a = k)) l = Some x ↔ x ∈ l ∧ f x = k.
Proof.
  intros Hnd. split.
  - intros [Hin Hk]%find_some. apply bool_decide_eq_true in Hk. split; [by apply list_elem_of_In|done].
  - induction l as [|a l IH]; intros [Hin Hk]; [set_solver|]. csimpl in Hnd. inv Hnd. simpl.
    apply elem_of_cons in Hin as [->|Hin]; [by rewrite bool_decide_eq_true_2|].
    rewrite bool_decide_eq_false_2; [by apply IH|]. intros Hk'. apply (list_elem_of_fmap_2 f) in Hin. congruence.
Qed.

(** A row is determined by its unique column. *)
Lemma key_unique {A K} `{EqDecision K} (f : A → K) (l : list A) (x y : A) :
  NoDup (f <$> l) → x ∈ l → y ∈ l → f x = f y → x = y.
Proof.
  intros Hn Hx Hy Heq. pose proof (proj2 (find_key f l (f x) x Hn) (conj Hx eq_refl)) as Hfx.
  rewrite (proj2 (find_key f l (f x) y Hn)) in Hfx by (split; congruence). congruence.
Qed.

Lemma find_key_None {A K} `{EqDecision K} (f : A → K) (l : list A) (k : K) :
  List.find (λ a, bool_decide (f a = k)) l = None ↔ k ∉ f <$> l.
Proof.
  induction l as [|a l IH]; simpl; [set_solver|]. case_bool_decide; csimpl; set_solver.
Qed.

Lemma NoDup_fmap_filter {A K} (f : A → K) (P : A → Prop) `{∀ x, Decision (P x)} (l : list A) :
  NoDup (f <$> l) → NoDup (f <$> filter P l).
Proof.
  induction l as [|a l IH]; [done|]. csimpl. intros Hnd. inv Hnd. rewrite filter_cons.
  case_decide; csimpl; [constructor|]; auto.
  rename select (f a ∉ _) into Hn. intros (b & Hb & Hin)%list_elem_of_fmap. apply Hn.
  apply list_elem_of_filter in Hin as [_ Hin]. rewrite Hb. by apply list_elem_of_fmap_2.
Qed.

Lemma NoDup_fmap_snoc {A K} (f : A → K) (l : list A) (a : A) :
  NoDup (f <$> l) → f a ∉ f <$> l → NoDup (f <$> (l ++ [a])).
Proof.
  intros Hnd Hn. rewrite fmap_app. apply NoDup_app. split_and!; [done| |apply NoDup_singleton].
  intros x Hx Hx'. apply list_elem_of_singleton in Hx' as ->. done.
Qed.

Lemma filter_ext_elem {A} (P Q : A → Prop) `{∀ x, Decision (P x), ∀ x, Decision (Q x)} (l : list A) :
  (∀ x, x ∈ l → P x ↔ Q x) → filter P l = filter Q l.
Proof.
  induction l as [|a l IH]; intros Hl; [done|]. rewrite !filter_cons, IH by set_solver.
  destruct (Hl a ltac:(left)). destruct (decide (P a)), (decide (Q a)); naive_solver.
Qed.

Lemma filter_filter_elem {A} (P Q R : A → Prop) `{∀ x, Decision (P x), ∀ x, Decision (Q x), ∀ x, Decision (R x)} (l : list A) :
  (∀ x, x ∈ l → P x ∧ Q x ↔ R x) → filter P (filter Q l) = filter R l.
Proof.
  induction l as [|a l IH]; intros Hl; [done|]. rewrite !(filter_cons _ a).
  destruct (Hl a ltac:(left)). rewrite <- IH by set_solver.
  destruct (decide (Q a)); [rewrite filter_cons|]; destruct (decide (R a)); try destruct (decide (P a)); naive_solver.
Qed.

Lemma sublist_count {A} (P : A → Prop) `{∀ x, Decision (P x)} (l k : list A) :
  l `sublist_of` k → (length (filter P l) ≤ length (filter P k))%nat.
Proof. induction 1 as [|x l k _ IH|x l k _ IH]; [done|..]; rewrite ?filter_cons; destruct (decide (P x)); simpl; lia. Qed.

Lemma filter_all {A} (P : A → Prop) `{∀ x, Decision (P x)} (l : list A) : (∀ x, x ∈ l → P x) → filter P l = l.
Proof.
  induction l as [|a l IH]; intros Hp; [done|]. rewrite filter_cons_True by (apply Hp; by left).
  f_equal. apply IH. intros x Hx. apply Hp. by right.
Qed.

Lemma filter_none {A} (P : A → Prop) `{∀ x, Decision (P x)} (l : list A) : (∀ x, x ∈ l → ¬ P x) → filter P l = [].
Proof. induction l as [|a l IH]; intros Hl; [done|]. rewrite filter_cons_False by set_solver. apply IH. set_solver. Qed.

Lemma elem_of_go_range `{GoRange} {V} (m : gmap string V) k v :
  (k, v) ∈ go_range m ↔ m !! k = Some v.
Proof. rewrite go_range_perm. apply elem_of_map_to_list. Qed.

Lemma go_range_NoDup `{GoRange} {V} (m : gmap string V) : NoDup (go_range m).*1.
Proof. rewrite go_range_perm. apply NoDup_fst_map_to_list. Qed.

#[export] Hint Resolve go_range_NoDup : stile.
#[export] Hint Rewrite @elem_of_go_range : stile.
