(* ===== verification/GoLib.v ===== *)
(** * The parts of the Go standard library that the gateway's logic uses

    Strings are byte strings ([String.string], one [ascii] per byte), as in Go.
    - [strings]: prefixes, [SplitN], [Count], ASCII case folding.
    - [strconv]: decimal integers and [ParseFloat].
    - [float64]: IEEE 754 binary64 as [SpecFloat] computes it (exact, no
      axioms), with [math.Ceil] and the conversion to [int].
    - [time]: [ParseDuration] (durations are nanoseconds in [Z]).
    - [encoding/base64] (raw URL alphabet) and [encoding/hex], with the round
      trips the token formats rely on. *)

From Stdlib Require Import SpecFloat DecimalString DecimalZ DecimalNat DecimalN.
From S2P Require Import Prelude.

(** ** strings *)

Module GoStr.

(** [strings.CutPrefix(s, p)]: the rest of [s] after [p], or [None]. *)
Fixpoint CutPrefix (p s : string) : option string :=
  match p, s with
  | EmptyString, _ => Some s
  | String a p, String b s => if decide (a = b) then CutPrefix p s else None
  | _, _ => None
  end.

Definition HasPrefix (s p : string) : bool :=
  match CutPrefix p s with Some _ => true | None => false end.

Definition TrimPrefix (s p : string) : string :=
  match CutPrefix p s with Some r => r | None => s end.

(** [strings.Cut] on a one-byte separator: before and after its first use. *)
Fixpoint Cut (sep : ascii) (s : string) : option (string * string) :=
  match s with
  | EmptyString => None
  | String c s =>
      if decide (c = sep) then Some ("", s)
      else match Cut sep s with
           | Some (a, b) => Some (String c a, b)
           | None => None
           end
  end.

(** [strings.SplitN(s, sep, n)] for a one-byte separator and [n >= 1]. *)
Fixpoint SplitN (s : string) (sep : ascii) (n : nat) : list string :=
  match n with
  | O => []
  | S O => [s]
  | S n => match Cut sep s with
           | Some (a, b) => a :: SplitN b sep n
           | None => [s]
           end
  end.

(** [strings.Count] of a one-byte string. *)
Fixpoint Count (s : string) (c : ascii) : nat :=
  match s with
  | EmptyString => O
  | String d s => (if decide (c = d) then 1 else 0) + Count s c
  end.

(** [strings.Contains]. *)
Fixpoint Contains (s sub : string) : bool :=
  HasPrefix s sub || match s with EmptyString => false | String _ s => Contains s sub end.

Definition in_range (lo hi c : ascii) : bool :=
  (N_of_ascii lo <=? N_of_ascii c)%N && (N_of_ascii c <=? N_of_ascii hi)%N.

Definition is_digit (c : ascii) : bool := in_range "0" "9" c.
Definition is_lower (c : ascii) : bool := in_range "a" "z" c.
Definition is_upper (c : ascii) : bool := in_range "A" "Z" c.

Definition to_upper (c : ascii) : ascii :=
  if is_lower c then ascii_of_N (N_of_ascii c - 32) else c.
Definition to_lower (c : ascii) : ascii :=
  if is_upper c then ascii_of_N (N_of_ascii c + 32) else c.

(** Case folding as [strings.EqualFold] and [encoding/json] use it against an
    ASCII name: ASCII letters, and the two runes outside ASCII whose fold
    orbit meets ASCII (long s U+017F, Kelvin sign U+212A). *)
Fixpoint fold (s : string) : string :=
  match s with
  | EmptyString => EmptyString
  | String c s1 =>
      match s1 with
      | String d s2 =>
          if decide (c = "197"%char ∧ d = "191"%char) then String "S" (fold s2)
          else match s2 with
               | String e s3 =>
                   if decide (c = "226"%char ∧ d = "132"%char ∧ e = "170"%char)
                   then String "K" (fold s3)
                   else String (to_upper c) (fold s1)
               | EmptyString => String (to_upper c) (fold s1)
               end
      | EmptyString => String (to_upper c) EmptyString
      end
  end.

Definition EqualFold (s t : string) : bool := bool_decide (fold s = fold t).

(** All bytes of a string satisfy [p]. *)
Fixpoint all_bytes (p : ascii → bool) (s : string) : bool :=
  match s with EmptyString => true | String c s => p c && all_bytes p s end.

Definition no_byte (c : ascii) : string → bool := all_bytes (λ d, negb (bool_decide (d = c))).

(** [strings.Join]. *)
Fixpoint Join (l : list string) (sep : string) : string :=
  match l with
  | [] => ""
  | [s] => s
  | s :: l => s +:+ sep +:+ Join l sep
  end.

Lemma CutPrefix_app p s : CutPrefix p (p +:+ s) = Some s.
Proof. induction p as [|a p IH]; str_simpl; [done|]. by rewrite decide_True. Qed.

Lemma CutPrefix_Some p s r : CutPrefix p s = Some r ↔ s = p +:+ r.
Proof.
  split.
  - revert s. induction p as [|a p IH]; intros [|b s] H; simpl in *; simplify_eq; try done.
    case_decide; [|done]. subst. rewrite str_app_cons. f_equal. by apply IH.
  - intros ->. apply CutPrefix_app.
Qed.

Lemma HasPrefix_app p s : HasPrefix (p +:+ s) p = true.
Proof. unfold HasPrefix. by rewrite CutPrefix_app. Qed.

Lemma HasPrefix_true s p : HasPrefix s p = true ↔ ∃ r, s = p +:+ r.
Proof.
  unfold HasPrefix. destruct (CutPrefix p s) as [r|] eqn:E; split; try done.
  - intros _. exists r. by apply CutPrefix_Some.
  - intros [r Hr]. by apply CutPrefix_Some in Hr; rewrite E in Hr.
Qed.

Lemma TrimPrefix_app p s : TrimPrefix (p +:+ s) p = s.
Proof. unfold TrimPrefix. by rewrite CutPrefix_app. Qed.

Lemma no_byte_cons c d s : no_byte c (String d s) = true ↔ d ≠ c ∧ no_byte c s = true.
Proof.
  unfold no_byte; simpl. rewrite andb_true_iff, negb_true_iff, bool_decide_eq_false. done.
Qed.

Lemma Cut_no_byte c s : no_byte c s = true → Cut c s = None.
Proof.
  induction s as [|d s IH]; [done|]. intros [Hd Hs]%no_byte_cons. simpl.
  rewrite decide_False by done. by rewrite IH.
Qed.

(** The first separator splits at the end of a separator-free prefix. *)
Lemma Cut_app c s t : no_byte c s = true → Cut c (s +:+ String c t) = Some (s, t).
Proof.
  induction s as [|d s IH]; str_simpl; [intros _; by rewrite decide_True|].
  intros [Hd Hs]%no_byte_cons. rewrite decide_False by done. by rewrite IH.
Qed.

Lemma Cut_Some c s a b : Cut c s = Some (a, b) → s = a +:+ String c b ∧ no_byte c a = true.
Proof.
  revert a b. induction s as [|d s IH]; intros a b; simpl; [done|].
  case_decide as Hd; [intros; simplify_eq; done|].
  destruct (Cut c s) as [[a' b']|] eqn:E; [|done]. intros; simplify_eq.
  destruct (IH a' b eq_refl) as [-> ?]. split; [done|]. by apply no_byte_cons.
Qed.

Lemma all_bytes_app p s t : all_bytes p (s +:+ t) = all_bytes p s && all_bytes p t.
Proof. induction s as [|c s IH]; str_simpl; [done|]. by rewrite IH, andb_assoc. Qed.

Lemma all_bytes_impl (p q : ascii → bool) s :
  (∀ c, p c = true → q c = true) → all_bytes p s = true → all_bytes q s = true.
Proof.
  intros Hpq. induction s as [|c s IH]; simpl; [done|].
  rewrite !andb_true_iff. naive_solver.
Qed.

End GoStr.

(** ** strconv, integers *)

Module Strconv.
Import GoStr.

Definition max_int64 : Z := 9223372036854775807.
Definition min_int64 : Z := -9223372036854775808.
Definition in_int64 (z : Z) : bool := (min_int64 <=? z) && (z <=? max_int64).

(** The value that a 64-bit operation with mathematical result [z] leaves. *)
Definition wrap64 (z : Z) : Z := (z - min_int64) mod 2 ^ 64 + min_int64.

(** [strconv.FormatInt(z, 10)] and [strconv.Itoa]. *)
Definition FormatInt (z : Z) : string := NilZero.string_of_int (Z.to_int z).
Definition Itoa : Z → string := FormatInt.

(** [strconv.ParseInt(s, 10, 64)]: an optional sign, at least one digit, and
    the value in range. *)
Definition ParseInt (s : string) : option Z :=
  let body '(neg, s) :=
    match s with
    | EmptyString => None
    | _ =>
        match NilEmpty.uint_of_string s with
        | Some d =>
            let z := if neg : bool then - Z.of_uint d else Z.of_uint d in
            if in_int64 z then Some z else None
        | None => None
        end
    end in
  match s with
  | String "+" s => body (false, s)
  | String "-" s => body (true, s)
  | _ => body (false, s)
  end.

Lemma string_of_uint_digits d : all_bytes is_digit (NilEmpty.string_of_uint d) = true.
Proof. by induction d. Qed.

Lemma uint_of_string_of_uint d : NilEmpty.uint_of_string (NilEmpty.string_of_uint d) = Some d.
Proof. apply NilEmpty.usu. Qed.

Lemma nz_string_of_uint d : d ≠ Decimal.Nil → NilZero.string_of_uint d = NilEmpty.string_of_uint d.
Proof. by destruct d. Qed.

Lemma Zto_int_of_uint z :
  ∃ d, d ≠ Decimal.Nil ∧ Z.of_uint d = Z.abs z ∧
    Z.to_int z = if z <? 0 then Decimal.Neg d else Decimal.Pos d.
Proof.
  destruct z as [|p|p]; simpl.
  - exists (Decimal.D0 Decimal.Nil). done.
  - exists (Pos.to_uint p). split; [apply DecimalPos.Unsigned.to_uint_nonnil|].
    split; [|done]. unfold Z.of_uint. by rewrite DecimalPos.Unsigned.of_to.
  - exists (Pos.to_uint p). split; [apply DecimalPos.Unsigned.to_uint_nonnil|].
    split; [|done]. unfold Z.of_uint. by rewrite DecimalPos.Unsigned.of_to.
Qed.

Lemma wrap64_id z : in_int64 z = true → wrap64 z = z.
Proof. unfold in_int64, wrap64, min_int64, max_int64. intros Hz. rewrite Z.mod_small; lia. Qed.

Lemma ParseInt_in_int64 s z : ParseInt s = Some z → in_int64 z = true.
Proof. unfold ParseInt. repeat case_match; naive_solver. Qed.

(** Printing an [int64] and parsing it back gives the number. *)
Lemma ParseInt_FormatInt z : in_int64 z = true → ParseInt (FormatInt z) = Some z.
Proof.
  intros Hz. unfold FormatInt.
  destruct (Zto_int_of_uint z) as (d & Hnil & Habs & ->).
  destruct (Z.ltb_spec z 0) as [Hneg|Hpos]; simpl; rewrite (nz_string_of_uint d Hnil).
  - rewrite uint_of_string_of_uint.
    replace (- Z.of_uint d) with z by lia. rewrite Hz.
    by destruct d.
  - assert (ParseInt (NilEmpty.string_of_uint d) =
      match NilEmpty.uint_of_string (NilEmpty.string_of_uint d) with
      | Some d => if in_int64 (Z.of_uint d) then Some (Z.of_uint d) else None
      | None => None end) as -> by (by destruct d).
    rewrite uint_of_string_of_uint.
    replace (Z.of_uint d) with z by lia. by rewrite Hz.
Qed.

(** A printed number has only digits and possibly a leading minus sign. *)
Lemma FormatInt_bytes z :
  all_bytes (λ c, is_digit c || bool_decide (c = "-"%char)) (FormatInt z) = true.
Proof.
  unfold FormatInt. destruct (Zto_int_of_uint z) as (d & Hnil & _ & ->).
  assert (Hd : all_bytes (λ c, is_digit c || bool_decide (c = "-"%char))
    (NilEmpty.string_of_uint d) = true).
  { apply (all_bytes_impl is_digit); [|apply string_of_uint_digits].
    intros c ->. done. }
  destruct (z <? 0); simpl; by rewrite (nz_string_of_uint d Hnil), Hd.
Qed.

Lemma FormatInt_no_byte z c :
  is_digit c = false → c ≠ "-"%char → no_byte c (FormatInt z) = true.
Proof.
  intros Hd Hm. eapply all_bytes_impl; [|apply FormatInt_bytes].
  intros d. rewrite orb_true_iff, bool_decide_eq_true, negb_true_iff, bool_decide_eq_false.
  intros [H|H] ->; congruence.
Qed.

End Strconv.

(** ** float64 *)

Module Float64.
Import GoStr.

Definition prec : Z := 53.
Definition emax : Z := 1024.

(** [float64(z)] for an integer [z]: rounded to nearest, ties to even. *)
Definition of_Z (z : Z) : spec_float := binary_normalize prec emax z 0 false.

Definition div (x y : spec_float) : spec_float := SFdiv prec emax x y.
Definition mul (x y : spec_float) : spec_float := SFmul prec emax x y.
Definition add (x y : spec_float) : spec_float := SFadd prec emax x y.
Definition ltb (x y : spec_float) : bool := SFltb x y.
Definition leb (x y : spec_float) : bool := SFleb x y.
Definition eqb (x y : spec_float) : bool := SFeqb x y.

Definition zero : spec_float := S754_zero false.
Definition one : spec_float := of_Z 1.
(** [math.MaxFloat64], the value of [rate.Inf]. *)
Definition max_float : spec_float := S754_finite false 9007199254740991 971.

(** The integer part, rounded towards zero, of a finite number. *)
Definition trunc (x : spec_float) : option Z :=
  match x with
  | S754_zero _ => Some 0
  | S754_finite s m e =>
      let a := if 0 <=? e then Z.pos m * 2 ^ e else Z.pos m / 2 ^ (- e) in
      Some (if s then - a else a)
  | _ => None
  end.

(** [math.Ceil]. *)
Definition ceil (x : spec_float) : spec_float :=
  match x with
  | S754_finite s m e =>
      if 0 <=? e then x
      else if s then
        match Z.pos m / 2 ^ (- e) with
        | 0 => S754_zero true
        | a => of_Z (- a)
        end
      else of_Z (- ((- Z.pos m) / 2 ^ (- e)))
  | _ => x
  end.

(** The conversion [int(x)] truncates; outside the range of [int] (and for
    infinities and NaN) the language leaves the result to the implementation. *)
Class GoPlatform := {
  int_of_float_oob : spec_float → Z;
  int_of_float_oob_range : ∀ x, Strconv.in_int64 (int_of_float_oob x) = true;
}.

Definition to_int `{GoPlatform} (x : spec_float) : Z :=
  match trunc x with
  | Some z => if Strconv.in_int64 z then z else int_of_float_oob x
  | None => int_of_float_oob x
  end.

(** [amd64]: the conversion instruction yields the smallest integer. *)
#[refine] Definition amd64 : GoPlatform :=
  {| int_of_float_oob := λ _, Strconv.min_int64 |}.
Proof. done. Defined.

(** *** strconv.ParseFloat *)

(** A scanned mantissa: digits read so far as an integer, whether any digit
    was read, the number of digits after the point, and the rest. *)
Record mantissa := Mantissa { mant : Z; saw_digits : bool; frac_digits : Z; rest : string }.

Definition digit_value (base : Z) (c : ascii) : option Z :=
  if is_digit c then Some (Z.of_N (N_of_ascii c) - 48)
  else if (base =? 16) && in_range "a" "f" (to_lower c)
       then Some (Z.of_N (N_of_ascii (to_lower c)) - 87)
       else None.

Fixpoint read_mantissa (base : Z) (s : string) (acc : Z) (seen sawdot : bool) (fr : Z) : mantissa :=
  match s with
  | EmptyString => Mantissa acc seen fr s
  | String c s' =>
      if bool_decide (c = "_"%char) then read_mantissa base s' acc seen sawdot fr
      else if bool_decide (c = "."%char) then
        if sawdot then Mantissa acc seen fr s else read_mantissa base s' acc seen true fr
      else match digit_value base c with
           | Some d => read_mantissa base s' (acc * base + d) true sawdot (if sawdot then fr + 1 else fr)
           | None => Mantissa acc seen fr s
           end
  end.

(** The digits of an exponent (the value stops growing at 10000), and the rest. *)
Fixpoint read_exponent (s : string) (e : Z) : Z * string :=
  match s with
  | String c s' =>
      if bool_decide (c = "_"%char) then read_exponent s' e
      else if is_digit c then
        read_exponent s' (if e <? 10000 then e * 10 + (Z.of_N (N_of_ascii c) - 48) else e)
      else (e, s)
  | EmptyString => (e, s)
  end.

(** Underscores stand only between digits (a base prefix counts as a digit);
    [prev] is the class of the previous byte. *)
Inductive uclass := UBegin | UDigit | UUnderscore | UOther.

Fixpoint underscores_ok (hex : bool) (prev : uclass) (s : string) : bool :=
  match s with
  | EmptyString => match prev with UUnderscore => false | _ => true end
  | String c s =>
      if is_digit c || (hex && in_range "a" "f" (to_lower c)) then underscores_ok hex UDigit s
      else if bool_decide (c = "_"%char) then
        match prev with UDigit => underscores_ok hex UUnderscore s | _ => false end
      else match prev with UUnderscore => false | _ => underscores_ok hex UOther s end
  end.

Definition underscoreOK (s : string) : bool :=
  match s with
  | String "0" (String c s') =>
      if bool_decide (to_lower c = "b"%char) || bool_decide (to_lower c = "o"%char)
         || bool_decide (to_lower c = "x"%char)
      then underscores_ok (bool_decide (to_lower c = "x"%char)) UDigit s'
      else underscores_ok false UBegin s
  | _ => underscores_ok false UBegin s
  end.

(** The float nearest to [m * 10^e] (base 10) or [m * 2^e] (base 16). *)
Definition scaled (base m e : Z) : spec_float :=
  match m with
  | Zpos p =>
      if base =? 16 then binary_normalize prec emax m e false
      else if 0 <=? e then binary_normalize prec emax (m * 10 ^ e) 0 false
      else match 10 ^ (- e) with
           | Zpos q => SFdiv prec emax (S754_finite false p 0) (S754_finite false q 0)
           | _ => zero
           end
  | _ => zero
  end.

Definition special (neg : bool) (signed : bool) (s : string) : option spec_float :=
  if bool_decide (fold s = "INF") || bool_decide (fold s = "INFINITY") then Some (S754_infinity neg)
  else if negb signed && bool_decide (fold s = "NAN") then Some S754_nan
  else None.

(** The exponent part: [None] is a syntax error. Every byte must be used. *)
Definition read_tail (base : Z) (s : string) : option Z :=
  let exp_char := if base =? 16 then "p"%char else "e"%char in
  match s with
  | EmptyString => if base =? 16 then None else Some 0
  | String c s =>
      if bool_decide (to_lower c = exp_char) then
        let '(neg, s) := match s with
          | String "+" s => (false, s) | String "-" s => (true, s) | _ => (false, s) end in
        match s with
        | String d _ =>
            if is_digit d then
              match read_exponent s 0 with
              | (e, EmptyString) => Some (if neg : bool then - e else e)
              | _ => None
              end
            else None
        | EmptyString => None
        end
      else None
  end.

(** [strconv.ParseFloat(s, 64)]; [None] is a non-nil error (syntax or range). *)
Definition ParseFloat (s : string) : option spec_float :=
  let '(neg, signed, body) := match s with
    | String "+" b => (false, true, b) | String "-" b => (true, true, b)
    | _ => (false, false, s) end in
  match special neg signed body with
  | Some f => Some f
  | None =>
      let '(base, digits) := match body with
        | String "0" (String x ((String _ _) as r)) =>
            if bool_decide (to_lower x = "x"%char) then (16, r) else (10, body)
        | _ => (10, body) end in
      let m := read_mantissa base digits 0 false false 0 in
      if saw_digits m then
        match read_tail base (rest m) with
        | Some e =>
            if no_byte "_" body || underscoreOK body then
              let f := scaled base (mant m)
                (if base =? 16 then e - 4 * frac_digits m else e - frac_digits m) in
              match f with
              | S754_infinity _ => None
              | _ => Some (if neg : bool then SFopp f else f)
              end
            else None
        | None => None
        end
      else None
  end.

Example parse_100 : ParseFloat "100" = Some (of_Z 100).
Proof. reflexivity. Qed.
Example parse_sep : ParseFloat "1_5.5e0_1" = Some (of_Z 155).
Proof. reflexivity. Qed.
Example parse_tenth : ParseFloat "0.1" = Some (S754_finite false 7205759403792794 (-56)).
Proof. reflexivity. Qed.
Example parse_hex : ParseFloat "0x1.8p1" = Some (of_Z 3).
Proof. reflexivity. Qed.
Example parse_nan : ParseFloat "nan" = Some S754_nan.
Proof. reflexivity. Qed.
Example parse_bad : ParseFloat "1x" = None ∧ ParseFloat "" = None ∧ ParseFloat "1e" = None.
Proof. done. Qed.

End Float64.

(** ** time.ParseDuration *)

Module Duration.
Import GoStr.

Definition Nanosecond : Z := 1.
Definition Millisecond : Z := 1000000.
Definition Second : Z := 1000000000.
Definition Minute : Z := 60 * Second.
Definition Hour : Z := 60 * Minute.

Definition two63 : Z := 9223372036854775808.

(** [t.Sub(u)] on times in nanoseconds: the difference, saturated. *)
Definition Sub (t u : Z) : Z := Z.max Strconv.min_int64 (Z.min Strconv.max_int64 (t - u)).

(** Leading decimal digits: value and rest; [None] on overflow. *)
Fixpoint leadingInt (s : string) (x : Z) : option (Z * string) :=
  match s with
  | String c s' =>
      if is_digit c then
        if two63 / 10 <? x then None
        else let x := x * 10 + (Z.of_N (N_of_ascii c) - 48) in
             if two63 <? x then None else leadingInt s' x
      else Some (x, s)
  | EmptyString => Some (x, s)
  end.

(** Leading digits of a fraction: value, the power of ten it is over, and the
    rest; digits that do not fit are dropped. *)
Fixpoint leadingFraction (s : string) (x scale : Z) (overflow : bool) : Z * Z * string :=
  match s with
  | String c s' =>
      if is_digit c then
        if overflow : bool then leadingFraction s' x scale true
        else if (two63 - 1) / 10 <? x then leadingFraction s' x scale true
        else let y := x * 10 + (Z.of_N (N_of_ascii c) - 48) in
             if two63 <? y then leadingFraction s' x scale true
             else leadingFraction s' y (scale * 10) false
      else (x, scale, s)
  | EmptyString => (x, scale, s)
  end.

(** The unit: bytes up to the next digit or point. *)
Fixpoint takeUnit (s : string) : string * string :=
  match s with
  | String c s' =>
      if is_digit c || bool_decide (c = "."%char) then ("", s)
      else let '(u, r) := takeUnit s' in (String c u, r)
  | EmptyString => ("", "")
  end.

Definition unitMap (u : string) : option Z :=
  if bool_decide (u = "ns") then Some 1
  else if bool_decide (u = "us") then Some 1000
  else if bool_decide (u = String "194" (String "181" "s")) then Some 1000
  else if bool_decide (u = String "206" (String "188" "s")) then Some 1000
  else if bool_decide (u = "ms") then Some Millisecond
  else if bool_decide (u = "s") then Some Second
  else if bool_decide (u = "m") then Some Minute
  else if bool_decide (u = "h") then Some Hour
  else None.

(** One [number unit] group: its value in nanoseconds, and the rest. *)
Definition parseGroup (s : string) : option (Z * string) :=
  match s with
  | EmptyString => None
  | String c _ =>
      if is_digit c || bool_decide (c = "."%char) then
        '(v, s1) ← leadingInt s 0;
        let pre := negb (bool_decide (s1 = s)) in
        let '(f, scale, s2, post) := match s1 with
          | String "." s' =>
              let '(f, scale, s2) := leadingFraction s' 0 1 false in
              (f, scale, s2, negb (bool_decide (s2 = s')))
          | _ => (0, 1, s1, false) end in
        if pre || post then
          let '(u, s3) := takeUnit s2 in
          unit ← unitMap u;
          if two63 / unit <? v then None
          else
            let v := v * unit in
            if 0 <? f then
              extra ← Float64.trunc (Float64.mul (Float64.of_Z f)
                 (Float64.div (Float64.of_Z unit) (Float64.of_Z scale)));
              if two63 <? v + extra then None else Some (v + extra, s3)
            else Some (v, s3)
        else None
      else None
  end.

Fixpoint parseGroups (fuel : nat) (s : string) (d : Z) : option Z :=
  match s, fuel with
  | EmptyString, _ => Some d
  | _, O => None
  | _, S fuel =>
      '(v, s') ← parseGroup s;
      if two63 <? d + v then None else parseGroups fuel s' (d + v)
  end.

(** Every group uses at least one byte, so the length of the input is enough
    fuel. *)
Definition ParseDuration (s : string) : option Z :=
  let '(neg, s) := match s with
    | String "-" s => (true, s) | String "+" s => (false, s) | _ => (false, s) end in
  if bool_decide (s = "0") then Some 0
  else if bool_decide (s = "") then None
  else d ← parseGroups (String.length s) s 0;
       if neg : bool then Some (- d)
       else if two63 - 1 <? d then None else Some d.

Example dur_5m : ParseDuration "5m" = Some (5 * Minute).
Proof. reflexivity. Qed.
Example dur_mixed : ParseDuration "1h15m30.918273645s" = Some 4530918273645.
Proof. reflexivity. Qed.
Example dur_neg : ParseDuration "-1.5s" = Some (- 1500000000).
Proof. reflexivity. Qed.
Example dur_bad : ParseDuration "5" = None ∧ ParseDuration "m" = None ∧ ParseDuration "1x" = None.
Proof. done. Qed.

(** [fmtFrac]: the last [prec] decimals of [v] after a point, without trailing
    zeros, and what is before them. *)
Fixpoint fmtFrac (prec : nat) (v : Z) (print : bool) (acc : string) : string * Z :=
  match prec with
  | O => (if print then String "." acc else acc, v)
  | S prec =>
      let digit := v mod 10 in
      let print := print || negb (digit =? 0) in
      fmtFrac prec (v / 10) print (if print : bool then Strconv.FormatInt digit +:+ acc else acc)
  end.

(** [Duration.String] *)
Definition String (d : Z) : string :=
  let u := Z.abs d in
  let sign := if d <? 0 then "-" else "" in
  if u =? 0 then "0s"
  else if u <? Second then
    let '(prec, unit) := if u <? 1000 then (0%nat, "ns")
                         else if u <? Millisecond then (3%nat, String.String "194" (String.String "181" "s"))
                         else (6%nat, "ms") in
    let '(frac, v) := fmtFrac prec u false "" in
    sign +:+ Strconv.FormatInt v +:+ frac +:+ unit
  else
    let '(frac, secs) := fmtFrac 9 u false "" in
    let mins := secs / 60 in
    let hours := mins / 60 in
    sign +:+ (if 0 <? hours then Strconv.FormatInt hours +:+ "h" else "")
    +:+ (if 0 <? mins then Strconv.FormatInt (mins mod 60) +:+ "m" else "")
    +:+ Strconv.FormatInt (secs mod 60) +:+ frac +:+ "s".

Example dur_string :
  String (90 * Second) = "1m30s" ∧ String (Hour + 1500 * Millisecond) = "1h0m1.5s" ∧ String (1500 * 1000) = "1.5ms"
  ∧ String (- Minute) = "-1m0s" ∧ String 0 = "0s" ∧ String 999 = "999ns".
Proof. done. Qed.

End Duration.

(** ** encoding/hex and encoding/base64 *)

Module Encoding.
Import GoStr.

(** Most significant bit first. *)
Definition byte_bits (c : ascii) : list bool :=
  match c with Ascii b0 b1 b2 b3 b4 b5 b6 b7 => [b7; b6; b5; b4; b3; b2; b1; b0] end.

Fixpoint string_bits (s : string) : list bool :=
  match s with EmptyString => [] | String c s => byte_bits c ++ string_bits s end.

(** Whole bytes of a bit list; a trailing partial byte is dropped. *)
Fixpoint bits_string (l : list bool) : string :=
  match l with
  | b7 :: b6 :: b5 :: b4 :: b3 :: b2 :: b1 :: b0 :: l =>
      String (Ascii b0 b1 b2 b3 b4 b5 b6 b7) (bits_string l)
  | _ => ""
  end.

Definition b64_alphabet : string :=
  "ABCDEFGHIJKLMNOPQRSTUVWXYZabcdefghijklmnopqrstuvwxyz0123456789-_".

Definition bits_nat (l : list bool) : nat := fold_left (λ n b, (2 * n + Nat.b2n b)%nat) l 0%nat.

Fixpoint index_of (c : ascii) (s : string) : option nat :=
  match s with
  | EmptyString => None
  | String d s => if decide (c = d) then Some 0%nat else S <$> index_of c s
  end.

Definition b64_char (l : list bool) : ascii :=
  default "A"%char (String.get (bits_nat l) b64_alphabet).

Definition nat_bits6 (n : nat) : list bool :=
  (λ i, Nat.testbit n i) <$> [5; 4; 3; 2; 1; 0]%nat.

(** Six bits per character, the last group padded with zero bits. *)
Fixpoint encode_bits (l : list bool) : string :=
  match l with
  | [] => ""
  | [a] => String (b64_char [a; false; false; false; false; false]) ""
  | [a; b] => String (b64_char [a; b; false; false; false; false]) ""
  | [a; b; c] => String (b64_char [a; b; c; false; false; false]) ""
  | [a; b; c; d] => String (b64_char [a; b; c; d; false; false]) ""
  | [a; b; c; d; e] => String (b64_char [a; b; c; d; e; false]) ""
  | a :: b :: c :: d :: e :: f :: l => String (b64_char [a; b; c; d; e; f]) (encode_bits l)
  end.

(** [base64.RawURLEncoding.EncodeToString]. *)
Definition EncodeToString (s : string) : string := encode_bits (string_bits s).

(** The decoder skips carriage returns and newlines. *)
Fixpoint decode_bits (s : string) : option (list bool) :=
  match s with
  | EmptyString => Some []
  | String c s =>
      if bool_decide (c = "010"%char) || bool_decide (c = "013"%char) then decode_bits s
      else n ← index_of c b64_alphabet; l ← decode_bits s; Some (nat_bits6 n ++ l)
  end.

(** [base64.RawURLEncoding.DecodeString]: a final group of one character
    (six bits, not a whole byte) is an error. *)
Definition DecodeString (s : string) : option string :=
  l ← decode_bits s;
  if bool_decide (length l `mod` 24 = 6)%nat then None else Some (bits_string l).

Lemma b64_char_bits a b c d e f :
  index_of (b64_char [a; b; c; d; e; f]) b64_alphabet = Some (bits_nat [a; b; c; d; e; f]) ∧
  nat_bits6 (bits_nat [a; b; c; d; e; f]) = [a; b; c; d; e; f] ∧
  b64_char [a; b; c; d; e; f] ≠ "010"%char ∧ b64_char [a; b; c; d; e; f] ≠ "013"%char ∧
  b64_char [a; b; c; d; e; f] ≠ "|"%char ∧ b64_char [a; b; c; d; e; f] ≠ "."%char.
Proof. by destruct a, b, c, d, e, f. Qed.

Lemma decode_char a b c d e f s :
  decode_bits (String (b64_char [a; b; c; d; e; f]) s) =
    (app [a; b; c; d; e; f]) <$> decode_bits s.
Proof.
  destruct (b64_char_bits a b c d e f) as (Hi & Hn & H10 & H13 & _).
  cbn [decode_bits]. rewrite !bool_decide_eq_false_2 by done. cbn [orb].
  rewrite Hi; cbn [mbind option_bind]. rewrite Hn. by destruct (decode_bits s).
Qed.

(** Decoding an encoding gives the bits back, with the padding of the last group. *)
Lemma decode_encode_bits l :
  ∃ pad, decode_bits (encode_bits l) = Some (l ++ replicate pad false) ∧
    (pad < 6)%nat ∧ ((length l + pad) `mod` 6 = 0)%nat.
Proof.
  induction l as [l IH] using (induction_ltof1 _ (@length bool)); unfold ltof in IH.
  destruct l as [|a [|b [|c [|d [|e [|f l]]]]]]; cbn [encode_bits].
  - exists 0%nat. split; [by rewrite ?decode_char|split; [lia|done]].
  - exists 5%nat. split; [by rewrite ?decode_char|split; [lia|done]].
  - exists 4%nat. split; [by rewrite ?decode_char|split; [lia|done]].
  - exists 3%nat. split; [by rewrite ?decode_char|split; [lia|done]].
  - exists 2%nat. split; [by rewrite ?decode_char|split; [lia|done]].
  - exists 1%nat. split; [by rewrite ?decode_char|split; [lia|done]].
  - destruct (IH l) as (pad & Hd & Hp & Hm); [simpl; lia|].
    exists pad. rewrite decode_char, Hd. split; [done|split; [done|]].
    simpl length. replace (S (S (S (S (S (S (length l)))))) + pad)%nat
      with (length l + pad + 1 * 6)%nat by lia.
    by rewrite Nat.Div0.mod_add.
Qed.

Lemma length_string_bits s : length (string_bits s) = (8 * String.length s)%nat.
Proof.
  induction s as [|c s IH]; [done|]. simpl. rewrite length_app, IH. destruct c; simpl; lia.
Qed.

Lemma bits_string_bits s pad :
  (pad < 8)%nat → bits_string (string_bits s ++ replicate pad false) = s.
Proof.
  intros Hp. induction s as [|c s IH].
  - do 8 (destruct pad as [|pad]; [done|]). lia.
  - simpl. destruct c; simpl. by rewrite IH.
Qed.

(** The encoder's output decodes to its input. *)
Lemma Decode_Encode s : DecodeString (EncodeToString s) = Some s.
Proof.
  unfold DecodeString, EncodeToString.
  destruct (decode_encode_bits (string_bits s)) as (pad & -> & Hp & Hm). cbn [mbind option_bind].
  rewrite length_string_bits in Hm.
  rewrite bool_decide_eq_false_2.
  - rewrite bits_string_bits by lia. done.
  - rewrite length_app, length_replicate, length_string_bits.
    pose proof (Nat.div_mod_eq (8 * String.length s + pad) 24).
    pose proof (Nat.div_mod_eq (8 * String.length s + pad) 6). lia.
Qed.

(** Neither separator of the token formats occurs in an encoding. *)
Lemma Encode_no_sep s : no_byte "|" (EncodeToString s) = true ∧ no_byte "." (EncodeToString s) = true.
Proof.
  unfold EncodeToString. generalize (string_bits s). clear s. intros l.
  induction l as [l IH] using (induction_ltof1 _ (@length bool)); unfold ltof in IH.
  destruct l as [|a [|b [|c [|d [|e [|f l]]]]]]; cbn [encode_bits]; [done|..];
    rewrite !no_byte_cons;
    match goal with |- context [b64_char [?a; ?b; ?c; ?d; ?e; ?f]] =>
      destruct (b64_char_bits a b c d e f) as (_ & _ & _ & _ & ? & ?) end; [done..|].
  destruct (IH l) as [-> ->]; [simpl; lia|done].
Qed.

(** *** encoding/hex *)

Definition hex_alphabet : string := "0123456789abcdef".

Definition hex_char (l : list bool) : ascii := default "0"%char (String.get (bits_nat l) hex_alphabet).

Fixpoint hex_EncodeToString (s : string) : string :=
  match s with
  | EmptyString => ""
  | String c s =>
      match c with Ascii b0 b1 b2 b3 b4 b5 b6 b7 =>
        String (hex_char [b7; b6; b5; b4]) (String (hex_char [b3; b2; b1; b0]) (hex_EncodeToString s))
      end
  end.

Definition nat_bits4 (n : nat) : list bool := (λ i, Nat.testbit n i) <$> [3; 2; 1; 0]%nat.

(** [hex.DecodeString]: an even number of hex digits of either case. *)
Fixpoint hex_DecodeString (s : string) : option string :=
  match s with
  | EmptyString => Some ""
  | String c (String d s) =>
      n ← index_of (to_lower c) hex_alphabet;
      m ← index_of (to_lower d) hex_alphabet;
      r ← hex_DecodeString s;
      Some (bits_string (nat_bits4 n ++ nat_bits4 m) +:+ r)
  | String _ EmptyString => None
  end.

Lemma hex_char_bits a b c d :
  index_of (to_lower (hex_char [a; b; c; d])) hex_alphabet = Some (bits_nat [a; b; c; d]) ∧
  nat_bits4 (bits_nat [a; b; c; d]) = [a; b; c; d] ∧ hex_char [a; b; c; d] ≠ "."%char.
Proof. by destruct a, b, c, d. Qed.

Lemma hex_Decode_Encode s : hex_DecodeString (hex_EncodeToString s) = Some s.
Proof.
  induction s as [|[b0 b1 b2 b3 b4 b5 b6 b7] s IH]; [done|].
  cbn [hex_EncodeToString hex_DecodeString].
  destruct (hex_char_bits b7 b6 b5 b4) as (-> & H1 & _).
  destruct (hex_char_bits b3 b2 b1 b0) as (-> & H2 & _).
  rewrite IH. cbn [mbind option_bind]. by rewrite H1, H2.
Qed.

End Encoding.
