(* ===== verification/Json.v ===== *)
(** * JSON documents and their decoding into Go values

    A [json] value is a parsed document; object members keep the document
    order and duplicates. Numbers keep their literal text, as
    [json.Unmarshal] works on it. A [json.RawMessage] is a [json] value.
    - [parse] reads bytes the way [encoding/json] does (grammar, escapes,
      replacement of invalid UTF-8, nesting limit).
    - [as_*] are the conversions into Go types that the gateway uses, with the
      treatment of [null] (which leaves the target unchanged) and of the
      case-insensitive field names of structs. *)

From stdpp Require Import sorting.
From S2P Require Import Prelude GoLib.
Import GoStr.

Inductive json :=
| JNull
| JBool (b : bool)
| JNum (literal : string)
| JStr (s : string)
| JArr (l : list json)
| JObj (l : list (string * json)).

(** ** Reading bytes *)

Definition is_ws (c : ascii) : bool :=
  bool_decide (c = " "%char) || bool_decide (c = "009"%char)
  || bool_decide (c = "010"%char) || bool_decide (c = "013"%char).

Fixpoint skip_ws (s : string) : string :=
  match s with
  | String c s' => if is_ws c then skip_ws s' else s
  | EmptyString => s
  end.

Definition hex_value (c : ascii) : option N :=
  N.of_nat <$> Encoding.index_of (to_lower c) Encoding.hex_alphabet.

Definition hex4 (a b c d : ascii) : option N :=
  a ← hex_value a; b ← hex_value b; c ← hex_value c; d ← hex_value d;
  Some (((a * 16 + b) * 16 + c) * 16 + d)%N.

Definition chr (n : N) : ascii := ascii_of_N n.

(** The UTF-8 bytes of a code point. *)
Definition utf8 (n : N) : string :=
  (if n <? 128 then String (chr n) ""
   else if n <? 2048 then String (chr (192 + n / 64)) (String (chr (128 + n mod 64)) "")
   else if n <? 65536 then
     String (chr (224 + n / 4096)) (String (chr (128 + n / 64 mod 64)) (String (chr (128 + n mod 64)) ""))
   else String (chr (240 + n / 262144)) (String (chr (128 + n / 4096 mod 64))
          (String (chr (128 + n / 64 mod 64)) (String (chr (128 + n mod 64)) ""))))%N.

Definition replacement : string := utf8 65533.

Definition is_high (n : N) : bool := ((55296 <=? n) && (n <? 56320))%N.
Definition is_low (n : N) : bool := ((56320 <=? n) && (n <? 57344))%N.

Definition between (lo hi : N) (c : ascii) : bool :=
  ((lo <=? N_of_ascii c) && (N_of_ascii c <=? hi))%N.
Definition cont : ascii → bool := between 128 191.

Fixpoint str_drop (n : nat) (s : string) : string :=
  match n, s with
  | S n, String _ s => str_drop n s
  | _, _ => s
  end.

(** The length in bytes of the well-formed UTF-8 sequence that starts a
    string, or [None]. *)
Definition utf8_len (s : string) : option nat :=
  match s with
  | EmptyString => None
  | String a s1 =>
      if between 0 127 a then Some 1%nat else
      match s1 with
      | EmptyString => None
      | String b s2 =>
          if between 194 223 a then if cont b then Some 2%nat else None else
          match s2 with
          | EmptyString => None
          | String c s3 =>
              if (bool_decide (N_of_ascii a = 224%N) && between 160 191 b && cont c)
                 || (bool_decide (N_of_ascii a = 237%N) && between 128 159 b && cont c)
                 || ((between 225 236 a || between 238 239 a) && cont b && cont c)
              then Some 3%nat else
              match s3 with
              | EmptyString => None
              | String d _ =>
                  if ((bool_decide (N_of_ascii a = 240%N) && between 144 191 b)
                      || (between 241 243 a && cont b)
                      || (bool_decide (N_of_ascii a = 244%N) && between 128 143 b))
                     && cont c && cont d
                  then Some 4%nat else None
              end
          end
      end
  end.

(** [getu4] of [encoding/json]: a [\uXXXX] escape at the start of a string. *)
Definition getu4 (s : string) : option (N * string) :=
  match s with
  | String x (String y (String a (String b (String c (String d r))))) =>
      if bool_decide (x = "\"%char) && bool_decide (y = "u"%char)
      then u ← hex4 a b c d; Some (u, r)
      else None
  | _ => None
  end.

(** The byte that a one-letter escape stands for. *)
Definition escape (c : ascii) : option ascii :=
  if bool_decide (c = "034"%char) then Some "034"%char
  else if bool_decide (c = "\"%char) then Some "\"%char
  else if bool_decide (c = "/"%char) then Some "/"%char
  else if bool_decide (c = "b"%char) then Some "008"%char
  else if bool_decide (c = "f"%char) then Some "012"%char
  else if bool_decide (c = "n"%char) then Some "010"%char
  else if bool_decide (c = "r"%char) then Some "013"%char
  else if bool_decide (c = "t"%char) then Some "009"%char
  else None.

(** The bytes of the first unit of a string literal (a code point, an escape,
    a pair of surrogate escapes), and the rest: what one round of the loop of
    [unquote] takes. *)
Definition read_unit (s : string) : option (string * string) :=
  match getu4 s, s with
  | _, EmptyString => None
  | Some (u, r), _ =>
      if is_high u then
        match getu4 r with
        | Some (v, r') =>
            if is_low v then Some (utf8 (65536 + (u - 55296) * 1024 + (v - 56320)), r')
            else Some (replacement, r)
        | None => Some (replacement, r)
        end
      else if is_low u then Some (replacement, r)
      else Some (utf8 u, r)
  | None, String c s' =>
      if bool_decide (c = "\"%char) then
        match s' with
        | String e r => v ← escape e; Some (String v "", r)
        | EmptyString => None
        end
      else if between 0 31 c then None
      else match utf8_len s with
           | Some n => Some (String.substring 0 n s, str_drop n s)
           | None => Some (replacement, s')
           end
  end.

(** The value of a string literal after its opening quote, and the rest. *)
Fixpoint read_string (fuel : nat) (s : string) : option (string * string) :=
  match fuel with
  | O => None
  | S fuel =>
      match CutPrefix (String "034" "") s with
      | Some r => Some ("", r)
      | None =>
          '(u, s) ← read_unit s;
          '(v, r) ← read_string fuel s;
          Some (u +:+ v, r)
      end
  end.

Fixpoint take_digits (s : string) : string * string :=
  match s with
  | String c s' => if is_digit c then let '(d, r) := take_digits s' in (String c d, r) else ("", s)
  | EmptyString => ("", "")
  end.

Definition digits (s : string) : option (string * string) :=
  let '(d, r) := take_digits s in if bool_decide (d = "") then None else Some (d, r).

(** The text [p] when the string starts with it, and the rest. *)
Definition maybe (p s : string) : string * string :=
  match CutPrefix p s with Some r => (p, r) | None => ("", s) end.

(** A number literal, and the rest. *)
Definition read_number (s : string) : option (string * string) :=
  let '(sign, s) := maybe "-" s in
  '(i, s) ← match CutPrefix "0" s with Some r => Some ("0", r) | None => digits s end;
  '(f, s) ← match CutPrefix "." s with
    | Some r => '(d, r) ← digits r; Some ("." +:+ d, r)
    | None => Some ("", s)
    end;
  '(e, s) ← match s with
    | String c s' =>
        if bool_decide (to_lower c = "e"%char) then
          let '(plus, r) := maybe "+" s' in
          let '(minus, r) := if bool_decide (plus = "") then maybe "-" r else ("", r) in
          '(d, r) ← digits r;
          Some (String c (plus +:+ minus +:+ d), r)
        else Some ("", s)
    | EmptyString => Some ("", s)
    end;
  Some (sign +:+ i +:+ f +:+ e, s).

Definition maxNestingDepth : N := 10000.

(** [expect c s]: the rest of [s] after white space and the byte [c]. *)
Definition expect (c : ascii) (s : string) : option string :=
  match skip_ws s with
  | String d r => if bool_decide (d = c) then Some r else None
  | EmptyString => None
  end.

(** One value with its leading white space, and the rest. [depth] counts the
    open arrays and objects. *)
Fixpoint parse_value (fuel : nat) (depth : N) (s : string) : option (json * string) :=
  match fuel, skip_ws s with
  | O, _ | _, EmptyString => None
  | S fuel, (String c s') as s =>
      if bool_decide (c = "034"%char) then
        '(v, r) ← read_string (S (String.length s')) s'; Some (JStr v, r)
      else if bool_decide (c = "["%char) then
        if (maxNestingDepth <? depth + 1)%N then None else
        match expect "]" s' with
        | Some r => Some (JArr [], r)
        | None => '(l, r) ← parse_items fuel (depth + 1) s'; Some (JArr l, r)
        end
      else if bool_decide (c = "{"%char) then
        if (maxNestingDepth <? depth + 1)%N then None else
        match expect "}" s' with
        | Some r => Some (JObj [], r)
        | None => '(l, r) ← parse_members fuel (depth + 1) s'; Some (JObj l, r)
        end
      else
        match CutPrefix "true" s, CutPrefix "false" s, CutPrefix "null" s with
        | Some r, _, _ => Some (JBool true, r)
        | _, Some r, _ => Some (JBool false, r)
        | _, _, Some r => Some (JNull, r)
        | _, _, _ => '(n, r) ← read_number s; Some (JNum n, r)
        end
  end
with parse_items (fuel : nat) (depth : N) (s : string) : option (list json * string) :=
  match fuel with
  | O => None
  | S fuel =>
      '(v, r) ← parse_value fuel depth s;
      match expect "," r, expect "]" r with
      | Some r, _ => '(l, r) ← parse_items fuel depth r; Some (v :: l, r)
      | _, Some r => Some ([v], r)
      | _, _ => None
      end
  end
with parse_members (fuel : nat) (depth : N) (s : string) : option (list (string * json) * string) :=
  match fuel with
  | O => None
  | S fuel =>
      s ← expect "034" s;
      '(k, r) ← read_string (S (String.length s)) s;
      r ← expect ":" r;
      '(v, r) ← parse_value fuel depth r;
      match expect "," r, expect "}" r with
      | Some r, _ => '(l, r) ← parse_members fuel depth r; Some ((k, v) :: l, r)
      | _, Some r => Some ([(k, v)], r)
      | _, _ => None
      end
  end.

(** A whole document: one value and nothing after it but white space. Every
    call uses at least one byte per two levels, so twice the length is enough
    fuel. *)
Definition parse (data : string) : option json :=
  '(v, r) ← parse_value (2 * String.length data + 2) 0 data;
  if bool_decide (skip_ws r = "") then Some v else None.

(** ** Conversions to Go values *)

(** [map[string]json.RawMessage]: the last member of a name wins. [null]
    leaves the map nil. *)
Definition obj_map (l : list (string * json)) : gmap string json :=
  foldl (λ m '(k, v), <[k := v]> m) ∅ l.

Definition as_map (j : json) : option (gmap string json) :=
  match j with
  | JObj l => Some (obj_map l)
  | JNull => Some ∅
  | _ => None
  end.

(** [[]json.RawMessage] *)
Definition as_array (j : json) : option (list json) :=
  match j with JArr l => Some l | JNull => Some [] | _ => None end.

(** [json.Unmarshal] into a [string] whose value was [old]. *)
Definition as_string (old : string) (j : json) : option string :=
  match j with JStr s => Some s | JNull => Some old | _ => None end.

(** [json.Unmarshal] into an [int64] whose value was [old]: the literal must
    be an integer in range ([1e3] and [1.0] are not). *)
Definition as_int (old : Z) (j : json) : option Z :=
  match j with JNum n => Strconv.ParseInt n | JNull => Some old | _ => None end.

(** The values of an object that a struct field [name] receives, in document
    order: struct fields match their names up to case folding. *)
Definition field_values (name : string) (l : list (string * json)) : list json :=
  snd <$> filter (λ kv, EqualFold kv.1 name = true) l.

(** Decoding a sequence of values, one after the other, into one target. *)
Definition decode_all {A} (f : A → json → option A) (old : A) (l : list json) : option A :=
  foldl (λ acc j, a ← acc; f a j) (Some old) l.

(** A string field of a struct that is decoded from [j]. *)
Definition struct_string (name : string) (j : json) : option string :=
  match j with
  | JObj l => decode_all as_string "" (field_values name l)
  | JNull => Some ""
  | _ => None
  end.

(** [json.Marshal] of a map: the keys are sorted. *)
Definition key_le (a b : string * json) : Prop := String.leb a.1 b.1 = true.
#[global] Instance key_le_dec a b : Decision (key_le a b) := decide (String.leb a.1 b.1 = true).

Definition marshal_map (m : gmap string json) : json := JObj (merge_sort key_le (map_to_list m)).

(** ** Lemmas *)

Lemma obj_map_snoc l k v : obj_map (l ++ [(k, v)]) = <[k := v]> (obj_map l).
Proof. unfold obj_map. by rewrite foldl_app. Qed.

Lemma skip_ws_head s c r : skip_ws s = String c r → is_ws c = false.
Proof.
  induction s as [|d s IH]; simpl; [done|]. destruct (is_ws d) eqn:E; [done|]. by intros [= -> _].
Qed.

(** ** Every reader consumes what it reads

    Each reader leaves a strictly shorter rest. The parser therefore gives the
    same answer at every fuel above its bound, in particular at the fuel that
    [parse] uses: it never fails for lack of fuel. *)

#[local] Notation len := String.length.

Lemma str_drop_len n s : (len (str_drop n s) = len s - n)%nat.
Proof. revert s. induction n as [|n IH]; intros [|c s]; simpl; auto. Qed.

Lemma CutPrefix_len p s r : CutPrefix p s = Some r → (len s = len p + len r)%nat.
Proof.
  intros ->%CutPrefix_Some. induction p as [|c p IH]; [done|]. rewrite str_app_cons. simpl. lia.
Qed.

Lemma skip_ws_len s : (len (skip_ws s) ≤ len s)%nat.
Proof. induction s as [|c s IH]; simpl; [done|]. destruct (is_ws c); simpl; lia. Qed.

Lemma expect_len c s r : expect c s = Some r → (len r < len s)%nat.
Proof.
  unfold expect. pose proof (skip_ws_len s). destruct (skip_ws s); [done|]. simpl in *.
  case_bool_decide; intros; simplify_eq. lia.
Qed.

Lemma getu4_len s u r : getu4 s = Some (u, r) → (len r < len s)%nat.
Proof.
  intros H. do 6 (destruct s as [|? s]; [done|]). simpl in H.
  destruct (_ && _); [|done]. destruct (hex4 _ _ _ _); simplify_eq/=. lia.
Qed.

Lemma utf8_len_pos s n : utf8_len s = Some n → (0 < n)%nat.
Proof. unfold utf8_len. intros. repeat case_match; simplify_eq; lia. Qed.

Lemma read_unit_len s u r : read_unit s = Some (u, r) → (len r < len s)%nat.
Proof.
  unfold read_unit. destruct (getu4 s) as [[n t]|] eqn:Eg, s as [|c s']; try done.
  - apply getu4_len in Eg. intros. repeat case_match; simplify_eq; try done.
    match goal with H : getu4 _ = Some _ |- _ => apply getu4_len in H end. lia.
  - case_bool_decide.
    + destruct s' as [|e s']; [done|]. destruct (escape e); intros; simplify_eq/=; lia.
    + destruct (between _ _ _); [done|]. destruct (utf8_len _) as [n|] eqn:En.
      * apply utf8_len_pos in En. intros; simplify_eq. rewrite str_drop_len. simpl. lia.
      * intros; simplify_eq/=; lia.
Qed.

Lemma read_string_len fuel s v r : read_string fuel s = Some (v, r) → (len r < len s)%nat.
Proof.
  revert s v. induction fuel as [|fuel IH]; intros s v; cbn [read_string]; [done|].
  destruct (CutPrefix (String "034" EmptyString) s) as [r'|] eqn:Ep.
  - apply CutPrefix_len in Ep. intros; simplify_eq/=. lia.
  - destruct (read_unit s) as [[u t]|] eqn:Eu; [|done]. apply read_unit_len in Eu. simpl.
    destruct (read_string fuel t) as [[w r']|] eqn:Er; [|done].
    intros; simplify_eq/=. apply IH in Er. lia.
Qed.

Lemma read_string_fuel n m s :
  (len s < n)%nat → (len s < m)%nat → read_string n s = read_string m s.
Proof.
  revert m s. induction n as [|n IH]; intros [|m] s ??; try lia. cbn [read_string].
  destruct (CutPrefix (String "034" EmptyString) s); [done|].
  destruct (read_unit s) as [[u t]|] eqn:Eu; [|done]. apply read_unit_len in Eu. simpl.
  rewrite (IH m t); [done|lia..].
Qed.

Lemma take_digits_len s : (len (take_digits s).2 + len (take_digits s).1 = len s)%nat.
Proof.
  induction s as [|c s IH]; simpl; [done|]. destruct (is_digit c); [|simpl; lia].
  destruct (take_digits s); simpl in *; lia.
Qed.

Lemma digits_len s d r : digits s = Some (d, r) → (len r < len s)%nat.
Proof.
  unfold digits. pose proof (take_digits_len s). destruct (take_digits s) as [e t]. simpl in *.
  case_bool_decide as He; intros; simplify_eq. destruct d; [done|]. simpl in *. lia.
Qed.

Lemma maybe_len p s v r : maybe p s = (v, r) → (len r ≤ len s)%nat.
Proof.
  unfold maybe. destruct (CutPrefix p s) eqn:E; [apply CutPrefix_len in E|]; intros; simplify_eq/=; lia.
Qed.

(** [run H] splits the run [H] of a reader into the runs of the readers it
    calls; [consumed] replaces each by the length it leaves. *)
Ltac consumed := repeat match goal with
  | H : expect _ _ = Some _ |- _ => apply expect_len in H
  | H : CutPrefix _ _ = Some _ |- _ => apply CutPrefix_len in H
  | H : read_string _ _ = Some _ |- _ => apply read_string_len in H
  | H : digits _ = Some _ |- _ => apply digits_len in H
  | H : maybe _ _ = _ |- _ => apply maybe_len in H
  end.
Ltac run H := unfold mbind, option_bind in H; repeat (cbn beta iota in H; match type of H with
  | None = Some _ => discriminate H
  | Some _ = Some _ => injection H; clear H; intros; subst
  | context [match ?x with _ => _ end] =>
      lazymatch x with context [match _ with _ => _ end] => fail | _ => destruct x eqn:? end
  end).

Lemma read_number_len s v r : read_number s = Some (v, r) → (len r < len s)%nat.
Proof. intros H. unfold read_number in H. run H; simplify_eq; consumed; simpl in *; lia. Qed.

Lemma parse_lens fuel :
  (∀ d s v r, parse_value fuel d s = Some (v, r) → (len r < len s)%nat)
  ∧ (∀ d s l r, parse_items fuel d s = Some (l, r) → (len r < len s)%nat)
  ∧ (∀ d s l r, parse_members fuel d s = Some (l, r) → (len r < len s)%nat).
Proof.
  induction fuel as [|fuel (IHv & IHi & IHm)]; [done|]. split_and!; intros d s v r H.
  - pose proof (skip_ws_len s). cbn [parse_value] in H.
    destruct (skip_ws s) as [|c s']; [done|]. run H; consumed;
    repeat match goal with
      | H : read_number _ = Some _ |- _ => apply read_number_len in H
      | H : parse_items _ _ _ = Some _ |- _ => apply IHi in H
      | H : parse_members _ _ _ = Some _ |- _ => apply IHm in H
      end; simpl in *; lia.
  - cbn [parse_items] in H. run H; consumed; repeat match goal with
      | H : parse_value _ _ _ = Some _ |- _ => apply IHv in H
      | H : parse_items _ _ _ = Some _ |- _ => apply IHi in H
      end; lia.
  - cbn [parse_members] in H. run H; consumed; repeat match goal with
      | H : parse_value _ _ _ = Some _ |- _ => apply IHv in H
      | H : parse_members _ _ _ = Some _ |- _ => apply IHm in H
      end; lia.
Qed.

Lemma parse_fuels n :
  (∀ m d s, (2 * len s < n)%nat → (2 * len s < m)%nat → parse_value n d s = parse_value m d s)
  ∧ (∀ m d s, (2 * len s + 1 < n)%nat → (2 * len s + 1 < m)%nat →
       parse_items n d s = parse_items m d s)
  ∧ (∀ m d s, (2 * len s + 1 < n)%nat → (2 * len s + 1 < m)%nat →
       parse_members n d s = parse_members m d s).
Proof.
  induction n as [|n (IHv & IHi & IHm)]; [split_and!; lia|].
  split_and!; intros [|m] d s Hn Hm; try lia.
  - cbn [parse_value]. pose proof (skip_ws_len s).
    destruct (skip_ws s) as [|c s']; [done|]. cbn [String.length] in *.
    by rewrite (IHi m), (IHm m) by lia.
  - cbn [parse_items]. rewrite (IHv m) by lia.
    destruct (parse_value m d s) as [[v r]|] eqn:Ev; [|done]. cbn [mbind option_bind].
    apply (proj1 (parse_lens m)) in Ev.
    destruct (expect "," r) eqn:E; [|done]. apply expect_len in E. by rewrite (IHi m) by lia.
  - cbn [parse_members].
    destruct (expect "034" s) as [s1|] eqn:E1; [|done]. cbn [mbind option_bind].
    destruct (read_string _ s1) as [[k s2]|] eqn:E2; [|done]. cbn [mbind option_bind].
    destruct (expect ":" s2) as [s3|] eqn:E3; [|done]. cbn [mbind option_bind]. consumed.
    rewrite (IHv m) by lia.
    destruct (parse_value m d s3) as [[v r]|] eqn:Ev; [|done]. cbn [mbind option_bind].
    apply (proj1 (parse_lens m)) in Ev.
    destruct (expect "," r) eqn:E; [|done]. apply expect_len in E. by rewrite (IHm m) by lia.
Qed.

(** [parse] is the answer of the parser at every larger fuel. *)
Lemma parse_any_fuel fuel data :
  (2 * len data < fuel)%nat →
  parse data = ('(v, r) ← parse_value fuel 0 data;
                if bool_decide (skip_ws r = "") then Some v else None).
Proof.
  intros. unfold parse. by rewrite (proj1 (parse_fuels (2 * len data + 2)) fuel) by lia.
Qed.

(** A value is an array exactly when its first byte after white space is a
    bracket. *)
Lemma parse_value_array fuel depth s v r :
  parse_value fuel depth s = Some (v, r) →
  (∃ l, v = JArr l) ↔ ∃ s', skip_ws s = String "[" s'.
Proof.
  destruct fuel as [|fuel]; [done|]. cbn [parse_value].
  destruct (skip_ws s) as [|c s'] eqn:Es; [done|].
  destruct (decide (c = "["%char)) as [->|Hc].
  - rewrite bool_decide_eq_false_2, bool_decide_eq_true_2 by done.
    intros H. split; [eauto|intros _].
    destruct (_ <? _)%N; [done|]. destruct (expect _ _); [by simplify_eq; eauto|].
    destruct (parse_items _ _ _) as [[??]|]; [|done]. simpl in H. simplify_eq; eauto.
  - rewrite (bool_decide_eq_false_2 (c = "["%char)) by done.
    intros H. split; [|naive_solver]. intros [l ->]. exfalso. revert H.
    destruct (bool_decide _); [by destruct (read_string _ _) as [[??]|]|].
    destruct (bool_decide _).
    + destruct (_ <? _)%N; [done|]. destruct (expect _ _); [done|].
      by destruct (parse_members _ _ _) as [[??]|].
    + destruct (CutPrefix _ _); [done|]. destruct (CutPrefix _ _); [done|].
      destruct (CutPrefix _ _); [done|]. by destruct (read_number _) as [[??]|].
Qed.

Lemma parse_array_byte data v :
  parse data = Some v → (∃ l, v = JArr l) ↔ ∃ s', skip_ws data = String "[" s'.
Proof.
  unfold parse. destruct (parse_value _ _ _) as [[w r]|] eqn:E; simpl; [|done].
  case_bool_decide; [|done]. intros; simplify_eq. by eapply parse_value_array.
Qed.

(** Documents of the test inputs. *)
Definition q : ascii := "034".
Definition quoted (s : string) : string := String q (s +:+ String q "").

Example parse_doc :
  parse ("{" +:+ quoted "a" +:+ ": [1.5e3, true, {}], " +:+ quoted "b\u00e9\n" +:+ ":null} ")
  = Some (JObj [("a", JArr [JNum "1.5e3"; JBool true; JObj []]);
                ("b" +:+ utf8 233 +:+ String "010" "", JNull)]).
Proof. reflexivity. Qed.

Example parse_bad_docs :
  parse "[1,]" = None ∧ parse "01" = None ∧ parse "" = None ∧ parse "{} x" = None.
Proof. done. Qed.
