(* ===== verification/JsonRpc.v ===== *)
(** * JSON-RPC 2.0 messages ([internal/jsonrpc/jsonrpc.go])

    The wire types, their conversion to and from JSON, and [ParseMessage].
    The sealed interface [ID] is the inductive [ID]; its nil value (no [id]
    member, a notification) is [None]. *)

From S2P Require Import Prelude GoLib Json.
Import GoStr.

Definition Version : string := "2.0".

Definition CodeParseError : Z := -32700.
Definition CodeInvalidRequest : Z := -32600.
Definition CodeMethodNotFound : Z := -32601.
Definition CodeInvalidParams : Z := -32602.
Definition CodeInternalError : Z := -32603.

Inductive ID :=
| StringID (s : string)
| IntID (n : Z)
| NullID.

#[global] Instance ID_eq_dec : EqDecision ID.
Proof. solve_decision. Defined.

(** [ID.Value] passed to [json.Marshal]; [marshalID] maps nil to [null]. *)
Definition marshalID (id : option ID) : json :=
  match id with
  | None => JNull
  | Some (StringID s) => JStr s
  | Some (IntID n) => JNum (Strconv.FormatInt n)
  | Some NullID => JNull
  end.

Definition parseID (data : json) : option ID :=
  match data with
  | JNull => Some NullID
  | _ =>
      match as_string "" data with
      | Some s => Some (StringID s)
      | None =>
          match as_int 0 data with
          | Some n => Some (IntID n)
          | None => None
          end
      end
  end.

Record Request := MkRequest {
  JSONRPC : string;
  Method : string;
  Params : option json;
  RequestID : option ID;
}.

Definition IsNotification (r : Request) : bool :=
  match RequestID r with None => true | Some _ => false end.

Record Error := MkError { Code : Z; Message : string; Data : option json }.

(** [Error.Error] *)
Definition Error_string (e : Error) : string :=
  "jsonrpc: code " +:+ Strconv.FormatInt (Code e) +:+ ": " +:+ Message e.

Record Response := MkResponse {
  RJSONRPC : string;
  Result : option json;
  RError : option Error;
  ResponseID : option ID;
}.

(** A member that [omitempty] leaves out when the value is absent. *)
Definition member (k : string) (v : option json) : list (string * json) :=
  match v with Some v => [(k, v)] | None => [] end.

Definition marshalError (e : Error) : json :=
  JObj ([("code", JNum (Strconv.FormatInt (Code e))); ("message", JStr (Message e))]
        ++ member "data" (Data e)).

(** [Response.MarshalJSON] *)
Definition Response_MarshalJSON (r : Response) : json :=
  JObj ([("jsonrpc", JStr (RJSONRPC r))] ++ member "result" (Result r)
        ++ member "error" (marshalError <$> RError r) ++ [("id", marshalID (ResponseID r))]).

(** [json.Marshal] of a [Request]: struct tags [omitempty] on params and id. *)
Definition marshalRequest (r : Request) : json :=
  JObj ([("jsonrpc", JStr (JSONRPC r)); ("method", JStr (Method r))]
        ++ member "params" (Params r)
        ++ member "id" (match RequestID r with None => None | id => Some (marshalID id) end)).

(** [json.Unmarshal] into a fresh [Error] struct. *)
Definition unmarshalError (j : json) : option Error :=
  match j with
  | JNull => Some (MkError 0 "" None)
  | JObj l =>
      c ← decode_all as_int 0 (field_values "code" l);
      m ← decode_all as_string "" (field_values "message" l);
      Some (MkError c m (last (field_values "data" l)))
  | _ => None
  end.

(** [Response.UnmarshalJSON] on a zero [Response]; [None] is an error. *)
Definition Response_UnmarshalJSON (data : json) : option Response :=
  raw ← as_map data;
  version ← match raw !! "jsonrpc" with Some v => as_string "" v | None => Some "" end;
  err ← match raw !! "error" with
        | Some v => Some <$> unmarshalError v
        | None => Some None end;
  id ← match raw !! "id" with
       | Some v => Some <$> parseID v
       | None => Some None end;
  Some (MkResponse version (raw !! "result") err id).

(** [NewResponse]; its argument is the marshalled result ([None]: the value
    cannot be marshalled). *)
Definition NewResponse (id : option ID) (result : option json) : option Response :=
  data ← result;
  Some (MkResponse Version (Some data) None id).

Definition NewErrorResponse (id : option ID) (code : Z) (message : string) : Response :=
  MkResponse Version None (Some (MkError code message None)) id.

Definition NewErrorResponseWithData (id : option ID) (code : Z) (message : string) (data : json) : Response :=
  MkResponse Version None (Some (MkError code message (Some data))) id.

(** [parseOneRequest]: the checks are made in this order. [None] as the
    document is input that is not JSON. *)
Definition parseOneRequest (data : option json) : result Error Request :=
  match data ≫= as_map with
  | None => Err (MkError CodeParseError "invalid JSON" None)
  | Some raw =>
      vRaw ← match raw !! "jsonrpc" with
             | None => Err (MkError CodeInvalidRequest "missing jsonrpc field" None)
             | Some v => Ok v end;
      version ← match as_string "" vRaw with
                | Some v => if bool_decide (v = Version) then Ok v
                    else Err (MkError CodeInvalidRequest ("jsonrpc must be " +:+ quoted "2.0") None)
                | None => Err (MkError CodeInvalidRequest ("jsonrpc must be " +:+ quoted "2.0") None)
                end;
      mRaw ← match raw !! "method" with
             | None => Err (MkError CodeInvalidRequest "missing method field" None)
             | Some v => Ok v end;
      method ← match as_string "" mRaw with
               | Some m => if bool_decide (m = "")
                   then Err (MkError CodeInvalidRequest "method must be a non-empty string" None)
                   else Ok m
               | None => Err (MkError CodeInvalidRequest "method must be a non-empty string" None)
               end;
      id ← match raw !! "id" with
           | Some idRaw =>
               match parseID idRaw with
               | Some id => Ok (Some id)
               | None => Err (MkError CodeInvalidRequest "invalid id field" None)
               end
           | None => Ok None
           end;
      Ok (MkRequest version method (raw !! "params") id)
  end.

(** The outcome of [ParseMessage]: the requests and whether it was a batch. *)
Definition parseSingle (data : option json) : result Error (list Request) * bool :=
  ((λ r, [r]) <$> parseOneRequest data, false).

Definition parseBatch (data : option json) : result Error (list Request) * bool :=
  (match data ≫= as_array with
   | None => Err (MkError CodeParseError "invalid JSON" None)
   | Some [] => Err (MkError CodeInvalidRequest "empty batch" None)
   | Some l => map_result (λ raw, parseOneRequest (Some raw)) l
   end, true).

(** The scan for the first byte that is not white space. *)
Fixpoint isBatch (data : string) : bool :=
  match data with
  | EmptyString => false
  | String b data => if is_ws b then isBatch data else bool_decide (b = "["%char)
  end.

Definition ParseMessage (data : string) : result Error (list Request) * bool :=
  if isBatch data then parseBatch (parse data) else parseSingle (parse data).

(** ** Properties *)

(** Well-formed messages: what the gateway itself constructs or accepts. *)
Definition id_ok (id : option ID) : Prop :=
  match id with Some (IntID n) => Strconv.in_int64 n = true | _ => True end.

Definition request_ok (r : Request) : Prop :=
  JSONRPC r = Version ∧ Method r ≠ "" ∧ id_ok (RequestID r).

#[global] Arguments marshalID : simpl never.
#[global] Arguments parseID : simpl never.
#[global] Arguments id_ok : simpl never.
#[global] Arguments marshalError : simpl never.
#[global] Arguments unmarshalError : simpl never.

Lemma parseID_marshalID id : id_ok (Some id) → parseID (marshalID (Some id)) = Some id.
Proof.
  destruct id as [s|n|]; try done.
  intros Hn. unfold parseID, marshalID. simpl. by rewrite Strconv.ParseInt_FormatInt.
Qed.

Lemma as_int_range old j n : Strconv.in_int64 old = true → as_int old j = Some n → Strconv.in_int64 n = true.
Proof.
  intros Ho. destruct j; simpl; try done; [by intros; simplify_eq|].
  unfold Strconv.ParseInt. intros H.
  repeat (case_match; simplify_option_eq; try done).
Qed.

Lemma parseID_ok data id : parseID data = Some id → id_ok (Some id).
Proof.
  unfold parseID. destruct data as [| |lit| | |]; simpl; try (by intros; simplify_eq).
  destruct (Strconv.ParseInt lit) as [n|] eqn:E; [|done]. intros; simplify_eq.
  exact (as_int_range 0 (JNum lit) n eq_refl E).
Qed.

(** Every request that the parser returns is well formed. *)
Lemma parseOneRequest_ok data r : parseOneRequest data = Ok r → request_ok r.
Proof.
  unfold parseOneRequest, request_ok. destruct (data ≫= as_map) as [raw|]; [|done].
  intros H. result_inv.
  repeat match goal with
    | H : match ?x with _ => _ end = Ok _ |- _ => destruct x eqn:?; try discriminate H
    end; simplify_eq; simpl;
    repeat match goal with
    | H : bool_decide _ = _ |- _ => first [apply bool_decide_eq_true in H | apply bool_decide_eq_false in H]
    end; split_and!; try done.
  match goal with H : parseID _ = Some _ |- _ => exact (parseID_ok _ _ H) end.
Qed.

Lemma parseOneRequest_marshal r :
  request_ok r → parseOneRequest (Some (marshalRequest r)) = Ok r.
Proof.
  intros (HV & HM & HI). destruct r as [v m p id]. cbn [JSONRPC Method RequestID] in *. subst v.
  unfold parseOneRequest, marshalRequest.
  destruct p as [p|], id as [id|]; simpl; simplify_map_eq;
    unfold mbind, result_bind; simpl; rewrite ?bool_decide_eq_false_2 by done; simpl;
    simplify_map_eq; rewrite ?parseID_marshalID by done; done.
Qed.

Lemma isBatch_skip_ws data : isBatch data = true ↔ ∃ s, skip_ws data = String "[" s.
Proof.
  induction data as [|c data IH]; simpl; [naive_solver|].
  destruct (is_ws c) eqn:E; [done|]. rewrite bool_decide_eq_true. naive_solver.
Qed.

(** Well-formed responses. *)
Definition response_ok (r : Response) : Prop :=
  id_ok (ResponseID r) ∧
  match RError r with Some e => Strconv.in_int64 (Code e) = true | None => True end.

(** A response always carries an [id] member, so an absent id reads back as null. *)
Definition with_id (r : Response) : Response :=
  MkResponse (RJSONRPC r) (Result r) (RError r)
    (Some match ResponseID r with Some id => id | None => NullID end).

Lemma unmarshalError_marshal e :
  Strconv.in_int64 (Code e) = true → unmarshalError (marshalError e) = Some e.
Proof.
  intros Hc. destruct e as [c m d]; simpl in *.
  unfold unmarshalError, marshalError.
  destruct d; unfold field_values, EqualFold; simpl; unfold decode_all; simpl; rewrite Strconv.ParseInt_FormatInt by done; done.
Qed.

Lemma parseID_marshal_with_id id :
  id_ok id → parseID (marshalID id) = Some match id with Some id => id | None => NullID end.
Proof. destruct id as [id|]; [apply parseID_marshalID|done]. Qed.

(** ** Claims *)

(** Serializing a well-formed request (what the gateway forwards to an
    upstream) and parsing the bytes' document gives the same request, whether
    it is a call or a notification. *)
Theorem request_roundtrip r :
  request_ok r → parseOneRequest (Some (marshalRequest r)) = Ok r.
Proof. apply parseOneRequest_marshal. Qed.

Definition sample_request : Request :=
  MkRequest Version "tools/call" (Some (JObj [("name", JStr "a__b")])) (Some (IntID (-7))).

Lemma request_roundtrip_witness :
  parseOneRequest (Some (marshalRequest sample_request)) = Ok sample_request.
Proof. apply request_roundtrip. done. Defined.

(** A response that is marshalled and unmarshalled keeps its version,
    result, error and id; an absent id comes back as an explicit null. *)
Theorem response_roundtrip r :
  response_ok r → Response_UnmarshalJSON (Response_MarshalJSON r) = Some (with_id r).
Proof.
  intros [HI HE]. destruct r as [v res err id]; simpl in *.
  unfold Response_UnmarshalJSON, Response_MarshalJSON, with_id; simpl.
  destruct res as [res|], err as [e|]; simpl; simplify_map_eq;
    rewrite ?unmarshalError_marshal by done; simpl;
    rewrite parseID_marshal_with_id by done; simpl; simplify_map_eq; done.
Qed.

Lemma response_roundtrip_witness :
  Response_UnmarshalJSON (Response_MarshalJSON (NewErrorResponse (Some (StringID "x")) (-32000) "access denied"))
  = Some (with_id (NewErrorResponse (Some (StringID "x")) (-32000) "access denied")).
Proof. apply response_roundtrip. done. Defined.

(** [ParseMessage] treats a message as a batch exactly when the document is
    an array; it then returns one well-formed request per element, in order,
    and otherwise exactly one. *)
Theorem ParseMessage_shape data doc rs batch :
  parse data = Some doc → ParseMessage data = (Ok rs, batch) →
  Forall request_ok rs ∧ rs ≠ [] ∧
  match doc with
  | JArr l => batch = true ∧ Forall2 (λ j r, parseOneRequest (Some j) = Ok r) l rs
  | _ => batch = false ∧ ∃ r, rs = [r] ∧ parseOneRequest (Some doc) = Ok r
  end.
Proof.
  intros Hdoc. unfold ParseMessage, parseBatch, parseSingle. rewrite Hdoc.
  assert (Harr := parse_array_byte _ _ Hdoc). rewrite <- isBatch_skip_ws in Harr.
  destruct (isBatch data).
  - destruct (proj2 Harr eq_refl) as [l ->]. simpl. intros H. simplify_eq.
    destruct l as [|j l]; [done|]. apply map_result_ok in H. split_and!.
    + apply Forall_forall. intros r (i & Hi)%list_elem_of_lookup.
      destruct (Forall2_lookup_r _ _ _ _ _ H Hi) as (j' & _ & Hr). by eapply parseOneRequest_ok.
    + intros ->. by inv H.
    + done.
    + done.
  - intros H. assert (∃ r, rs = [r] ∧ parseOneRequest (Some doc) = Ok r) as (r & -> & Hr).
    { simplify_eq. destruct (parseOneRequest (Some doc)) eqn:E; [|done].
      simpl in *. simplify_eq. eauto. }
    simplify_eq. split_and!; [by repeat constructor; eapply parseOneRequest_ok|done|].
    destruct doc; eauto. exfalso. by destruct Harr as [Harr _]; discriminate Harr; eauto.
Qed.

Definition sample_batch : string :=
  " [{" +:+ quoted "jsonrpc" +:+ ":" +:+ quoted "2.0" +:+ "," +:+ quoted "method" +:+ ":" +:+ quoted "ping"
  +:+ "," +:+ quoted "id" +:+ ":1}]".

Lemma ParseMessage_shape_witness :
  Forall request_ok [MkRequest Version "ping" None (Some (IntID 1))] ∧
  [MkRequest Version "ping" None (Some (IntID 1))] ≠ [] ∧
  true = true ∧
  Forall2 (λ j r, parseOneRequest (Some j) = Ok r)
    [JObj [("jsonrpc", JStr "2.0"); ("method", JStr "ping"); ("id", JNum "1")]]
    [MkRequest Version "ping" None (Some (IntID 1))].
Proof.
  apply (ParseMessage_shape sample_batch
    (JArr [JObj [("jsonrpc", JStr "2.0"); ("method", JStr "ping"); ("id", JNum "1")]])
    [MkRequest Version "ping" None (Some (IntID 1))] true); vm_compute; reflexivity.
Defined.

(** A batch is refused as a whole by its first malformed element, with that
    element's error; requests before it are not returned. *)
Theorem parseBatch_first_error l e :
  parseBatch (Some (JArr l)) = (Err e, true) → l ≠ [] →
  ∃ l1 j l2 rs, l = l1 ++ j :: l2 ∧
    Forall2 (λ j r, parseOneRequest (Some j) = Ok r) l1 rs ∧ parseOneRequest (Some j) = Err e.
Proof.
  unfold parseBatch; simpl. destruct l as [|j0 l]; [done|]. generalize (j0 :: l). clear j0 l.
  intros l [= H] _. revert H. induction l as [|j l IH]; simpl; [done|].
  unfold mbind, result_bind. destruct (parseOneRequest (Some j)) as [r|e'] eqn:Ej.
  - destruct (map_result _ l) as [rs|e'']; [done|]. intros [= ->].
    destruct (IH eq_refl) as (l1 & j' & l2 & rs & -> & Hrs & Hj').
    exists (j :: l1), j', l2, (r :: rs). eauto.
  - intros [= ->]. exists [], j, l, []. eauto.
Qed.

Lemma parseBatch_first_error_witness :
  ∃ l1 j l2 rs, [JObj [("jsonrpc", JStr "2.0")]] = l1 ++ j :: l2 ∧
    Forall2 (λ j r, parseOneRequest (Some j) = Ok r) l1 rs ∧
    parseOneRequest (Some j) = Err (MkError CodeInvalidRequest "missing method field" None).
Proof. apply parseBatch_first_error; [vm_compute; reflexivity|done]. Defined.

(** A response whose [error] member is an explicit null is read as an error
    response with code 0 and an empty message, whatever its result. *)
Theorem null_error_reads_as_error result :
  ∃ r, Response_UnmarshalJSON
         (JObj [("jsonrpc", JStr "2.0"); ("result", result); ("error", JNull); ("id", JNum "1")]) = Some r ∧
       Result r = Some result ∧ RError r = Some (MkError 0 "" None).
Proof. eexists. split; [reflexivity|]. by simplify_map_eq. Qed.
