(* ===== verification/JsonText.v ===== *)
(** * JSON texts ([encoding/json], the encoder)

    [encode] is the compact text that [json.Marshal] gives a value: strings are
    escaped for HTML, what is not UTF-8 in them is replaced. [parse_encode]: the
    parser of [Json] reads every such text back, up to that replacement. *)

From Stdlib Require DecimalFacts DecimalPos.
From Stdlib Require Import DecimalString.
From S2P Require Import Prelude GoLib Json JsonRpc.
Import GoStr.

(** ** Strings *)

(** The code points of a string in order; [None] is a byte that starts none. *)
Fixpoint runes (fuel : nat) (s : string) : list (option string) :=
  match fuel, s with
  | S fuel, String c s' =>
      match utf8_len s with
      | Some n => Some (String.substring 0 n s) :: runes fuel (str_drop n s)
      | None => None :: runes fuel s'
      end
  | _, _ => []
  end.

Definition lower_hex (n : N) : ascii := default "0"%char (String.get (N.to_nat n) "0123456789abcdef").

(** A byte below 128 inside a literal. *)
Definition escape_byte (c : ascii) : string :=
  if bool_decide (c = q) || bool_decide (c = "\"%char) then String "\" (String c "")
  else if bool_decide (c = "008"%char) then "\b"
  else if bool_decide (c = "012"%char) then "\f"
  else if bool_decide (c = "010"%char) then "\n"
  else if bool_decide (c = "013"%char) then "\r"
  else if bool_decide (c = "009"%char) then "\t"
  else if between 0 31 c || bool_decide (c = "<"%char) || bool_decide (c = ">"%char) || bool_decide (c = "&"%char)
  then "\u00" +:+ String (lower_hex (N_of_ascii c / 16)) (String (lower_hex (N_of_ascii c mod 16)) "")
  else String c "".

Definition escape_rune (r : option string) : string :=
  match r with
  | None => "\ufffd"
  | Some (String c "") => escape_byte c
  | Some u => if bool_decide (u = utf8 8232) then "\u2028"
              else if bool_decide (u = utf8 8233) then "\u2029" else u
  end.

Definition concat_map {A} (f : A → string) (l : list A) : string := foldr (λ a s, f a +:+ s) "" l.

(** A string as a literal, and as it is read back. *)
Definition quote (s : string) : string := String q (concat_map escape_rune (runes (String.length s) s) +:+ String q "").
Definition to_valid (s : string) : string := concat_map (default replacement) (runes (String.length s) s).
Definition valid_utf8 (s : string) : bool := forallb (λ r, bool_decide (r ≠ None)) (runes (String.length s) s).

(** ** Values *)

Fixpoint encode (j : json) : string :=
  match j with
  | JNull => "null"
  | JBool true => "true"
  | JBool false => "false"
  | JNum n => n
  | JStr s => quote s
  | JArr l => "[" +:+ Join (map encode l) "," +:+ "]"
  | JObj l => "{" +:+ Join (map (λ kv, quote kv.1 +:+ ":" +:+ encode kv.2) l) "," +:+ "}"
  end.

(** What is read back. *)
Fixpoint sanitized (j : json) : json :=
  match j with
  | JStr s => JStr (to_valid s)
  | JArr l => JArr (map sanitized l)
  | JObj l => JObj (map (λ kv, (to_valid kv.1, sanitized kv.2)) l)
  | j => j
  end.

(** The open arrays and objects at the deepest point. *)
Fixpoint nesting (j : json) : N :=
  match j with
  | JArr l => 1 + foldr (λ j n, N.max (nesting j) n) 0 l
  | JObj l => 1 + foldr (λ kv n, N.max (nesting kv.2) n) 0 l
  | _ => 0
  end%N.

(** Its number literals are numbers. *)
Fixpoint numbers_ok (j : json) : bool :=
  match j with
  | JNum n => bool_decide (read_number n = Some (n, ""))
  | JArr l => forallb numbers_ok l
  | JObj l => forallb (λ kv, numbers_ok kv.2) l
  | _ => true
  end.

Fixpoint strings_ok (j : json) : bool :=
  match j with
  | JStr s => valid_utf8 s
  | JArr l => forallb strings_ok l
  | JObj l => forallb (λ kv, valid_utf8 kv.1 && strings_ok kv.2) l
  | _ => true
  end.

Section induction.
Variable P : json → Prop.
Hypothesis P_null : P JNull.
Hypothesis P_bool : ∀ b, P (JBool b).
Hypothesis P_num : ∀ n, P (JNum n).
Hypothesis P_str : ∀ s, P (JStr s).
Hypothesis P_arr : ∀ l, Forall P l → P (JArr l).
Hypothesis P_obj : ∀ l, Forall (λ kv, P kv.2) l → P (JObj l).

(** Induction with hypotheses for the elements and the members. *)
Fixpoint json_nested_ind (j : json) : P j :=
  match j with
  | JNull => P_null
  | JBool b => P_bool b
  | JNum n => P_num n
  | JStr s => P_str s
  | JArr l => P_arr l ((fix go l : Forall P l :=
      match l with [] => Forall_nil_2 _ | j :: l => Forall_cons_2 _ _ _ (json_nested_ind j) (go l) end) l)
  | JObj l => P_obj l ((fix go l : Forall (λ kv, P kv.2) l :=
      match l with [] => Forall_nil_2 _ | kv :: l => Forall_cons_2 _ _ _ (json_nested_ind kv.2) (go l) end) l)
  end.
End induction.

(** ** Reading literals back *)

Lemma utf8_len_app u n t : utf8_len u = Some n → utf8_len (u +:+ t) = Some n.
Proof.
  destruct u as [|a [|b [|c [|d u]]]]; [done|..]; rewrite ?str_app_cons; cbn [utf8_len]; intros Hu;
    repeat (case_match; simplify_eq; try done).
Qed.

Lemma utf8_len_first s n : utf8_len s = Some n →
  utf8_len (String.substring 0 n s) = Some n ∧ String.length (String.substring 0 n s) = n ∧
  String.substring 0 n s +:+ str_drop n s = s.
Proof.
  assert (∀ t, String.substring 0 0 t = "") as H0 by (by intros []).
  assert (∀ t, str_drop 0 t = t) as Hd by (by intros []).
  destruct s as [|a s]; [done|]. cbn [utf8_len]. destruct (between 0 127 a) eqn:Ha.
  { intros [= <-]. cbn [String.substring str_drop]. rewrite H0, ?Hd. cbn [utf8_len]. by rewrite Ha. }
  destruct s as [|b s]; [done|]. destruct (between 194 223 a) eqn:Ha2.
  { destruct (cont b) eqn:Hb; [|done]. intros [= <-].
    cbn [String.substring str_drop]. rewrite H0, ?Hd. cbn [utf8_len]. by rewrite Ha, Ha2, Hb. }
  destruct s as [|c s]; [done|]. destruct (_ || _) eqn:Ha3.
  { intros [= <-]. cbn [String.substring str_drop]. rewrite H0, ?Hd. cbn [utf8_len]. by rewrite Ha, Ha2, Ha3. }
  destruct s as [|d s]; [done|]. match goal with |- (if ?x then _ else _) = _ → _ => destruct x eqn:Ha4; [|done] end.
  intros [= <-]. cbn [String.substring str_drop]. rewrite H0, ?Hd. cbn [utf8_len]. by rewrite Ha, Ha2, Ha3, Ha4.
Qed.

Definition rune_ok (r : option string) : Prop :=
  match r with Some u => utf8_len u = Some (String.length u) | None => True end.

Lemma runes_ok fuel s : Forall rune_ok (runes fuel s).
Proof.
  revert s. induction fuel as [|fuel IH]; intros [|c s]; [constructor..|]. cbn [runes].
  destruct (utf8_len (String c s)) as [n|] eqn:En; constructor; [|apply IH|done|apply IH].
  apply utf8_len_first in En as (Hu & Hl & _). unfold rune_ok. by rewrite Hl.
Qed.

Lemma valid_runes fuel s : (String.length s ≤ fuel)%nat →
  forallb (λ r, bool_decide (r ≠ None)) (runes fuel s) = true → concat_map (default replacement) (runes fuel s) = s.
Proof.
  revert s. induction fuel as [|fuel IH]; intros [|c s] Hf Hv; [done|simpl in Hf; lia|done|].
  cbn [runes] in *. destruct (utf8_len (String c s)) as [n|] eqn:En; [|done].
  pose proof (utf8_len_pos _ _ En). apply utf8_len_first in En as (_ & Hl & Happ).
  cbn [concat_map foldr default from_option id]. fold (concat_map (default replacement) (runes fuel (str_drop n (String c s)))).
  rewrite IH; [done| |].
  - rewrite str_drop_len. simpl in *. lia.
  - simpl in Hv. exact Hv.
Qed.

Lemma to_valid_id s : valid_utf8 s = true → to_valid s = s.
Proof. by apply valid_runes. Qed.

Lemma between_le lo hi c : between lo hi c = true ↔ (lo ≤ N_of_ascii c ∧ N_of_ascii c ≤ hi)%N.
Proof. unfold between. by rewrite andb_true_iff, !N.leb_le. Qed.

Lemma read_unit_plain u t :
  utf8_len u = Some (String.length u) → (∀ c u', u = String c u' → c ≠ "\"%char ∧ between 0 31 c = false) →
  read_unit (u +:+ t) = Some (u, t).
Proof.
  intros Hu Hc. pose proof (utf8_len_app _ _ t Hu) as Ht. destruct u as [|c u]; [done|].
  destruct (Hc c u eq_refl) as [Hbs Hctl]. rewrite str_app_cons in *.
  assert (getu4 (String c (u +:+ t)) = None) as Hg.
  { unfold getu4. do 5 (case_match; [done|]). rewrite bool_decide_eq_false_2 by done. done. }
  unfold read_unit. rewrite Hg, bool_decide_eq_false_2, Hctl, Ht by done.
  f_equal. change (String c (u +:+ t)) with (String c u +:+ t). generalize (String c u). clear.
  intros u. f_equal; [|by induction u].
  induction u as [|c u IH]; [by destruct t|]. rewrite str_app_cons. cbn [String.length String.substring]. by rewrite IH.
Qed.

(** The three shapes of an escaped byte. *)
Definition second_byte (s : string) : ascii := default q (String.get 1 s).

Lemma escape_byte_shape c : between 0 127 c = true →
  (escape_byte c = String c "" ∧ c ≠ "\"%char ∧ c ≠ q ∧ between 0 31 c = false)
  ∨ (escape_byte c = String "\" (String (second_byte (escape_byte c)) "") ∧
     second_byte (escape_byte c) ≠ "u"%char ∧ escape (second_byte (escape_byte c)) = Some c)
  ∨ (escape_byte c = "\u00" +:+ String (lower_hex (N_of_ascii c / 16)) (String (lower_hex (N_of_ascii c mod 16)) "") ∧
     hex4 "0" "0" (lower_hex (N_of_ascii c / 16)) (lower_hex (N_of_ascii c mod 16)) = Some (N_of_ascii c)).
Proof.
  destruct c as [[] [] [] [] [] [] [] []]; intros Hc; first [vm_compute in Hc; discriminate Hc | clear Hc];
    apply (bool_decide_unpack _); vm_compute; exact I.
Qed.

Lemma escape_byte_read c t : between 0 127 c = true →
  read_unit (escape_byte c +:+ t) = Some (String c "", t).
Proof.
  intros Hc. destruct (escape_byte_shape c Hc) as [(-> & H1 & _ & H2)|[(He & H1 & H2)|(He & Hx)]].
  - apply read_unit_plain; [cbn [utf8_len]; by rewrite Hc|]. by intros c' u [= <- <-].
  - revert He H1 H2. generalize (second_byte (escape_byte c)). intros e He H1 H2.
    rewrite He, !str_app_cons. assert (getu4 (String "\" (String e ("" +:+ t))) = None) as Hg.
    { unfold getu4. do 4 (case_match; [done|]). by rewrite (bool_decide_eq_false_2 (e = _)), andb_false_r. }
    unfold read_unit. rewrite Hg, bool_decide_eq_true_2, H2 by done. done.
  - revert He Hx. generalize (lower_hex (N_of_ascii c / 16)), (lower_hex (N_of_ascii c mod 16)). intros x y He Hx. rewrite He.
    change (("\u00" +:+ String x (String y "")) +:+ t)
      with (String "\" (String "u" (String "0" (String "0" (String x (String y t)))))).
    unfold read_unit, getu4. rewrite !bool_decide_eq_true_2, Hx by done. cbn [andb mbind option_bind].
    assert (N_of_ascii c < 128)%N as Hn by (by apply between_le in Hc; lia).
    assert (is_high (N_of_ascii c) = false) as -> by (by apply andb_false_iff; left; apply N.leb_gt; lia).
    assert (is_low (N_of_ascii c) = false) as -> by (by apply andb_false_iff; left; apply N.leb_gt; lia).
    unfold utf8. destruct (N.ltb_spec (N_of_ascii c) 128); [|lia]. unfold chr. by rewrite ascii_N_embedding.
Qed.

Lemma escape_rune_read r t : rune_ok r → read_unit (escape_rune r +:+ t) = Some (default replacement r, t).
Proof.
  destruct r as [[|c [|d u]]|]; simpl; intros Hr.
  - done.
  - apply escape_byte_read. destruct (between 0 127 c); done.
  - destruct (bool_decide_reflect (String c (String d u) = utf8 8232)) as [->|_]; [done|].
    destruct (bool_decide_reflect (String c (String d u) = utf8 8233)) as [->|_]; [done|].
    apply read_unit_plain; [done|]. intros c' u' [= <- <-].
    assert (between 0 127 c = false) as Hc. { destruct (between 0 127 c); [by injection Hr as [=]|done]. }
    split; [by intros ->|]. apply not_true_iff_false. rewrite between_le. intros [_ Hle].
    apply not_true_iff_false in Hc. apply Hc, between_le. lia.
  - done.
Qed.

Lemma escape_rune_head r : rune_ok r → ∃ c u, escape_rune r = String c u ∧ c ≠ q.
Proof.
  destruct r as [[|c [|d u]]|]; simpl; intros Hr.
  - done.
  - destruct (escape_byte_shape c) as [(He & _ & H1 & _)|[(He & _)|(He & _)]]; try rewrite He;
      [by destruct (between 0 127 c)|by do 2 eexists..].
  - assert (c ≠ q) as Hc by (by intros ->; cbn in Hr).
    repeat case_bool_decide; do 2 eexists; (split; [reflexivity|]); done.
  - by do 2 eexists.
Qed.

(** No control byte is written inside a literal: a text stays on one line. *)
Definition graphic (c : ascii) : bool := (32 <=? N_of_ascii c)%N.

Lemma cont_graphic lo hi c : (32 ≤ lo)%N → between lo hi c = true → graphic c = true.
Proof. rewrite between_le. unfold graphic. intros. apply N.leb_le. lia. Qed.

Lemma escape_byte_graphic c : between 0 127 c = true → all_bytes graphic (escape_byte c) = true.
Proof. destruct c as [[] [] [] [] [] [] [] []]; by vm_compute. Qed.

Lemma long_rune_graphic c d u : utf8_len (String c (String d u)) = Some (S (S (String.length u))) →
  all_bytes graphic (String c (String d u)) = true.
Proof.
  cbn [utf8_len]. destruct (between 0 127 c) eqn:H0; [done|].
  assert (graphic c = true) as Hc.
  { unfold graphic. apply N.leb_le. apply not_true_iff_false in H0. rewrite between_le in H0. lia. }
  unfold cont. cbn [all_bytes]. rewrite Hc. clear Hc H0.
  destruct u as [|e [|f [|g u]]]; cbn [all_bytes]; intros Hu; repeat (case_match; simplify_eq; try done);
    repeat match goal with
    | Ho : _ || _ = true |- _ => apply orb_true_iff in Ho as [Ho|Ho]
    | Ha : _ && _ = true |- _ => apply andb_true_iff in Ha as [? ?]
    end;
    repeat match goal with Hb : between ?lo ?hi ?x = true |- _ => apply (cont_graphic lo hi x) in Hb; [|lia] end;
    repeat match goal with Hg : graphic _ = true |- _ => rewrite Hg; clear Hg end; done.
Qed.

Lemma quote_graphic s : all_bytes graphic (quote s) = true.
Proof.
  unfold quote. cbn [all_bytes]. rewrite all_bytes_app. apply andb_true_iff. split; [done|]. apply andb_true_iff. split; [|done].
  pose proof (runes_ok (String.length s) s) as Hall. induction Hall as [|r rs Hr _ IH]; [done|].
  cbn [concat_map foldr]. rewrite all_bytes_app. apply andb_true_iff. split; [clear IH|exact IH].
  destruct r as [[|c [|d u]]|]; [done|..|done]; cbn [escape_rune].
  - apply escape_byte_graphic. cbn in Hr. by destruct (between 0 127 c).
  - repeat case_bool_decide; [done|done|]. by apply long_rune_graphic.
Qed.

Lemma read_string_runes rs t : Forall rune_ok rs → ∀ fuel,
  (String.length (concat_map escape_rune rs +:+ String q t) < fuel)%nat →
  read_string fuel (concat_map escape_rune rs +:+ String q t) = Some (concat_map (default replacement) rs, t).
Proof.
  induction 1 as [|r rs Hr _ IH]; intros [|fuel] Hf; try lia.
  - done.
  - cbn [concat_map foldr] in *. fold (concat_map escape_rune rs) (concat_map (default replacement) rs) in *.
    rewrite str_app_assoc in *. pose proof (escape_rune_read r (concat_map escape_rune rs +:+ String q t) Hr) as Hu.
    destruct (escape_rune_head r Hr) as (c & u & He & Hc). cbn [read_string].
    assert (CutPrefix (String "034" "") (escape_rune r +:+ concat_map escape_rune rs +:+ String q t) = None) as ->.
    { rewrite He, str_app_cons. cbn [CutPrefix]. by rewrite decide_False. }
    rewrite Hu. cbn [mbind option_bind]. rewrite IH; [done|].
    rewrite He, str_app_cons in Hf. cbn [String.length] in Hf. rewrite str_length_app in Hf. lia.
Qed.

(** A string of ASCII bytes is UTF-8. *)
Lemma ascii_valid s : all_bytes (between 0 127) s = true → valid_utf8 s = true.
Proof.
  unfold valid_utf8. induction s as [|c s IH]; [done|]. cbn [all_bytes String.length]. intros [Hc Hs]%andb_true_iff.
  cbn [runes utf8_len]. rewrite Hc. cbn [str_drop forallb]. rewrite IH by done. done.
Qed.

(** An ASCII prefix does not change whether a string is UTF-8. *)
Lemma valid_app s t : all_bytes (between 0 127) s = true → valid_utf8 (s +:+ t) = valid_utf8 t.
Proof.
  unfold valid_utf8. induction s as [|c s IH]; [done|]. cbn [all_bytes]. intros [Hc Hs]%andb_true_iff.
  rewrite str_app_cons. cbn [String.length runes utf8_len]. rewrite Hc. cbn [str_drop forallb]. by rewrite IH.
Qed.

(** ** Reading numbers back *)

(** What may follow a value: nothing that would continue a number. *)
Definition delimited (t : string) : Prop :=
  match t with
  | EmptyString => True
  | String c _ => is_digit c = false ∧ to_lower c ≠ "e"%char ∧ c ≠ "."%char ∧ c ≠ "+"%char ∧ c ≠ "-"%char
  end.

Lemma take_digits_app s t : delimited t →
  take_digits (s +:+ t) = ((take_digits s).1, (take_digits s).2 +:+ t).
Proof.
  intros Ht. induction s as [|c s IH].
  - destruct t as [|c t]; [done|]. destruct Ht as (Hd & _). rewrite str_app_nil. cbn [take_digits]. by rewrite Hd.
  - rewrite str_app_cons. cbn [take_digits]. destruct (is_digit c); [|done]. rewrite IH. by destruct (take_digits s).
Qed.

Lemma digits_app s t d r : delimited t → digits s = Some (d, r) → digits (s +:+ t) = Some (d, r +:+ t).
Proof.
  intros Ht. unfold digits. rewrite take_digits_app by done. destruct (take_digits s) as [d' r']. simpl.
  case_bool_decide; [done|]. by intros [= <- <-].
Qed.

Lemma CutPrefix_one_app c s t : (∀ d t', t = String d t' → d ≠ c) →
  CutPrefix (String c "") (s +:+ t) = (λ r, r +:+ t) <$> CutPrefix (String c "") s.
Proof.
  intros Ht. destruct s as [|d s].
  - rewrite str_app_nil. destruct t as [|d t]; [done|]. cbn [CutPrefix]. by rewrite decide_False by (symmetry; eauto).
  - rewrite str_app_cons. cbn [CutPrefix]. by case_decide.
Qed.

Lemma maybe_app c s t : (∀ d t', t = String d t' → d ≠ c) →
  maybe (String c "") (s +:+ t) = ((maybe (String c "") s).1, (maybe (String c "") s).2 +:+ t).
Proof. intros Ht. unfold maybe. rewrite CutPrefix_one_app by done. by destruct (CutPrefix _ s). Qed.

(** The parts of a number literal. *)
Definition int_part (s : string) : option (string * string) :=
  match CutPrefix "0" s with Some r => Some ("0", r) | None => digits s end.
Definition frac_part (s : string) : option (string * string) :=
  match CutPrefix "." s with Some r => '(d, r) ← digits r; Some ("." +:+ d, r) | None => Some ("", s) end.
Definition exp_part (s : string) : option (string * string) :=
  match s with
  | String c s' =>
      if bool_decide (to_lower c = "e"%char) then
        let '(plus, r) := maybe "+" s' in
        let '(minus, r) := if bool_decide (plus = "") then maybe "-" r else ("", r) in
        '(d, r) ← digits r;
        Some (String c (plus +:+ minus +:+ d), r)
      else Some ("", s)
  | EmptyString => Some ("", s)
  end.

Lemma read_number_parts s : read_number s =
  (let '(sign, s) := maybe "-" s in
   '(i, s) ← int_part s; '(f, s) ← frac_part s; '(e, s) ← exp_part s; Some (sign +:+ i +:+ f +:+ e, s)).
Proof. done. Qed.

Section delimiter.
Variable t : string.
Hypothesis Ht : delimited t.

Lemma not_delimiter c d t' : is_digit c || bool_decide (c = "."%char) || bool_decide (c = "+"%char) || bool_decide (c = "-"%char) = true →
  t = String d t' → d ≠ c.
Proof.
  intros Hc -> ->. destruct Ht as (H1 & _ & H2 & H3 & H4). rewrite H1, !bool_decide_eq_false_2 in Hc; done.
Qed.

Lemma int_part_app s v r : int_part s = Some (v, r) → int_part (s +:+ t) = Some (v, r +:+ t).
Proof.
  unfold int_part. rewrite CutPrefix_one_app by (intros; by eapply not_delimiter).
  destruct (CutPrefix _ s); simpl; [by intros [= <- <-]|by apply digits_app].
Qed.

Lemma frac_part_app s v r : frac_part s = Some (v, r) → frac_part (s +:+ t) = Some (v, r +:+ t).
Proof.
  unfold frac_part. rewrite CutPrefix_one_app by (intros; by eapply not_delimiter).
  destruct (CutPrefix _ s) as [s'|]; simpl; [|by intros [= <- <-]].
  destruct (digits s') as [[d r']|] eqn:Ed; [|done]. rewrite (digits_app _ _ _ _ Ht Ed). by intros [= <- <-].
Qed.

Lemma exp_part_app s v r : exp_part s = Some (v, r) → exp_part (s +:+ t) = Some (v, r +:+ t).
Proof.
  destruct s as [|c s].
  - intros [= <- <-]. rewrite !str_app_nil. unfold exp_part. destruct t as [|d t']; [done|].
    destruct Ht as (_ & He & _). by rewrite bool_decide_eq_false_2.
  - rewrite str_app_cons. cbn [exp_part]. case_bool_decide; [|by intros [= <- <-]].
    rewrite maybe_app by (intros; by eapply not_delimiter). destruct (maybe "+" s) as [plus s1]. cbn [fst snd].
    assert ((if bool_decide (plus = "") then maybe "-" (s1 +:+ t) else ("", s1 +:+ t))
      = ((if bool_decide (plus = "") then maybe "-" s1 else ("", s1)).1,
         (if bool_decide (plus = "") then maybe "-" s1 else ("", s1)).2 +:+ t)) as ->.
    { case_bool_decide; [|done]. by rewrite maybe_app by (intros; by eapply not_delimiter). }
    destruct (if bool_decide (plus = "") then _ else _) as [minus s2]. cbn [fst snd].
    destruct (digits s2) as [[d s3]|] eqn:Ed; [|done]. rewrite (digits_app _ _ _ _ Ht Ed). by intros [= <- <-].
Qed.

(** What a number literal reads, it reads in front of a delimiter. *)
Lemma read_number_app s n r : read_number s = Some (n, r) → read_number (s +:+ t) = Some (n, r +:+ t).
Proof.
  rewrite !read_number_parts, maybe_app by (intros; by eapply not_delimiter). destruct (maybe "-" s) as [sign s1]. cbn [fst snd].
  destruct (int_part s1) as [[i s2]|] eqn:Ei; [|done]. rewrite (int_part_app _ _ _ Ei). cbn [mbind option_bind].
  destruct (frac_part s2) as [[f s3]|] eqn:Ef; [|done]. rewrite (frac_part_app _ _ _ Ef). cbn [mbind option_bind].
  destruct (exp_part s3) as [[e s4]|] eqn:Ee; [|done]. rewrite (exp_part_app _ _ _ Ee). cbn [mbind option_bind].
  by intros [= <- <-].
Qed.
End delimiter.

(** A number starts with a digit or a minus sign. *)
Lemma read_number_head s n r : read_number s = Some (n, r) →
  ∃ c s', s = String c s' ∧ is_digit c || bool_decide (c = "-"%char) = true.
Proof.
  destruct s as [|c s]; [done|]. intros Hr. exists c, s. split; [done|].
  destruct (decide (c = "-"%char)) as [->|Hc]; [done|]. destruct (is_digit c) eqn:Hd; [done|]. exfalso.
  rewrite read_number_parts in Hr. unfold maybe in Hr. cbn [CutPrefix] in Hr. rewrite decide_False in Hr by done.
  unfold int_part in Hr. cbn [CutPrefix] in Hr. rewrite decide_False in Hr by (by intros <-).
  unfold digits in Hr. cbn [take_digits] in Hr. by rewrite Hd in Hr.
Qed.

(** ** Reading values back *)

(** The first byte of a text is no white space and closes nothing. *)
Definition opens (c : ascii) : Prop := is_ws c = false ∧ c ≠ "]"%char ∧ c ≠ "}"%char.

Lemma encode_head j : numbers_ok j = true → ∃ c s, encode j = String c s ∧ opens c.
Proof.
  destruct j as [|[]|n|s|l|l]; cbn [encode numbers_ok]; intros Hj; try (do 2 eexists; split; [reflexivity|done]).
  apply bool_decide_eq_true in Hj. pose proof (read_number_head _ _ _ Hj) as (c & s & -> & Hc).
  exists c, s. split; [done|]. revert Hc. clear. unfold opens.
  destruct c as [[] [] [] [] [] [] [] []]; intros Hc; first [discriminate Hc|done].
Qed.

Lemma skip_ws_opens c s : is_ws c = false → skip_ws (String c s) = String c s.
Proof. intros Hc. cbn [skip_ws]. by rewrite Hc. Qed.

Lemma expect_same c s : is_ws c = false → expect c (String c s) = Some s.
Proof. intros Hc. unfold expect. rewrite skip_ws_opens by done. by rewrite bool_decide_eq_true_2. Qed.

Lemma expect_other c d s : is_ws d = false → d ≠ c → expect c (String d s) = None.
Proof. intros Hd Hc. unfold expect. rewrite skip_ws_opens by done. by rewrite bool_decide_eq_false_2. Qed.

(** A text reads as the value [v] in front of every delimiter. *)
Definition reads_as (d : N) (s : string) (v : json) : Prop :=
  ∀ n t, delimited t → (2 * String.length (s +:+ t) < n)%nat → parse_value n d (s +:+ t) = Some (v, t).

Lemma Join_cons s l t : Join (s :: l) t = s +:+ match l with [] => "" | _ => t +:+ Join l t end.
Proof. destruct l; cbn [Join]; [by rewrite str_app_nil_r|done]. Qed.

Lemma reads_items d l vs :
  Forall2 (reads_as d) l vs → vs ≠ [] → ∀ n t, (2 * String.length (Join l "," +:+ String "]" t) + 1 < n)%nat →
  parse_items n d (Join l "," +:+ String "]" t) = Some (vs, t).
Proof.
  induction 1 as [|s v l vs Hs Hl IH]; [done|]. intros _ [|n] t Hn; [lia|]. rewrite Join_cons, str_app_assoc in *.
  cbn [parse_items]. destruct Hl as [|s' v' l vs Hs' Hl].
  - rewrite str_app_nil in *. rewrite Hs by (done || lia). cbn [mbind option_bind].
    by rewrite expect_other, expect_same by done.
  - change (("," +:+ Join (s' :: l) ",") +:+ String "]" t) with (String "," (Join (s' :: l) "," +:+ String "]" t)) in *.
    rewrite Hs by (done || lia). cbn [mbind option_bind]. rewrite expect_same by done.
    rewrite IH; [done|done|]. rewrite str_length_app in Hn. cbn [String.length] in Hn. lia.
Qed.

Lemma quote_parts s t : quote s +:+ t = String q (concat_map escape_rune (runes (String.length s) s) +:+ String q t).
Proof. unfold quote. by rewrite str_app_cons, str_app_assoc. Qed.

Lemma read_quoted s t n : (String.length (concat_map escape_rune (runes (String.length s) s) +:+ String q t) < n)%nat →
  read_string n (concat_map escape_rune (runes (String.length s) s) +:+ String q t) = Some (to_valid s, t).
Proof. intros Hn. apply read_string_runes; [apply runes_ok|done]. Qed.

Ltac lens := repeat first [progress rewrite ?str_length_app in * | progress cbn [String.length] in *]; lia.

Lemma reads_members d (l : list (string * json)) (enc : json → string) (f : json → json) :
  Forall (λ kv, reads_as d (enc kv.2) (f kv.2)) l → l ≠ [] →
  ∀ n t, let text := Join (map (λ kv, quote kv.1 +:+ ":" +:+ enc kv.2) l) "," in
  (2 * String.length (text +:+ String "}" t) + 1 < n)%nat →
  parse_members n d (text +:+ String "}" t) = Some (map (λ kv, (to_valid kv.1, f kv.2)) l, t).
Proof.
  induction 1 as [|[k v] l Hv Hl IH]; [done|]. cbn [map fst snd] in *. cbv zeta in *. intros _ [|n] t Hn; [lia|].
  rewrite Join_cons, !str_app_assoc in *. rewrite quote_parts in *. cbn [parse_members].
  rewrite expect_same by done. cbn [mbind option_bind]. rewrite read_quoted by lia. cbn [mbind option_bind].
  rewrite str_app_cons, str_app_nil, expect_same by done. cbn [mbind option_bind].
  destruct l as [|kv l]; cbn [map] in *.
  - rewrite str_app_nil in *. rewrite Hv by (done || lens).
    cbn [mbind option_bind]. by rewrite expect_other, expect_same by done.
  - change (("," +:+ ?x) +:+ ?y) with (String "," (x +:+ y)) in *. cbn [String.length] in *.
    rewrite Hv by (done || lens). cbn [mbind option_bind].
    rewrite expect_same by done. rewrite IH by (done || lens). done.
Qed.

Lemma nesting_max {A} (g : A → N) (l : list A) m :
  (foldr (λ a n, N.max (g a) n) 0 l ≤ m)%N → Forall (λ a, (g a ≤ m)%N) l.
Proof. induction l as [|a l IH]; simpl; intros Hm; constructor; [lia|apply IH; lia]. Qed.

Lemma number_reads m d n t : numbers_ok (JNum m) = true → delimited t → parse_value (S n) d (m +:+ t) = Some (JNum m, t).
Proof.
  intros Hj Ht. cbn [numbers_ok] in Hj. apply bool_decide_eq_true in Hj. pose proof (read_number_app t Ht _ _ _ Hj) as Hr.
  rewrite str_app_nil in Hr. pose proof (read_number_head _ _ _ Hj) as (c & m' & -> & Hc).
  rewrite str_app_cons in *. cbn [parse_value].
  assert (is_ws c = false ∧ c ≠ q ∧ c ≠ "["%char ∧ c ≠ "{"%char ∧ c ≠ "t"%char ∧ c ≠ "f"%char ∧ c ≠ "n"%char)
    as (H1 & H2 & H3 & H4 & H5 & H6 & H7).
  { revert Hc. clear. destruct c as [[] [] [] [] [] [] [] []]; intros Hc; first [discriminate Hc|done]. }
  rewrite skip_ws_opens by done. rewrite !bool_decide_eq_false_2 by done.
  cbn [CutPrefix]. rewrite !decide_False by (by intros <-). by rewrite Hr.
Qed.

Lemma encode_reads j : ∀ d, numbers_ok j = true → (d + nesting j ≤ maxNestingDepth)%N → reads_as d (encode j) (sanitized j).
Proof.
  induction j as [|[]|m|s|l IH|l IH] using json_nested_ind; intros d Hj Hd [|n] t Ht Hn; try lia.
  - done.
  - done.
  - done.
  - by apply number_reads.
  - cbn [encode sanitized]. rewrite quote_parts. cbn [parse_value]. rewrite skip_ws_opens by done.
    rewrite bool_decide_eq_true_2 by done. rewrite read_quoted by lia. done.
  - cbn [encode sanitized numbers_ok nesting] in *. change (("[" +:+ ?x) +:+ ?y) with (String "[" (x +:+ y)) in *.
    rewrite str_app_assoc in *. change ("]" +:+ t) with (String "]" t) in *.
    cbn [parse_value]. rewrite skip_ws_opens by done. rewrite (bool_decide_eq_false_2 (_ = "034"%char)), bool_decide_eq_true_2 by done.
    destruct (N.ltb_spec maxNestingDepth (d + 1)); [lia|]. destruct l as [|j l].
    + cbn [map Join]. rewrite str_app_nil, expect_same by done. done.
    + assert (Forall2 (reads_as (d + 1)) (map encode (j :: l)) (map sanitized (j :: l))) as Hall.
      { apply Forall2_fmap, Forall_Forall2_diag, Forall_forall. intros x Hx. rewrite Forall_forall in IH. apply IH; [done| |].
        - rewrite forallb_forall in Hj. apply Hj. by apply list_elem_of_In.
        - eapply Forall_forall in Hx; [|apply (nesting_max nesting); reflexivity]. simpl in Hx, Hd. lia. }
      assert (expect "]" (Join (map encode (j :: l)) "," +:+ String "]" t) = None) as ->.
      { cbn [map]. rewrite Join_cons. destruct (encode_head j) as (c & s & -> & Ho); [by apply andb_true_iff in Hj as [? _]|].
        rewrite !str_app_cons. by apply expect_other; apply Ho. }
      rewrite (reads_items _ _ _ Hall) by (done || lens). done.
  - cbn [encode sanitized numbers_ok nesting] in *. change (("{" +:+ ?x) +:+ ?y) with (String "{" (x +:+ y)) in *.
    rewrite str_app_assoc in *. change ("}" +:+ t) with (String "}" t) in *.
    cbn [parse_value]. rewrite skip_ws_opens by done. rewrite !(bool_decide_eq_false_2 (_ = _)), bool_decide_eq_true_2 by done.
    destruct (N.ltb_spec maxNestingDepth (d + 1)); [lia|]. destruct l as [|kv l].
    + cbn [map Join]. rewrite str_app_nil, expect_same by done. done.
    + assert (Forall (λ kv, reads_as (d + 1) (encode kv.2) (sanitized kv.2)) (kv :: l)) as Hall.
      { apply Forall_forall. intros x Hx. rewrite Forall_forall in IH. apply IH; [done| |].
        - rewrite forallb_forall in Hj. apply (Hj x). by apply list_elem_of_In.
        - eapply Forall_forall in Hx; [|apply (nesting_max (λ kv, nesting kv.2)); reflexivity]. simpl in Hx, Hd. lia. }
      assert (∀ x, expect "}" (Join (map (λ kv, quote kv.1 +:+ ":" +:+ encode kv.2) (kv :: l)) "," +:+ x) = None) as ->.
      { intros x. cbn [map]. rewrite Join_cons, !str_app_assoc, quote_parts. by apply expect_other. }
      rewrite (reads_members _ _ _ _ Hall) by (done || lens). done.
Qed.

(** A document that is written and read back: its numbers are numbers, its
    strings are UTF-8, and it is not nested too deeply. *)
Definition document (j : json) : Prop :=
  numbers_ok j = true ∧ strings_ok j = true ∧ (nesting j ≤ maxNestingDepth)%N.
#[global] Instance document_dec j : Decision (document j) := _.

Lemma strings_sanitized j : strings_ok j = true → sanitized j = j.
Proof.
  induction j as [|b|m|s|l IH|l IH] using json_nested_ind; cbn [strings_ok sanitized]; try done; intros Hs.
  - by rewrite to_valid_id.
  - f_equal. induction IH as [|j l Hj _ IHl]; [done|]. simpl in *. apply andb_true_iff in Hs as [H1 H2].
    by rewrite Hj, IHl.
  - f_equal. induction IH as [|[k j] l Hj _ IHl]; [done|]. simpl in *. rewrite !andb_true_iff in Hs.
    destruct Hs as [[H1 H2] H3]. by rewrite to_valid_id, Hj, IHl.
Qed.

Lemma read_encoded j t : document j → delimited t →
  parse_value (2 * String.length (encode j +:+ t) + 2) 0 (encode j +:+ t) = Some (j, t).
Proof.
  intros (Hn & Hs & Hd) Ht. rewrite encode_reads by (done || lia). by rewrite strings_sanitized.
Qed.

Lemma parse_encode j : document j → parse (encode j) = Some j.
Proof.
  intros Hj. unfold parse. pose proof (read_encoded j "" Hj I) as He. rewrite str_app_nil_r in He. by rewrite He.
Qed.

(** What the encoder writes the parser reads back: the same document, except
    that bytes of its strings that are not UTF-8 have become U+FFFD. *)
Theorem json_text_roundtrip j :
  numbers_ok j = true → (nesting j ≤ maxNestingDepth)%N →
  parse (encode j) = Some (sanitized j) ∧ (strings_ok j = true → sanitized j = j).
Proof.
  intros Hn Hd. split; [|apply strings_sanitized]. unfold parse.
  pose proof (encode_reads j 0 Hn Hd (2 * String.length (encode j) + 2)%nat "" I) as He. rewrite str_app_nil_r in He.
  rewrite He by lia. done.
Qed.

(** ** Integers *)

Lemma to_uint_no_zero p d : Pos.to_uint p ≠ Decimal.D0 d.
Proof.
  intros Hd. pose proof (DecimalPos.Unsigned.to_of (Pos.to_uint p)) as Hu.
  rewrite DecimalPos.Unsigned.of_to in Hu. simpl in Hu.
  assert (Decimal.nzhead (Pos.to_uint p) = Decimal.Nil ∨ Decimal.nzhead (Pos.to_uint p) ≠ Decimal.Nil) as [Hz|Hz]
    by (destruct (Decimal.nzhead (Pos.to_uint p)); auto).
  - apply DecimalFacts.unorm_0 in Hz. rewrite Hz in Hu. by apply (DecimalPos.Unsigned.to_uint_nonzero p).
  - rewrite DecimalFacts.unorm_nzhead in Hu by done. rewrite Hd in Hu at 1. by apply (DecimalFacts.nzhead_nonzero (Pos.to_uint p) d).
Qed.

Lemma take_digits_all s : all_bytes is_digit s = true → take_digits s = (s, "").
Proof. induction s as [|c s IH]; [done|]. simpl. intros [-> Hs]%andb_true_iff. by rewrite IH. Qed.

Lemma read_number_digits sign s : sign = "" ∨ sign = "-" → all_bytes is_digit s = true → s ≠ "" →
  (∀ s', s = String "0" s' → s' = "") → read_number (sign +:+ s) = Some (sign +:+ s, "").
Proof.
  intros Hsign Hs Hne Hz.
  assert (maybe "-" (sign +:+ s) = (sign, s)) as Hm.
  { destruct Hsign as [-> | ->]; [|done]. rewrite str_app_nil. destruct s as [|c s]; [done|].
    unfold maybe. cbn [CutPrefix]. rewrite decide_False; [done|]. by intros <-. }
  rewrite read_number_parts, Hm. cbv beta iota zeta.
  assert (int_part s = Some (s, "")) as ->; [|cbn; by rewrite str_app_nil_r].
  destruct s as [|c s]; [done|]. unfold int_part. cbn [CutPrefix]. destruct (decide ("0"%char = c)) as [<-|Hc].
  - rewrite (Hz s eq_refl). done.
  - unfold digits. by rewrite take_digits_all.
Qed.

(** A printed integer is a number literal. *)
Lemma FormatInt_number z : read_number (Strconv.FormatInt z) = Some (Strconv.FormatInt z, "").
Proof.
  unfold Strconv.FormatInt. destruct z as [|p|p]; [done|..]; simpl;
    rewrite Strconv.nz_string_of_uint by apply DecimalPos.Unsigned.to_uint_nonnil.
  all: set (s := NilEmpty.string_of_uint (Pos.to_uint p)).
  1: change s with ("" +:+ s). 2: change (String "-" s) with ("-" +:+ s).
  all: apply read_number_digits; [auto|apply Strconv.string_of_uint_digits|..].
  1,3: subst s; pose proof (DecimalPos.Unsigned.to_uint_nonnil p); by destruct (Pos.to_uint p).
  all: intros s'; subst s; pose proof (to_uint_no_zero p); destruct (Pos.to_uint p); naive_solver.
Qed.

Lemma FormatInt_valid z : valid_utf8 (Strconv.FormatInt z) = true.
Proof.
  apply ascii_valid. eapply all_bytes_impl; [|apply Strconv.FormatInt_bytes].
  intros [[] [] [] [] [] [] [] []]; by vm_compute.
Qed.

Lemma hex_ascii s : all_bytes (between 0 127) (Encoding.hex_EncodeToString s) = true.
Proof.
  induction s as [|[b0 b1 b2 b3 b4 b5 b6 b7] s IH]; [done|].
  cbn [Encoding.hex_EncodeToString all_bytes]. rewrite IH.
  by destruct b0, b1, b2, b3, b4, b5, b6, b7.
Qed.

Lemma jint_number n : numbers_ok (JNum (Strconv.FormatInt n)) = true.
Proof. apply bool_decide_eq_true, FormatInt_number. Qed.

(** ** Messages on the wire *)

(** A request whose parts can be written: its strings are UTF-8, and its
    parameters are a document with room for the message around them. *)
Definition wire_ok (r : Request) : Prop :=
  request_ok r ∧ valid_utf8 (Method r) = true ∧
  match RequestID r with Some (StringID s) => valid_utf8 s = true | _ => True end ∧
  match Params r with
  | Some p => numbers_ok p = true ∧ strings_ok p = true ∧ (nesting p + 2 ≤ maxNestingDepth)%N
  | None => True
  end.

Lemma wire_document r : wire_ok r →
  numbers_ok (marshalRequest r) = true ∧ strings_ok (marshalRequest r) = true ∧
  (nesting (marshalRequest r) + 1 ≤ maxNestingDepth)%N.
Proof.
  intros ((Hv & _ & _) & Hm & Hid & Hp). unfold marshalRequest. rewrite Hv.
  destruct (Params r) as [p|], (RequestID r) as [[s|n|]|]; simpl in *; unfold marshalID; simpl;
    rewrite ?Hm, ?Hid, ?andb_true_r; try destruct Hp as (-> & -> & Hp);
    rewrite ?(bool_decide_eq_true_2 _ (FormatInt_number _)); split_and!; try done; unfold maxNestingDepth in *; lia.
Qed.

(** C37: a request that the gateway writes to an upstream is read from its bytes as
    the same request, and a batch of requests as the same batch. *)
Theorem wire_roundtrip rs :
  rs ≠ [] → Forall wire_ok rs →
  (∀ r, rs = [r] → ParseMessage (encode (marshalRequest r)) = (Ok [r], false)) ∧
  ParseMessage (encode (JArr (map marshalRequest rs))) = (Ok rs, true).
Proof.
  intros Hne Hall. split.
  - intros r ->. inv Hall as [|?? Hr _]. destruct (wire_document r Hr) as (H1 & H2 & H3).
    unfold ParseMessage. rewrite parse_encode by (split_and!; [done..|lia]).
    change (isBatch (encode (marshalRequest r))) with false. cbv iota. unfold parseSingle.
    rewrite parseOneRequest_marshal by apply Hr. done.
  - unfold ParseMessage. change (isBatch (encode (JArr _))) with true. cbv iota. rewrite parse_encode.
    + unfold parseBatch. simpl. destruct rs as [|r rs]; [done|]. f_equal. apply map_result_ok, Forall2_fmap_l.
      apply Forall_Forall2_diag. eapply Forall_impl; [exact Hall|]. intros x Hx. apply parseOneRequest_marshal, Hx.
    + assert (Forall (λ r, numbers_ok (marshalRequest r) = true ∧ strings_ok (marshalRequest r) = true ∧
        (nesting (marshalRequest r) + 1 ≤ maxNestingDepth)%N) rs) as Hd by (eapply Forall_impl; [exact Hall|apply wire_document]).
      clear Hne Hall. unfold document. cbn [numbers_ok strings_ok nesting].
      assert (foldr (λ j n, N.max (nesting j) n) 0 (map marshalRequest rs) + 1 ≤ maxNestingDepth)%N as Hn.
      { induction Hd as [|r rs (_ & _ & Hr) _ IH]; [done|]. cbn [map foldr]. lia. }
      split_and!; [..|lia]; clear Hn; induction Hd as [|r rs (H1 & H2 & _) _ IH]; cbn [map forallb]; by rewrite ?H1, ?H2.
Qed.

Lemma json_text_roundtrip_witness :
  let j := JObj [("a<b", JArr [JNum "-1.5e3"; JStr (utf8 233 +:+ String "010" "")])] in
  parse (encode j) = Some j.
Proof.
  intros j. destruct (json_text_roundtrip j) as [Hp Hs]; [by vm_compute|by vm_compute|]. rewrite Hp, Hs; [done|by vm_compute].
Defined.

Lemma wire_roundtrip_witness :
  ParseMessage (encode (JArr [marshalRequest sample_request; marshalRequest sample_request]))
  = (Ok [sample_request; sample_request], true).
Proof.
  apply (wire_roundtrip [sample_request; sample_request]); [done|]. repeat constructor; by vm_compute.
Defined.
