(* ===== verification/Transport.v ===== *)
(** * Upstream transports ([internal/transport], context values of [internal/auth/auth.go])

    - [Context]: the values that the request context carries.
    - [TransportResult], [Send], [readFinalResponse] and the SSE reader.
    - the interface [Transport], as a class over the transport's state: the
      resilience wrapper and the router are written against it.
    - [HTTPTransport], parametric in the HTTP client (the network). *)

From S2P Require Import Prelude GoLib Json JsonRpc.
Import GoStr.

(** ** Callers and context values *)

(** A [glob.Glob] is an interface with the one method [Match]. *)
Abbreviation Glob := (string → bool).

Record Caller := MkCaller {
  CallerName : string;
  Roles : list string;
  AllowedTools : list Glob;
}.

(** [Caller.CanAccessTool] *)
Fixpoint match_any (globs : list Glob) (toolName : string) : bool :=
  match globs with
  | [] => false
  | g :: globs => if g toolName then true else match_any globs toolName
  end.

Definition CanAccessTool (c : Caller) (toolName : string) : bool :=
  match_any (AllowedTools c) toolName.

(** The typed keys of the request context; the zero value is the result of a
    failed lookup. *)
Record Context := MkContext {
  ctxCaller : option Caller;
  ctxAuthMethod : string;
  ctxKeyLabel : string;
  ctxUpstreamToken : string;
}.

Definition Background : Context := MkContext None "" "" "".

Definition CallerFromContext (ctx : Context) : option Caller := ctxCaller ctx.
Definition AuthMethodFromContext (ctx : Context) : string := ctxAuthMethod ctx.
Definition KeyLabelFromContext (ctx : Context) : string := ctxKeyLabel ctx.
Definition UpstreamTokenFromContext (ctx : Context) : string := ctxUpstreamToken ctx.

Definition ContextWithCaller (ctx : Context) (c : Caller) : Context :=
  MkContext (Some c) (ctxAuthMethod ctx) (ctxKeyLabel ctx) (ctxUpstreamToken ctx).
Definition ContextWithAuthMethod (ctx : Context) (m : string) : Context :=
  MkContext (ctxCaller ctx) m (ctxKeyLabel ctx) (ctxUpstreamToken ctx).
Definition ContextWithKeyLabel (ctx : Context) (l : string) : Context :=
  MkContext (ctxCaller ctx) (ctxAuthMethod ctx) l (ctxUpstreamToken ctx).
Definition ContextWithUpstreamToken (ctx : Context) (t : string) : Context :=
  MkContext (ctxCaller ctx) (ctxAuthMethod ctx) (ctxKeyLabel ctx) t.

(** ** Errors *)

Inductive error :=
| ConnectError (msg : string)
| StatusError (code : Z)
| ErrCircuitOpen
| ContextError (msg : string)
| PlainError (msg : string).

Definition error_string (e : error) : string :=
  match e with
  | ConnectError m | ContextError m | PlainError m => m
  | StatusError c => "upstream returned status " +:+ Strconv.FormatInt c
  | ErrCircuitOpen => "upstream circuit open"
  end.

(** ** Tools *)

Record ToolSchema := MkTool {
  ToolName : string;
  Description : string;
  InputSchema : option json;
  Annotations : gmap string json;
}.

(** ** Server-sent events ([sse.go]) *)

(** What an [io.Reader] delivers: its bytes, then EOF ([None]) or an error. *)
Record Stream := MkStream { stream_data : string; stream_err : option string }.

Definition trimOneLeadingSpace (s : string) : string :=
  match CutPrefix " " s with Some r => r | None => s end.

Definition drop_cr (line : string) : string :=
  match String.length line with
  | O => line
  | S n => if decide (String.get n line = Some "013"%char) then String.substring 0 n line else line
  end.

(** The lines a [bufio.Scanner] yields: split at newlines, one trailing
    carriage return removed, a last unterminated line included if not empty.
    [cur] is the current line, reversed. *)
Fixpoint scan_lines (cur : string) (s : string) : list string :=
  match s with
  | EmptyString => if bool_decide (cur = "") then [] else [drop_cr cur]
  | String c s =>
      if bool_decide (c = "010"%char) then drop_cr cur :: scan_lines "" s
      else scan_lines (cur +:+ String c "") s
  end.

Record SSEEvent := MkEvent { Event : string; EventData : string }.

(** [SSEReader.Next]: consumes lines up to the end of one event. The second
    component is the lines left for the next call; [None] is the end of input. *)
Fixpoint Next (lines : list string) (event : SSEEvent) (hasFields : bool) : option (SSEEvent * list string) :=
  match lines with
  | [] => if hasFields then Some (event, []) else None
  | line :: lines =>
      if bool_decide (line = "") then
        if hasFields then Some (event, lines) else Next lines event hasFields
      else match CutPrefix "event:" line with
      | Some after => Next lines (MkEvent (trimOneLeadingSpace after) (EventData event)) true
      | None =>
          match CutPrefix "data:" line with
          | Some after =>
              let data := if bool_decide (EventData event = "") then EventData event
                          else EventData event +:+ String "010" "" in
              Next lines (MkEvent (Event event) (data +:+ trimOneLeadingSpace after)) true
          | None => Next lines event hasFields
          end
      end
  end.

Definition Next0 (lines : list string) := Next lines (MkEvent "" "") false.

(** The scanner's buffer: a longer line is an error. *)
Definition max_line : Z := 1048576.
Definition short_line (l : string) : bool := Z.of_nat (String.length l) <? max_line.

(** All events of a list of lines; every event uses at least one line. *)
Fixpoint read_events (fuel : nat) (lines : list string) : list SSEEvent :=
  match fuel with
  | O => []
  | S fuel =>
      match Next0 lines with
      | Some (e, rest) => e :: read_events fuel rest
      | None => []
      end
  end.

(** [readFinalResponse]: the last event named "message" (or unnamed) whose
    data is a JSON-RPC response. *)
Definition event_response (e : SSEEvent) : option Response :=
  if bool_decide (Event e = "message") || bool_decide (Event e = "")
  then parse (EventData e) ≫= Response_UnmarshalJSON
  else None.

Definition readFinalResponse (s : Stream) : result error Response :=
  let lines := scan_lines "" (stream_data s) in
  if forallb short_line lines && match stream_err s with Some _ => false | None => true end then
    match last (omap event_response (read_events (S (length lines)) lines)) with
    | Some r => Ok r
    | None => Err (PlainError "transport: no JSON-RPC response found in SSE stream")
    end
  else Err (PlainError "transport: read SSE event").

(** ** Results *)

Inductive TransportResult :=
| JSONResult (response : Response)
| StreamResult (stream : Stream).

Definition ContentType (r : TransportResult) : string :=
  match r with JSONResult _ => "application/json" | StreamResult _ => "text/event-stream" end.

Definition Resolve (r : TransportResult) : result error Response :=
  match r with
  | JSONResult resp => Ok resp
  | StreamResult s => readFinalResponse s
  end.

(** ** The interface *)

(** [Transport]: a round trip may change the transport's state. *)
Class Transport (T : Type) := {
  RoundTrip : Context → Request → T → T * result error TransportResult;
  CloseTransport : T → T;
  Healthy : T → bool;
}.

(** [Send] *)
Definition Send `{Transport T} (ctx : Context) (t : T) (req : Request) : T * result error Response :=
  match RoundTrip ctx req t with
  | (t, Ok r) => (t, Resolve r)
  | (t, Err e) => (t, Err e)
  end.

(** ** HTTP transport ([http.go]) *)

Record HTTPRequest := MkHTTPRequest {
  reqURL : string;
  reqHeaders : gmap string string;
  reqBody : json;
}.

Record HTTPResponse := MkHTTPResponse {
  StatusCode : Z;
  respHeaders : gmap string string;
  respBody : Stream;
}.

(** The HTTP client and the network behind it: whether [http.NewRequest] accepts
    a URL, and a state [N] and what one exchange yields (an error is a
    connection-level failure). *)
Class HTTPClient (N : Type) := {
  request_error : string → option string;
  Do : HTTPRequest → N → N * result string HTTPResponse;
}.

Record HTTPTransport (N : Type) := MkHTTP {
  url : string;
  token : string;
  client : N;
  consecutiveFails : Z;
  failThreshold : Z;
  healthy : bool;
}.
Arguments MkHTTP {N}.
Arguments url {N}. Arguments token {N}. Arguments client {N}.
Arguments consecutiveFails {N}. Arguments failThreshold {N}. Arguments healthy {N}.

Section http.
Context {N : Type} `{HTTPClient N}.
Implicit Types t : HTTPTransport N.

(** [NewHTTPTransport]: the static token is read from the environment. *)
Definition NewHTTPTransport (getenv : string → string) (u : string) (tokenEnv : option string) (n : N) :
    HTTPTransport N :=
  let tok := match tokenEnv with
    | Some env => if bool_decide (env = "") then "" else getenv env
    | None => "" end in
  MkHTTP u tok n 0 3 true.

(** [recordFailure] *)
Definition recordFailure t : HTTPTransport N :=
  let fails := consecutiveFails t + 1 in
  MkHTTP (url t) (token t) (client t) fails (failThreshold t)
    (if failThreshold t <=? fails then false else healthy t).

(** [recordSuccess] *)
Definition recordSuccess t : HTTPTransport N :=
  MkHTTP (url t) (token t) (client t) 0 (failThreshold t) true.

Definition set_client t (n : N) : HTTPTransport N :=
  MkHTTP (url t) (token t) n (consecutiveFails t) (failThreshold t) (healthy t).

Definition maxResponseBody : Z := 10485760.

(** The headers of an outbound request: the token of the context, from the
    OAuth flow, has priority over the static one. *)
Definition outboundHeaders (ctx : Context) t : gmap string string :=
  let h := <["Accept" := "application/json, text/event-stream"]>
             (<["Content-Type" := "application/json"]> ∅) in
  let perReqToken := UpstreamTokenFromContext ctx in
  if negb (bool_decide (perReqToken = "")) then <["Authorization" := "Bearer " +:+ perReqToken]> h
  else if negb (bool_decide (token t = "")) then <["Authorization" := "Bearer " +:+ token t]> h
  else h.

(** Reading a non-streaming body. *)
Definition readJSONBody (body : Stream) : result error TransportResult :=
  if maxResponseBody <? Z.of_nat (String.length (stream_data body))
  then Err (PlainError "transport/http: response body too large")
  else match stream_err body with
  | Some e => Err (PlainError ("transport/http: read response body: " +:+ e))
  | None =>
      match parse (stream_data body) ≫= Response_UnmarshalJSON with
      | Some r => Ok (JSONResult r)
      | None => Err (PlainError "transport/http: unmarshal response")
      end
  end.

(** [HTTPTransport.RoundTrip] *)
Definition HTTP_RoundTrip (ctx : Context) (req : Request) t : HTTPTransport N * result error TransportResult :=
  match request_error (url t) with
  | Some e => (t, Err (PlainError ("transport/http: create request: " +:+ e)))
  | None =>
      let httpReq := MkHTTPRequest (url t) (outboundHeaders ctx t) (marshalRequest req) in
      match Do httpReq (client t) with
      | (n, Err e) =>
          (recordFailure (set_client t n), Err (ConnectError ("transport/http: send request: " +:+ e)))
      | (n, Ok resp) =>
          let t := set_client t n in
          if (StatusCode resp <? 200) || (300 <=? StatusCode resp) then
            (if 500 <=? StatusCode resp then recordFailure t else recordSuccess t,
             Err (StatusError (StatusCode resp)))
          else
            let t := recordSuccess t in
            let ct := default "" (respHeaders resp !! "Content-Type") in
            if HasPrefix ct "text/event-stream" then (t, Ok (StreamResult (respBody resp)))
            else (t, readJSONBody (respBody resp))
      end
  end.

#[global] Instance HTTPTransport_Transport : Transport (HTTPTransport N) := {|
  RoundTrip := HTTP_RoundTrip;
  CloseTransport := λ t, t;
  Healthy := healthy;
|}.
End http.

(** ** Properties of the SSE reader *)

(** The lines of one event as a server writes it. *)
Definition format_event (name : option string) (ds : list string) : list string :=
  match name with Some n => ["event: " +:+ n] | None => [] end
  ++ ((λ d, "data: " +:+ d) <$> ds) ++ [""].

Definition newline : string := String "010" "".

Definition unlines (ls : list string) : string := foldr (λ l s, l +:+ newline +:+ s) "" ls.

(** A line as a scanner can return it: no newline, no carriage return. *)
Definition plain_line (l : string) : bool := no_byte "010" l && no_byte "013" l.

Lemma Next_data_lines ds rest ev b :
  Forall (λ d, d ≠ "") ds → EventData ev ≠ "" →
  Next (((λ d, "data: " +:+ d) <$> ds) ++ "" :: rest) ev b =
    match ds with
    | [] => if b then Some (ev, rest) else Next rest ev b
    | _ => Some (MkEvent (Event ev) (foldl (λ acc d, acc +:+ newline +:+ d) (EventData ev) ds), rest)
    end.
Proof.
  revert ev b. induction ds as [|d ds IH]; intros ev b Hds Hev; [done|].
  inv Hds. cbn [fmap list_fmap app Next].
  rewrite bool_decide_eq_false_2 by done.
  change (CutPrefix "event:" ("data: " +:+ d)) with (@None string). cbn iota.
  change (CutPrefix "data:" ("data: " +:+ d)) with (Some (" " +:+ d)). cbn iota zeta.
  change (trimOneLeadingSpace (" " +:+ d)) with d.
  rewrite bool_decide_eq_false_2 by done.
  rewrite IH; [|done|].
  - unfold newline. destruct ds as [|d' ds]; cbn [Event EventData foldl]; by rewrite !str_app_assoc.
  - cbn [EventData]. destruct (EventData ev); [done|]. done.
Qed.

(** One written event is read back: its name, its data lines joined by
    newlines, and the lines after it untouched. *)
Lemma Next_format name d ds rest :
  d ≠ "" → Forall (λ d, d ≠ "") ds →
  Next0 (format_event name (d :: ds) ++ rest) =
    Some (MkEvent (default "" name) (foldl (λ acc d, acc +:+ newline +:+ d) d ds), rest).
Proof.
  intros Hd Hds. unfold Next0, format_event.
  assert (∀ ev, EventData ev = "" → ∀ b,
    Next ((((λ d, "data: " +:+ d) <$> d :: ds) ++ [""]) ++ rest) ev b =
    Some (MkEvent (Event ev) (foldl (λ acc d, acc +:+ newline +:+ d) d ds), rest)) as Hdata.
  { intros ev Hev b. rewrite <- app_assoc. cbn [fmap list_fmap app Next].
    rewrite bool_decide_eq_false_2 by done.
    change (CutPrefix "event:" ("data: " +:+ d)) with (@None string). cbn iota.
    change (CutPrefix "data:" ("data: " +:+ d)) with (Some (" " +:+ d)). cbn iota zeta.
    change (trimOneLeadingSpace (" " +:+ d)) with d.
    rewrite bool_decide_eq_true_2 by done. rewrite Hev, str_app_nil.
    rewrite Next_data_lines by done. by destruct ds. }
  destruct name as [n|].
  - rewrite <- app_assoc. cbn [app Next]. rewrite bool_decide_eq_false_2 by done.
    change (CutPrefix "event:" ("event: " +:+ n)) with (Some (" " +:+ n)). cbn iota.
    change (trimOneLeadingSpace (" " +:+ n)) with n. by rewrite Hdata.
  - cbn [app]. by rewrite Hdata.
Qed.

Lemma get_no_byte c n l : no_byte c l = true → String.get n l ≠ Some c.
Proof.
  revert n. induction l as [|d l IH]; intros n; [done|].
  intros [Hd Hl]%no_byte_cons. destruct n as [|n]; simpl; [congruence|auto].
Qed.

Lemma drop_cr_plain l : no_byte "013" l = true → drop_cr l = l.
Proof.
  intros H. unfold drop_cr. destruct (String.length l); [done|].
  rewrite decide_False; [done|]. by apply get_no_byte.
Qed.

Lemma scan_lines_app cur l s :
  no_byte "010" l = true →
  scan_lines cur (l +:+ newline +:+ s) = drop_cr (cur +:+ l) :: scan_lines "" s.
Proof.
  revert cur. induction l as [|c l IH]; intros cur Hl.
  - unfold newline. rewrite str_app_nil, str_app_nil_r, str_app_cons. cbn [scan_lines].
    by rewrite bool_decide_eq_true_2.
  - apply no_byte_cons in Hl as [Hc Hl]. rewrite !str_app_cons. cbn [scan_lines].
    rewrite bool_decide_eq_false_2 by done. rewrite IH by done.
    by rewrite str_app_assoc.
Qed.

(** The scanner returns the lines that were written. *)
Lemma scan_unlines ls :
  Forall (λ l, plain_line l = true) ls → scan_lines "" (unlines ls) = ls.
Proof.
  induction 1 as [|l ls Hl _ IH]; [done|]. unfold plain_line in Hl.
  apply andb_true_iff in Hl as [H10 H13].
  change (unlines (l :: ls)) with (l +:+ newline +:+ unlines ls).
  rewrite scan_lines_app by done. rewrite str_app_nil, drop_cr_plain by done. by rewrite IH.
Qed.

(** An event to be written: a name, and at least one line of data. *)
Record event_source := Source { src_name : option string; src_data : string; src_more : list string }.

Definition source_lines (e : event_source) : list string :=
  format_event (src_name e) (src_data e :: src_more e).

Definition source_event (e : event_source) : SSEEvent :=
  MkEvent (default "" (src_name e)) (foldl (λ acc d, acc +:+ newline +:+ d) (src_data e) (src_more e)).

Definition source_ok (e : event_source) : Prop :=
  src_data e ≠ "" ∧ Forall (λ d, d ≠ "") (src_more e).

Lemma read_events_sources es fuel :
  Forall source_ok es → (length es < fuel)%nat →
  read_events fuel (mjoin (source_lines <$> es)) = source_event <$> es.
Proof.
  intros Hes. revert fuel. induction Hes as [|e es [Hd Hds] _ IH]; intros fuel Hf.
  - destruct fuel; [lia|]. done.
  - destruct fuel as [|fuel]; [lia|]. 
    change (mjoin (source_lines <$> e :: es)) with (source_lines e ++ mjoin (source_lines <$> es)).
    cbn [read_events]. unfold source_lines at 1. rewrite Next_format by done.
    rewrite IH by (simpl in Hf; lia). done.
Qed.

Lemma length_source_lines es : (length es ≤ length (mjoin (source_lines <$> es)))%nat.
Proof.
  induction es as [|e es IH]; [simpl; lia|].
  change (mjoin (source_lines <$> e :: es)) with (source_lines e ++ mjoin (source_lines <$> es)).
  rewrite length_app. enough (0 < length (source_lines e))%nat by (cbn [length]; lia).
  unfold source_lines, format_event. rewrite !length_app. simpl length. lia.
Qed.

(** A streaming upstream response resolves to the last "message" (or
    unnamed) event that carries a JSON-RPC response: for any sequence of
    events written as server-sent events, [Resolve] returns that response, and
    an error exactly when no event carries one. *)
Theorem stream_resolves_to_last es :
  Forall source_ok es →
  Forall (λ l, plain_line l = true ∧ short_line l = true) (mjoin (source_lines <$> es)) →
  Resolve (StreamResult (MkStream (unlines (mjoin (source_lines <$> es))) None)) =
    match last (omap event_response (source_event <$> es)) with
    | Some r => Ok r
    | None => Err (PlainError "transport: no JSON-RPC response found in SSE stream")
    end.
Proof.
  intros Hok Hlines. unfold Resolve, readFinalResponse. cbn [stream_data stream_err].
  rewrite scan_unlines by (eapply Forall_impl; [exact Hlines|naive_solver]).
  assert (forallb short_line (mjoin (source_lines <$> es)) = true) as ->.
  { apply forallb_forall. intros l Hl%list_elem_of_In. rewrite Forall_forall in Hlines.
    by apply Hlines. }
  simpl andb. rewrite read_events_sources; [done|done|].
  pose proof (length_source_lines es). lia.
Qed.

Definition sample_events : list event_source :=
  [ Source (Some "progress") "{}" [];
    Source (Some "message") ("{" +:+ quoted "jsonrpc" +:+ ":" +:+ quoted "2.0" +:+ ",") [quoted "result" +:+ ":{}}"] ].

Lemma stream_resolves_to_last_witness :
  Resolve (StreamResult (MkStream (unlines (mjoin (source_lines <$> sample_events))) None)) =
    Ok (MkResponse "2.0" (Some (JObj [])) None None).
Proof.
  rewrite stream_resolves_to_last.
  - vm_compute. reflexivity.
  - repeat constructor; done.
  - repeat constructor; done.
Defined.

(** ** Properties of the HTTP transport *)

Section http_props.
Context {N : Type} `{HTTPClient N}.
Implicit Types t : HTTPTransport N.

(** An exchange that counts against the upstream: a connection failure or a
    server error. *)
Definition exchange_failed (r : result error TransportResult) : bool :=
  match r with
  | Err (ConnectError _) => true
  | Err (StatusError c) => 500 <=? c
  | _ => false
  end.

(** The request could not be made, so there was no exchange. *)
Definition not_sent (r : result error TransportResult) : bool :=
  match r with Err (PlainError m) => HasPrefix m "transport/http: create request: " | _ => false end.

(** The failures since the last exchange that did not fail. *)
Fixpoint leading_failures (rs : list (result error TransportResult)) : Z :=
  match rs with
  | r :: rs => if not_sent r then leading_failures rs else if exchange_failed r then leading_failures rs + 1 else 0
  | [] => 0
  end.

(** A sequence of round trips: the final state, and the results with the
    most recent first. *)
Fixpoint run_requests (reqs : list (Context * Request)) t
    (acc : list (result error TransportResult)) : HTTPTransport N * list (result error TransportResult) :=
  match reqs with
  | [] => (t, acc)
  | (ctx, req) :: reqs => let '(t, r) := RoundTrip ctx req t in run_requests reqs t (r :: acc)
  end.

Definition health_inv t (rs : list (result error TransportResult)) : Prop :=
  consecutiveFails t = leading_failures rs ∧
  healthy t = (consecutiveFails t <? failThreshold t).

Lemma leading_failures_nonneg rs : 0 ≤ leading_failures rs.
Proof. induction rs as [|r rs IH]; simpl; [lia|]. destruct (not_sent r), (exchange_failed r); lia. Qed.

Lemma failed_sent r : exchange_failed r = true → not_sent r = false.
Proof. by destruct r as [|[]]. Qed.

Lemma recordFailure_inv t rs r :
  health_inv t rs → exchange_failed r = true → health_inv (recordFailure t) (r :: rs).
Proof.
  intros [Hc Hh] Hr. split; simpl; [rewrite (failed_sent r Hr), Hr; lia|].
  rewrite Hh. destruct (Z.leb_spec (failThreshold t) (consecutiveFails t + 1)); lia.
Qed.

Lemma recordSuccess_inv t rs r :
  0 < failThreshold t → exchange_failed r = false → not_sent r = false → health_inv (recordSuccess t) (r :: rs).
Proof. intros Ht Hr Hs. split; simpl; [by rewrite Hs, Hr|lia]. Qed.

Lemma readJSONBody_not_failed body : exchange_failed (readJSONBody body) = false ∧ not_sent (readJSONBody body) = false.
Proof. unfold readJSONBody. repeat case_match; done. Qed.

Lemma HTTP_RoundTrip_inv ctx req t rs :
  0 < failThreshold t → health_inv t rs →
  health_inv (HTTP_RoundTrip ctx req t).1 ((HTTP_RoundTrip ctx req t).2 :: rs) ∧
  failThreshold (HTTP_RoundTrip ctx req t).1 = failThreshold t.
Proof.
  intros Ht Hinv. unfold HTTP_RoundTrip. destruct (request_error (url t)) as [e|]; [by destruct Hinv|].
  destruct (Do _ _) as [n [resp|e]]; simpl; [|split; [by apply recordFailure_inv|done]].
  destruct (_ || _); simpl.
  - destruct (500 <=? StatusCode resp) eqn:E5; (split; [|done]).
    + by apply recordFailure_inv.
    + by apply recordSuccess_inv.
  - destruct (HasPrefix _ _); simpl; (split; [|done]); apply recordSuccess_inv; try done; apply readJSONBody_not_failed.
Qed.

Lemma run_requests_inv reqs t rs :
  0 < failThreshold t → health_inv t rs →
  health_inv (run_requests reqs t rs).1 (run_requests reqs t rs).2 ∧
  failThreshold (run_requests reqs t rs).1 = failThreshold t.
Proof.
  revert t rs. induction reqs as [|[ctx req] reqs IH]; intros t rs Ht Hinv; [done|].
  cbn [run_requests RoundTrip HTTPTransport_Transport].
  destruct (HTTP_RoundTrip_inv ctx req t rs Ht Hinv) as [H1 H2].
  destruct (HTTP_RoundTrip ctx req t) as [t' r]; simpl in *.
  destruct (IH t' (r :: rs)) as [H3 H4]; [lia|done|]. split; [done|congruence].
Qed.
End http_props.

(** A fresh HTTP transport reports healthy after any sequence of round
    trips unless the three most recent exchanges all failed (connection
    failure or status 500 and above); one other outcome makes it healthy again. A
    request that cannot be made does not count. *)
Theorem http_healthy_iff {N} `{HTTPClient N} getenv u tok (n : N) reqs :
  let '(t, results) := run_requests reqs (NewHTTPTransport getenv u tok n) [] in
  Healthy t = true ↔ leading_failures results < 3.
Proof.
  destruct (run_requests_inv reqs (NewHTTPTransport getenv u tok n) []) as [[Hc Hh] Ht]; [done|done|].
  destruct (run_requests _ _ _) as [t rs]. simpl in *. rewrite Hh, Hc, Ht. lia.
Qed.

(** ** A transport that answers from a list, for runs on concrete inputs *)

Abbreviation script := (list (result error TransportResult)).

Definition scripted : Transport script := {|
  RoundTrip _ _ l := match l with r :: l => (l, r) | [] => ([], Err (PlainError "end of script")) end;
  CloseTransport l := l;
  Healthy _ := true;
|}.

Definition reply (j : json) : result error TransportResult :=
  Ok (JSONResult (MkResponse Version (Some j) None None)).
