(* ===== verification/Http.v ===== *)
(** * What the HTTP handlers share: URLs, cookies, requests and replies

    Of [net/url]: escaping of query values and of path segments, with their round
    trips. Of [net/http]: the target of a request as a list of unescaped path
    segments, the way the mux matches it; cookies as a browser keeps them.
    [Request] and [Reply] are what an admin handler reads and what it sends. *)

From S2P Require Import Prelude GoLib Json JsonText.
Import GoStr.

(** ** Escaping *)

Definition upper_hex : string := "0123456789ABCDEF".

Definition hex_digit (n : N) : ascii := default "0"%char (String.get (N.to_nat n) upper_hex).

Definition pct (c : ascii) (rest : string) : string :=
  String "%" (String (hex_digit (N_of_ascii c / 16)) (String (hex_digit (N_of_ascii c mod 16)) rest)).

(** [shouldEscape] is false for these. *)
Definition unreserved (c : ascii) : bool :=
  is_lower c || is_upper c || is_digit c || bool_decide (c = "-"%char) || bool_decide (c = "_"%char)
  || bool_decide (c = "."%char) || bool_decide (c = "~"%char).

(** [url.QueryEscape] *)
Fixpoint QueryEscape (s : string) : string :=
  match s with
  | EmptyString => ""
  | String c s =>
      if unreserved c then String c (QueryEscape s)
      else if bool_decide (c = " "%char) then String "+" (QueryEscape s)
      else pct c (QueryEscape s)
  end.

(** [url.PathEscape] *)
Fixpoint PathEscape (s : string) : string :=
  match s with
  | EmptyString => ""
  | String c s =>
      if unreserved c || existsb (Ascii.eqb c) ["$"; "&"; "+"; "="; ":"; "@"]%char then String c (PathEscape s)
      else pct c (PathEscape s)
  end.

(** [unescape] of [net/url]; [plus]: a plus sign is a space. *)
Fixpoint unescape (plus : bool) (s : string) : option string :=
  match s with
  | EmptyString => Some ""
  | String c s1 =>
      if bool_decide (c = "%"%char) then
        match s1 with
        | String a (String b s2) =>
            ha ← hex_value a; hb ← hex_value b; r ← unescape plus s2;
            Some (String (ascii_of_N (ha * 16 + hb)) r)
        | _ => None
        end
      else
        r ← unescape plus s1;
        Some (String (if plus && bool_decide (c = "+"%char) then " "%char else c) r)
  end.

Definition QueryUnescape : string → option string := unescape true.
Definition PathUnescape : string → option string := unescape false.

Lemma unescape_pct plus c s r : unescape plus s = Some r → unescape plus (pct c s) = Some (String c r).
Proof.
  intros H. unfold pct. cbn [unescape]. rewrite bool_decide_eq_true_2 by done.
  assert (∃ ha hb, hex_value (hex_digit (N_of_ascii c / 16)) = Some ha ∧
    hex_value (hex_digit (N_of_ascii c mod 16)) = Some hb ∧ ascii_of_N (ha * 16 + hb) = c) as (ha & hb & -> & -> & <-).
  { destruct c as [[] [] [] [] [] [] [] []]; do 2 eexists; split_and!; vm_compute; reflexivity. }
  cbn [mbind option_bind]. by rewrite H.
Qed.

Lemma unreserved_plain c : unreserved c = true → c ≠ "%"%char ∧ c ≠ "+"%char.
Proof. intros H. split; intros ->; done. Qed.

(** What is escaped for a query is read back. *)
Lemma QueryUnescape_Escape s : QueryUnescape (QueryEscape s) = Some s.
Proof.
  unfold QueryUnescape. induction s as [|c s IH]; [done|]. cbn [QueryEscape].
  destruct (unreserved c) eqn:Hu.
  - apply unreserved_plain in Hu as [H1 H2]. cbn [unescape]. rewrite bool_decide_eq_false_2, IH by done. simpl.
    by rewrite bool_decide_eq_false_2.
  - case_bool_decide as Hsp.
    + subst. cbn [unescape]. rewrite bool_decide_eq_false_2, IH by done. done.
    + by apply unescape_pct.
Qed.

Lemma PathUnescape_plain s : no_byte "%" s = true → PathUnescape s = Some s.
Proof.
  unfold PathUnescape. induction s as [|c s IH]; [done|]. intros [Hc Hs]%no_byte_cons.
  cbn [unescape]. rewrite bool_decide_eq_false_2, IH by done. done.
Qed.

(** ** Request targets *)

(** [strings.Split] at a byte. *)
Fixpoint split_byte (sep : ascii) (s : string) : list string :=
  match s with
  | EmptyString => [""]
  | String c s =>
      if bool_decide (c = sep) then "" :: split_byte sep s
      else match split_byte sep s with
           | [] => [String c ""]
           | w :: ws => String c w :: ws
           end
  end.

Lemma split_byte_nonempty sep s : split_byte sep s ≠ [].
Proof. destruct s as [|c s]; simpl; [done|]. case_bool_decide; [done|]. by destruct (split_byte sep s). Qed.

Lemma split_byte_plain sep s : no_byte sep s = true → split_byte sep s = [s].
Proof.
  induction s as [|c s IH]; [done|]. intros [Hc Hs]%no_byte_cons. simpl.
  by rewrite bool_decide_eq_false_2, IH.
Qed.

Lemma split_byte_app sep s t : no_byte sep s = true →
  split_byte sep (s +:+ String sep t) = s :: split_byte sep t.
Proof.
  induction s as [|c s IH]; intros Hs.
  - simpl. by rewrite bool_decide_eq_true_2.
  - apply no_byte_cons in Hs as [Hc Hs]. rewrite str_app_cons. cbn [split_byte].
    by rewrite bool_decide_eq_false_2, IH.
Qed.

Definition is_ctl (c : ascii) : bool := between 0 31 c || between 127 127 c.

Definition cut_at (sep : ascii) (s : string) : string * string :=
  match Cut sep s with Some (a, b) => (a, b) | None => (s, "") end.

(** The segments of the path of a target, still escaped, and its raw query;
    [None]: [http.NewRequest] refuses the URL. *)
Definition raw_target (target : string) : option (list string * string) :=
  if negb (all_bytes (λ c, negb (is_ctl c)) target) then None else
  let '(rest, _) := cut_at "#" target in
  let '(path, query) := cut_at "?" rest in
  match path with
  | String c p => if bool_decide (c = "/"%char) then Some (split_byte "/" p, query) else None
  | EmptyString => None
  end.

(** [cleanPath] changes nothing. *)
Fixpoint clean_segments (segs : list string) : bool :=
  match segs with
  | [] => true
  | [s] => negb (bool_decide (s = ".") || bool_decide (s = ".."))
  | s :: segs => negb (bool_decide (s = "") || bool_decide (s = ".") || bool_decide (s = "..")) && clean_segments segs
  end.

(** The segments of the cleaned path: [path.Clean], with a slash at the end put
    back. *)
Fixpoint clean_stack (acc segs : list string) : list string :=
  match segs with
  | [] => reverse acc
  | s :: segs =>
      if bool_decide (s = "") || bool_decide (s = ".") then clean_stack acc segs
      else if bool_decide (s = "..") then clean_stack (tail acc) segs
      else clean_stack (s :: acc) segs
  end.

Definition clean_path (segs : list string) : list string :=
  let body := clean_stack [] segs in
  if bool_decide (last segs = Some "") || bool_decide (body = []) then body ++ [""] else body.

(** A redirect of the mux goes to the cleaned path, whose escapes are escaped
    again: its segments are the escaped ones of the request. *)
Inductive target :=
| BadURL
| Unclean (cleaned : list string) (query : string)
| Clean (segments : list string) (query : string).

Definition parse_target (s : string) : target :=
  match raw_target s with
  | None => BadURL
  | Some (raw, q) =>
      match mapM PathUnescape raw with
      | None => BadURL
      | Some segs => if clean_segments raw then Clean segs q else Unclean (clean_path raw) q
      end
  end.

(** A name that stands for itself as one segment of a path. *)
Definition segment_byte (c : ascii) : bool :=
  negb (is_ctl c) && negb (bool_decide (c = "/"%char)) && negb (bool_decide (c = "?"%char))
  && negb (bool_decide (c = "#"%char)) && negb (bool_decide (c = "%"%char)).
Definition plain_segment (s : string) : bool :=
  all_bytes segment_byte s && negb (bool_decide (s = "")) && negb (bool_decide (s = ".")) && negb (bool_decide (s = "..")).

(** The path that consists of the given segments. *)
Fixpoint join_path (segs : list string) : string :=
  match segs with [] => "" | s :: segs => "/" +:+ s +:+ join_path segs end.

Lemma cut_at_plain sep s : no_byte sep s = true → cut_at sep s = (s, "").
Proof. intros H. unfold cut_at. by rewrite Cut_no_byte. Qed.

Lemma plain_segment_spec s : plain_segment s = true →
  all_bytes segment_byte s = true ∧ s ≠ "" ∧ s ≠ "." ∧ s ≠ "..".
Proof.
  unfold plain_segment. rewrite !andb_true_iff, !negb_true_iff, !bool_decide_eq_false. tauto.
Qed.

Lemma segment_bytes_no c s : segment_byte c = false → all_bytes segment_byte s = true → no_byte c s = true.
Proof.
  intros Hc. apply all_bytes_impl. intros d Hd. apply negb_true_iff, bool_decide_eq_false. intros ->. congruence.
Qed.

(** A byte of a path made of plain segments. *)
Definition path_byte (c : ascii) : bool := segment_byte c || bool_decide (c = "/"%char).

Lemma join_path_bytes segs : Forall (λ s, plain_segment s = true) segs → all_bytes path_byte (join_path segs) = true.
Proof.
  induction 1 as [|s segs Hs _ IH]; [done|]. cbn [join_path]. rewrite !all_bytes_app, IH, !andb_true_iff.
  split_and!; [done| |done]. apply plain_segment_spec in Hs as [Hs _]. revert Hs. apply all_bytes_impl.
  intros c Hc. unfold path_byte. by rewrite Hc.
Qed.

Lemma split_join s segs :
  Forall (λ s, plain_segment s = true) (s :: segs) → split_byte "/" (s +:+ join_path segs) = s :: segs.
Proof.
  revert s. induction segs as [|s' segs IH]; intros s Hall; inv Hall as [|?? Hs Hsegs];
    apply plain_segment_spec in Hs as (Hb & _); apply (segment_bytes_no "/") in Hb; try done.
  - cbn [join_path]. rewrite str_app_nil_r. by apply split_byte_plain.
  - change (join_path (s' :: segs)) with (String "/" (s' +:+ join_path segs)).
    by rewrite split_byte_app, IH.
Qed.

Lemma clean_plain segs : Forall (λ s, plain_segment s = true) segs → clean_segments segs = true.
Proof.
  induction 1 as [|s segs (Hb & H1 & H2 & H3)%plain_segment_spec _ IH]; [done|].
  cbn [clean_segments]. rewrite !bool_decide_eq_false_2 by done. by destruct segs.
Qed.

(** A path of plain segments reaches the mux as these segments. *)
Lemma parse_target_path s segs : Forall (λ s, plain_segment s = true) (s :: segs) →
  parse_target (join_path (s :: segs)) = Clean (s :: segs) "".
Proof.
  intros Hall. pose proof (join_path_bytes _ Hall) as Hb. unfold parse_target, raw_target.
  assert (∀ c, path_byte c = false → no_byte c (join_path (s :: segs)) = true) as Hno.
  { intros c Hc. revert Hb. apply all_bytes_impl. intros d Hd.
    apply negb_true_iff, bool_decide_eq_false. intros ->. congruence. }
  assert (all_bytes (λ c, negb (is_ctl c)) (join_path (s :: segs)) = true) as ->.
  { revert Hb. apply all_bytes_impl. intros c Hc. destruct (is_ctl c) eqn:E; [|done].
    unfold path_byte, segment_byte in Hc. rewrite E in Hc. simpl in Hc. by apply bool_decide_eq_true in Hc as ->. }
  cbn [negb]. rewrite cut_at_plain by (by apply Hno). cbv beta iota zeta.
  rewrite cut_at_plain by (by apply Hno). cbv beta iota zeta.
  change (join_path (s :: segs)) with (String "/" (s +:+ join_path segs)). cbv beta iota zeta.
  rewrite bool_decide_eq_true_2 by done.
  rewrite split_join by done.
  assert (mapM PathUnescape (s :: segs) = Some (s :: segs)) as ->.
  { apply mapM_Some_2. clear -Hall. induction Hall as [|x l (Hx & _)%plain_segment_spec _ IH]; constructor; [|done].
    apply PathUnescape_plain. by apply (segment_bytes_no "%") in Hx. }
  by rewrite clean_plain.
Qed.

(** ** Values of queries and forms *)

(** The pairs of [url.ParseQuery]; what it cannot read it leaves out. *)
Definition query_pair (kv : string) : option (string * string) :=
  if bool_decide (kv = "") || negb (no_byte ";" kv) then None else
  let '(k, v) := cut_at "=" kv in
  k ← QueryUnescape k; v ← QueryUnescape v; Some (k, v).

Definition query_pairs (raw : string) : list (string * string) := omap query_pair (split_byte "&" raw).

(** [Values.Get] *)
Definition Get (raw key : string) : string :=
  match List.find (λ kv, bool_decide (kv.1 = key)) (query_pairs raw) with Some kv => kv.2 | None => "" end.

(** ** Requests and replies *)

Record Cookie := MkCookie { ck_name : string; ck_value : string; ck_path : string; ck_maxAge : Z }.

(** [rq_length] is the declared length of the body, -1 if it is unknown. *)
Record HttpRequest := MkHttpRequest {
  rq_method : string;
  rq_segments : list string;
  rq_query : string;
  rq_authorization : string;
  rq_cookies : list (string * string);
  rq_body : string;
  rq_length : Z;
}.

Definition rq_path (r : HttpRequest) : string := join_path (rq_segments r).

(** [r.Cookie(name)] *)
Definition cookie_of (r : HttpRequest) (name : string) : option string :=
  snd <$> List.find (λ kv, bool_decide (kv.1 = name)) (rq_cookies r).

(** [r.FormValue]: a value of the form comes before one of the query. *)
Definition FormValue (r : HttpRequest) (key : string) : string :=
  match List.find (λ kv, bool_decide (kv.1 = key)) (query_pairs (rq_body r) ++ query_pairs (rq_query r)) with
  | Some kv => kv.2
  | None => ""
  end.

(** [json.NewDecoder(body).Decode]: the first value; what follows is not read. *)
Definition decode_body (body : string) : option json :=
  fst <$> parse_value (2 * String.length body + 2) 0 body.

(** What a handler sends. A page is its template with the data for it. *)
Inductive ReplyBody (P : Type) :=
| EmptyBody
| JSONReply (j : json)
| PageReply (p : P).
Arguments EmptyBody {P}. Arguments JSONReply {P} j. Arguments PageReply {P} p.

Record Reply (P : Type) := MkReply {
  rp_status : Z;
  rp_cookies : list Cookie;
  rp_location : string;
  rp_body : ReplyBody P;
}.
Arguments MkReply {P}. Arguments rp_status {P}. Arguments rp_cookies {P}. Arguments rp_location {P}. Arguments rp_body {P}.

(** [writeJSON], [w.WriteHeader] alone, [http.Redirect] with status 302. *)
Definition writeJSON {P} (status : Z) (v : json) : Reply P := MkReply status [] "" (JSONReply v).
Definition no_content {P} : Reply P := MkReply 204 [] "" EmptyBody.
Definition errorBody (msg : string) : json := JObj [("error", JStr msg)].
Definition fail_with {P} (status : Z) (msg : string) : Reply P := writeJSON status (errorBody msg).
Definition redirect {P} (cookies : list Cookie) (url : string) : Reply P := MkReply 302 cookies url EmptyBody.

(** Instants in JSON are RFC 3339 texts, for the years that the format has. *)
Class TimeText := {
  time_text : Z → string;
  parse_time : string → option Z;
  time_ok : Z → bool;
  parse_time_text t : time_ok t = true → parse_time (time_text t) = Some t;
  time_text_utf8 t : time_ok t = true → valid_utf8 (time_text t) = true;
}.

Definition jint (n : Z) : json := JNum (Strconv.FormatInt n).
Definition jstrings (l : list string) : json := JArr (JStr <$> l).
