(* ===== verification/ConfigData.v ===== *)
(** * Configuration: data ([internal/config/config.go], types and accessors)

    The validated configuration ([Config] and its parts; the read-only
    accessor methods of the Go types are the record projections here), the raw
    types that YAML is decoded into, and [ParseRateLimit]. *)

From Stdlib Require Import SpecFloat.
From S2P Require Import Prelude GoLib.
Import GoStr.

(** ** Rate limits *)

Record RateLimit := MkRateLimit {
  rate : spec_float;   (* requests per second *)
  burst : Z;           (* token bucket size *)
  count : Z;           (* requests per window *)
  window : Z;          (* window in seconds *)
}.

Inductive rate_error := BadRateFormat | BadRateCount | BadRateUnit.

(** [ParseRateLimit] *)
Definition ParseRateLimit `{Float64.GoPlatform} (s : string) : result rate_error RateLimit :=
  match SplitN s "/" 2 with
  | [num; unit] =>
      match Float64.ParseFloat num with
      | Some count =>
          if Float64.leb count Float64.zero then Err BadRateCount
          else
            '(perSecond, windowSecs) ←
              (if bool_decide (unit = "sec") || bool_decide (unit = "second") then Ok (count, 1)
               else if bool_decide (unit = "min") || bool_decide (unit = "minute")
                    then Ok (Float64.div count (Float64.of_Z 60), 60)
               else if bool_decide (unit = "hour")
                    then Ok (Float64.div count (Float64.of_Z 3600), 3600)
               else Err BadRateUnit);
            let burst := Float64.to_int (Float64.ceil perSecond) in
            let burst := if burst <? 1 then 1 else burst in
            let windowCount := Float64.to_int (Float64.ceil count) in
            Ok (MkRateLimit perSecond burst windowCount windowSecs)
      | None => Err BadRateCount
      end
  | _ => Err BadRateFormat
  end.

(** ** Upstreams *)

Record CircuitBreakerConfig := MkCBConfig { failureThreshold : Z; cooldown : Z }.

Record RetryConfig := MkRetryConfig {
  maxAttempts : Z;
  backoff : Z;
  maxBackoff : Z;
  retryableErrors : list string;
}.

Record UpstreamTLSConfig := MkUpstreamTLS {
  u_caFile : string;
  u_certFile : string;
  u_keyFile : string;
  insecureSkipVerify : bool;
}.

Record AuthConfig := MkAuthConfig { authType : string; tokenEnv : string; provider : string }.

Record HTTPUpstreamConfig := MkHTTPUpstream {
  h_name : string;
  h_url : string;
  h_auth : option AuthConfig;
  h_tls : option UpstreamTLSConfig;
  h_tools : list string;
  h_toolPrefix : option string;
  h_rateLimit : option RateLimit;
  h_timeout : Z;
  h_circuitBreaker : option CircuitBreakerConfig;
  h_retry : option RetryConfig;
}.

Record StdioUpstreamConfig := MkStdioUpstream {
  s_name : string;
  s_command : list string;
  s_env : gmap string string;
  s_tools : list string;
  s_toolPrefix : option string;
  s_rateLimit : option RateLimit;
  s_timeout : Z;
  s_circuitBreaker : option CircuitBreakerConfig;
  s_retry : option RetryConfig;
}.

(** The sealed interface [UpstreamConfig]. *)
Inductive UpstreamConfig :=
| HTTPUpstream (h : HTTPUpstreamConfig)
| StdioUpstream (s : StdioUpstreamConfig).

Definition UpstreamName (u : UpstreamConfig) : string :=
  match u with HTTPUpstream h => h_name h | StdioUpstream s => s_name s end.
Definition Tools (u : UpstreamConfig) : list string :=
  match u with HTTPUpstream h => h_tools h | StdioUpstream s => s_tools s end.
Definition ToolPrefix (u : UpstreamConfig) : option string :=
  match u with HTTPUpstream h => h_toolPrefix h | StdioUpstream s => s_toolPrefix s end.
Definition UpstreamRateLimit (u : UpstreamConfig) : option RateLimit :=
  match u with HTTPUpstream h => h_rateLimit h | StdioUpstream s => s_rateLimit s end.
Definition Timeout (u : UpstreamConfig) : Z :=
  match u with HTTPUpstream h => h_timeout h | StdioUpstream s => s_timeout s end.
Definition CircuitBreakerOf (u : UpstreamConfig) : option CircuitBreakerConfig :=
  match u with HTTPUpstream h => h_circuitBreaker h | StdioUpstream s => s_circuitBreaker s end.
Definition RetryOf (u : UpstreamConfig) : option RetryConfig :=
  match u with HTTPUpstream h => h_retry h | StdioUpstream s => s_retry s end.

(** [NewStdioUpstreamConfig] *)
Definition NewStdioUpstreamConfig (name : string) (command : list string) (env : gmap string string) :
    StdioUpstreamConfig :=
  MkStdioUpstream name command env [] None None 0 None None.

(** ** The other sections *)

Record OIDCConfig := MkOIDC {
  issuer : string;
  audience : string;
  callerClaim : string;
  validation : string;
  autoProvision : bool;
  defaultRoles : list string;
  allowedDomains : list string;
}.

Record OAuthProviderConfig := MkOAuthProvider {
  op_name : string;
  authURL : string;
  tokenURL : string;
  clientIDEnv : string;
  clientSecretEnv : string;
  scopes : list string;
}.

Record RedisConfig := MkRedis {
  redis_address : string;
  redis_password : string;
  redis_db : Z;
  redis_keyPrefix : string;
}.

Record RateLimitDefaults := MkRLDefaults {
  rl_backend : string;
  rl_redis : option RedisConfig;
  defaultCaller : option RateLimit;
  defaultTool : option RateLimit;
  defaultUpstream : option RateLimit;
}.

Record HealthConfig := MkHealthConfig {
  health_store : string;
  checkInterval : Z;
  missingStatus : string;
  health_redis : option RedisConfig;
}.

Record LoggingConfig := MkLogging { level : string; format : string }.

Record AuditConfig := MkAudit { audit_enabled : bool; audit_database : string; audit_driver : string }.

Record TracesConfig := MkTraces { traces_enabled : bool; endpoint : string; sampleRate : spec_float }.

Record DatabaseConfig := MkDatabase { driver : string; dsn : string }.

(** [AuditConfig.DatabaseConfig] *)
Definition AuditDatabaseConfig (a : AuditConfig) : DatabaseConfig :=
  MkDatabase (if bool_decide (audit_driver a = "") then "sqlite" else audit_driver a) (audit_database a).

Record ServerTLSConfig := MkServerTLS {
  certFile : string;
  keyFile : string;
  minVersion : string;
  clientCAFile : string;
}.

Record ServerConfig := MkServer {
  address : string;
  toolCacheTTL : Z;
  dbPath : string;
  database : DatabaseConfig;
  shutdownTimeout : Z;
  server_tls : option ServerTLSConfig;
  authCacheTTL : Z;
}.

Record RoleConfig := MkRole {
  role_name : string;
  allowedTools : list string;
  credentials : gmap string string;
  role_rateLimit : option RateLimit;
  toolRateLimit : option RateLimit;
}.

Record Config := MkConfig {
  server : ServerConfig;
  upstreams : list UpstreamConfig;
  roles : list RoleConfig;
  rateLimitDefaults : RateLimitDefaults;
  logging : LoggingConfig;
  audit : AuditConfig;
  traces : TracesConfig;
  health : HealthConfig;
  oidc : option OIDCConfig;
  oauthProviders : list OAuthProviderConfig;
}.

(** [Config.OAuthProvider] *)
Definition OAuthProvider (c : Config) (name : string) : option OAuthProviderConfig :=
  List.find (λ p, bool_decide (op_name p = name)) (oauthProviders c).

(** [Config.RateLimitBackend] *)
Definition RateLimitBackend (c : Config) : string :=
  if bool_decide (rl_backend (rateLimitDefaults c) = "") then "local"
  else rl_backend (rateLimitDefaults c).

(** ** Raw types, as decoded from YAML *)

Record rawRoleConfig := RawRole {
  RawAllowedTools : list string;
  RawCredentials : gmap string string;
  RawRoleRateLimit : string;
  RawToolRateLimit : string;
}.

Record rawRedisConfig := RawRedis {
  RawAddress : string;
  RawPassword : string;
  RawDB : Z;
  RawKeyPrefix : string;
}.

Record rawRateLimitDefaults := RawRLDefaults {
  RawBackend : string;
  RawRLRedis : option rawRedisConfig;
  RawDefaultCaller : string;
  RawDefaultTool : string;
  RawDefaultUpstream : string;
}.

Record rawLoggingConfig := RawLogging { RawLevel : string; RawFormat : string }.

Record rawAuditConfig := RawAudit { RawAuditEnabled : bool; RawAuditDatabase : string; RawAuditDriver : string }.

Record rawTracesConfig := RawTraces { RawEnabled : bool; RawEndpoint : string; RawSampleRate : spec_float }.

Record rawTelemetryConfig := RawTelemetry { RawTracesOf : option rawTracesConfig }.

Record rawHealthConfig := RawHealth {
  RawStore : string;
  RawCheckInterval : string;
  RawMissingStatus : string;
  RawHealthRedis : option rawRedisConfig;
}.

Record rawOIDCConfig := RawOIDC {
  RawIssuer : string;
  RawAudience : string;
  RawCallerClaim : string;
  RawValidation : string;
  RawAutoProvision : bool;
  RawDefaultRoles : list string;
  RawAllowedDomains : list string;
}.

Record rawInboundAuthConfig := RawInboundAuth { RawOIDCOf : option rawOIDCConfig }.

Record rawOAuthProviderConfig := RawOAuthProvider {
  RawAuthURL : string;
  RawTokenURL : string;
  RawClientIDEnv : string;
  RawClientSecretEnv : string;
  RawScopes : list string;
}.

Record rawDatabaseConfig := RawDatabase { RawDriver : string; RawDSN : string }.

Record rawServerTLSConfig := RawServerTLS {
  RawCertFile : string;
  RawKeyFile : string;
  RawMinVersion : string;
  RawClientCAFile : string;
}.

Record rawServerConfig := RawServer {
  RawServerAddress : string;
  RawToolCacheTTL : string;
  RawDBPath : string;
  RawServerDatabase : option rawDatabaseConfig;
  RawShutdownTimeout : string;
  RawServerTLSOf : option rawServerTLSConfig;
  RawAuthCacheTTL : string;
}.

Record rawCircuitBreakerConfig := RawCB { RawFailureThreshold : Z; RawCooldown : string }.

Record rawRetryConfig := RawRetry {
  RawMaxAttempts : Z;
  RawBackoff : string;
  RawMaxBackoff : string;
  RawRetryableErrors : list string;
}.

Record rawAuthConfig := RawAuth { RawType : string; RawTokenEnv : string; RawProvider : string }.

Record rawUpstreamTLSConfig := RawUpstreamTLS {
  RawCAFile : string;
  RawUCertFile : string;
  RawUKeyFile : string;
  RawInsecureSkipVerify : bool;
}.

Record rawUpstreamConfig := RawUpstream {
  RawName : string;
  RawURL : string;
  RawCommand : list string;
  RawEnv : gmap string string;
  RawTransport : string;
  RawAuthOf : option rawAuthConfig;
  RawUpstreamTLSOf : option rawUpstreamTLSConfig;
  RawTools : list string;
  RawToolPrefix : option string;
  RawRateLimit : string;
  RawTimeout : string;
  RawCircuitBreaker : option rawCircuitBreakerConfig;
  RawRetryOf : option rawRetryConfig;
}.

Record rawConfig := RawConfig {
  RawServerOf : rawServerConfig;
  RawUpstreams : list rawUpstreamConfig;
  RawRoles : gmap string rawRoleConfig;
  RawRateLimits : option rawRateLimitDefaults;
  RawLoggingOf : option rawLoggingConfig;
  RawAuditOf : option rawAuditConfig;
  RawTelemetryOf : option rawTelemetryConfig;
  RawHealthOf : option rawHealthConfig;
  RawAuthSection : option rawInboundAuthConfig;
  RawOAuthProviders : gmap string rawOAuthProviderConfig;
  rolesOrdered : list string;
}.

(** ** Properties of rate limit strings *)

(** The numbers that pass the test [count <= 0]: positive ones, infinity, and NaN. *)
Definition count_passes (n : spec_float) : Prop :=
  match n with
  | S754_finite false _ _ | S754_infinity false | S754_nan => True
  | _ => False
  end.

(** A limit of [n] requests per window: the rate per second, the bucket for one
    second, and the requests per window. *)
Definition rate_valid `{Float64.GoPlatform} (r : RateLimit) : Prop :=
  (window r = 1 ∨ window r = 60 ∨ window r = 3600) ∧
  ∃ n, count_passes n ∧
    rate r = (if window r =? 1 then n else Float64.div n (Float64.of_Z (window r))) ∧
    burst r = Z.max 1 (Float64.to_int (Float64.ceil (rate r))) ∧ count r = Float64.to_int (Float64.ceil n).

Lemma leb_zero_false n : Float64.leb n Float64.zero = false → count_passes n.
Proof. by destruct n as [[]|[]| |[]]. Qed.

Lemma ParseRateLimit_spec `{Float64.GoPlatform} s r : ParseRateLimit s = Ok r → rate_valid r.
Proof.
  unfold ParseRateLimit. intros H0.
  destruct (SplitN s "/" 2) as [|num [|unit [|]]]; try discriminate.
  destruct (Float64.ParseFloat num) as [c|]; [|discriminate].
  destruct (Float64.leb c Float64.zero) eqn:Ec; [discriminate|]. apply leb_zero_false in Ec.
  assert (∀ b, (if b <? 1 then 1 else b) = Z.max 1 b) as Hb by (intros b; destruct (Z.ltb_spec b 1); lia).
  destruct (_ || _); [|destruct (_ || _); [|destruct (bool_decide _); [|discriminate]]];
    cbn [mbind result_bind] in H0; injection H0 as <-; (split; [simpl; lia|]); exists c; split_and!; try done; apply Hb.
Qed.

(** A parsed rate limit is a number of requests per second, minute or hour, which
    is positive or NaN, with a token bucket of at least one request. *)
Theorem ParseRateLimit_shape `{Float64.GoPlatform} s r : ParseRateLimit s = Ok r → rate_valid r.
Proof. apply ParseRateLimit_spec. Qed.

Lemma ParseRateLimit_shape_witness : @rate_valid Float64.amd64 (MkRateLimit (Float64.of_Z 10) 10 10 1).
Proof. apply (@ParseRateLimit_shape Float64.amd64 "10/sec"). vm_compute. reflexivity. Defined.

Example rate_100_min :
  @ParseRateLimit Float64.amd64 "100/min" =
    Ok (MkRateLimit (Float64.div (Float64.of_Z 100) (Float64.of_Z 60)) 2 100 60).
Proof. vm_compute. reflexivity. Qed.

Example rate_errors :
  @ParseRateLimit Float64.amd64 "100" = Err BadRateFormat ∧
  @ParseRateLimit Float64.amd64 "0/sec" = Err BadRateCount ∧
  @ParseRateLimit Float64.amd64 "-1/sec" = Err BadRateCount ∧
  @ParseRateLimit Float64.amd64 "1/day" = Err BadRateUnit.
Proof. vm_compute. auto. Qed.

(** The check that the count is a positive number does not refuse NaN: the
    limit "nan/min" is accepted, with a NaN rate, a burst of one, and (on
    amd64) the smallest integer as window count. *)
Theorem ParseRateLimit_accepts_nan :
  @ParseRateLimit Float64.amd64 "nan/min" = Ok (MkRateLimit S754_nan 1 Strconv.min_int64 60).
Proof. vm_compute. reflexivity. Qed.
