(* ===== verification/Config.v ===== *)
(** * Configuration: validation and conversion ([internal/config/config.go])

    [validate] and [convert] section by section, in the order of the source;
    errors are the constructors of [config_error], one per message.

    Third-party code is a parameter: [glob_ok p] says whether [glob.Compile]
    accepts a pattern, and the YAML decoder is the input (a [rawConfig], and the
    node tree from which the role order is read). Maps are enumerated in the
    unspecified order of Go's [range] ([GoRange]). *)

From Stdlib Require Import SpecFloat.
From S2P Require Import Prelude GoLib ConfigData.
Import GoStr.

Inductive config_error :=
| NoUpstreams
| UpstreamNameRequired (i : nat)
| DuplicateUpstream (name : string)
| URLRequired (name : string)
| CommandRequired (name : string)
| BadTransport (name transport : string)
| BadToolPrefix (name prefix : string)
| BadDatabaseDriver (driver : string)
| DSNRequired
| BothDBPathAndDatabase
| TLSCertRequired
| TLSKeyRequired
| BadTLSVersion (v : string)
| UpstreamTLSKeyRequired (name : string)
| UpstreamTLSCertRequired (name : string)
| UpstreamTLSOnStdio (name : string)
| BadLogLevel (l : string)
| BadLogFormat (f : string)
| AuditDatabaseRequired
| BadAuditDriver (d : string)
| BadSampleRate (r : spec_float)
| BadBackend (b : string)
| RedisAddressRequired
| BadHealthStore (s : string)
| BadMissingStatus (s : string)
| OIDCIssuerRequired
| BadOIDCValidation (v : string)
| OIDCAudienceRequired
| ProviderFieldRequired (name field : string)
| OAuthProviderRequired (upstream : string)
| OAuthProviderUnknown (upstream provider : string)
| BadAuthType (upstream type : string)
| EmptyRoleName
| AllowedToolsRequired (role : string)
| BadGlob (role pattern : string)
| CredentialUnknownUpstream (role upstream : string)
| CredentialEmptyEnv (role upstream : string)
| CredentialForOAuthUpstream (role upstream : string)
| BadDuration (field value : string)
| MustBePositive (field : string)
| BadRate (field : string) (e : rate_error)
| HealthRedisMissing.

Section config.
Context `{Float64.GoPlatform} `{GoRange}.
Variable glob_ok : string → bool.

Definition is_one_of (s : string) (l : list string) : bool := bool_decide (s ∈ l).

(** [toolPrefixPattern]: letters, digits and underscores, at least one. *)
Definition prefix_char (c : ascii) : bool :=
  is_lower c || is_upper c || is_digit c || bool_decide (c = "_"%char).
Definition toolPrefixPattern (s : string) : bool :=
  negb (bool_decide (s = "")) && all_bytes prefix_char s.

(** ** validate *)

Definition validateUpstream (i : nat) (seen : gset string) (u : rawUpstreamConfig) : result config_error unit :=
  check (negb (bool_decide (RawName u = ""))) (UpstreamNameRequired i) ;;
  check (negb (bool_decide (RawName u ∈ seen))) (DuplicateUpstream (RawName u)) ;;
  (if bool_decide (RawTransport u = "streamable-http") then
     check (negb (bool_decide (RawURL u = ""))) (URLRequired (RawName u))
   else if bool_decide (RawTransport u = "stdio") then
     check (negb (bool_decide (RawCommand u = []))) (CommandRequired (RawName u))
   else Err (BadTransport (RawName u) (RawTransport u))) ;;
  match RawToolPrefix u with
  | Some p =>
      if bool_decide (p = "") then Ok tt
      else check (toolPrefixPattern p) (BadToolPrefix (RawName u) p)
  | None => Ok tt
  end.

(** The loop over the upstreams; [upstreamNames] grows as it goes. *)
Fixpoint validateUpstreams (i : nat) (seen : gset string) (l : list rawUpstreamConfig) :
    result config_error (gset string) :=
  match l with
  | [] => Ok seen
  | u :: l => validateUpstream i seen u ;; validateUpstreams (S i) ({[RawName u]} ∪ seen) l
  end.

Definition validateDatabase (s : rawServerConfig) : result config_error unit :=
  match RawServerDatabase s with
  | Some d =>
      check (is_one_of (RawDriver d) [""; "sqlite"; "postgres"]) (BadDatabaseDriver (RawDriver d)) ;;
      check (negb (bool_decide (RawDSN d = ""))) DSNRequired ;;
      check (bool_decide (RawDBPath s = "")) BothDBPathAndDatabase
  | None => Ok tt
  end.

Definition validateServerTLS (s : rawServerConfig) : result config_error unit :=
  match RawServerTLSOf s with
  | Some t =>
      check (negb (bool_decide (RawCertFile t = ""))) TLSCertRequired ;;
      check (negb (bool_decide (RawKeyFile t = ""))) TLSKeyRequired ;;
      check (is_one_of (RawMinVersion t) [""; "1.0"; "1.1"; "1.2"; "1.3"]) (BadTLSVersion (RawMinVersion t))
  | None => Ok tt
  end.

Definition validateUpstreamTLS (u : rawUpstreamConfig) : result config_error unit :=
  match RawUpstreamTLSOf u with
  | Some t =>
      check (bool_decide (RawUCertFile t = "") || negb (bool_decide (RawUKeyFile t = "")))
        (UpstreamTLSKeyRequired (RawName u)) ;;
      check (bool_decide (RawUKeyFile t = "") || negb (bool_decide (RawUCertFile t = "")))
        (UpstreamTLSCertRequired (RawName u)) ;;
      check (negb (bool_decide (RawTransport u = "stdio"))) (UpstreamTLSOnStdio (RawName u))
  | None => Ok tt
  end.

Definition validateLogging (l : option rawLoggingConfig) : result config_error unit :=
  match l with
  | Some l =>
      check (is_one_of (RawLevel l) [""; "debug"; "info"; "warn"; "error"]) (BadLogLevel (RawLevel l)) ;;
      check (is_one_of (RawFormat l) [""; "json"; "text"]) (BadLogFormat (RawFormat l))
  | None => Ok tt
  end.

Definition validateAudit (a : option rawAuditConfig) : result config_error unit :=
  match a with
  | Some a =>
      if RawAuditEnabled a then
        check (negb (bool_decide (RawAuditDatabase a = ""))) AuditDatabaseRequired ;;
        check (is_one_of (RawAuditDriver a) [""; "sqlite"; "postgres"]) (BadAuditDriver (RawAuditDriver a))
      else Ok tt
  | None => Ok tt
  end.

Definition validateTelemetry (t : option rawTelemetryConfig) : result config_error unit :=
  match t ≫= RawTracesOf with
  | Some tr =>
      let sr := RawSampleRate tr in
      check (negb (Float64.ltb sr Float64.zero || Float64.ltb Float64.one sr)) (BadSampleRate sr)
  | None => Ok tt
  end.

Definition validateRateLimits (r : option rawRateLimitDefaults) : result config_error unit :=
  match r with
  | Some r =>
      check (is_one_of (RawBackend r) [""; "local"; "redis"]) (BadBackend (RawBackend r)) ;;
      if bool_decide (RawBackend r = "redis") then
        match RawRLRedis r with
        | Some c => check (negb (bool_decide (RawAddress c = ""))) RedisAddressRequired
        | None => Err RedisAddressRequired
        end
      else Ok tt
  | None => Ok tt
  end.

Definition validateHealth (h : option rawHealthConfig) : result config_error unit :=
  match h with
  | Some h =>
      check (is_one_of (RawStore h) [""; "local"; "redis"]) (BadHealthStore (RawStore h)) ;;
      check (is_one_of (RawMissingStatus h) [""; "healthy"; "unhealthy"]) (BadMissingStatus (RawMissingStatus h))
  | None => Ok tt
  end.

Definition validateOIDC (a : option rawInboundAuthConfig) : result config_error unit :=
  match a ≫= RawOIDCOf with
  | Some o =>
      check (negb (bool_decide (RawIssuer o = ""))) OIDCIssuerRequired ;;
      check (is_one_of (RawValidation o) [""; "jwt"; "userinfo"]) (BadOIDCValidation (RawValidation o)) ;;
      check (negb (is_one_of (RawValidation o) [""; "jwt"] && bool_decide (RawAudience o = "")))
        OIDCAudienceRequired
  | None => Ok tt
  end.

Definition validateProvider (p : string * rawOAuthProviderConfig) : result config_error unit :=
  let '(name, p) := p in
  check (negb (bool_decide (RawAuthURL p = ""))) (ProviderFieldRequired name "auth_url") ;;
  check (negb (bool_decide (RawTokenURL p = ""))) (ProviderFieldRequired name "token_url") ;;
  check (negb (bool_decide (RawClientIDEnv p = ""))) (ProviderFieldRequired name "client_id_env") ;;
  check (negb (bool_decide (RawClientSecretEnv p = ""))) (ProviderFieldRequired name "client_secret_env").

(** One upstream's auth section; [Ok true] marks an OAuth upstream. *)
Definition validateUpstreamAuth (providers : gmap string rawOAuthProviderConfig) (u : rawUpstreamConfig) :
    result config_error bool :=
  match RawAuthOf u with
  | None => Ok false
  | Some a =>
      if is_one_of (RawType a) ["bearer"; ""] then Ok false
      else if bool_decide (RawType a = "oauth") then
        check (negb (bool_decide (RawProvider a = ""))) (OAuthProviderRequired (RawName u)) ;;
        match providers !! RawProvider a with
        | Some _ => Ok true
        | None => Err (OAuthProviderUnknown (RawName u) (RawProvider a))
        end
      else Err (BadAuthType (RawName u) (RawType a))
  end.

(** The loop that builds [oauthUpstreams]. *)
Fixpoint validateUpstreamAuths (providers : gmap string rawOAuthProviderConfig)
    (oauthUpstreams : gset string) (l : list rawUpstreamConfig) : result config_error (gset string) :=
  match l with
  | [] => Ok oauthUpstreams
  | u :: l =>
      o ← validateUpstreamAuth providers u;
      validateUpstreamAuths providers (if o : bool then {[RawName u]} ∪ oauthUpstreams else oauthUpstreams) l
  end.

Definition validateCredential (upstreamNames oauthUpstreams : gset string) (role : string)
    (c : string * string) : result config_error unit :=
  let '(upstream, envVar) := c in
  check (bool_decide (upstream ∈ upstreamNames)) (CredentialUnknownUpstream role upstream) ;;
  check (negb (bool_decide (envVar = ""))) (CredentialEmptyEnv role upstream) ;;
  check (negb (bool_decide (upstream ∈ oauthUpstreams))) (CredentialForOAuthUpstream role upstream).

Definition validateRole (upstreamNames oauthUpstreams : gset string) (r : string * rawRoleConfig) :
    result config_error unit :=
  let '(roleName, role) := r in
  check (negb (bool_decide (roleName = ""))) EmptyRoleName ;;
  check (negb (bool_decide (RawAllowedTools role = []))) (AllowedToolsRequired roleName) ;;
  for_each (λ p, check (glob_ok p) (BadGlob roleName p)) (RawAllowedTools role) ;;
  for_each (validateCredential upstreamNames oauthUpstreams roleName) (go_range (RawCredentials role)).

Definition validate (raw : rawConfig) : result config_error unit :=
  check (negb (bool_decide (RawUpstreams raw = []))) NoUpstreams ;;
  upstreamNames ← validateUpstreams 0 ∅ (RawUpstreams raw);
  validateDatabase (RawServerOf raw) ;;
  validateServerTLS (RawServerOf raw) ;;
  for_each validateUpstreamTLS (RawUpstreams raw) ;;
  validateLogging (RawLoggingOf raw) ;;
  validateAudit (RawAuditOf raw) ;;
  validateTelemetry (RawTelemetryOf raw) ;;
  validateRateLimits (RawRateLimits raw) ;;
  validateHealth (RawHealthOf raw) ;;
  validateOIDC (RawAuthSection raw) ;;
  for_each validateProvider (go_range (RawOAuthProviders raw)) ;;
  oauthUpstreams ← validateUpstreamAuths (RawOAuthProviders raw) ∅ (RawUpstreams raw);
  for_each (validateRole upstreamNames oauthUpstreams) (go_range (RawRoles raw)).

(** ** convert *)

Definition default_if_empty (s d : string) : string := if bool_decide (s = "") then d else s.

(** A duration field: its default when empty, an error when malformed. *)
Definition convertDuration (field s : string) (dflt : Z) : result config_error Z :=
  if bool_decide (s = "") then Ok dflt
  else match Duration.ParseDuration s with
       | Some d => Ok d
       | None => Err (BadDuration field s)
       end.

Definition convertPositiveDuration (field s : string) (dflt : Z) : result config_error Z :=
  if bool_decide (s = "") then Ok dflt
  else match Duration.ParseDuration s with
       | Some d => if d <=? 0 then Err (MustBePositive field) else Ok d
       | None => Err (BadDuration field s)
       end.

Definition convertRateLimit (field s : string) : result config_error (option RateLimit) :=
  if bool_decide (s = "") then Ok None
  else match ParseRateLimit s with
       | Ok r => Ok (Some r)
       | Err e => Err (BadRate field e)
       end.

(** The database section wins over [db_path]. *)
Definition convertDatabase (s : rawServerConfig) : DatabaseConfig :=
  match RawServerDatabase s with
  | Some d => MkDatabase (default_if_empty (RawDriver d) "sqlite") (RawDSN d)
  | None =>
      if bool_decide (RawDBPath s = "") then MkDatabase "" ""
      else MkDatabase "sqlite" (RawDBPath s)
  end.

Definition convertServer (s : rawServerConfig) : result config_error ServerConfig :=
  ttl ← convertDuration "tool_cache_ttl" (RawToolCacheTTL s) (5 * Duration.Minute);
  st ← convertDuration "shutdown_timeout" (RawShutdownTimeout s) (30 * Duration.Second);
  act ← convertDuration "auth_cache_ttl" (RawAuthCacheTTL s) 0;
  let tls := (λ t, MkServerTLS (RawCertFile t) (RawKeyFile t)
                     (default_if_empty (RawMinVersion t) "1.2") (RawClientCAFile t))
             <$> RawServerTLSOf s in
  Ok (MkServer (default_if_empty (RawServerAddress s) ":8080") ttl (RawDBPath s)
        (convertDatabase s) st tls act).

Definition convertCircuitBreaker (c : rawCircuitBreakerConfig) : result config_error CircuitBreakerConfig :=
  let threshold := if RawFailureThreshold c <=? 0 then 5 else RawFailureThreshold c in
  cd ← convertPositiveDuration "circuit_breaker.cooldown" (RawCooldown c) (30 * Duration.Second);
  Ok (MkCBConfig threshold cd).

Definition convertRetry (r : rawRetryConfig) : result config_error RetryConfig :=
  let attempts := if RawMaxAttempts r <=? 0 then 1 else RawMaxAttempts r in
  b ← convertDuration "retry.backoff" (RawBackoff r) (100 * Duration.Millisecond);
  mb ← convertDuration "retry.max_backoff" (RawMaxBackoff r) (2 * Duration.Second);
  let errs := match RawRetryableErrors r with [] => ["connection_error"] | l => l end in
  Ok (MkRetryConfig attempts b mb errs).

Definition convertOption {A B} (f : A → result config_error B) (o : option A) : result config_error (option B) :=
  match o with Some a => Some <$> f a | None => Ok None end.

Definition convertAuth (a : rawAuthConfig) : AuthConfig :=
  MkAuthConfig (RawType a) (RawTokenEnv a) (RawProvider a).

Definition convertUpstreamTLS (t : rawUpstreamTLSConfig) : UpstreamTLSConfig :=
  MkUpstreamTLS (RawCAFile t) (RawUCertFile t) (RawUKeyFile t) (RawInsecureSkipVerify t).

(** One iteration of the upstream loop. Validation has left only the two
    transports; any other value would store a nil config, so the last branch
    has no counterpart in a run. *)
Definition convertUpstream (ru : rawUpstreamConfig) : result config_error UpstreamConfig :=
  rl ← convertRateLimit "upstream.rate_limit" (RawRateLimit ru);
  timeout ← convertPositiveDuration "timeout" (RawTimeout ru) (60 * Duration.Second);
  cb ← convertOption convertCircuitBreaker (RawCircuitBreaker ru);
  retry ← convertOption convertRetry (RawRetryOf ru);
  if bool_decide (RawTransport ru = "streamable-http") then
    Ok (HTTPUpstream (MkHTTPUpstream (RawName ru) (RawURL ru) (convertAuth <$> RawAuthOf ru)
          (convertUpstreamTLS <$> RawUpstreamTLSOf ru) (RawTools ru) (RawToolPrefix ru)
          rl timeout cb retry))
  else if bool_decide (RawTransport ru = "stdio") then
    Ok (StdioUpstream (MkStdioUpstream (RawName ru) (RawCommand ru) (RawEnv ru) (RawTools ru)
          (RawToolPrefix ru) rl timeout cb retry))
  else Err (BadTransport (RawName ru) (RawTransport ru)).

Definition convertRole (name : string) (r : rawRoleConfig) : result config_error RoleConfig :=
  rl ← convertRateLimit "roles.rate_limit" (RawRoleRateLimit r);
  trl ← convertRateLimit "roles.tool_rate_limit" (RawToolRateLimit r);
  Ok (MkRole name (RawAllowedTools r) (RawCredentials r) rl trl).

(** Roles in document order; names without an entry are skipped. *)
Definition convertRoles (raw : rawConfig) : result config_error (list RoleConfig) :=
  map_result (λ '(n, r), convertRole n r)
    (omap (λ name, (λ r, (name, r)) <$> RawRoles raw !! name) (rolesOrdered raw)).

Definition convertLogging (l : option rawLoggingConfig) : LoggingConfig :=
  match l with
  | Some l => MkLogging (default_if_empty (RawLevel l) "info") (default_if_empty (RawFormat l) "json")
  | None => MkLogging "info" "json"
  end.

Definition convertAudit (a : option rawAuditConfig) : AuditConfig :=
  match a with
  | Some a => MkAudit (RawAuditEnabled a) (RawAuditDatabase a) (RawAuditDriver a)
  | None => MkAudit false "" ""
  end.

Definition convertRedis (r : rawRedisConfig) : RedisConfig :=
  MkRedis (RawAddress r) (RawPassword r) (RawDB r) (default_if_empty (RawKeyPrefix r) "stile:").

Definition convertRateLimits (r : option rawRateLimitDefaults) : result config_error RateLimitDefaults :=
  match r with
  | None => Ok (MkRLDefaults "" None None None None)
  | Some r =>
      dc ← convertRateLimit "rate_limits.default_caller" (RawDefaultCaller r);
      dt ← convertRateLimit "rate_limits.default_tool" (RawDefaultTool r);
      du ← convertRateLimit "rate_limits.default_upstream" (RawDefaultUpstream r);
      Ok (MkRLDefaults (RawBackend r) (convertRedis <$> RawRLRedis r) dc dt du)
  end.

Definition convertTelemetry (t : option rawTelemetryConfig) : TracesConfig :=
  match t ≫= RawTracesOf with
  | Some tr =>
      MkTraces (RawEnabled tr)
        (if RawEnabled tr then default_if_empty (RawEndpoint tr) "localhost:4318" else RawEndpoint tr)
        (if Float64.eqb (RawSampleRate tr) Float64.zero && RawEnabled tr then Float64.one
         else RawSampleRate tr)
  | None => MkTraces false "" Float64.zero
  end.

(** The health section; its Redis settings fall back to those of the rate
    limiter. *)
Definition convertHealth (rl_redis : option RedisConfig) (h : option rawHealthConfig) :
    result config_error HealthConfig :=
  cfg ← match h with
    | None => Ok (MkHealthConfig "local" (30 * Duration.Second) "healthy" None)
    | Some h =>
        d ← convertPositiveDuration "health.check_interval" (RawCheckInterval h) (30 * Duration.Second);
        Ok (MkHealthConfig (default_if_empty (RawStore h) "local") d
              (default_if_empty (RawMissingStatus h) "healthy") (convertRedis <$> RawHealthRedis h))
    end;
  if bool_decide (health_store cfg = "redis") then
    match (match health_redis cfg with Some r => Some r | None => rl_redis end) with
    | Some r => Ok (MkHealthConfig (health_store cfg) (checkInterval cfg) (missingStatus cfg) (Some r))
    | None => Err HealthRedisMissing
    end
  else Ok cfg.

Definition convertProvider (p : string * rawOAuthProviderConfig) : OAuthProviderConfig :=
  let '(name, rp) := p in
  MkOAuthProvider name (RawAuthURL rp) (RawTokenURL rp) (RawClientIDEnv rp) (RawClientSecretEnv rp) (RawScopes rp).

Definition convertOIDC (a : option rawInboundAuthConfig) : option OIDCConfig :=
  (λ ro, MkOIDC (RawIssuer ro) (RawAudience ro) (default_if_empty (RawCallerClaim ro) "email")
           (default_if_empty (RawValidation ro) "jwt") (RawAutoProvision ro)
           (RawDefaultRoles ro) (RawAllowedDomains ro))
  <$> (a ≫= RawOIDCOf).

Definition convert (raw : rawConfig) : result config_error Config :=
  validate raw ;;
  srv ← convertServer (RawServerOf raw);
  ups ← map_result convertUpstream (RawUpstreams raw);
  rs ← convertRoles raw;
  rld ← convertRateLimits (RawRateLimits raw);
  hc ← convertHealth (rl_redis rld) (RawHealthOf raw);
  Ok (MkConfig srv ups rs rld (convertLogging (RawLoggingOf raw)) (convertAudit (RawAuditOf raw))
        (convertTelemetry (RawTelemetryOf raw)) hc (convertOIDC (RawAuthSection raw))
        (convertProvider <$> go_range (RawOAuthProviders raw))).

(** ** Loading *)

(** A node of the YAML tree, as [yaml.v3] represents it. *)
Inductive yaml_kind := DocumentNode | MappingNode | OtherNode.

Inductive yaml_node := YamlNode (kind : yaml_kind) (value : string) (content : list yaml_node).

Definition node_kind (n : yaml_node) : yaml_kind := let 'YamlNode k _ _ := n in k.
Definition node_value (n : yaml_node) : string := let 'YamlNode _ v _ := n in v.
Definition node_content (n : yaml_node) : list yaml_node := let 'YamlNode _ _ c := n in c.

(** The pairs of a mapping node, in document order. *)
Fixpoint node_pairs (l : list yaml_node) : list (yaml_node * yaml_node) :=
  match l with
  | k :: v :: l => (k, v) :: node_pairs l
  | _ => []
  end.

(** [extractRoleOrder]; [None] is a document that does not parse. *)
Definition extractRoleOrder (doc : option yaml_node) : list string :=
  match doc with
  | Some (YamlNode DocumentNode _ (root :: _)) =>
      match node_kind root with
      | MappingNode =>
          match List.find (λ kv, bool_decide (node_value kv.1 = "roles")) (node_pairs (node_content root)) with
          | Some (_, rolesNode) =>
              match node_kind rolesNode with
              | MappingNode => (λ kv, node_value kv.1) <$> node_pairs (node_content rolesNode)
              | _ => []
              end
          | None => []
          end
      | _ => []
      end
  | _ => []
  end.

(** [LoadBytes], after the two passes of the YAML decoder: into the raw
    configuration ([None]: a parse error), and into a node tree. *)
Definition LoadBytes (raw : option rawConfig) (doc : option yaml_node) : option (result config_error Config) :=
  raw ← raw;
  Some (convert (RawConfig (RawServerOf raw) (RawUpstreams raw) (RawRoles raw) (RawRateLimits raw)
    (RawLoggingOf raw) (RawAuditOf raw) (RawTelemetryOf raw) (RawHealthOf raw) (RawAuthSection raw)
    (RawOAuthProviders raw) (extractRoleOrder doc))).
End config.
