(* ===== verification/ConfigProps.v ===== *)
(** * Configuration: a loaded configuration is valid

    [config_valid] states what the rest of the gateway relies on, without
    reference to [validate] or [convert]; the main theorem is that [convert]
    returns only such configurations ("it is impossible to obtain an invalid
    Config through this package's public API"). *)

From Stdlib Require Import SpecFloat.
From S2P Require Import Prelude GoLib ConfigData Config.
Import GoStr.

(** ** What a valid configuration is *)

Definition endpoint_valid (u : UpstreamConfig) : Prop :=
  match u with
  | HTTPUpstream h => h_url h ≠ ""
  | StdioUpstream s => s_command s ≠ []
  end.

Definition cb_valid (c : CircuitBreakerConfig) : Prop := 0 < failureThreshold c ∧ 0 < cooldown c.
Definition retry_valid (r : RetryConfig) : Prop := 1 ≤ maxAttempts r ∧ retryableErrors r ≠ [].

Section valid.
Context `{Float64.GoPlatform}.

Definition on_some {A} (P : A → Prop) (o : option A) : Prop :=
  match o with Some a => P a | None => True end.

Record upstream_valid (u : UpstreamConfig) : Prop := {
  uv_name : UpstreamName u ≠ "";
  uv_endpoint : endpoint_valid u;
  uv_prefix : on_some (λ p, p = "" ∨ toolPrefixPattern p = true) (ToolPrefix u);
  uv_timeout : 0 < Timeout u;
  uv_rate : on_some rate_valid (UpstreamRateLimit u);
  uv_cb : on_some cb_valid (CircuitBreakerOf u);
  uv_retry : on_some retry_valid (RetryOf u);
}.

(** The OAuth provider that an upstream's calls need, if any. *)
Definition oauth_provider_of (u : UpstreamConfig) : option string :=
  match u with
  | HTTPUpstream h =>
      a ← h_auth h; if bool_decide (authType a = "oauth") then Some (provider a) else None
  | StdioUpstream _ => None
  end.

Definition provider_complete (p : OAuthProviderConfig) : Prop :=
  authURL p ≠ "" ∧ tokenURL p ≠ "" ∧ clientIDEnv p ≠ "" ∧ clientSecretEnv p ≠ "".

(** Credentials of a role: a non-empty variable, for an upstream that exists
    and whose calls do not use per-user tokens. *)
Definition credential_valid (c : Config) (upstream env : string) : Prop :=
  env ≠ "" ∧ ∃ u, u ∈ upstreams c ∧ UpstreamName u = upstream ∧ oauth_provider_of u = None.

Record role_valid (glob_ok : string → bool) (c : Config) (r : RoleConfig) : Prop := {
  rv_name : role_name r ≠ "";
  rv_tools : allowedTools r ≠ [];
  rv_globs : Forall (λ p, glob_ok p = true) (allowedTools r);
  rv_credentials : map_Forall (credential_valid c) (credentials r);
  rv_rate : on_some rate_valid (role_rateLimit r);
  rv_tool_rate : on_some rate_valid (toolRateLimit r);
}.

Definition database_valid (d : DatabaseConfig) : Prop :=
  d = MkDatabase "" "" ∨ (driver d = "sqlite" ∨ driver d = "postgres") ∧ dsn d ≠ "".

Definition server_tls_valid (t : ServerTLSConfig) : Prop :=
  certFile t ≠ "" ∧ keyFile t ≠ "" ∧ minVersion t ∈ ["1.0"; "1.1"; "1.2"; "1.3"].

Definition oidc_valid (o : OIDCConfig) : Prop :=
  issuer o ≠ "" ∧ callerClaim o ≠ "" ∧
  (validation o = "jwt" ∧ audience o ≠ "" ∨ validation o = "userinfo").

Record config_valid (glob_ok : string → bool) (c : Config) : Prop := {
  cv_some_upstream : upstreams c ≠ [];
  cv_unique : NoDup (UpstreamName <$> upstreams c);
  cv_upstreams : Forall upstream_valid (upstreams c);
  cv_oauth : ∀ u p, u ∈ upstreams c → oauth_provider_of u = Some p →
    ∃ pc, OAuthProvider c p = Some pc ∧ op_name pc = p;
  cv_providers : Forall provider_complete (oauthProviders c);
  cv_roles : Forall (role_valid glob_ok c) (roles c);
  cv_address : address (server c) ≠ "";
  cv_database : database_valid (database (server c));
  cv_tls : on_some server_tls_valid (server_tls (server c));
  cv_log : level (logging c) ∈ ["debug"; "info"; "warn"; "error"] ∧ format (logging c) ∈ ["json"; "text"];
  cv_audit : audit_enabled (audit c) = true → audit_database (audit c) ≠ "";
  cv_backend : RateLimitBackend c = "local" ∨
    RateLimitBackend c = "redis" ∧ ∃ r, rl_redis (rateLimitDefaults c) = Some r ∧ redis_address r ≠ "";
  cv_health : 0 < checkInterval (health c) ∧
    missingStatus (health c) ∈ ["healthy"; "unhealthy"] ∧
    (health_store (health c) = "local" ∨
     health_store (health c) = "redis" ∧ is_Some (health_redis (health c)));
  cv_oidc : on_some oidc_valid (oidc c);
  cv_defaults : on_some rate_valid (defaultCaller (rateLimitDefaults c)) ∧
    on_some rate_valid (defaultTool (rateLimitDefaults c)) ∧ on_some rate_valid (defaultUpstream (rateLimitDefaults c));
}.
End valid.

(** ** Section by section *)

(** Turn the boolean tests of a successful check into propositions. *)
Ltac bool_props :=
  repeat match goal with
    | H : _ && _ = true |- _ => apply andb_true_iff in H as [? ?]
    | H : negb _ = true |- _ => apply negb_true_iff in H
    | H : bool_decide _ = true |- _ => apply bool_decide_eq_true in H
    | H : bool_decide _ = false |- _ => apply bool_decide_eq_false in H
    | H : is_one_of _ _ = true |- _ => unfold is_one_of in H
    | H : ?x ∈ [] |- _ => by apply not_elem_of_nil in H
    | H : _ ∈ _ :: _ |- _ => apply elem_of_cons in H as [H|H]
    end.

Ltac section_inv := intros; result_inv; bool_props.

Lemma default_if_empty_ne s d : d ≠ "" → default_if_empty s d ≠ "".
Proof. intros Hd. unfold default_if_empty. by case_bool_decide. Qed.

Lemma default_if_empty_cases s d : default_if_empty s d = d ∧ s = "" ∨ default_if_empty s d = s ∧ s ≠ "".
Proof. unfold default_if_empty. case_bool_decide; auto. Qed.

(** A choice with a default: the value in force is one of the named ones. *)
Lemma default_if_empty_choice s d l :
  is_one_of s ("" :: l) = true → d ∈ l → default_if_empty s d ∈ l.
Proof.
  unfold is_one_of, default_if_empty. intros Hs%bool_decide_eq_true Hd.
  case_bool_decide; [done|]. set_solver.
Qed.

Section sections.
Context `{Float64.GoPlatform} `{GoRange}.
Variable glob_ok : string → bool.

Record raw_upstream_ok (u : rawUpstreamConfig) : Prop := {
  ru_name : RawName u ≠ "";
  ru_transport : RawTransport u = "streamable-http" ∧ RawURL u ≠ "" ∨
                 RawTransport u = "stdio" ∧ RawCommand u ≠ [];
  ru_prefix : on_some (λ p, p = "" ∨ toolPrefixPattern p = true) (RawToolPrefix u);
}.

Lemma validateUpstream_ok i seen u :
  validateUpstream i seen u = Ok tt → raw_upstream_ok u ∧ RawName u ∉ seen.
Proof.
  unfold validateUpstream. section_inv. split; [|done]. split; [done| |].
  - destruct (bool_decide (RawTransport u = "streamable-http")) eqn:?; result_inv; bool_props; [by left|].
    destruct (bool_decide (RawTransport u = "stdio")) eqn:?; result_inv; bool_props; by right.
  - destruct (RawToolPrefix u) as [p|]; [|done]. simpl.
    destruct (bool_decide (p = "")) eqn:?; result_inv; bool_props; auto.
Qed.

Lemma validateUpstreams_ok i seen l names :
  validateUpstreams i seen l = Ok names →
  Forall raw_upstream_ok l ∧ NoDup (RawName <$> l) ∧ (∀ x, x ∈ RawName <$> l → x ∉ seen) ∧
  ∀ x, x ∈ names ↔ x ∈ RawName <$> l ∨ x ∈ seen.
Proof.
  revert i seen. induction l as [|u l IH]; intros i seen; simpl.
  { intros [= <-]. split_and!; [done|constructor|set_solver|set_solver]. }
  intros Hl. result_inv.
  match goal with H : validateUpstream _ _ _ = Ok ?x |- _ => destruct x;
    apply validateUpstream_ok in H as [? ?] end.
  destruct (IH _ _ Hl) as (Hr & Hnd & Hns & Hm).
  split_and!; [by constructor| |set_solver|set_solver].
  constructor; [|done]. intros Hin. specialize (Hns _ Hin). set_solver.
Qed.

Lemma convertPositiveDuration_pos f s d r : 0 < d → convertPositiveDuration f s d = Ok r → 0 < r.
Proof.
  intros Hd. unfold convertPositiveDuration. case_bool_decide; [by intros; simplify_eq|].
  destruct (Duration.ParseDuration s) as [z|]; [|done].
  destruct (Z.leb_spec z 0); [done|]. by intros; simplify_eq.
Qed.

Lemma convertRateLimit_valid f s r : convertRateLimit f s = Ok r → on_some rate_valid r.
Proof.
  unfold convertRateLimit. case_bool_decide; [by intros; simplify_eq|].
  destruct (ParseRateLimit s) as [rl|] eqn:E; [|done]. intros; simplify_eq.
  by apply ParseRateLimit_spec in E.
Qed.

Lemma convertCircuitBreaker_valid c r : convertCircuitBreaker c = Ok r → cb_valid r.
Proof.
  unfold convertCircuitBreaker. intros. result_inv. split; simpl.
  - destruct (Z.leb_spec (RawFailureThreshold c) 0); lia.
  - by eapply convertPositiveDuration_pos; [|done].
Qed.

Lemma convertRetry_valid c r : convertRetry c = Ok r → retry_valid r.
Proof.
  unfold convertRetry. intros. result_inv. split; simpl.
  - destruct (Z.leb_spec (RawMaxAttempts c) 0); lia.
  - by destruct (RawRetryableErrors c).
Qed.

Lemma convertOption_some {A B} (f : A → result config_error B) (P : B → Prop) o r :
  (∀ a b, f a = Ok b → P b) → convertOption f o = Ok r → on_some P r.
Proof.
  intros HP. unfold convertOption. destruct o as [a|]; [|by intros; simplify_eq].
  destruct (f a) eqn:E; simpl; [|done]. intros; simplify_eq; simpl. eauto.
Qed.

(** What one upstream keeps of its raw form. *)
Lemma convertUpstream_valid ru u :
  raw_upstream_ok ru → convertUpstream ru = Ok u →
  upstream_valid u ∧ UpstreamName u = RawName ru ∧
  ∀ p, oauth_provider_of u = Some p →
    ∃ a, RawAuthOf ru = Some a ∧ RawType a = "oauth" ∧ RawProvider a = p.
Proof.
  intros [Hn Ht Hp]. unfold convertUpstream. intros. result_inv.
  apply convertRateLimit_valid in E. apply convertPositiveDuration_pos in E0; [|done].
  apply (convertOption_some _ _ _ _ convertCircuitBreaker_valid) in E1.
  apply (convertOption_some _ _ _ _ convertRetry_valid) in E2.
  destruct Ht as [[Ht Hu]|[Ht Hu]]; rewrite Ht in *; simpl in *; simplify_eq.
  - split_and!; [by split|done|]. intros p. simpl.
    destruct (RawAuthOf ru) as [ra|]; simpl; [|done]. case_bool_decide; [|done].
    intros; simplify_eq. eauto.
  - split_and!; [by split|done|done].
Qed.

Lemma validateUpstreamAuths_ok providers seen l out :
  validateUpstreamAuths providers seen l = Ok out →
  (∀ x, x ∈ seen → x ∈ out) ∧
  ∀ u a, u ∈ l → RawAuthOf u = Some a → RawType a = "oauth" →
    RawName u ∈ out ∧ is_Some (providers !! RawProvider a).
Proof.
  revert seen. induction l as [|u l IH]; intros seen; simpl.
  { intros [= <-]. set_solver. }
  intros Hl. result_inv. destruct (IH _ Hl) as [IH1 IH2]. split.
  { intros x Hx. apply IH1. destruct a; set_solver. }
  intros u' a' [->|Hu]%elem_of_cons Ha Ht; [|by eauto].
  unfold validateUpstreamAuth in E. rewrite Ha, Ht in E. simpl in E.
  result_inv. destruct (providers !! RawProvider a'); [|done]. simplify_eq.
  split; [|done]. apply IH1. set_solver.
Qed.

Lemma validateProvider_ok p : validateProvider p = Ok tt → provider_complete (convertProvider p).
Proof. destruct p as [n p]. unfold validateProvider. section_inv. by repeat split. Qed.

Lemma convertServer_valid s r :
  validateDatabase s = Ok tt → validateServerTLS s = Ok tt → convertServer s = Ok r →
  address r ≠ "" ∧ database_valid (database r) ∧ on_some server_tls_valid (server_tls r).
Proof.
  intros Hd Ht. unfold convertServer. intros. result_inv. simpl.
  split_and!; [by apply default_if_empty_ne| |].
  - unfold convertDatabase, database_valid. unfold validateDatabase in Hd.
    destruct (RawServerDatabase s) as [d|]; [|case_bool_decide; [by left|by right; auto]].
    section_inv; right; simpl; (split; [|done]);
      destruct (default_if_empty_cases (RawDriver d) "sqlite") as [[-> ?]|[-> ?]]; auto; congruence.
  - unfold validateServerTLS in Ht. destruct (RawServerTLSOf s) as [t|]; [|done]. simpl.
    section_inv; (split_and!; simpl; [done..|]);
      destruct (default_if_empty_cases (RawMinVersion t) "1.2") as [[-> ?]|[-> Hne]];
      try set_solver; congruence.
Qed.

Lemma convertHealth_base r h c :
  validateHealth h = Ok tt → convertHealth r h = Ok c →
  0 < checkInterval c ∧ missingStatus c ∈ ["healthy"; "unhealthy"] ∧
  (health_store c = "local" ∨ health_store c = "redis") ∧
  (health_store c = "redis" → is_Some (health_redis c)).
Proof.
  unfold convertHealth. intros Hv Hc.
  destruct h as [h|]; simpl in *.
  - unfold mbind, result_bind in Hc. destruct (convertPositiveDuration _ _ _) as [d|] eqn:Ed; [|done].
    apply convertPositiveDuration_pos in Ed; [|done].
    assert (missingStatus c = default_if_empty (RawMissingStatus h) "healthy" ∧
      health_store c = default_if_empty (RawStore h) "local" ∧ checkInterval c = d ∧
      (health_store c = "redis" → is_Some (health_redis c))) as (-> & -> & -> & ?).
    { simpl in Hc. destruct (bool_decide (default_if_empty (RawStore h) "local" = "redis")) eqn:Eb.
      - destruct (match convertRedis <$> _ with Some _ => _ | None => _ end); [|done]. by simplify_eq.
      - simplify_eq. simpl. apply bool_decide_eq_false in Eb. by split_and!. }
    result_inv. split_and!; try done; [by apply default_if_empty_choice; [|set_solver]|].
    assert (default_if_empty (RawStore h) "local" ∈ ["local"; "redis"]);
      [by apply default_if_empty_choice; [|set_solver]|set_solver].
  - simplify_eq. simpl. split_and!; try done; [set_solver|by left].
Qed.

Lemma convertHealth_valid r h c :
  validateHealth h = Ok tt → convertHealth r h = Ok c →
  0 < checkInterval c ∧ missingStatus c ∈ ["healthy"; "unhealthy"] ∧
  (health_store c = "local" ∨ health_store c = "redis" ∧ is_Some (health_redis c)).
Proof. intros Hv Hc. destruct (convertHealth_base _ _ _ Hv Hc) as (?&?&[]&?); split_and!; auto. Qed.

Lemma convertLogging_valid l :
  validateLogging l = Ok tt →
  level (convertLogging l) ∈ ["debug"; "info"; "warn"; "error"] ∧
  format (convertLogging l) ∈ ["json"; "text"].
Proof.
  unfold validateLogging, convertLogging. destruct l as [l|]; simpl; intros; [|set_solver].
  result_inv. split; apply default_if_empty_choice; done || set_solver.
Qed.

Lemma convertAudit_valid a :
  validateAudit a = Ok tt → audit_enabled (convertAudit a) = true → audit_database (convertAudit a) ≠ "".
Proof.
  unfold validateAudit, convertAudit. destruct a as [a|]; simpl; [|done]. intros Hv He.
  rewrite He in Hv. result_inv. by bool_props.
Qed.

Lemma convertRateLimits_valid r rld :
  validateRateLimits r = Ok tt → convertRateLimits r = Ok rld →
  (default_if_empty (rl_backend rld) "local" = "local" ∨
  rl_backend rld = "redis" ∧ ∃ c, rl_redis rld = Some c ∧ redis_address c ≠ "") ∧
  on_some rate_valid (defaultCaller rld) ∧ on_some rate_valid (defaultTool rld) ∧ on_some rate_valid (defaultUpstream rld).
Proof.
  unfold validateRateLimits, convertRateLimits. destruct r as [r|]; intros; [|simplify_eq; split; [by left|done]].
  result_inv. split; [|split_and!; by eapply convertRateLimit_valid]. simpl. case_bool_decide as Hb.
  - rewrite Hb in *. right. split; [done|]. destruct (RawRLRedis r) as [c|]; simpl; [|done].
    eexists; split; [done|]. simpl. result_inv. by bool_props.
  - left. bool_props; unfold default_if_empty; case_bool_decide; congruence.
Qed.

Lemma convertOIDC_valid a : validateOIDC a = Ok tt → on_some oidc_valid (convertOIDC a).
Proof.
  unfold validateOIDC, convertOIDC. destruct (a ≫= RawOIDCOf) as [o|]; simpl; [|done].
  intros. result_inv. split_and!; simpl; [by bool_props|by apply default_if_empty_ne|].
  apply negb_true_iff, andb_false_iff in E1. apply bool_decide_eq_true in E2.
  assert (RawValidation o = "userinfo" ∨ RawValidation o ∈ [""; "jwt"]) as [->|Hj] by set_solver; [by right|left].
  destruct E1 as [Hx%bool_decide_eq_false|Hx%bool_decide_eq_false]; [done|].
  split; [|done]. unfold default_if_empty. clear E0. case_bool_decide; bool_props; congruence.
Qed.

Lemma convertRole_valid c names oauth n r rc :
  (∀ x, x ∈ names → x ∉ oauth →
    ∃ u, u ∈ upstreams c ∧ UpstreamName u = x ∧ oauth_provider_of u = None) →
  validateRole glob_ok names oauth (n, r) = Ok tt → convertRole n r = Ok rc → role_valid glob_ok c rc.
Proof.
  intros Hup Hv Hc. unfold validateRole in Hv. unfold convertRole in Hc. result_inv.
  apply convertRateLimit_valid in E, E1. bool_props. split; simpl; try done.
  - destruct a3. apply for_each_ok in E3. eapply Forall_impl; [done|]. simpl. intros. by result_inv.
  - apply for_each_ok in Hv. rewrite Forall_forall in Hv. intros k v Hk.
    specialize (Hv (k, v)). rewrite elem_of_go_range in Hv. specialize (Hv Hk).
    unfold validateCredential in Hv. result_inv. bool_props. split; auto.
Qed.

(** The upstream list after conversion, position by position. *)
Lemma convertUpstreams_valid rus us :
  Forall raw_upstream_ok rus → map_result convertUpstream rus = Ok us →
  Forall2 (λ ru u, upstream_valid u ∧ UpstreamName u = RawName ru ∧
    ∀ p, oauth_provider_of u = Some p →
      ∃ a, RawAuthOf ru = Some a ∧ RawType a = "oauth" ∧ RawProvider a = p) rus us.
Proof.
  intros Hok Hm%map_result_ok. induction Hm; inv Hok; constructor; auto.
  by apply convertUpstream_valid.
Qed.

Lemma find_provider_some (ps : gmap string rawOAuthProviderConfig) (n : string) :
  is_Some (ps !! n) →
  ∃ pc, List.find (λ p, bool_decide (op_name p = n)) (convertProvider <$> go_range ps) = Some pc ∧ op_name pc = n.
Proof.
  intros [rp Hp]. apply elem_of_go_range in Hp. induction (go_range ps) as [|[k v] l IH]; [set_solver|].
  simpl. case_bool_decide; [eauto|]. apply IH. set_solver.
Qed.

(** What [validate] has established by the time [convert] starts. *)
Lemma validate_ok raw : validate glob_ok raw = Ok tt →
  ∃ names oauth,
    RawUpstreams raw ≠ [] ∧ Forall raw_upstream_ok (RawUpstreams raw) ∧
    NoDup (RawName <$> RawUpstreams raw) ∧ (∀ x, x ∈ names ↔ x ∈ RawName <$> RawUpstreams raw) ∧
    (∀ u a, u ∈ RawUpstreams raw → RawAuthOf u = Some a → RawType a = "oauth" →
      RawName u ∈ oauth ∧ is_Some (RawOAuthProviders raw !! RawProvider a)) ∧
    (∀ n r, RawRoles raw !! n = Some r → validateRole glob_ok names oauth (n, r) = Ok tt) ∧
    (∀ n p, RawOAuthProviders raw !! n = Some p → validateProvider (n, p) = Ok tt).
Proof.
  unfold validate. intros Hv. result_inv. bool_props.
  repeat match goal with x : () |- _ => destruct x end.
  match goal with H : validateUpstreams _ _ _ = Ok _ |- _ =>
    apply validateUpstreams_ok in H as (? & ? & _ & Hn) end.
  match goal with H : validateUpstreamAuths _ _ _ = Ok _ |- _ =>
    apply validateUpstreamAuths_ok in H as [_ ?] end.
  repeat match goal with H : for_each _ _ = Ok _ |- _ => rewrite for_each_ok, Forall_forall in H end.
  eexists _, _. split_and!; [done..|intros x; rewrite Hn; set_solver|done| |].
  - intros n r Hr. apply Hv. by apply elem_of_go_range.
  - intros n p Hp. match goal with H : ∀ x, x ∈ go_range (RawOAuthProviders raw) → _ |- _ => apply H end.
    by apply elem_of_go_range.
Qed.

Lemma validate_sections raw : validate glob_ok raw = Ok tt →
  validateDatabase (RawServerOf raw) = Ok tt ∧ validateServerTLS (RawServerOf raw) = Ok tt ∧
  validateLogging (RawLoggingOf raw) = Ok tt ∧ validateAudit (RawAuditOf raw) = Ok tt ∧
  validateRateLimits (RawRateLimits raw) = Ok tt ∧ validateHealth (RawHealthOf raw) = Ok tt ∧
  validateOIDC (RawAuthSection raw) = Ok tt.
Proof.
  unfold validate. intros Hv. result_inv.
  repeat match goal with x : () |- _ => destruct x end. by split_and!.
Qed.

(** Roles are the entries of the document's role list that the map knows, in
    that order. *)
Lemma convertRoles_spec raw rs :
  convertRoles raw = Ok rs →
  role_name <$> rs = filter (λ n, is_Some (RawRoles raw !! n)) (rolesOrdered raw) ∧
  ∀ rc, rc ∈ rs → ∃ n r, RawRoles raw !! n = Some r ∧ convertRole n r = Ok rc.
Proof.
  unfold convertRoles. revert rs. induction (rolesOrdered raw) as [|n l IH]; simpl; intros rs.
  { intros [= <-]. set_solver. }
  destruct (RawRoles raw !! n) as [r|] eqn:Er; simpl.
  - intros Hr. result_inv. destruct (IH _ E0) as [IH1 IH2].
    assert (role_name a = n) as Hn by (unfold convertRole in E; by result_inv).
    rewrite filter_cons_True by (by rewrite Er). csimpl. rewrite Hn, IH1. split; [done|].
    intros rc [->|Hin]%elem_of_cons; eauto.
  - intros Hr. rewrite filter_cons_False by (rewrite Er; by intros [? ?]). auto.
Qed.

Lemma upstream_of_name rus us x oauth :
  Forall2 (λ ru u, upstream_valid u ∧ UpstreamName u = RawName ru ∧
    ∀ p, oauth_provider_of u = Some p →
      ∃ a, RawAuthOf ru = Some a ∧ RawType a = "oauth" ∧ RawProvider a = p) rus us →
  (∀ u a, u ∈ rus → RawAuthOf u = Some a → RawType a = "oauth" → RawName u ∈ oauth) →
  x ∈ RawName <$> rus → x ∉ (oauth : gset string) →
  ∃ u, u ∈ us ∧ UpstreamName u = x ∧ oauth_provider_of u = None.
Proof.
  intros H2 Ho (ru & -> & Hru)%list_elem_of_fmap Hx.
  apply list_elem_of_lookup in Hru as [i Hi]. destruct (Forall2_lookup_l _ _ _ _ _ H2 Hi) as (u & Hu & _ & Hn & Hp).
  exists u. split; [by eapply list_elem_of_lookup_2|]. split; [done|].
  destruct (oauth_provider_of u) as [p|]; [|done].
  destruct (Hp p eq_refl) as (a & ? & ? & _). destruct Hx. eapply Ho; eauto using list_elem_of_lookup_2.
Qed.

Lemma convert_upstreams raw c : convert glob_ok raw = Ok c →
  validate glob_ok raw = Ok tt ∧ map_result convertUpstream (RawUpstreams raw) = Ok (upstreams c) ∧
  oauthProviders c = convertProvider <$> go_range (RawOAuthProviders raw) ∧ convertRoles raw = Ok (roles c).
Proof. unfold convert. intros. result_inv. by destruct a. Qed.

(** C22: every configuration that [convert] returns is valid: it has upstreams
    with distinct non-empty names, each with an endpoint, a positive timeout and a
    usable prefix; every rate limit, the defaults too, is a number of requests per
    second, minute or hour that is positive or NaN (which the parser lets through:
    [ParseRateLimit_accepts_nan]), with the rate, the bucket of at least one request
    and the count that follow from it; every OAuth upstream names a complete
    provider; every role has compilable patterns and credentials only for known
    upstreams that do not use per-user tokens; and the server, logging, audit,
    backend, health and OIDC sections hold one of their documented values. *)
Theorem convert_valid raw c : convert glob_ok raw = Ok c → config_valid glob_ok c.
Proof.
  intros Hc. destruct (convert_upstreams _ _ Hc) as (Hv & Hu & Hp & Hr).
  destruct (validate_ok _ Hv) as (names & oauth & Hne & Hok & Hnd & Hn & Ho & Hrole & Hprov).
  apply convertUpstreams_valid in Hu as H2; [|done]. apply convertRoles_spec in Hr as [_ Hr].
  destruct (validate_sections _ Hv) as (Hdb & Htls & Hlog & Haud & Hrl & Hh & Hoidc).
  unfold convert in Hc. result_inv.
  destruct (convertServer_valid _ _ Hdb Htls E0) as (? & ? & ?). split; simpl.
  - intros Hx. apply Forall2_length in H2. rewrite Hx in H2. by destruct (RawUpstreams raw).
  - match goal with |- NoDup ?l => replace l with (RawName <$> RawUpstreams raw); [done|] end.
    clear -H2. induction H2 as [|???? (?&?&?)]; csimpl; congruence.
  - clear -H2. induction H2 as [|???? (?&?&?)]; auto.
  - intros u p Hin Hpu. apply list_elem_of_lookup in Hin as [i Hi].
    destruct (Forall2_lookup_r _ _ _ _ _ H2 Hi) as (ru & Hru & _ & _ & Hx).
    destruct (Hx _ Hpu) as (au & ? & ? & <-). unfold OAuthProvider. rewrite Hp. apply find_provider_some.
    eapply Ho; eauto using list_elem_of_lookup_2.
  - rewrite Hp. apply Forall_fmap, Forall_forall. intros [n rp] Hin%elem_of_go_range. by apply validateProvider_ok, Hprov.
  - apply Forall_forall. intros rc Hin. destruct (Hr _ Hin) as (n & r & Hl & Hcr).
    eapply convertRole_valid; [|by eauto|done]. intros x Hx Hx'. simpl.
    eapply upstream_of_name; eauto; [|by apply Hn]. intros. by eapply Ho.
  - by rewrite <- Hc.
  - by rewrite <- Hc.
  - by rewrite <- Hc.
  - rewrite <- Hc. by apply convertLogging_valid.
  - rewrite <- Hc. by apply convertAudit_valid.
  - unfold RateLimitBackend. rewrite <- Hc. simpl.
    destruct (convertRateLimits_valid _ _ Hrl E3) as [[Hd|[Hd ?]] _]; [by left|]. right. by rewrite Hd.
  - rewrite <- Hc. by eapply convertHealth_valid.
  - rewrite <- Hc. by apply convertOIDC_valid.
  - rewrite <- Hc. by apply (convertRateLimits_valid _ _ Hrl E3).
Qed.

(** The roles of a loaded configuration keep the order of the document's
    [roles] mapping; a name that the mapping does not define is dropped and
    nothing is added. *)
Theorem LoadBytes_role_order raw doc c :
  LoadBytes glob_ok (Some raw) doc = Some (Ok c) →
  role_name <$> roles c = filter (λ n, is_Some (RawRoles raw !! n)) (extractRoleOrder doc).
Proof.
  intros Hl. simpl in Hl. simplify_eq. destruct (convert_upstreams _ _ Hl) as (_ & _ & _ & Hr).
  by apply convertRoles_spec in Hr as [Hr _].
Qed.
End sections.

(** ** A configuration with every section that the checks read *)

Definition example_upstream : rawUpstreamConfig :=
  RawUpstream "github" "https://mcp.example" [] ∅ "streamable-http"
    (Some (RawAuth "oauth" "" "gh")) None [] (Some "gh") "10/sec" "5s"
    (Some (RawCB 0 "1m")) (Some (RawRetry 3 "" "" [])).

Definition example_upstream2 : rawUpstreamConfig :=
  RawUpstream "local" "" ["tool"] ∅ "stdio" None None [] None "" "" None None.

Definition example_raw : rawConfig :=
  RawConfig (RawServer "" "" "/var/stile.db" None "" None "")
    [example_upstream; example_upstream2]
    (<["dev" := RawRole ["gh_*"] {["local" := "LOCAL_TOKEN"]} "5/sec" ""]>
      {["admin" := RawRole ["*"] ∅ "" ""]})
    (Some (RawRLDefaults "redis" (Some (RawRedis "redis:6379" "" 0 "")) "100/min" "" ""))
    None None None (Some (RawHealth "redis" "" "" None))
    (Some (RawInboundAuth (Some (RawOIDC "https://idp" "stile" "" "" true [] []))))
    {["gh" := RawOAuthProvider "https://a" "https://t" "ID" "SECRET" []]} ["dev"; "admin"; "ghost"].

Definition example_doc : yaml_node :=
  let key s := YamlNode OtherNode s [] in
  let empty := YamlNode MappingNode "" [] in
  YamlNode DocumentNode ""
    [YamlNode MappingNode "" [key "upstreams"; empty; key "roles";
       YamlNode MappingNode "" [key "dev"; empty; key "admin"; empty]]].

Definition example_config : Config :=
  match @convert Float64.amd64 sorted_range (λ _, true) example_raw with
  | Ok c => c
  | Err _ => MkConfig (MkServer "" 0 "" (MkDatabase "" "") 0 None 0) [] [] (MkRLDefaults "" None None None None)
      (MkLogging "" "") (MkAudit false "" "") (MkTraces false "" S754_nan) (MkHealthConfig "" 0 "" None) None []
  end.

Lemma convert_valid_witness : @config_valid Float64.amd64 (λ _, true) example_config ∧ length (roles example_config) = 2%nat.
Proof.
  split; [|vm_compute; reflexivity].
  apply (@convert_valid Float64.amd64 sorted_range (λ _, true) example_raw). vm_compute. reflexivity.
Defined.

Lemma LoadBytes_role_order_witness :
  role_name <$> roles example_config =
  filter (λ n, is_Some (RawRoles example_raw !! n)) (extractRoleOrder (Some example_doc)) ∧
  extractRoleOrder (Some example_doc) = ["dev"; "admin"].
Proof.
  split; [|reflexivity].
  apply (@LoadBytes_role_order Float64.amd64 sorted_range (λ _, true) example_raw (Some example_doc)).
  vm_compute. reflexivity.
Defined.
