(* ===== verification/Telemetry.v ===== *)
(** * Logging and tracing ([internal/logging/tracehandler.go],
    [internal/telemetry/telemetry.go])

    [TraceHandler] wraps any handler of slog (class [SlogHandler]). [Init] sets up
    the tracer provider, with the two globals of OpenTelemetry that it
    registers when tracing is enabled. *)

From Stdlib Require Import SpecFloat.
From S2P Require Import Prelude GoLib ConfigData.
Import GoStr.

(** ** Logging *)

Record log_record := MkRecord { lr_level : Z; lr_message : string; lr_attrs : list (string * string) }.

(** [slog.Record.AddAttrs] *)
Definition AddAttrs (l : list (string * string)) (r : log_record) : log_record :=
  MkRecord (lr_level r) (lr_message r) (lr_attrs r ++ l).

(** The span of a context: the texts of its two identifiers if it is valid. *)
Abbreviation span_context := (option (string * string)).

(** [slog.Handler]; the state [H] has what was written. *)
Class SlogHandler (H : Type) := {
  Enabled : span_context → Z → H → bool;
  Handle : span_context → log_record → H → H * option string;
  WithAttrs : list (string * string) → H → H;
  WithGroup : string → H → H;
}.

Record TraceHandler (H : Type) := NewTraceHandler { th_inner : H }.
Arguments NewTraceHandler {H}. Arguments th_inner {H}.

Section trace.
Context {H : Type} `{SlogHandler H}.

Definition Trace_Enabled (sp : span_context) (level : Z) (h : TraceHandler H) : bool := Enabled sp level (th_inner h).

Definition trace_attrs (sp : span_context) : list (string * string) :=
  match sp with Some (traceID, spanID) => [("trace_id", traceID); ("span_id", spanID)] | None => [] end.

Definition Trace_Handle (sp : span_context) (r : log_record) (h : TraceHandler H) : TraceHandler H * option string :=
  let r := match sp with Some (t, s) => AddAttrs [("trace_id", t); ("span_id", s)] r | None => r end in
  let '(i, e) := Handle sp r (th_inner h) in (NewTraceHandler i, e).

Definition Trace_WithAttrs (l : list (string * string)) (h : TraceHandler H) : TraceHandler H :=
  NewTraceHandler (WithAttrs l (th_inner h)).
Definition Trace_WithGroup (name : string) (h : TraceHandler H) : TraceHandler H := NewTraceHandler (WithGroup name (th_inner h)).

#[global] Instance TraceHandler_SlogHandler : SlogHandler (TraceHandler H) := {|
  Enabled := Trace_Enabled; Handle := Trace_Handle; WithAttrs := Trace_WithAttrs; WithGroup := Trace_WithGroup;
|}.

(** How a logger is derived from another. *)
Inductive derivation := With (l : list (string * string)) | Group (name : string).
Definition derive {G} `{SlogHandler G} (ds : list derivation) (h : G) : G :=
  foldl (λ h d, match d with With l => WithAttrs l h | Group n => WithGroup n h end) h ds.

Lemma derive_trace ds (h : H) : derive ds (NewTraceHandler h) = NewTraceHandler (derive ds h).
Proof. revert h. induction ds as [|[] ds IH]; intros h; [done|..]; apply IH. Qed.

(** However a logger is derived from the wrapped one, it writes what the same
    logger derived from the inner handler writes, for the record with the two
    identifiers of the span added, if there is one; and it is enabled for the same
    levels. *)
Theorem trace_handler_adds_ids ds sp r (h : H) level :
  Enabled sp level (derive ds (NewTraceHandler h)) = Enabled sp level (derive ds h) ∧
  let '(h', e) := Handle sp r (derive ds (NewTraceHandler h)) in
  (th_inner h', e) = Handle sp (AddAttrs (trace_attrs sp) r) (derive ds h).
Proof.
  rewrite derive_trace. split; [done|]. cbn. unfold Trace_Handle. cbn.
  replace (match sp with Some (t, s) => AddAttrs [("trace_id", t); ("span_id", s)] r | None => r end) with (AddAttrs (trace_attrs sp) r).
  - by destruct (Handle sp _ _).
  - destruct sp as [[t s]|]; [done|]. unfold AddAttrs. simpl. rewrite app_nil_r. by destruct r.
Qed.
End trace.

(** ** Tracing *)

Definition tracerName : string := "github.com/anguslmm/stile".

(** A tracer provider of the SDK: where it exports to and what it samples. *)
Record TracerProvider := MkTP { tp_endpoint : string; tp_service : string * string; tp_sampleRate : spec_float }.

(** [tp] is nil without tracing; the tracer is then a no-op. *)
Record Provider := MkProvider { pr_tp : option TracerProvider }.

(** The globals of [otel]: the provider, and whether trace contexts are
    propagated. *)
Record Globals := MkGlobals { global_tp : option TracerProvider; global_propagates : bool }.

(** [exporter] and [resource] are whether these can be made. *)
Definition Init (exporter resource : option string) (tc : TracesConfig) (gl : Globals) : Globals * result string Provider :=
  if negb (traces_enabled tc) then (gl, Ok (MkProvider None))
  else match exporter with
  | Some e => (gl, Err ("telemetry: create OTLP exporter: " +:+ e))
  | None =>
      match resource with
      | Some e => (gl, Err ("telemetry: create resource: " +:+ e))
      | None =>
          let tp := MkTP (endpoint tc) ("stile", "0.1.0") (sampleRate tc) in
          (MkGlobals (Some tp) true, Ok (MkProvider (Some tp)))
      end
  end.

(** [flush] is what the SDK's provider reports. *)
Definition Shutdown (flush : option string) (p : Provider) : option string :=
  match pr_tp p with None => None | Some _ => flush end.

(** Tracing that is disabled can neither keep the gateway from starting nor
    from shutting down, and registers nothing; tracing that is enabled is
    registered globally, with the configured rate, exactly if it can be set up. *)
Theorem tracing_setup exporter resource tc gl flush :
  let '(gl', r) := Init exporter resource tc gl in
  if traces_enabled tc then
    (is_ok r = true ↔ exporter = None ∧ resource = None) ∧
    (∀ p, r = Ok p → global_tp gl' = pr_tp p ∧ global_propagates gl' = true ∧ tp_sampleRate <$> pr_tp p = Some (sampleRate tc)) ∧
    (is_ok r = false → gl' = gl)
  else gl' = gl ∧ ∃ p, r = Ok p ∧ Shutdown flush p = None.
Proof.
  unfold Init. destruct (traces_enabled tc); simpl; [|split; [done|]; by eexists].
  destruct exporter; [simpl; naive_solver|]. destruct resource; simpl; naive_solver.
Qed.
