(* ===== verification/Stdio.v ===== *)
(** * The stdio transport ([internal/transport/stdio.go])

    - [OS]: the processes that have not been reaped, each with what it will do
      with its pipes. A child is its future: the outcome of every write to its
      stdin and of every read from its stdout. The theorems hold for all of them.
    - [StdioTransport] with the operations of the source in a monad [M] over its
      state; a call can return, block for ever on a pipe, or panic.
    - [RoundTrip] sleeps with the lock released. It is cut there, into the part
      before the sleep and the parts after it: [Stdio_RoundTrip] runs them one
      after the other, and [step] interleaves the parts of many callers.
    - A startup ping runs in a goroutine of its own. One that is left behind after
      the timeout is counted ([abandoned]); it may read [t.stdout] at any later
      time, which ends the process if it is nil. *)

From S2P Require Import Prelude GoLib Json JsonRpc Transport ConfigData.
Import GoStr.

(** ** Processes and pipes *)

Inductive write_result := Written | BrokenPipe | WriteHangs.
Inductive scan_result := Line (l : string) | ScanEOF | ScanError (e : string) | ScanHangs.

(** What a child does with the next writes, and with the next reads, each
    after a delay; [received] is what it has been sent. When a list is used up
    the pipe is closed. *)
Record child := MkChild {
  on_write : list write_result;
  on_scan : list (Z * scan_result);
  received : list json;
}.

(** A process is in [procs] from its start until it is waited for: a child
    that has exited but was not waited for can still be signalled. *)
Record OS := MkOS {
  procs : gmap nat child;
  next_pid : nat;
  spawn_plan : list (result string child);
  environ : list string;
  launched : list (list string * list string);
}.

Definition pipe_write (p : nat) (m : json) (o : OS) : OS * write_result :=
  match procs o !! p with
  | None => (o, BrokenPipe)
  | Some c =>
      match on_write c with
      | [] => (o, BrokenPipe)
      | w :: ws =>
          let got := match w with Written => received c ++ [m] | _ => received c end in
          (MkOS (<[p := MkChild ws (on_scan c) got]> (procs o)) (next_pid o) (spawn_plan o)
             (environ o) (launched o), w)
      end
  end.

(** [bufio.Scanner.Scan]: an error or the end of the input stays. *)
Definition pipe_scan (p : nat) (o : OS) : OS * (Z * scan_result) :=
  match procs o !! p with
  | None => (o, (0, ScanEOF))
  | Some c =>
      match on_scan c with
      | [] => (o, (0, ScanEOF))
      | (d, Line l) :: rs =>
          (MkOS (<[p := MkChild (on_write c) rs (received c)]> (procs o)) (next_pid o) (spawn_plan o)
             (environ o) (launched o), (d, Line l))
      | (d, r) :: _ => (o, (d, r))
      end
  end.

(** [cmd.Start], with the pipes. *)
Definition spawn (argv envv : list string) (o : OS) : OS * result string nat :=
  let o' plan ps n := MkOS ps n plan (environ o) (launched o ++ [(argv, envv)]) in
  match spawn_plan o with
  | [] => (o' [] (procs o) (next_pid o), Err "start process: resource temporarily unavailable")
  | Err e :: plan => (o' plan (procs o) (next_pid o), Err e)
  | Ok c :: plan => (o' plan (<[next_pid o := c]> (procs o)) (S (next_pid o)), Ok (next_pid o))
  end.

(** SIGTERM, SIGKILL after five seconds, and the wait that reaps. *)
Definition reap (p : nat) (o : OS) : OS :=
  MkOS (delete p (procs o)) (next_pid o) (spawn_plan o) (environ o) (launched o).

(** ** The transport *)

(** [cmd]: nil, created but not started, or a process. The pipes are named by
    the process at their other end. *)
Record StdioTransport := MkStdio {
  command : list string;
  env : list string;
  name : string;
  cmd : option (option nat);
  stdin : option nat;
  stdout : option nat;
  started : bool;
  closed : bool;
  restartCount : Z;
  maxRestarts : Z;
  backoff : Z;
  permanentFail : bool;
  startupTimeout : Z;
  os : OS;
  abandoned : nat;   (* goroutines that startup pings have left behind *)
}.

Definition set_process c i o st w (t : StdioTransport) : StdioTransport :=
  MkStdio (command t) (env t) (name t) c i o st (closed t) (restartCount t) (maxRestarts t)
    (backoff t) (permanentFail t) (startupTimeout t) w (abandoned t).
Definition set_os (w : OS) (t : StdioTransport) : StdioTransport :=
  set_process (cmd t) (stdin t) (stdout t) (started t) w t.
Definition set_restarts n b pf (t : StdioTransport) : StdioTransport :=
  MkStdio (command t) (env t) (name t) (cmd t) (stdin t) (stdout t) (started t) (closed t) n
    (maxRestarts t) b pf (startupTimeout t) (os t) (abandoned t).
Definition set_closed (t : StdioTransport) : StdioTransport :=
  MkStdio (command t) (env t) (name t) (cmd t) (stdin t) (stdout t) (started t) true (restartCount t)
    (maxRestarts t) (backoff t) (permanentFail t) (startupTimeout t) (os t) (abandoned t).
Definition abandon (t : StdioTransport) : StdioTransport :=
  MkStdio (command t) (env t) (name t) (cmd t) (stdin t) (stdout t) (started t) (closed t) (restartCount t)
    (maxRestarts t) (backoff t) (permanentFail t) (startupTimeout t) (os t) (S (abandoned t)).

Definition second : Z := 1000000000.

(** [NewStdioTransport] *)
Definition NewStdioTransport `{GoRange} (cfg : StdioUpstreamConfig) (w : OS) : result string StdioTransport :=
  match s_command cfg with
  | [] => Err "transport/stdio: command is required"
  | _ => Ok (MkStdio (s_command cfg) ((λ '(k, v), k +:+ "=" +:+ v) <$> go_range (s_env cfg)) (s_name cfg)
               None None None false false 0 10 0 false (10 * second) w 0)
  end.

(** ** Effects *)

Inductive effect (A : Type) :=
| Val (a : A)
| Blocked
| Panic.
Arguments Val {A} a. Arguments Blocked {A}. Arguments Panic {A}.

Definition M (A : Type) : Type := StdioTransport → StdioTransport * effect A.

#[global] Instance M_ret : MRet M := λ A a t, (t, Val a).
#[global] Instance M_bind : MBind M := λ A B k m t,
  match m t with
  | (t, Val a) => k a t
  | (t, Blocked) => (t, Blocked)
  | (t, Panic) => (t, Panic)
  end.

Definition gets {A} (f : StdioTransport → A) : M A := λ t, (t, Val (f t)).
Definition modify (f : StdioTransport → StdioTransport) : M unit := λ t, (f t, Val tt).

(** [t.stdin.Encode(v)] and [t.stdout.Scan()]: a nil pointer panics. *)
Definition encode_raw (m : json) : M write_result := λ t,
  match stdin t with
  | None => (t, Panic)
  | Some p => let '(w, r) := pipe_write p m (os t) in (set_os w t, Val r)
  end.

Definition scan_raw : M (Z * scan_result) := λ t,
  match stdout t with
  | None => (t, Panic)
  | Some p => let '(w, r) := pipe_scan p (os t) in (set_os w t, Val r)
  end.

(** The same where nothing bounds the wait. *)
Definition encode (m : json) : M (result string unit) :=
  r ← encode_raw m;
  match r with
  | Written => mret (Ok tt)
  | BrokenPipe => mret (Err "broken pipe")
  | WriteHangs => λ t, (t, Blocked)
  end.

Definition scan : M scan_result :=
  '(_, r) ← scan_raw;
  match r with ScanHangs => λ t, (t, Blocked) | r => mret r end.

(** ** Starting and stopping the child *)

(** [start]: [t.cmd] is replaced first, also when the start then fails. *)
Definition start : M (result string unit) := λ t,
  match command t with
  | [] => (t, Panic)
  | argv =>
      let '(w, r) := spawn argv (environ (os t) ++ env t) (os t) in
      match r with
      | Err e => (set_process (Some None) (stdin t) (stdout t) (started t) w t,
                  Val (Err ("transport/stdio: " +:+ e)))
      | Ok p => (set_process (Some (Some p)) (Some p) (Some p) true w t, Val (Ok tt))
      end
  end.

(** [processAlive]: signal 0 reaches every process that was not waited for. *)
Definition processAlive (t : StdioTransport) : bool :=
  started t &&
  match cmd t with
  | Some (Some p) => bool_decide (is_Some (procs (os t) !! p))
  | _ => false
  end.

(** [cleanup] *)
Definition cleanup (t : StdioTransport) : StdioTransport :=
  set_process None None None false
    (match cmd t with Some (Some p) => reap p (os t) | _ => os t end) t.

(** [killProcess] *)
Definition killProcess (t : StdioTransport) : StdioTransport :=
  match cmd t with
  | Some (Some p) => set_process None None None false (reap p (os t)) t
  | _ => set_process (cmd t) (stdin t) (stdout t) false (os t) t
  end.

Definition permanent_error (t : StdioTransport) : string :=
  "transport/stdio: upstream " +:+ name t +:+ " permanently failed after "
  +:+ Strconv.FormatInt (maxRestarts t) +:+ " restarts".

(** [ensureRunning] *)
Definition ensureRunning : M (result string unit) := λ t,
  if permanentFail t then (t, Val (Err (permanent_error t)))
  else if started t && processAlive t then (t, Val (Ok tt))
  else start (if started t then cleanup t else t).

(** [verifyStartup]: any line is an answer; silence until the timeout kills
    the child. The goroutine that waits in the read for it is then left behind: its
    read fails, and it looks at [t.stdout] again, without the lock. One that waits in
    the write gets an error and ends. *)
Definition ping : Request := MkRequest Version "ping" None (Some (IntID 0)).

Definition startup_timed_out (reading : bool) : M (result string unit) :=
  modify (λ t, killProcess (if reading then abandon t else t));; mret (Err "transport/stdio: startup timeout").

Definition verifyStartup : M (result string unit) :=
  w ← encode_raw (marshalRequest ping);
  match w with
  | BrokenPipe => mret (Err "transport/stdio: startup ping write: broken pipe")
  | WriteHangs => startup_timed_out false
  | Written =>
      '(d, r) ← scan_raw;
      timeout ← gets startupTimeout;
      match r with
      | ScanHangs => startup_timed_out true
      | _ =>
          if timeout <=? d then startup_timed_out true
          else match r with
               | Line _ => mret (Ok tt)
               | ScanError e => mret (Err ("transport/stdio: startup ping read: " +:+ e))
               | _ => mret (Err "transport/stdio: startup ping: unexpected EOF")
               end
      end
  end.

(** [ResetBackoff] *)
Definition ResetBackoff (t : StdioTransport) : StdioTransport := set_restarts 0 0 (permanentFail t) t.

(** [restartWithBackoff], up to the sleep, whose length it returns, and after
    it. The lock is released in between. *)
Definition next_backoff (b : Z) : Z :=
  if b =? 0 then second else if 60 * second <? b * 2 then 60 * second else b * 2.

Definition restart_begin : M (result string Z) := λ t,
  let t := killProcess t in
  let n := restartCount t + 1 in
  if maxRestarts t <? n
  then (set_restarts n (backoff t) true t, Val (Err (permanent_error t)))
  else let b := next_backoff (backoff t) in (set_restarts n b (permanentFail t) t, Val (Ok b)).

Definition restart_end : M (result string unit) := λ t,
  if closed t then (t, Val (Err "transport/stdio: transport closed during restart backoff"))
  else (r ← start;
        match r with Err e => mret (Err e) | Ok _ => verifyStartup end) t.

(** ** Requests *)

Definition maxSkip : nat := 50.

(** [readJSONResponse]; [n] counts the lines it may still read. *)
Fixpoint read_lines (n : nat) : M (result string Response) :=
  match n with
  | O => mret (Err "transport/stdio: no JSON response after 50 lines")
  | S n =>
      r ← scan;
      match r with
      | ScanError e => mret (Err ("transport/stdio: read response: " +:+ e))
      | Line line =>
          if bool_decide (line = "") then read_lines n
          else match parse line ≫= Response_UnmarshalJSON with
               | Some resp => mret (Ok resp)
               | None => read_lines n
               end
      | _ => mret (Err "transport/stdio: unexpected EOF from process")
      end
  end.

Definition readJSONResponse : M (result string Response) := read_lines maxSkip.

Definition failed (msg : string) : result error TransportResult := Err (PlainError msg).

(** Where a call that waits for an answer stands: it has returned, or it
    sleeps before it restarts the child because of the error of a read. *)
Inductive reading :=
| Done (r : result error TransportResult)
| SleepRead (d : Z) (err : string).

(** The same from the start of the call: it may also sleep because of the
    error of a write. *)
Inductive entered :=
| SleepWrite (d : Z)
| Entered (r : reading).

Definition answered (resp : Response) : M (result error TransportResult) :=
  modify ResetBackoff;; mret (Ok (JSONResult resp)).

(** From the successful write of the request. *)
Definition after_write (req : Request) : M reading :=
  if IsNotification req then mret (Done (Ok (JSONResult (MkResponse Version None None None))))
  else
    r ← readJSONResponse;
    match r with
    | Ok resp => a ← answered resp; mret (Done a)
    | Err err =>
        rb ← restart_begin;
        match rb with
        | Err _ => mret (Done (failed ("transport/stdio: read response and restart failed: " +:+ err)))
        | Ok d => mret (SleepRead d err)
        end
    end.

(** [StdioTransport.RoundTrip], up to its first sleep. *)
Definition RoundTrip_enter (req : Request) : M entered :=
  isClosed ← gets closed;
  if (isClosed : bool) then mret (Entered (Done (failed "transport/stdio: transport is closed")))
  else
    running ← ensureRunning;
    match running with
    | Err e => mret (Entered (Done (failed e)))
    | Ok _ =>
        w ← encode (marshalRequest req);
        match w with
        | Ok _ => r ← after_write req; mret (Entered r)
        | Err _ =>
            rb ← restart_begin;
            match rb with
            | Err e => mret (Entered (Done (failed ("transport/stdio: write request and restart failed: " +:+ e))))
            | Ok d => mret (SleepWrite d)
            end
        end
    end.

(** After the sleep that follows a failed write. *)
Definition resume_write (req : Request) : M reading :=
  restarted ← restart_end;
  match restarted with
  | Err e => mret (Done (failed ("transport/stdio: write request and restart failed: " +:+ e)))
  | Ok _ =>
      w ← encode (marshalRequest req);
      match w with
      | Ok _ => after_write req
      | Err e => mret (Done (failed ("transport/stdio: write request after restart: " +:+ e)))
      end
  end.

(** After the sleep that follows a failed read, whose error is [err]. *)
Definition resume_read (req : Request) (err : string) : M (result error TransportResult) :=
  restarted ← restart_end;
  match restarted with
  | Err _ => mret (failed ("transport/stdio: read response and restart failed: " +:+ err))
  | Ok _ =>
      w ← encode (marshalRequest req);
      match w with
      | Err e => mret (failed ("transport/stdio: write request after restart: " +:+ e))
      | Ok _ =>
          r ← readJSONResponse;
          match r with
          | Ok resp => answered resp
          | Err e => mret (failed ("transport/stdio: read response after restart: " +:+ e))
          end
      end
  end.

Definition finish_reading (req : Request) (r : reading) : M (result error TransportResult) :=
  match r with Done r => mret r | SleepRead _ err => resume_read req err end.

(** The whole call, when nobody takes the lock while it sleeps. *)
Definition Stdio_RoundTrip (req : Request) : M (result error TransportResult) :=
  e ← RoundTrip_enter req;
  match e with
  | Entered r => finish_reading req r
  | SleepWrite _ => r ← resume_write req; finish_reading req r
  end.

(** [Close] *)
Definition Stdio_Close (t : StdioTransport) : StdioTransport :=
  if closed t then t
  else let t := set_closed t in if started t then killProcess t else t.

(** [Healthy] *)
Definition Stdio_Healthy (t : StdioTransport) : bool :=
  if permanentFail t then false else started t && processAlive t.

(** ** Concurrent callers *)

(** A call that sleeps. *)
Inductive pause := PWrite | PRead (err : string).

(** [crashed]: a goroutine has panicked, which ends the gateway. *)
Record sys := MkProcess { tr : StdioTransport; sleeping : gmap nat (Request * pause); crashed : bool }.
Abbreviation MkSys t m := (MkProcess t m false).

Definition park_reading (i : nat) (req : Request) (r : reading) (m : gmap nat (Request * pause)) :=
  match r with Done _ => m | SleepRead _ err => <[i := (req, PRead err)]> m end.
Definition park (i : nat) (req : Request) (e : entered) (m : gmap nat (Request * pause)) :=
  match e with SleepWrite _ => <[i := (req, PWrite)]> m | Entered r => park_reading i req r m end.

(** One critical section of the lock, or the end of a goroutine that a startup
    ping has left behind: [t.stdout.Err()], without the lock. A section that blocks
    never ends: no step follows it. *)
Inductive label := Enter (i : nat) | Wake (i : nat) | CloseCall | Stray.

Inductive step : label → sys → sys → Prop :=
| step_enter t t' m i req e :
    m !! i = None → RoundTrip_enter req t = (t', Val e) →
    step (Enter i) (MkSys t m) (MkSys t' (park i req e m))
| step_wake_write t t' m i req r :
    m !! i = Some (req, PWrite) → resume_write req t = (t', Val r) →
    step (Wake i) (MkSys t m) (MkSys t' (park_reading i req r (delete i m)))
| step_wake_read t t' m i req err r :
    m !! i = Some (req, PRead err) → resume_read req err t = (t', Val r) →
    step (Wake i) (MkSys t m) (MkSys t' (delete i m))
| step_close t m : step CloseCall (MkSys t m) (MkSys (Stdio_Close t) m)
| step_stray t m :
    (0 < abandoned t)%nat → step Stray (MkSys t m) (MkProcess t m (bool_decide (stdout t = None))).

Definition any_step (s s' : sys) : Prop := ∃ l, step l s s'.

(** A user that makes one call at a time. It may close the transport at any
    moment. *)
Definition serial_step (s s' : sys) : Prop :=
  ∃ l, step l s s' ∧ match l with Enter _ => sleeping s = ∅ | _ => True end.

Definition fresh (t : StdioTransport) : Prop :=
  command t ≠ [] ∧ cmd t = None ∧ stdin t = None ∧ stdout t = None ∧ started t = false ∧ closed t = false
  ∧ restartCount t = 0 ∧ 0 ≤ maxRestarts t ∧ backoff t = 0 ∧ permanentFail t = false ∧ procs (os t) = ∅.

Definition reachable (t : StdioTransport) : sys → Prop := rtc any_step (MkSys t ∅).
Definition serially_reachable (t : StdioTransport) : sys → Prop := rtc serial_step (MkSys t ∅).

(** ** A program logic for the monad *)

(** From a state in [P] the call does not panic; it blocks only if [hang], and
    what it returns satisfies [Q]. *)
Definition hoare {A} (hang : Prop) (P : StdioTransport → Prop) (m : M A) (Q : A → StdioTransport → Prop) : Prop :=
  ∀ t, P t → match m t with (t', Val a) => Q a t' | (_, Blocked) => hang | (_, Panic) => False end.

Lemma hoare_ret {A} hang (P : StdioTransport → Prop) (a : A) Q : (∀ t, P t → Q a t) → hoare hang P (mret a) Q.
Proof. intros H t. apply H. Qed.

Lemma hoare_bind {A B} hang P (m : M A) (Q : A → StdioTransport → Prop) (k : A → M B) R :
  hoare hang P m Q → (∀ a, hoare hang (Q a) (k a) R) → hoare hang P (m ≫= k) R.
Proof.
  intros Hm Hk t Ht. unfold mbind, M_bind. specialize (Hm t Ht).
  destruct (m t) as [t' [a| |]]; [by apply Hk|done..].
Qed.

Lemma hoare_gets {A} hang (P : StdioTransport → Prop) (f : StdioTransport → A) Q :
  (∀ t, P t → Q (f t) t) → hoare hang P (gets f) Q.
Proof. intros H t. apply H. Qed.

Lemma hoare_modify hang (P : StdioTransport → Prop) f Q :
  (∀ t, P t → Q tt (f t)) → hoare hang P (modify f) Q.
Proof. intros H t. apply H. Qed.

Lemma hoare_pre {A} hang (P P' : StdioTransport → Prop) (m : M A) Q :
  (∀ t, P t → P' t) → hoare hang P' m Q → hoare hang P m Q.
Proof. intros HP Hm t Ht. apply Hm; auto. Qed.


(** Either outcome of a fallible operation. *)
Definition either {E A} (P Q : StdioTransport → Prop) (r : result E A) : StdioTransport → Prop :=
  match r with Ok _ => P | Err _ => Q end.

(** What a proof about the calls needs: predicates on the states between calls
    ([Idle]), while a call talks to the child ([Run]) and while it sleeps
    ([Slept]), all counting the starts of a child so far. *)
Section calls.
Variable hang : Prop.
Variables Idle Run Slept : nat → StdioTransport → Prop.

Record call_rules : Prop := {
  rule_ensure n : hoare hang (Idle n) ensureRunning (either (Run (S n)) (Idle (S n)));
  rule_encode n m : hoare hang (Run n) (encode m) (λ _, Run n);
  rule_scan n : hoare hang (Run n) scan (λ _, Run n);
  rule_begin n : hoare hang (Run n) restart_begin (either (Slept n) (Idle n));
  rule_end n : hoare hang (Slept n) restart_end (either (Run (S n)) (Idle (S n)));
  rule_idle n t : Run n t → Idle n t;
  rule_reset n t : Run n t → Idle n (ResetBackoff t);
  rule_mono n t : Idle n t → Idle (S n) t;
}.

Hypothesis rules : call_rules.

Definition Reading (n : nat) (r : reading) : StdioTransport → Prop :=
  match r with Done _ => Idle n | SleepRead _ _ => Slept n end.

Lemma hoare_read_lines n k : hoare hang (Run n) (read_lines k) (λ _, Run n).
Proof.
  induction k as [|k IH]; cbn [read_lines]; [by apply hoare_ret|].
  eapply hoare_bind; [apply rules|]. intros [l| | |]; simpl; try by apply hoare_ret.
  case_bool_decide; [done|]. destruct (parse l ≫= _); [by apply hoare_ret|done].
Qed.

Lemma hoare_answered n resp : hoare hang (Run n) (answered resp) (λ _, Idle n).
Proof.
  eapply hoare_bind; [apply (hoare_modify _ _ _ (λ _, Idle n))|intros; by apply hoare_ret].
  apply rules.
Qed.

Lemma hoare_after_write n req : hoare hang (Run n) (after_write req) (Reading n).
Proof.
  unfold after_write. destruct (IsNotification req); [apply hoare_ret, rules|].
  eapply hoare_bind; [apply hoare_read_lines|]. intros [resp|e]; simpl.
  - eapply hoare_bind; [apply hoare_answered|]. intros. by apply hoare_ret.
  - eapply hoare_bind; [apply rules|]. intros [|]; by apply hoare_ret.
Qed.

Definition Entering (n : nat) (e : entered) : StdioTransport → Prop :=
  match e with SleepWrite _ => Slept n | Entered r => Reading n r end.

Lemma hoare_enter n req : hoare hang (Idle n) (RoundTrip_enter req) (Entering (S n)).
Proof.
  eapply hoare_bind; [apply (hoare_gets _ _ _ (λ _, Idle n)); done|]. intros [].
  { apply hoare_ret. apply rules. }
  eapply hoare_bind; [apply rules|]. intros [|e]; [|by apply hoare_ret].
  eapply hoare_bind; [apply rules|]. intros [|e].
  - eapply hoare_bind; [apply hoare_after_write|]. intros. by apply hoare_ret.
  - eapply hoare_bind; [apply rules|]. intros [|]; by apply hoare_ret.
Qed.

Lemma hoare_resume_write n req : hoare hang (Slept n) (resume_write req) (Reading (S n)).
Proof.
  eapply hoare_bind; [apply rules|]. intros [|e]; [|by apply hoare_ret].
  eapply hoare_bind; [apply rules|]. intros [|e]; [apply hoare_after_write|apply hoare_ret, rules].
Qed.

Lemma hoare_resume_read n req err : hoare hang (Slept n) (resume_read req err) (λ _, Idle (S n)).
Proof.
  eapply hoare_bind; [apply rules|]. intros [|e]; [|by apply hoare_ret].
  eapply hoare_bind; [apply rules|]. intros [|e]; [|apply hoare_ret, rules].
  eapply hoare_bind; [apply hoare_read_lines|]. intros [resp|e]; [apply hoare_answered|apply hoare_ret, rules].
Qed.


End calls.

(** ** What a transport keeps *)

(** The backoff after [n] restarts in a row: 1s, 2s, 4s, ..., 60s. *)
Definition schedule (n : Z) : Z := if n =? 0 then 0 else Z.min (60 * second) (2 ^ (n - 1) * second).

Record inv (t : StdioTransport) : Prop := {
  inv_command : command t ≠ [];
  inv_handles : started t = true → is_Some (stdin t) ∧ is_Some (stdout t);
  inv_count : 0 ≤ restartCount t;
  inv_max : 0 ≤ maxRestarts t;
  inv_backoff : backoff t = schedule (Z.min (restartCount t) (maxRestarts t));
  inv_exceeded : maxRestarts t < restartCount t → permanentFail t = true;
  inv_pids p : is_Some (procs (os t) !! p) → (p < next_pid (os t))%nat;
}.

Definition connected (t : StdioTransport) : Prop := is_Some (stdin t) ∧ is_Some (stdout t).

(** No child hangs on its pipes. *)
Definition calm (c : child) : Prop :=
  Forall (λ w, w ≠ WriteHangs) (on_write c) ∧ Forall (λ r, r.2 ≠ ScanHangs) (on_scan c).
Definition lively (o : OS) : Prop :=
  map_Forall (λ _ c, calm c) (procs o) ∧ Forall (λ r, match r with Ok c => calm c | Err _ => True end) (spawn_plan o).

(** Reading and writing change the pipes and nothing else. *)
Record piped (o o' : OS) : Prop := {
  piped_procs : dom (procs o') = dom (procs o);
  piped_pid : next_pid o' = next_pid o;
  piped_launched : launched o' = launched o;
  piped_lively : lively o → lively o';
}.

Lemma piped_refl o : piped o o.
Proof. by split. Qed.

Lemma piped_update o p c c' :
  procs o !! p = Some c → (calm c → calm c') →
  piped o (MkOS (<[p := c']> (procs o)) (next_pid o) (spawn_plan o) (environ o) (launched o)).
Proof.
  intros Hp Hc. split; simpl; try done.
  - apply dom_insert_lookup_L. eauto.
  - intros [Hps Hplan]. split; [|done]. apply map_Forall_insert_2; [|done]. apply Hc. by eapply (Hps p).
Qed.

Lemma pipe_write_piped p m o : piped o (pipe_write p m o).1.
Proof.
  unfold pipe_write. destruct (procs o !! p) as [c|] eqn:E; [|apply piped_refl].
  destruct (on_write c) as [|w ws] eqn:Ew; [apply piped_refl|]. eapply piped_update; [done|].
  unfold calm. rewrite Ew. intros [Hw Hs]. inv Hw. done.
Qed.

Lemma pipe_scan_piped p o : piped o (pipe_scan p o).1.
Proof.
  unfold pipe_scan. destruct (procs o !! p) as [c|] eqn:E; [|apply piped_refl].
  destruct (on_scan c) as [|[d []] rs] eqn:Es; try apply piped_refl. eapply piped_update; [done|].
  unfold calm. rewrite Es. intros [Hw Hs]. inv Hs. done.
Qed.



Lemma piped_lookup o o' p : piped o o' → is_Some (procs o' !! p) ↔ is_Some (procs o !! p).
Proof. intros [H _ _ _]. by rewrite <- !elem_of_dom, H. Qed.


Lemma inv_piped o t : inv t → piped (os t) o → inv (set_os o t).
Proof.
  intros [] Hp. split; simpl; try done. intros p. rewrite (piped_lookup _ _ _ Hp), (piped_pid _ _ Hp). auto.
Qed.

Lemma schedule_next n : 0 ≤ n → next_backoff (schedule n) = schedule (n + 1).
Proof.
  intros Hn. unfold next_backoff, schedule. destruct (Z.eqb_spec n 0) as [->|Hn0]; [done|].
  rewrite (proj2 (Z.eqb_neq (n + 1) 0)) by lia. unfold second.
  replace (n + 1 - 1) with (Z.succ (n - 1)) by lia. rewrite Z.pow_succ_r by lia.
  pose proof (Z.pow_pos_nonneg 2 (n - 1)).
  destruct (Z.eqb_spec (Z.min (60 * 1000000000) (2 ^ (n - 1) * 1000000000)) 0); [lia|].
  destruct (Z.ltb_spec (60 * 1000000000) (Z.min (60 * 1000000000) (2 ^ (n - 1) * 1000000000) * 2)); lia.
Qed.

Lemma inv_kill t : inv t → inv (killProcess t).
Proof.
  intros []. unfold killProcess. destruct (cmd t) as [[p|]|]; split; simpl; try done.
  intros q Hq. rewrite lookup_delete_is_Some in Hq. naive_solver.
Qed.

Lemma inv_cleanup t : inv t → inv (cleanup t).
Proof.
  intros []. unfold cleanup. split; simpl; try done.
  intros q. destruct (cmd t) as [[p|]|]; simpl; try rewrite lookup_delete_is_Some; naive_solver.
Qed.

Lemma inv_reset t : inv t → inv (ResetBackoff t).
Proof. intros []. split; simpl; try done; try lia. rewrite Z.min_l by lia. done. Qed.

Lemma restart_begin_spec t :
  ∃ n b pf r, restart_begin t = (set_restarts n b pf (killProcess t), Val r) ∧
    (permanentFail (killProcess t) = true → pf = true) ∧
    (inv t → inv (set_restarts n b pf (killProcess t))).
Proof.
  unfold restart_begin. destruct (Z.ltb_spec (maxRestarts (killProcess t)) (restartCount (killProcess t) + 1)).
  all: do 4 eexists; split; [done|]; split; [done|]; intros []%inv_kill; split; simpl in *; try done; try lia.
  - rewrite inv_backoff0. f_equal. lia.
  - rewrite inv_backoff0, schedule_next by lia. f_equal. lia.
Qed.

(** What [start] does. *)
Lemma start_spec t : command t ≠ [] →
  ∃ o r, start t = (match r with
                    | Err _ => set_process (Some None) (stdin t) (stdout t) (started t) o t
                    | Ok _ => let p := next_pid (os t) in set_process (Some (Some p)) (Some p) (Some p) true o t
                    end, Val r) ∧
    (procs o, next_pid o) = match r with
                            | Err _ => (procs (os t), next_pid (os t))
                            | Ok _ => (procs o, S (next_pid (os t)))
                            end ∧
    (∀ p, p ≠ next_pid (os t) → procs o !! p = procs (os t) !! p) ∧
    length (launched o) = S (length (launched (os t))) ∧ (lively (os t) → lively o).
Proof.
  intros Hc. unfold start. destruct (command t) as [|a argv]; [done|]. unfold spawn.
  destruct (spawn_plan (os t)) as [|[c|e] plan] eqn:Ep.
  1: eexists _, (Err _). 2: eexists _, (Ok tt). 3: eexists _, (Err _).
  all: split; [reflexivity|]; simpl; rewrite length_app; simpl; split_and!; try done; try lia.
  - intros [Hps Hpl]. split; [done|]. by constructor.
  - intros p Hp. by rewrite lookup_insert_ne by done.
  - intros [Hps Hpl]. rewrite Ep in Hpl. inv Hpl. split; [by apply map_Forall_insert_2|done].
  - intros [Hps Hpl]. rewrite Ep in Hpl. inv Hpl. by split.
Qed.

(** A predicate [K] that holds between calls and while one runs, besides the
    invariant, and [Sl], which holds in addition while a call sleeps: if the
    pipes, a start and a kill preserve them, so do the calls. *)
Section rules.
Variable hang : Prop.
Variable K : nat → StdioTransport → Prop.
Variable Sl : StdioTransport → Prop.

Record kept : Prop := {
  kept_piped n o t : K n t → piped (os t) o → K n (set_os o t);
  kept_write n p m t : K n t → (pipe_write p m (os t)).2 = WriteHangs → hang;
  kept_scan n p t : K n t → (pipe_scan p (os t)).2.2 = ScanHangs → hang;
  kept_kill n t : K n t → K n (killProcess t) ∧ Sl (killProcess t);
  kept_cleanup n t : K n t → K n (cleanup t) ∧ Sl (cleanup t);
  kept_stopped n t : K n t → started t = false → Sl t;
  kept_restarts n t c b pf : (permanentFail t = true → pf = true) →
    (K n t → K n (set_restarts c b pf t)) ∧ (Sl t → Sl (set_restarts c b pf t));
  kept_abandon n t : K n t → K n (abandon t);
  kept_mono n t : K n t → K (S n) t;
  kept_start n t : inv t → K n t → Sl t → K (S n) (start t).1;
}.

Hypothesis Hk : kept.

Definition Up (n : nat) (t : StdioTransport) : Prop := inv t ∧ K n t ∧ connected t.

Lemma Up_set_os n o t : Up n t → piped (os t) o → Up n (set_os o t).
Proof. intros (Hi & HK & Hc) Hp. split_and!; [by apply inv_piped|by apply Hk|done]. Qed.

Lemma hoare_encode_raw n m :
  hoare hang (Up n) (encode_raw m) (λ r t, Up n t ∧ (r = WriteHangs → hang)).
Proof.
  intros t Ht. unfold encode_raw. pose proof Ht as (_ & HK & [[p Hp] _]). rewrite Hp.
  pose proof (pipe_write_piped p m (os t)) as Hpiped. pose proof (kept_write Hk n p m t HK) as Hhang.
  destruct (pipe_write p m (os t)) as [w r]. split; [by apply Up_set_os|done].
Qed.

Lemma hoare_scan_raw n :
  hoare hang (Up n) scan_raw (λ r t, Up n t ∧ (r.2 = ScanHangs → hang)).
Proof.
  intros t Ht. unfold scan_raw. pose proof Ht as (_ & HK & [_ [p Hp]]). rewrite Hp.
  pose proof (pipe_scan_piped p (os t)) as Hpiped. pose proof (kept_scan Hk n p t HK) as Hhang.
  destruct (pipe_scan p (os t)) as [w r]. split; [by apply Up_set_os|done].
Qed.

Lemma hoare_encode n m : hoare hang (Up n) (encode m) (λ _, Up n).
Proof.
  eapply hoare_bind; [apply hoare_encode_raw|]. intros [] t [Ht Hh]; [done..|by apply Hh].
Qed.

Lemma hoare_scan n : hoare hang (Up n) scan (λ _, Up n).
Proof.
  eapply hoare_bind; [apply hoare_scan_raw|]. intros [d []] t [Ht Hh]; try done. by apply Hh.
Qed.

(** [verifyStartup] cannot hang: it answers within the timeout or kills. *)
Lemma hoare_verifyStartup n (Dn : StdioTransport → Prop) :
  (∀ t, Up n t → Dn t ∧ Dn (killProcess t) ∧ Dn (killProcess (abandon t))) →
  hoare hang (Up n) verifyStartup (either (Up n) Dn).
Proof.
  intros HD. assert (∀ b, hoare hang (Up n) (startup_timed_out b) (either (Up n) Dn)) as Hto.
  { intros b. eapply hoare_bind; [apply (hoare_modify _ _ _ (λ _, Dn))|intros; by apply hoare_ret].
    intros t (_ & ? & ?)%HD. by destruct b. }
  eapply hoare_bind; [apply hoare_encode_raw|]. intros [].
  - eapply hoare_bind; [eapply hoare_pre; [|apply hoare_scan_raw]; by intros t []|].
    intros [d r]. eapply hoare_bind; [apply (hoare_gets _ _ _ (λ _, Up n)); by intros t []|].
    intros timeout. destruct r; [|..|apply Hto]; destruct (timeout <=? d); try apply Hto; apply hoare_ret; naive_solver.
  - apply hoare_ret. intros t [Ht _]. by apply HD.
  - eapply hoare_pre; [|apply Hto]. by intros t [].
Qed.

Definition Between (n : nat) (t : StdioTransport) : Prop := inv t ∧ K n t.
Definition Asleep (n : nat) (t : StdioTransport) : Prop := inv t ∧ K n t ∧ Sl t.

Lemma hoare_start n : hoare hang (Asleep n) start (either (Up (S n)) (Between (S n))).
Proof.
  intros t (Hi & HK & Hs). pose proof (kept_start Hk n t Hi HK Hs) as HK'.
  destruct (start_spec t) as (o & r & E & Hn & Hp & _); [apply Hi|]. rewrite E in *.
  assert (∀ p, is_Some (procs o !! p) → (p < next_pid o)%nat) as Hpids.
  { intros p Hsome. destruct (decide (p = next_pid (os t))) as [->|Hne].
    - destruct r; simplify_eq; [lia|]. replace (procs o) with (procs (os t)) in Hsome by congruence.
      replace (next_pid o) with (next_pid (os t)) by congruence. by apply Hi.
    - rewrite Hp in Hsome by done. apply Hi in Hsome. destruct r; simplify_eq; lia. }
  destruct Hi. destruct r; split_and!; try done; split; done.
Qed.

Lemma Between_begin n : hoare hang (Up n) restart_begin (either (Asleep n) (Between n)).
Proof.
  intros t (Hi & HK & _). destruct (restart_begin_spec t) as (c & b & pf & r & -> & Hpf & Hi').
  destruct (kept_kill Hk n t HK) as [HK1 HS1]. destruct (kept_restarts Hk n (killProcess t) c b pf Hpf).
  destruct r; split_and!; auto.
Qed.

Lemma hoare_ensureRunning n : hoare hang (Between n) ensureRunning (either (Up (S n)) (Between (S n))).
Proof.
  intros t [Hi HK]. unfold ensureRunning. destruct (permanentFail t).
  { split; [done|]. by apply Hk. }
  destruct (started t) eqn:Es; simpl.
  - destruct (processAlive t).
    + split_and!; [done|by apply Hk|by apply Hi].
    + apply hoare_start. destruct (kept_cleanup Hk n t HK). split_and!; [by apply inv_cleanup|done..].
  - apply hoare_start. split_and!; [done..|]. by eapply kept_stopped.
Qed.

Lemma hoare_restart_end n : hoare hang (Asleep n) restart_end (either (Up (S n)) (Between (S n))).
Proof.
  intros t (Hi & HK & HS). unfold restart_end. destruct (closed t).
  { split; [done|]. by apply Hk. }
  revert t Hi HK HS. cut (hoare hang (Asleep n)
    (r ← start; match r with Err e => mret (Err e) | Ok _ => verifyStartup end)
    (either (Up (S n)) (Between (S n)))); [intros H t ???; by apply (H t)|].
  eapply hoare_bind; [apply hoare_start|]. intros [|e]; [|by apply hoare_ret].
  apply hoare_verifyStartup. intros t (Hi & HK & _). split; [done|].
  assert (inv (abandon t)) by (by destruct Hi; split).
  split; (split; [by apply inv_kill|]); apply Hk; [done|by apply Hk].
Qed.

Lemma kept_call_rules : call_rules hang Between Up Asleep.
Proof.
  split.
  - apply hoare_ensureRunning.
  - apply hoare_encode.
  - apply hoare_scan.
  - apply Between_begin.
  - apply hoare_restart_end.
  - intros n t (Hi & HK & _). done.
  - intros n t (Hi & HK & _). split; [by apply inv_reset|by apply Hk].
  - intros n t [Hi HK]. split; [done|by apply Hk].
Qed.
End rules.

(** ** The calls, for three predicates *)

Lemma kept_trivially : kept True (λ _ _, True) (λ _, True).
Proof. by split. Qed.

Lemma kept_failed : kept True (λ _ t, permanentFail t = true) (λ _, True).
Proof.
  split; try done; try tauto.
  - intros _ t. by unfold killProcess; destruct (cmd t) as [[]|].
  - intros _ t [Hc _] Hf _. by destruct (start_spec t) as (o & [] & -> & _).
Qed.

(** The only process is the one that [cmd] knows. *)
Definition own (t : StdioTransport) : Prop :=
  match cmd t with
  | Some (Some p) => started t = true ∧ ∀ q, is_Some (procs (os t) !! q) → q = p
  | _ => started t = false ∧ procs (os t) = ∅
  end.
Definition bare (t : StdioTransport) : Prop :=
  match cmd t with Some (Some p) => False | _ => True end ∧ started t = false ∧ procs (os t) = ∅.

Lemma bare_own t : bare t → own t.
Proof. unfold bare, own. destruct (cmd t) as [[]|]; naive_solver. Qed.

Lemma reap_only p (m : gmap nat child) : (∀ q, is_Some (m !! q) → q = p) → delete p m = ∅.
Proof.
  intros H. apply map_eq. intros q. rewrite lookup_empty, lookup_delete_None.
  destruct (m !! q) eqn:E; [left|by right]. symmetry. apply H. eauto.
Qed.

Lemma own_kill t : own t → bare (killProcess t).
Proof.
  unfold own, bare, killProcess. destruct (cmd t) as [[p|]|] eqn:E; simpl; rewrite ?E; try naive_solver.
  intros [_ H]. split_and!; [done..|]. by apply reap_only.
Qed.

Lemma own_cleanup t : own t → bare (cleanup t).
Proof.
  unfold own, bare, cleanup. destruct (cmd t) as [[p|]|] eqn:E; simpl; try naive_solver.
  intros [_ H]. split_and!; [done..|]. by apply reap_only.
Qed.

Lemma kept_own : kept True (λ _, own) bare.
Proof.
  split; try done.
  - intros _ o t Ht Hp. unfold own in *. simpl. destruct (cmd t) as [[p|]|].
    + destruct Ht as [? H]. split; [done|]. intros q. rewrite (piped_lookup _ _ _ Hp). apply H.
    + destruct Ht as [? H]. split; [done|]. apply dom_empty_inv_L. by rewrite (piped_procs _ _ Hp), H, dom_empty_L.
    + destruct Ht as [? H]. split; [done|]. apply dom_empty_inv_L. by rewrite (piped_procs _ _ Hp), H, dom_empty_L.
  - intros _ t Ht%own_kill. split; [by apply bare_own|done].
  - intros _ t Ht%own_cleanup. split; [by apply bare_own|done].
  - intros _ t Ht Hs. unfold own, bare in *. destruct (cmd t) as [[]|]; naive_solver congruence.
  - intros _ t [Hc _] _ (Hcmd & Hst & Hps).
    destruct (start_spec t) as (o & [] & -> & Hn & Hp & _); [done|..]; unfold own; simpl.
    + split; [done|]. intros q Hq. destruct (decide (q = next_pid (os t))); [done|].
      rewrite Hp, Hps in Hq by done. by destruct Hq.
    + split; [done|]. congruence.
Qed.


(** ** Interleavings *)

Lemma hoare_Val {A} P (m : M A) Q t t' a : hoare True P m Q → m t = (t', Val a) → P t → Q a t'.
Proof. intros H E HP. specialize (H t HP). by rewrite E in H. Qed.

Lemma inv_close t : inv t → inv (Stdio_Close t).
Proof.
  intros Hi. unfold Stdio_Close. destruct (closed t); [done|].
  assert (inv (set_closed t)) by (by destruct Hi; split). simpl. destruct (started t); [by apply inv_kill|done].
Qed.

Lemma step_keeps (K : StdioTransport → Prop) l s s' :
  kept True (λ _, K) (λ _, True) → (∀ t, K t → K (Stdio_Close t)) →
  step l s s' → inv (tr s) ∧ K (tr s) → inv (tr s') ∧ K (tr s').
Proof.
  intros HK HC Hs [Hi Ht]. pose proof (kept_call_rules _ _ _ HK) as R.
  destruct Hs as [t t' m i req e _ E|t t' m i req r _ E|t t' m i req err r _ E|t m|t m _]; simpl in *; [..|done].
  - apply (hoare_Val _ _ _ _ _ _ (hoare_enter _ _ _ _ R 0 req)) in E; [|done].
    destruct e as [|[]]; split; apply E.
  - apply (hoare_Val _ _ _ _ _ _ (hoare_resume_write _ _ _ _ R 0 req)) in E; [|done].
    destruct r; split; apply E.
  - by apply (hoare_Val _ _ _ _ _ _ (hoare_resume_read _ _ _ _ R 0 req err)) in E.
  - split; [by apply inv_close|auto].
Qed.

Lemma steps_keep (K : StdioTransport → Prop) s s' :
  kept True (λ _, K) (λ _, True) → (∀ t, K t → K (Stdio_Close t)) →
  rtc any_step s s' → inv (tr s) ∧ K (tr s) → inv (tr s') ∧ K (tr s').
Proof.
  intros HK HC. induction 1 as [|s1 s2 s3 [l Hs] _ IH]; [done|]. intros H. apply IH.
  by eapply step_keeps.
Qed.

Lemma fresh_inv t : fresh t → inv t.
Proof.
  intros (Hc & ? & ? & ? & Hst & ? & Hn & Hm & Hb & Hp & Hps).
  split; rewrite ?Hst, ?Hn, ?Hb, ?Hps; try done; try lia.
  - by rewrite Z.min_l by lia.
  - intros p. rewrite lookup_empty. by intros [].
Qed.

Lemma reachable_inv t s : fresh t → reachable t s → inv (tr s).
Proof.
  intros Hf Hr. eapply (steps_keep (λ _, True)); [apply kept_trivially|done|exact Hr|].
  split; [by apply fresh_inv|done].
Qed.

Lemma schedule_range n : 0 ≤ n → 0 ≤ schedule n ≤ 60 * second.
Proof.
  intros. unfold schedule, second. destruct (Z.eqb_spec n 0); [lia|].
  pose proof (Z.pow_nonneg 2 (n - 1)). lia.
Qed.

(** *** The permanent failure *)

(** A computation that leaves [permanentFail] alone, and one that sets it only
    when the restarts in a row exceed the limit. *)
Definition keeps_failed {A} (m : M A) : Prop := ∀ t, permanentFail (m t).1 = permanentFail t.
Definition gives_up {A} (m : M A) : Prop :=
  ∀ t, permanentFail t = false → permanentFail (m t).1 = true → maxRestarts (m t).1 < restartCount (m t).1.

Lemma keeps_bind {A B} (m : M A) (k : A → M B) : keeps_failed m → (∀ a, keeps_failed (k a)) → keeps_failed (m ≫= k).
Proof.
  intros Hm Hk t. unfold mbind, M_bind. specialize (Hm t). destruct (m t) as [t' [a| |]]; simpl in *; [|done..].
  by rewrite (Hk a t').
Qed.
Lemma keeps_modify f : (∀ t, permanentFail (f t) = permanentFail t) → keeps_failed (modify f).
Proof. intros Hf t. apply Hf. Qed.
Lemma keeps_gives_up {A} (m : M A) : keeps_failed m → gives_up m.
Proof. intros Hm t Hf. by rewrite (Hm t), Hf. Qed.
Lemma gives_up_after {A B} (m : M A) (k : A → M B) : keeps_failed m → (∀ a, gives_up (k a)) → gives_up (m ≫= k).
Proof.
  intros Hm Hk t Hf. unfold mbind, M_bind. specialize (Hm t). destruct (m t) as [t' [a| |]]; simpl in *; [|congruence..].
  apply (Hk a t'). congruence.
Qed.
Lemma gives_up_before {A B} (m : M A) (k : A → M B) : gives_up m → (∀ a t, (k a t).1 = t) → gives_up (m ≫= k).
Proof. intros Hm Hk t Hf. specialize (Hm t Hf). unfold mbind, M_bind. destruct (m t) as [t' [a| |]]; [by rewrite Hk|done..]. Qed.

Lemma kill_failed t : permanentFail (killProcess t) = permanentFail t.
Proof. unfold killProcess. by destruct (cmd t) as [[]|]. Qed.
Lemma keeps_encode_raw m : keeps_failed (encode_raw m).
Proof. intros t. unfold encode_raw. destruct (stdin t); [|done]. by destruct (pipe_write _ _ _). Qed.
Lemma keeps_scan_raw : keeps_failed scan_raw.
Proof. intros t. unfold scan_raw. destruct (stdout t); [|done]. by destruct (pipe_scan _ _). Qed.
Lemma keeps_encode m : keeps_failed (encode m).
Proof. apply keeps_bind; [apply keeps_encode_raw|]. by intros []. Qed.
Lemma keeps_start : keeps_failed start.
Proof. intros t. unfold start. destruct (command t); [done|]. by destruct (spawn _ _ _) as [o []]. Qed.
Lemma keeps_ensureRunning : keeps_failed ensureRunning.
Proof.
  intros t. unfold ensureRunning. destruct (permanentFail t) eqn:Ef; [done|]. destruct (started t && _); [done|].
  destruct (started t); by rewrite keeps_start.
Qed.
Lemma keeps_timed_out b : keeps_failed (startup_timed_out b).
Proof. apply keeps_bind; [|done]. apply keeps_modify. intros t. rewrite kill_failed. by destruct b. Qed.
Lemma keeps_verifyStartup : keeps_failed verifyStartup.
Proof.
  apply keeps_bind; [apply keeps_encode_raw|]. intros []; [|done|apply keeps_timed_out].
  apply keeps_bind; [apply keeps_scan_raw|]. intros [d r]. apply keeps_bind; [done|]. intros timeout.
  destruct r; try apply keeps_timed_out; destruct (timeout <=? d); try apply keeps_timed_out; done.
Qed.
Lemma keeps_restart_end : keeps_failed restart_end.
Proof.
  intros t. unfold restart_end. destruct (closed t); [done|]. revert t.
  refine (keeps_bind start _ keeps_start _). intros []; [apply keeps_verifyStartup|done].
Qed.
Lemma keeps_read_lines n : keeps_failed (read_lines n).
Proof.
  induction n as [|n IH]; cbn [read_lines]; [done|]. apply keeps_bind.
  { apply keeps_bind; [apply keeps_scan_raw|]. by intros [d []]. }
  intros [l| | |]; try done. destruct (bool_decide _); [done|]. by destruct (parse l ≫= _).
Qed.
Lemma keeps_answered resp : keeps_failed (answered resp).
Proof. by apply keeps_bind; [apply keeps_modify|]. Qed.

Lemma gives_up_restart : gives_up restart_begin.
Proof.
  intros t Hf. unfold restart_begin. destruct (Z.ltb_spec (maxRestarts (killProcess t)) (restartCount (killProcess t) + 1)); simpl; [lia|].
  by rewrite kill_failed, Hf.
Qed.
Lemma gives_up_after_write req : gives_up (after_write req).
Proof.
  unfold after_write. destruct (IsNotification req); [by apply keeps_gives_up|].
  apply gives_up_after; [apply keeps_read_lines|]. intros [resp|e].
  - apply keeps_gives_up, keeps_bind; [apply keeps_answered|done].
  - apply gives_up_before; [apply gives_up_restart|by intros []].
Qed.
Lemma gives_up_enter req : gives_up (RoundTrip_enter req).
Proof.
  apply gives_up_after; [done|]. intros []; [by apply keeps_gives_up|].
  apply gives_up_after; [apply keeps_ensureRunning|]. intros []; [|by apply keeps_gives_up].
  apply gives_up_after; [apply keeps_encode|]. intros [].
  - apply gives_up_before; [apply gives_up_after_write|done].
  - apply gives_up_before; [apply gives_up_restart|by intros []].
Qed.
Lemma gives_up_resume_write req : gives_up (resume_write req).
Proof.
  apply gives_up_after; [apply keeps_restart_end|]. intros []; [|by apply keeps_gives_up].
  apply gives_up_after; [apply keeps_encode|]. intros []; [apply gives_up_after_write|by apply keeps_gives_up].
Qed.
Lemma keeps_resume_read req err : keeps_failed (resume_read req err).
Proof.
  apply keeps_bind; [apply keeps_restart_end|]. intros []; [|done]. apply keeps_bind; [apply keeps_encode|]. intros []; [|done].
  apply keeps_bind; [apply keeps_read_lines|]. intros []; [apply keeps_answered|done].
Qed.

Lemma step_gives_up l s s' : step l s s' → permanentFail (tr s) = false → permanentFail (tr s') = true →
  maxRestarts (tr s') < restartCount (tr s').
Proof.
  destruct 1 as [t t' m i req e _ E|t t' m i req r _ E|t t' m i req err r _ E|t m|t m _]; simpl; intros Hf; [..|congruence].
  - pose proof (gives_up_enter req t Hf) as Hg. by rewrite E in Hg.
  - pose proof (gives_up_resume_write req t Hf) as Hg. by rewrite E in Hg.
  - pose proof (keeps_resume_read req err t) as Hg. rewrite E in Hg. simpl in Hg. congruence.
  - unfold Stdio_Close. destruct (closed t); [congruence|]. simpl. destruct (started t); [rewrite kill_failed|]; simpl; congruence.
Qed.

Lemma crash_is_stray t0 s : reachable t0 s → crashed s = true → (0 < abandoned (tr s))%nat ∧ stdout (tr s) = None.
Proof.
  intros Hr. apply rtc_inv_r in Hr as [<-|(s1 & _ & l & Hs)]; [done|]. destruct Hs; simpl; try done.
  by intros ?%bool_decide_eq_true.
Qed.

(** C9: however calls and closes interleave at the lock, no call uses a nil pipe.
    The backoff follows the schedule 1s, 2s, 4s, ..., 60s of the restarts in a row,
    which are counted up to the limit: beyond it the transport has failed
    permanently, and a step makes it fail permanently only beyond it. A nil pipe is
    used, and the gateway ends with it, only by a goroutine that a startup ping has
    left behind after its timeout: it reads [t.stdout] after the child was killed. *)
Theorem stdio_invariant t0 s :
  fresh t0 → reachable t0 s →
  (∀ req, (RoundTrip_enter req (tr s)).2 ≠ Panic ∧ (resume_write req (tr s)).2 ≠ Panic
          ∧ ∀ err, (resume_read req err (tr s)).2 ≠ Panic) ∧
  backoff (tr s) = schedule (Z.min (restartCount (tr s)) (maxRestarts (tr s))) ∧
  0 ≤ backoff (tr s) ≤ 60 * second ∧
  (maxRestarts (tr s) < restartCount (tr s) → permanentFail (tr s) = true) ∧
  (∀ l s', step l s s' → permanentFail (tr s) = false → permanentFail (tr s') = true →
    maxRestarts (tr s') < restartCount (tr s')) ∧
  (crashed s = true → (0 < abandoned (tr s))%nat ∧ stdout (tr s) = None).
Proof.
  intros Hf Hr. pose proof (reachable_inv _ _ Hf Hr) as Hi.
  pose proof (kept_call_rules _ _ _ kept_trivially) as R. split_and!.
  - intros req. split_and!.
    + pose proof (hoare_enter _ _ _ _ R 0 req (tr s)) as H. intros E.
      destruct (RoundTrip_enter req (tr s)) as [? []]; simplify_eq/=. by apply H.
    + pose proof (hoare_resume_write _ _ _ _ R 0 req (tr s)) as H. intros E.
      destruct (resume_write req (tr s)) as [? []]; simplify_eq/=. by apply H.
    + intros err. pose proof (hoare_resume_read _ _ _ _ R 0 req err (tr s)) as H. intros E.
      destruct (resume_read req err (tr s)) as [? []]; simplify_eq/=. by apply H.
  - apply Hi.
  - rewrite (inv_backoff _ Hi). apply schedule_range. destruct Hi. lia.
  - rewrite (inv_backoff _ Hi). apply schedule_range. destruct Hi. lia.
  - apply Hi.
  - intros l s'. apply step_gives_up.
  - by eapply crash_is_stray.
Qed.

(** A transport that has failed permanently stays so whatever is done with
    it, and answers every call with an error without touching a process. *)
Theorem permanent_failure_final t0 s s' req :
  fresh t0 → reachable t0 s → permanentFail (tr s) = true → rtc any_step s s' →
  permanentFail (tr s') = true ∧
  ∃ e, RoundTrip_enter req (tr s') = (tr s', Val (Entered (Done (Err e)))).
Proof.
  intros Hf Hr Hp Hs.
  assert (inv (tr s') ∧ permanentFail (tr s') = true) as [_ Hp'].
  { eapply (steps_keep (λ t, permanentFail t = true)); [apply kept_failed| |exact Hs|].
    - intros t Ht. unfold Stdio_Close. destruct (closed t); [done|]. simpl. destruct (started t); [|done].
      by unfold killProcess; destruct (cmd _) as [[]|].
    - split; [by eapply reachable_inv|done]. }
  split; [done|]. unfold RoundTrip_enter, gets, mbind, M_bind, mret, M_ret.
  destruct (closed (tr s')); [by eexists|]. unfold ensureRunning. rewrite Hp'. by eexists.
Qed.



(** ** One call at a time *)

(** Nobody sleeps, or the one that does has left no process behind. *)
Definition serial_ok (s : sys) : Prop :=
  inv (tr s) ∧ own (tr s) ∧ (closed (tr s) = true → procs (os (tr s)) = ∅) ∧
  (sleeping s = ∅ ∨ bare (tr s) ∧ ∃ i c, sleeping s = {[i := c]}).

Lemma kept_and K1 K2 S1 S2 :
  kept True K1 S1 → kept True K2 S2 → kept True (λ n t, K1 n t ∧ K2 n t) (λ t, S1 t ∧ S2 t).
Proof.
  intros [] []. split; try done.
  - intros n o t [] ?. split; eauto.
  - intros n t [H1 H2]. destruct (kept_kill0 n t H1), (kept_kill1 n t H2). done.
  - intros n t [H1 H2]. destruct (kept_cleanup0 n t H1), (kept_cleanup1 n t H2). done.
  - intros n t [] ?. split; eauto.
  - intros n t c b pf Hpf.
    destruct (kept_restarts0 n t c b pf Hpf), (kept_restarts1 n t c b pf Hpf). naive_solver.
  - intros n t []. split; eauto.
  - intros n t []. split; eauto.
  - intros n t Hi [] []. split; eauto.
Qed.

Lemma kept_open : kept True (λ _ t, closed t = false) (λ _, True).
Proof.
  split; try done; try tauto.
  - intros _ t. by unfold killProcess; destruct (cmd t) as [[]|].
  - intros _ t [Hc _] Hf _. by destruct (start_spec t) as (o & [] & -> & _).
Qed.

(** A closed transport refuses, whatever point the call has reached. *)
Lemma closed_refuses req t : closed t = true →
  (∃ e, RoundTrip_enter req t = (t, Val (Entered (Done (Err e))))) ∧
  (∃ e, resume_write req t = (t, Val (Done (Err e)))) ∧
  ∀ err, ∃ e, resume_read req err t = (t, Val (Err e)).
Proof.
  intros H. unfold RoundTrip_enter, resume_write, resume_read, restart_end, gets, mbind, M_bind, mret, M_ret.
  rewrite H. split_and!; eauto.
Qed.

Lemma bare_close t : bare t → bare (Stdio_Close t).
Proof.
  intros (Hc & Hst & Hps). unfold Stdio_Close. destruct (closed t); [done|]. simpl. by rewrite Hst.
Qed.

Lemma own_close t : own t → (closed t = true → procs (os t) = ∅) →
  own (Stdio_Close t) ∧ procs (os (Stdio_Close t)) = ∅.
Proof.
  intros Ho Hc. unfold Stdio_Close. destruct (closed t); [auto|]. simpl.
  destruct (started t) eqn:Es.
  - pose proof (own_kill (set_closed t) Ho) as Hb. split; [by apply bare_own|apply Hb].
  - split; [done|]. unfold own in Ho. destruct (cmd t) as [[]|]; naive_solver congruence.
Qed.

Definition SerialK (t : StdioTransport) : Prop := own t ∧ closed t = false.
Lemma serial_rules :
  call_rules True (λ n t, inv t ∧ SerialK t) (λ n t, inv t ∧ SerialK t ∧ connected t)
    (λ n t, inv t ∧ SerialK t ∧ bare t ∧ True).
Proof. apply kept_call_rules, kept_and; [apply kept_own|apply kept_open]. Qed.

Lemma serial_ok_idle t : inv t → SerialK t → serial_ok (MkSys t ∅).
Proof. intros ? []. split_and!; simpl; [done..|congruence|by left]. Qed.

Lemma serial_ok_asleep t i c : inv t → SerialK t → bare t → serial_ok (MkSys t {[i := c]}).
Proof. intros ? [] ?. split_and!; simpl; [done..|congruence|right; eauto]. Qed.

Lemma serial_ok_parked t i req r : Reading (λ _ t, inv t ∧ SerialK t) (λ _ t, inv t ∧ SerialK t ∧ bare t ∧ True) 1 r t →
  serial_ok (MkSys t (park_reading i req r ∅)).
Proof.
  destruct r; simpl; [intros []; by apply serial_ok_idle|intros (?&?&?&_)].
  rewrite insert_empty. by apply serial_ok_asleep.
Qed.

Lemma serial_wakes t m i (c : Request * pause) :
  serial_ok (MkSys t m) → m !! i = Some c → bare t ∧ delete i m = ∅.
Proof.
  intros (_ & _ & _ & [Hm|(Hb & j & d & Hm)]) Hi; simpl in *; subst; [done|].
  apply lookup_singleton_Some in Hi as [-> ->]. split; [done|]. by rewrite delete_singleton_eq.
Qed.

Lemma serial_step_ok s s' : serial_step s s' → serial_ok s → serial_ok s'.
Proof.
  intros (l & Hs & Hser) Hok. pose proof Hok as (Hi & Ho & Hc & Hsl).
  destruct Hs as [t t' m i req e Hm E|t t' m i req r Hm E|t t' m i req err r Hm E|t m|t m _]; simpl in *; subst; [..|done].
  - destruct (closed t) eqn:Hcl.
    { destruct (closed_refuses req t Hcl) as [[e' E'] _]. rewrite E in E'. by simplify_eq/=. }
    apply (hoare_Val _ _ _ _ _ _ (hoare_enter _ _ _ _ serial_rules 0 req)) in E; [|done].
    destruct e as [d|r]; [|by apply serial_ok_parked].
    simpl. rewrite insert_empty. by apply serial_ok_asleep; destruct E as (?&?&?&?).
  - destruct (serial_wakes _ _ _ _ Hok Hm) as [Hb ->]. destruct (closed t) eqn:Hcl.
    { destruct (closed_refuses req t Hcl) as (_ & [e' E'] & _). rewrite E in E'. simplify_eq/=.
      split_and!; simpl; auto. }
    apply (hoare_Val _ _ _ _ _ _ (hoare_resume_write _ _ _ _ serial_rules 0 req)) in E; [|done].
    by apply serial_ok_parked.
  - destruct (serial_wakes _ _ _ _ Hok Hm) as [Hb ->]. destruct (closed t) eqn:Hcl.
    { destruct (closed_refuses req t Hcl) as (_ & _ & H). destruct (H err) as [e' E']. rewrite E in E'. simplify_eq/=.
      split_and!; simpl; auto. }
    apply (hoare_Val _ _ _ _ _ _ (hoare_resume_read _ _ _ _ serial_rules 0 req err)) in E; [|done].
    destruct E. by apply serial_ok_idle.
  - destruct (own_close t Ho Hc) as [Ho' Hps]. split_and!; simpl; [by apply inv_close|done..|].
    destruct Hsl as [|(Hb & Hsl)]; [by left|right]. split; [by apply bare_close|done].
Qed.

Lemma fresh_serial_ok t : fresh t → serial_ok (MkSys t ∅).
Proof.
  intros Hf. pose proof (fresh_inv t Hf). destruct Hf as (? & Hcmd & ? & ? & ? & ? & ? & ? & ? & ? & Hps).
  apply serial_ok_idle; [done|]. split; [|done]. unfold own. by rewrite Hcmd.
Qed.

(** C30: used by one caller at a time, the transport has at most one child that
    was not reaped, and none once it is closed, even by a close during the sleep
    of a restart. *)
Theorem serial_single_child t0 s :
  fresh t0 → serially_reachable t0 s →
  (size (procs (os (tr s))) ≤ 1)%nat ∧ (closed (tr s) = true → procs (os (tr s)) = ∅).
Proof.
  intros Hf Hr. assert (serial_ok s) as (_ & Ho & Hc & _).
  { revert Hr. generalize (fresh_serial_ok _ Hf). unfold serially_reachable. generalize (MkSys t0 ∅).
    intros s0 H0. induction 1 as [|s0 s1 s2 Hs _ IH]; [done|]. by apply IH, (serial_step_ok s0). }
  split; [|done]. unfold own in Ho. destruct (cmd (tr s)) as [[p|]|].
  - destruct Ho as [_ Ho]. assert (dom (procs (os (tr s))) ⊆ {[p]}) as Hd.
    { intros q Hq%elem_of_dom. set_solver. }
    rewrite <- size_dom. etrans; [by apply subseteq_size|]. by rewrite size_singleton.
  - destruct Ho as [_ ->]. rewrite map_size_empty. lia.
  - destruct Ho as [_ ->]. rewrite map_size_empty. lia.
Qed.

(** ** What an answer is *)

(** A line that [readJSONResponse] passes over. *)
Definition noise (l : string) : Prop := l = "" ∨ parse l ≫= Response_UnmarshalJSON = None.

Definition with_child (p : nat) (c : child) (t : StdioTransport) : StdioTransport :=
  let o := os t in
  set_os (MkOS (<[p := c]> (procs o)) (next_pid o) (spawn_plan o) (environ o) (launched o)) t.

Lemma scan_line p c t d l rs ws got :
  stdout t = Some p → procs (os t) !! p = Some c → c = MkChild ws ((d, Line l) :: rs) got →
  scan t = (with_child p (MkChild ws rs got) t, Val (Line l)).
Proof. intros Ho Hp ->. unfold scan, scan_raw, mbind, M_bind, pipe_scan. by rewrite Ho, Hp. Qed.

Lemma with_child_twice p c c' t : with_child p c' (with_child p c t) = with_child p c' t.
Proof. destruct t, os0. unfold with_child, set_os, set_process. simpl. by rewrite insert_insert_eq. Qed.

Lemma read_lines_skips n p t ws got junk d l rs resp :
  stdout t = Some p → procs (os t) !! p = Some (MkChild ws (junk ++ (d, Line l) :: rs) got) →
  Forall (λ r, ∃ x, r.2 = Line x ∧ noise x) junk → (length junk < n)%nat →
  l ≠ "" → parse l ≫= Response_UnmarshalJSON = Some resp →
  read_lines n t = (with_child p (MkChild ws rs got) t, Val (Ok resp)).
Proof.
  intros Ho Hp Hj Hn Hl Hr. revert n t Ho Hp Hn.
  induction Hj as [|[d' r] junk (x & Hx & Hnoise) _ IH]; intros [|n] t Ho Hp Hn; simpl in *; try lia.
  - cbn [read_lines]. unfold mbind at 1, M_bind.
    rewrite (scan_line _ _ _ _ _ _ _ _ Ho Hp eq_refl). by rewrite bool_decide_eq_false_2, Hr.
  - subst r. unfold mbind at 1, M_bind. rewrite (scan_line _ _ _ _ _ _ _ _ Ho Hp eq_refl).
    assert (read_lines n (with_child p (MkChild ws (junk ++ (d, Line l) :: rs) got) t)
      = (with_child p (MkChild ws rs got) t, Val (Ok resp))) as E.
    { rewrite (IH n), with_child_twice; [done..| |lia]. simpl. by rewrite lookup_insert_eq. }
    case_bool_decide; [done|]. destruct Hnoise as [|Hx]; [done|]. by rewrite Hx.
Qed.

Lemma running_ensured t p c :
  permanentFail t = false → started t = true → cmd t = Some (Some p) → procs (os t) !! p = Some c →
  ensureRunning t = (t, Val (Ok tt)).
Proof.
  intros Hpf Hst Hcmd Hp. unfold ensureRunning, processAlive. rewrite Hpf, Hst, Hcmd. cbn [andb].
  by rewrite bool_decide_eq_true_2 by (rewrite Hp; eauto).
Qed.

(** A running child that takes the request and writes fewer than fifty lines
    that are no response and then one that is, gets exactly this request, and
    that response is the answer; what it writes next is left for the next call,
    and the restart counter is reset. *)
Theorem first_response_answers req t p ws junk d l rs got resp :
  closed t = false → permanentFail t = false → started t = true → cmd t = Some (Some p) →
  stdin t = Some p → stdout t = Some p → IsNotification req = false →
  procs (os t) !! p = Some (MkChild (Written :: ws) (junk ++ (d, Line l) :: rs) got) →
  Forall (λ r, ∃ x, r.2 = Line x ∧ noise x) junk → (length junk < maxSkip)%nat →
  l ≠ "" → parse l ≫= Response_UnmarshalJSON = Some resp →
  Stdio_RoundTrip req t =
    (ResetBackoff (with_child p (MkChild ws rs (got ++ [marshalRequest req])) t), Val (Ok (JSONResult resp))).
Proof.
  intros Hcl Hpf Hst Hcmd Hin Hout Hnot Hp Hj Hn Hl Hr.
  set (c' := MkChild ws (junk ++ (d, Line l) :: rs) (got ++ [marshalRequest req])).
  assert (encode (marshalRequest req) t = (with_child p c' t, Val (Ok tt))) as Henc.
  { unfold encode, encode_raw, mbind, M_bind, pipe_write. by rewrite Hin, Hp. }
  assert (readJSONResponse (with_child p c' t) =
    (with_child p (MkChild ws rs (got ++ [marshalRequest req])) t, Val (Ok resp))) as Hread.
  { unfold readJSONResponse. erewrite (read_lines_skips _ p); [by rewrite with_child_twice|done| |done..].
    simpl. by rewrite lookup_insert_eq. }
  unfold Stdio_RoundTrip, RoundTrip_enter, after_write. rewrite Hnot.
  unfold gets, mbind, M_bind, mret, M_ret. by rewrite Hcl, (running_ensured t p _ Hpf Hst Hcmd Hp), Henc, Hread.
Qed.

(** ** Concrete children *)

Definition answer_line (id : string) : string := "{" +:+ quoted "result" +:+ ":1," +:+ quoted "id" +:+ ":" +:+ id +:+ "}".
Definition answer (id : Z) : Response := MkResponse "" (Some (JNum "1")) None (Some (IntID id)).
Definition call_with (id : Z) : Request := MkRequest Version "tools/call" None (Some (IntID id)).

Definition new_transport (plan : list (result string child)) : StdioTransport :=
  MkStdio ["server"] [] "s" None None None false false 0 10 0 false (10 * second) (MkOS ∅ 0 plan [] []) 0.

Lemma new_transport_fresh plan : fresh (new_transport plan).
Proof. by repeat split. Qed.

(** A child that closes its output at once; one that answers; one that
    answers the ping and then a request. *)
Definition mute_child : child := MkChild [Written] [] [].
Definition good_child (id : string) : child := MkChild [Written] [(0, Line (answer_line id))] [].
Definition restarted_child (id : string) : child :=
  MkChild [Written; Written] [(0, Line (answer_line "0")); (0, Line (answer_line id))] [].

(** Two callers: the first finds a dead child and sleeps, the second starts a
    child and is answered, the first starts another one over it. *)
Definition race_plan : list (result string child) :=
  [Ok mute_child; Ok (good_child "2"); Ok (restarted_child "1")].

Definition race_1 := (RoundTrip_enter (call_with 1) (new_transport race_plan)).1.
Definition race_2 := (RoundTrip_enter (call_with 2) race_1).1.
Definition race_3 := (resume_read (call_with 1) "transport/stdio: unexpected EOF from process" race_2).1.

Definition eof_error : string := "transport/stdio: unexpected EOF from process".

Lemma race_enter_1 :
  RoundTrip_enter (call_with 1) (new_transport race_plan) = (race_1, Val (Entered (SleepRead second eof_error))).
Proof. vm_compute. reflexivity. Qed.
Lemma race_enter_2 :
  RoundTrip_enter (call_with 2) race_1 = (race_2, Val (Entered (Done (Ok (JSONResult (answer 2)))))).
Proof. vm_compute. reflexivity. Qed.
Lemma race_wake_1 : resume_read (call_with 1) eof_error race_2 = (race_3, Val (Ok (JSONResult (answer 1)))).
Proof. vm_compute. reflexivity. Qed.

(** Because the lock is released during the sleep of a restart, two callers can
    each start a child, and the first one is lost: after all calls have returned
    and the transport is closed it still runs. *)
Theorem concurrent_restart_orphans :
  ∃ t0 s, fresh t0 ∧ reachable t0 s ∧ sleeping s = ∅ ∧ closed (tr s) = true ∧ procs (os (tr s)) ≠ ∅.
Proof.
  pose (m := park 0 (call_with 1) (Entered (SleepRead second eof_error)) ∅).
  exists (new_transport race_plan), (MkSys (Stdio_Close race_3) (delete 0%nat m)).
  split; [apply new_transport_fresh|]. split; [|by vm_compute].
  apply (rtc_l _ _ (MkSys race_1 m)).
  { exists (Enter 0). apply step_enter; [done|apply race_enter_1]. }
  apply (rtc_l _ _ (MkSys race_2 m)).
  { exists (Enter 1). exact (step_enter race_1 race_2 m 1 _ _ eq_refl race_enter_2). }
  apply (rtc_l _ _ (MkSys race_3 (delete 0%nat m))).
  { exists (Wake 0). exact (step_wake_read race_2 race_3 m 0 _ _ _ eq_refl race_wake_1). }
  eapply rtc_once. exists CloseCall. apply step_close.
Qed.

(** The id of an answer is not compared with that of the request: after a
    line that is no answer but reads as one, such as a notification of the
    server, each call gets the answer of the one before. *)
Definition progress_line : string :=
  "{" +:+ quoted "jsonrpc" +:+ ":" +:+ quoted "2.0" +:+ "," +:+ quoted "method" +:+ ":"
  +:+ quoted "notifications/progress" +:+ "}".

Definition chatty : StdioTransport :=
  new_transport [Ok (MkChild [Written; Written]
    [(0, Line progress_line); (0, Line (answer_line "1")); (0, Line (answer_line "2"))] [])].

Theorem answers_shift :
  let '(t, r) := Stdio_RoundTrip (call_with 1) chatty in
  r = Val (Ok (JSONResult (MkResponse "2.0" None None None))) ∧
  (Stdio_RoundTrip (call_with 2) t).2 = Val (Ok (JSONResult (answer 1))).
Proof. by vm_compute. Qed.

(** A child that takes a request and does not answer blocks the call for ever,
    with the lock held: neither the context of the request nor the configured
    timeout bounds the wait, and no other call and no close can proceed. *)
Theorem silent_child_blocks req t p ws d rs got :
  closed t = false → permanentFail t = false → started t = true → cmd t = Some (Some p) →
  stdin t = Some p → stdout t = Some p → IsNotification req = false →
  procs (os t) !! p = Some (MkChild (Written :: ws) ((d, ScanHangs) :: rs) got) →
  (RoundTrip_enter req t).2 = Blocked.
Proof.
  intros Hcl Hpf Hst Hcmd Hin Hout Hnot Hp.
  set (c' := MkChild ws ((d, ScanHangs) :: rs) (got ++ [marshalRequest req])).
  assert (encode (marshalRequest req) t = (with_child p c' t, Val (Ok tt))) as Henc.
  { unfold encode, encode_raw, mbind, M_bind, pipe_write. by rewrite Hin, Hp. }
  assert (scan (with_child p c' t) = (with_child p c' t, Blocked)) as Hscan.
  { unfold scan, scan_raw, mbind, M_bind, pipe_scan. simpl. by rewrite Hout, lookup_insert_eq. }
  assert (readJSONResponse (with_child p c' t) = (with_child p c' t, Blocked)) as Hread.
  { unfold readJSONResponse, maxSkip. generalize 49%nat. intros n. cbn [read_lines].
    unfold mbind, M_bind. by rewrite Hscan. }
  unfold RoundTrip_enter, after_write. rewrite Hnot. unfold gets, mbind, M_bind, mret, M_ret.
  by rewrite Hcl, (running_ensured t p _ Hpf Hst Hcmd Hp), Henc, Hread.
Qed.

(** ** The timeout of the startup ping *)

(** A restarted child that does not answer the ping: the goroutine that pings is
    left behind, and its nil pipe ends the gateway. *)
Definition silent_plan : list (result string child) := [Ok mute_child; Ok (MkChild [Written] [(0, ScanHangs)] [])].
Definition silent_1 := (RoundTrip_enter (call_with 1) (new_transport silent_plan)).1.
Definition silent_2 := (resume_read (call_with 1) eof_error silent_1).1.

Theorem abandoned_ping_crashes : ∃ t0 s, fresh t0 ∧ reachable t0 s ∧ crashed s = true.
Proof.
  pose (m := park 0 (call_with 1) (Entered (SleepRead second eof_error)) ∅).
  exists (new_transport silent_plan), (MkProcess silent_2 (delete 0%nat m) true).
  split; [apply new_transport_fresh|]. split; [|done].
  apply (rtc_l _ _ (MkSys silent_1 m)).
  { exists (Enter 0). apply step_enter; [done|]. vm_compute. reflexivity. }
  apply (rtc_l _ _ (MkSys silent_2 (delete 0%nat m))).
  { exists (Wake 0). eapply (step_wake_read silent_1 silent_2 m 0 (call_with 1) eof_error); [done|]. vm_compute. reflexivity. }
  apply rtc_once. exists Stray. refine (step_stray silent_2 (delete 0%nat m) _). vm_compute. lia.
Qed.


(** [verifyStartup] pings from a goroutine while the caller waits for its
    answer or the timeout, which kills the child and clears [t.stdout]. The
    goroutine reads the field [t.stdout] again after a scan that failed. *)
Module Ping.
Inductive caller_pc := Selecting | Killing | Clearing | TimedOut.
Inductive goroutine_pc := Scanning | AskingErr | Sent | Crashed.

Record state := MkState {
  caller : caller_pc;
  goroutine : goroutine_pc;
  child_gone : bool;
  stdout_nil : bool;
}.

Inductive ping_step : state → state → Prop :=
| timeout_fires g : ping_step (MkState Selecting g false false) (MkState Killing g false false)
| child_dies g n : ping_step (MkState Killing g false n) (MkState Killing g true n)
| wait_returns g n : ping_step (MkState Killing g true n) (MkState Clearing g true n)
| clear_handles g n : ping_step (MkState Clearing g true n) (MkState TimedOut g true true)
| scan_fails c n : ping_step (MkState c Scanning true n) (MkState c AskingErr true n)
| err_read c d : ping_step (MkState c AskingErr d false) (MkState c Sent d false)
| err_on_nil c d : ping_step (MkState c AskingErr d true) (MkState c Crashed d true).

Definition init : state := MkState Selecting Scanning false false.

(** After a startup timeout the goroutine can dereference the cleared scanner:
    an unrecovered panic, which ends the gateway. *)
Theorem startup_timeout_can_crash : ∃ s, rtc ping_step init s ∧ goroutine s = Crashed.
Proof.
  eexists. split; [|by instantiate (1 := MkState TimedOut Crashed true true)].
  do 3 (eapply rtc_l; [constructor|]). eapply rtc_l; [apply scan_fails|].
  eapply rtc_l; [apply clear_handles|]. eapply rtc_once, err_on_nil.
Qed.

(** Only after a timeout: an answer in time never meets a cleared scanner. *)
Theorem crash_needs_timeout s : rtc ping_step init s → goroutine s = Crashed → caller s = TimedOut.
Proof.
  intros Hr Hg. assert ((stdout_nil s = true → caller s = TimedOut) ∧ (goroutine s = Crashed → stdout_nil s = true)) as [Hn Hc].
  { clear Hg. revert Hr. apply (rtc_ind_r (λ s, (stdout_nil s = true → caller s = TimedOut) ∧ (goroutine s = Crashed → stdout_nil s = true)));
      [done|]. intros s1 s2 _ Hs IH. destruct Hs; simpl in *; naive_solver. }
  auto.
Qed.
End Ping.

(** ** Witnesses *)

Lemma race_1_reachable :
  reachable (new_transport race_plan)
    (MkSys race_1 (park 0 (call_with 1) (Entered (SleepRead second eof_error)) ∅)).
Proof. apply rtc_once. exists (Enter 0). apply step_enter; [done|apply race_enter_1]. Qed.

Lemma stdio_invariant_witness : backoff race_1 = schedule 1 ∧ (RoundTrip_enter (call_with 2) race_1).2 ≠ Panic.
Proof.
  destruct (stdio_invariant _ _ (new_transport_fresh race_plan) race_1_reachable) as (H & Hb & _).
  split; [exact Hb|apply H].
Defined.

(** One restart allowed, and a child that never answers. *)
Definition failing : StdioTransport :=
  MkStdio ["server"] [] "s" None None None false false 0 0 0 false (10 * second) (MkOS ∅ 0 [Ok mute_child] [] []) 0.
Definition failed_1 := (RoundTrip_enter (call_with 1) failing).1.

Lemma permanent_failure_final_witness :
  permanentFail failed_1 = true ∧
  ∃ e, RoundTrip_enter (call_with 2) failed_1 = (failed_1, Val (Entered (Done (Err e)))).
Proof.
  apply (permanent_failure_final failing (MkSys failed_1 ∅) (MkSys failed_1 ∅)); [by repeat split| |by vm_compute|done].
  apply rtc_once. exists (Enter 0). eapply (step_enter failing failed_1 ∅ 0 (call_with 1) (Entered (Done _))); [done|].
  vm_compute. reflexivity.
Defined.


Lemma serial_single_child_witness : procs (os (Stdio_Close race_1)) = ∅.
Proof.
  apply (serial_single_child (new_transport race_plan)
    (MkSys (Stdio_Close race_1) (park 0 (call_with 1) (Entered (SleepRead second eof_error)) ∅))).
  - apply new_transport_fresh.
  - eapply rtc_l; [exists (Enter 0); split; [apply step_enter; [done|apply race_enter_1]|done]|].
    apply rtc_once. exists CloseCall. split; [apply step_close|done].
  - reflexivity.
Defined.

Definition running : StdioTransport :=
  MkStdio ["server"] [] "s" (Some (Some 0%nat)) (Some 0%nat) (Some 0%nat) true false 2 10 (2 * second) false
    (10 * second) (MkOS {[0%nat := MkChild [Written] [(0, Line "starting up"); (0, Line (answer_line "1"))] []]} 1 [] [] []) 0.

Lemma first_response_answers_witness :
  Stdio_RoundTrip (call_with 1) running =
    (ResetBackoff (with_child 0 (MkChild [] [] [marshalRequest (call_with 1)]) running), Val (Ok (JSONResult (answer 1)))).
Proof.
  apply (first_response_answers (call_with 1) running 0 [] [(0, Line "starting up")] 0 (answer_line "1") [] []);
    try reflexivity; try done.
  - constructor; [|done]. eexists. split; [done|]. right. vm_compute. reflexivity.
  - unfold maxSkip. simpl. lia.
Defined.
