(* ===== verification/Resilience.v ===== *)
(** * Resilience ([internal/resilience])

    - [CircuitBreaker]: the breaker as a record; the clock reading that an
      operation takes is an argument. Its decisions are specified over the
      history of calls and outcomes, and its behaviour under concurrent use is
      a step relation on the breaker and the number of calls in flight.
    - [RetryPolicy]: which errors are retried, and the backoff.
    - [ResilientTransport]: the wrapper, over any [Transport]. *)

From Stdlib Require Import SpecFloat.
From stdpp Require Import relations.
From S2P Require Import Prelude GoLib Json JsonRpc Transport ConfigData ConfigProps.

Module Breaker.

(** ** The circuit breaker ([circuitbreaker.go]) *)

Inductive State := StateClosed | StateOpen | StateHalfOpen.

#[global] Instance State_eq_dec : EqDecision State.
Proof. solve_decision. Defined.

Record CircuitBreaker := MkCB {
  state : State;
  consecutiveFails : Z;
  threshold : Z;
  cooldown : Z;
  lastTripped : Z;
  halfOpenActive : bool;
}.

(** The zero [time.Time] of a new breaker is never read. *)
Definition NewCircuitBreaker (threshold cooldown : Z) : CircuitBreaker :=
  MkCB StateClosed 0 threshold cooldown 0 false.

(** [Allow]: the new breaker, and whether the error is nil. *)
Definition Allow (now : Z) (cb : CircuitBreaker) : CircuitBreaker * bool :=
  match state cb with
  | StateClosed => (cb, true)
  | StateOpen =>
      if cooldown cb <=? Duration.Sub now (lastTripped cb) then
        (MkCB StateHalfOpen (consecutiveFails cb) (threshold cb) (cooldown cb) (lastTripped cb) true, true)
      else (cb, false)
  | StateHalfOpen =>
      if halfOpenActive cb then (cb, false)
      else (MkCB StateHalfOpen (consecutiveFails cb) (threshold cb) (cooldown cb) (lastTripped cb) true, true)
  end.

Definition RecordSuccess (cb : CircuitBreaker) : CircuitBreaker :=
  MkCB StateClosed 0 (threshold cb) (cooldown cb) (lastTripped cb) false.

Definition RecordFailure (now : Z) (cb : CircuitBreaker) : CircuitBreaker :=
  match state cb with
  | StateHalfOpen => MkCB StateOpen (consecutiveFails cb) (threshold cb) (cooldown cb) now false
  | _ =>
      let fails := consecutiveFails cb + 1 in
      if threshold cb <=? fails
      then MkCB StateOpen fails (threshold cb) (cooldown cb) now (halfOpenActive cb)
      else MkCB (state cb) fails (threshold cb) (cooldown cb) (lastTripped cb) (halfOpenActive cb)
  end.

(** ** Specification over histories *)

(** What callers do to a breaker, with the clock readings; a history has its
    most recent event first. *)
Inductive event := Call (now : Z) | Success | Failure (now : Z).

Definition apply_event (e : event) (cb : CircuitBreaker) : CircuitBreaker :=
  match e with
  | Call now => (Allow now cb).1
  | Success => RecordSuccess cb
  | Failure now => RecordFailure now cb
  end.

Definition run (h : list event) (cb : CircuitBreaker) : CircuitBreaker := foldr apply_event cb h.

(** Failures since the last success. *)
Fixpoint trailing_failures (h : list event) : Z :=
  match h with
  | [] | Success :: _ => 0
  | Failure _ :: h => trailing_failures h + 1
  | Call _ :: h => trailing_failures h
  end.

(** The last failure, and the calls made since. *)
Fixpoint since_failure (h : list event) : option (Z * list Z) :=
  match h with
  | [] | Success :: _ => None
  | Failure now :: _ => Some (now, [])
  | Call now :: h => (λ '(t, calls), (t, now :: calls)) <$> since_failure h
  end.

(** A call is admitted while fewer than [th] failures have accumulated;
    afterwards, only the first call that comes a cooldown after the last
    failure is (the probe). *)
Definition admits (th cd : Z) (h : list event) (now : Z) : bool :=
  (trailing_failures h <? th) ||
  match since_failure h with
  | Some (t, calls) => forallb (λ c, Duration.Sub c t <? cd) calls && (cd <=? Duration.Sub now t)
  | None => false
  end.

(** The breaker's fields, in terms of the history. *)
Definition represents (th cd : Z) (h : list event) (cb : CircuitBreaker) : Prop :=
  threshold cb = th ∧ cooldown cb = cd ∧
  match state cb with
  | StateClosed =>
      trailing_failures h < th ∧ consecutiveFails cb = trailing_failures h ∧ halfOpenActive cb = false
  | StateOpen =>
      th ≤ trailing_failures h ∧ th ≤ consecutiveFails cb ∧ halfOpenActive cb = false ∧
      ∃ calls, since_failure h = Some (lastTripped cb, calls) ∧
        forallb (λ c, Duration.Sub c (lastTripped cb) <? cd) calls = true
  | StateHalfOpen =>
      th ≤ trailing_failures h ∧ th ≤ consecutiveFails cb ∧ halfOpenActive cb = true ∧
      ∃ calls, since_failure h = Some (lastTripped cb, calls) ∧
        forallb (λ c, Duration.Sub c (lastTripped cb) <? cd) calls = false
  end.

Lemma represents_Allow th cd h cb now :
  represents th cd h cb → (Allow now cb).2 = admits th cd h now ∧ represents th cd (Call now :: h) (Allow now cb).1.
Proof.
  intros (<- & <- & Hst). unfold Allow, admits, represents.
  destruct (state cb) eqn:Es; simpl.
  - destruct Hst as (Ht & Hc & Ha). rewrite Es. split; [|by auto].
    by rewrite (proj2 (Z.ltb_lt _ _) Ht).
  - destruct Hst as (Ht & Hc & Ha & calls & Hs & Hf). rewrite Hs, Hf. simpl.
    rewrite (proj2 (Z.ltb_ge _ _) Ht). simpl.
    destruct (Z.leb_spec (cooldown cb) (Duration.Sub now (lastTripped cb))); simpl; rewrite ?Es.
    + repeat split; try done. eexists; split; [done|]. simpl. apply andb_false_iff. left. by apply Z.ltb_ge.
    + repeat split; try done. eexists; split; [done|]. simpl. rewrite Hf. by rewrite (proj2 (Z.ltb_lt _ _)).
  - destruct Hst as (Ht & Hc & Ha & calls & Hs & Hf). rewrite Ha, Hs, Hf. simpl. rewrite Es.
    rewrite (proj2 (Z.ltb_ge _ _) Ht). repeat split; try done.
    eexists; split; [done|]. simpl. rewrite Hf. by rewrite andb_false_r.
Qed.

Lemma represents_Failure th cd h cb now :
  0 < th → represents th cd h cb → represents th cd (Failure now :: h) (RecordFailure now cb).
Proof.
  intros Hth (<- & <- & Hst). unfold RecordFailure, represents. destruct (state cb) eqn:Es; simpl.
  - destruct Hst as (Ht & Hc & Ha).
    destruct (Z.leb_spec (threshold cb) (consecutiveFails cb + 1)); simpl; rewrite ?Es; repeat split; try lia; try done.
    by eexists.
  - destruct Hst as (Ht & Hc & Ha & _).
    destruct (Z.leb_spec (threshold cb) (consecutiveFails cb + 1)); [|lia]. simpl. repeat split; try lia; try done.
    by eexists.
  - destruct Hst as (Ht & Hc & _). repeat split; try lia. by eexists.
Qed.

Lemma represents_run th cd h :
  0 < th → represents th cd h (run h (NewCircuitBreaker th cd)).
Proof.
  intros Hth. induction h as [|e h IH]; [done|]. simpl. destruct e; simpl.
  - by apply represents_Allow.
  - destruct IH as (Ht & Hc & _). by split_and!.
  - by apply represents_Failure.
Qed.

(** C11: after any history of calls and recorded outcomes, the breaker admits a
    call exactly when the history specification does: always while fewer than
    the threshold of failures have accumulated since the last success, and
    from then on only the first call that arrives a cooldown after the last
    failure, until an outcome is recorded. *)
Theorem breaker_refines_history th cd h now :
  0 < th → (Allow now (run h (NewCircuitBreaker th cd))).2 = admits th cd h now.
Proof. intros Hth. by apply represents_Allow, represents_run. Qed.

(** Two failures trip the breaker; the call at 9 comes too early, the call at
    12 is the probe, the call at 13 waits for its outcome. *)
Definition tripped_history : list event := [Call 12; Call 9; Failure 2; Failure 1; Call 0; Call 0].

Lemma breaker_refines_history_witness :
  (Allow 13 (run tripped_history (NewCircuitBreaker 2 10))).2 = admits 2 10 tripped_history 13 ∧
  admits 2 10 tripped_history 13 = false ∧
  (Allow 13 (run (Success :: tripped_history) (NewCircuitBreaker 2 10))).2 = true.
Proof. split; [by apply breaker_refines_history|]. split; vm_compute; reflexivity. Defined.

(** ** Concurrent calls *)

(** The breaker with the number of admitted calls whose outcome is not yet
    recorded. Every operation holds the mutex, so calls interleave at this
    granularity. *)
Inductive step : CircuitBreaker * nat → CircuitBreaker * nat → Prop :=
| step_admit cb cb' n now : Allow now cb = (cb', true) → step (cb, n) (cb', S n)
| step_reject cb cb' n now : Allow now cb = (cb', false) → step (cb, n) (cb', n)
| step_success cb n : step (cb, S n) (RecordSuccess cb, n)
| step_failure cb n now : step (cb, S n) (RecordFailure now cb, n).

Definition sound (s : CircuitBreaker * nat) : Prop :=
  let '(cb, n) := s in
  0 < threshold cb ∧
  (state cb = StateHalfOpen ↔ halfOpenActive cb = true) ∧ (halfOpenActive cb = true → (0 < n)%nat).

Lemma step_sound s s' : step s s' → sound s → sound s'.
Proof.
  destruct 1 as [cb cb' n now Ha|cb cb' n now Ha|cb n|cb n now]; intros (Ht & Hh & Hn).
  - unfold Allow in Ha. destruct (state cb) eqn:Es; [simplify_eq| |]; repeat case_match; simplify_eq;
      unfold sound; simpl; rewrite ?Es; split_and!; try done; intros; try lia; intuition congruence.
  - assert (cb' = cb) as -> by (unfold Allow in Ha; repeat case_match; congruence). done.
  - by unfold sound; simpl.
  - unfold RecordFailure. destruct (state cb) eqn:Es; [| |by unfold sound].
    all: assert (halfOpenActive cb = false) by (destruct (halfOpenActive cb); naive_solver).
    all: case_match; unfold sound; simpl; rewrite ?Es; naive_solver.
Qed.

Lemma steps_sound s s' : rtc step s s' → sound s → sound s'.
Proof. induction 1; eauto using step_sound. Qed.

(** C40: the breaker never wedges: however concurrent calls interleave, it is in
    the half-open state only while a call is in flight, and once the cooldown
    has passed with no call in flight the next call is admitted. *)
Theorem breaker_never_wedges th cd cb n now :
  0 < th → rtc step (NewCircuitBreaker th cd, 0%nat) (cb, n) →
  (state cb = StateHalfOpen → (0 < n)%nat) ∧
  (n = 0%nat → cooldown cb ≤ Duration.Sub now (lastTripped cb) → (Allow now cb).2 = true).
Proof.
  intros Hth Hr. destruct (steps_sound _ _ Hr) as (_ & Hh & Hn); [by split_and!|].
  split; [by intros ?%Hh%Hn|]. intros -> Hc. unfold Allow.
  destruct (state cb) eqn:Es; [done| |].
  - by rewrite (proj2 (Z.leb_le _ _) Hc).
  - destruct Hh as [Hh _]. specialize (Hn (Hh eq_refl)). lia.
Qed.

Definition tripped : CircuitBreaker := RecordFailure 5 (NewCircuitBreaker 1 10).

Lemma breaker_never_wedges_witness :
  (state tripped = StateHalfOpen → (0 < 0)%nat) ∧
  (0%nat = 0%nat → cooldown tripped ≤ Duration.Sub 20 (lastTripped tripped) → (Allow 20 tripped).2 = true).
Proof.
  apply (breaker_never_wedges 1 10); [lia|].
  eapply rtc_l; [by eapply (step_admit _ _ _ 0)|]. eapply rtc_l; [by eapply (step_failure _ _ 5)|].
  apply rtc_refl.
Defined.

(** A call admitted before the trip that fails during the probe reopens the
    breaker, so that a second probe can start while the first is in flight. *)
Example two_probes_in_flight :
  ∃ cb, rtc step (NewCircuitBreaker 1 10, 0%nat) (cb, 2%nat) ∧ state cb = StateHalfOpen ∧ lastTripped cb = 20.
Proof.
  eexists. split.
  { eapply rtc_l; [by eapply (step_admit _ _ _ 0)|]. eapply rtc_l; [by eapply (step_admit _ _ _ 0)|].
    eapply rtc_l; [by eapply (step_failure _ _ 5)|]. eapply rtc_l; [by eapply (step_admit _ _ _ 15)|].
    eapply rtc_l; [by eapply (step_failure _ _ 20)|]. eapply rtc_l; [by eapply (step_admit _ _ _ 30)|].
    apply rtc_refl. }
  done.
Qed.

End Breaker.

(** ** Retries ([retry.go]) *)

Record RetryPolicy := MkRetry {
  MaxAttempts : Z;
  Backoff : Z;
  MaxBackoff : Z;
  RetryableErrors : gmap string bool;
}.

Definition retryable_kind (rp : RetryPolicy) (k : string) : bool := default false (RetryableErrors rp !! k).

(** [IsRetryable]; a nil policy retries nothing. *)
Definition IsRetryable (rp : option RetryPolicy) (err : error) : bool :=
  match rp with
  | None => false
  | Some rp =>
      if bool_decide (RetryableErrors rp = ∅) then false
      else match err with
           | ConnectError _ => retryable_kind rp "connection_error"
           | StatusError code => retryable_kind rp (Strconv.Itoa code)
           | _ => false
           end
  end.

(** [math.Pow(2, float64(n))] *)
Definition pow2 (n : nat) : spec_float :=
  if (n <=? 1023)%nat then Float64.of_Z (2 ^ Z.of_nat n) else S754_infinity false.

Definition half : spec_float := Float64.div Float64.one (Float64.of_Z 2).

(** [ComputeBackoff]; [rand] is the value of [rand.Float64]. *)
Definition ComputeBackoff `{Float64.GoPlatform} (rp : RetryPolicy) (rand : spec_float) (attempt : nat) : Z :=
  let base := Float64.mul (Float64.of_Z (Backoff rp)) (pow2 attempt) in
  let jitter := Float64.add half (Float64.mul rand half) in
  let d := Float64.to_int (Float64.mul base jitter) in
  if MaxBackoff rp <? d then MaxBackoff rp else d.

(** ** The wrapper ([resilient.go]) *)

(** What one call reads from outside: the clock at the breaker's two
    operations, the error of the context before each retry, the jitter, and
    how each wait of a given length ends ([None]: the timer fired). *)
Record CallEnv := MkEnv {
  allow_now : Z;
  record_now : Z;
  ctx_err : nat → option string;
  rand_float : nat → spec_float;
  timer : nat → Z → option string;
}.

Inductive metric := RetryMetric (upstream : string) | CircuitMetric (upstream : string) (s : Breaker.State).

Record ResilientTransport (T : Type) := MkResilient {
  inner : T;
  rt_name : string;
  cb : option Breaker.CircuitBreaker;
  retry : option RetryPolicy;
  metrics : option (list metric);   (* nil, or what has been recorded *)
  world : nat → CallEnv;            (* the environment of the calls to come *)
}.
Arguments MkResilient {T}. Arguments inner {T}. Arguments rt_name {T}. Arguments cb {T}.
Arguments retry {T}. Arguments metrics {T}. Arguments world {T}.

(** A transport as [Wrap] returns it. *)
Inductive Wrapped (T : Type) := Plain (t : T) | Resilient (rt : ResilientTransport T).
Arguments Plain {T}. Arguments Resilient {T}.

Section resilient.
Context `{Float64.GoPlatform} {T : Type} `{Transport T}.
Implicit Types rt : ResilientTransport T.

(** [Wrap] *)
Definition Wrap (t : T) (cfg : UpstreamConfig) (m : option (list metric)) (w : nat → CallEnv) : Wrapped T :=
  match CircuitBreakerOf cfg, RetryOf cfg with
  | None, None => Plain t
  | cbCfg, retryCfg =>
      Resilient (MkResilient t (UpstreamName cfg)
        ((λ c, Breaker.NewCircuitBreaker (failureThreshold c) (cooldown c)) <$> cbCfg)
        ((λ r, MkRetry (maxAttempts r) (backoff r) (maxBackoff r)
                 (foldl (λ set e, <[e := true]> set) ∅ (retryableErrors r))) <$> retryCfg)
        m w)
  end.

Definition WaitBackoff (env : CallEnv) (rp : RetryPolicy) (attempt : nat) : option error :=
  ContextError <$> timer env attempt (ComputeBackoff rp (rand_float env attempt) attempt).

Definition record_metric (m : option (list metric)) (e : metric) : option (list metric) :=
  (λ l, l ++ [e]) <$> m.

(** [recordCircuitState] *)
Definition recordCircuitState (name : string) (cb : option Breaker.CircuitBreaker) (m : option (list metric)) :
    option (list metric) :=
  match cb with
  | Some cb => record_metric m (CircuitMetric name (Breaker.state cb))
  | None => m
  end.

(** The checks before a retry: the context, the metric, the wait. *)
Definition before_retry (env : CallEnv) (name : string) (rp : option RetryPolicy) (attempt : nat)
    (m : option (list metric)) : option (list metric) * option error :=
  match attempt with
  | O => (m, None)
  | S prev =>
      match ctx_err env attempt with
      | Some e => (m, Some (ContextError e))
      | None =>
          (record_metric m (RetryMetric name), rp ≫= λ rp, WaitBackoff env rp prev)
      end
  end.

(** The loop, with [remaining] iterations left. *)
Fixpoint retry_loop (env : CallEnv) (ctx : Context) (req : Request) (name : string) (rp : option RetryPolicy)
    (remaining attempt : nat) (lastErr : option error) (t : T) (m : option (list metric)) :
    T * option (list metric) * result (option error) TransportResult :=
  match remaining with
  | O => (t, m, Err lastErr)
  | S remaining =>
      match before_retry env name rp attempt m with
      | (m, Some e) => (t, m, Err (Some e))
      | (m, None) =>
          match RoundTrip ctx req t with
          | (t, Ok r) => (t, m, Ok r)
          | (t, Err e) =>
              if IsRetryable rp e
              then retry_loop env ctx req name rp remaining (S attempt) (Some e) t m
              else (t, m, Err (Some e))
          end
      end
  end.

Definition max_attempts (rp : option RetryPolicy) : nat :=
  match rp with
  | Some rp => if 1 <? MaxAttempts rp then Z.to_nat (MaxAttempts rp) else 1
  | None => 1
  end.

(** [ResilientTransport.RoundTrip]. A nil last error cannot be returned: the
    loop runs at least once. *)
Definition Resilient_RoundTrip (ctx : Context) (req : Request) rt :
    ResilientTransport T * result error TransportResult :=
  let env := world rt 0%nat in
  let rest := λ n, world rt (S n) in
  let '(cb1, allowed) :=
    match cb rt with
    | Some b => let '(b, ok) := Breaker.Allow (allow_now env) b in (Some b, ok)
    | None => (None, true)
    end in
  if negb allowed then
    (MkResilient (inner rt) (rt_name rt) cb1 (retry rt)
       (recordCircuitState (rt_name rt) cb1 (metrics rt)) rest, Err ErrCircuitOpen)
  else
    let '(t, m, res) := retry_loop env ctx req (rt_name rt) (retry rt)
                          (max_attempts (retry rt)) 0 None (inner rt) (metrics rt) in
    let cb2 := match res with
      | Ok _ => Breaker.RecordSuccess <$> cb1
      | Err _ => Breaker.RecordFailure (record_now env) <$> cb1
      end in
    (MkResilient t (rt_name rt) cb2 (retry rt) (recordCircuitState (rt_name rt) cb2 m) rest,
     match res with Ok r => Ok r | Err e => Err (default (PlainError "") e) end).

#[global] Instance Wrapped_Transport : Transport (Wrapped T) := {|
  RoundTrip ctx req w :=
    match w with
    | Plain t => let '(t, r) := RoundTrip ctx req t in (Plain t, r)
    | Resilient rt => let '(rt, r) := Resilient_RoundTrip ctx req rt in (Resilient rt, r)
    end;
  CloseTransport w :=
    match w with
    | Plain t => Plain (CloseTransport t)
    | Resilient rt =>
        Resilient (MkResilient (CloseTransport (inner rt)) (rt_name rt) (cb rt) (retry rt) (metrics rt) (world rt))
    end;
  Healthy w := match w with Plain t => Healthy t | Resilient rt => Healthy (inner rt) end;
|}.
End resilient.

(** ** Properties of the wrapper *)

Section resilient_props.
Context `{Float64.GoPlatform} {T : Type} `{Transport T}.
Implicit Types rt : ResilientTransport T.

(** [n] round trips of the same request on the wrapped transport. *)
Fixpoint round_trips (ctx : Context) (req : Request) (n : nat) (t : T) : T * list (result error TransportResult) :=
  match n with
  | O => (t, [])
  | S n =>
      let '(t, r) := RoundTrip ctx req t in
      let '(t, rs) := round_trips ctx req n t in (t, r :: rs)
  end.

Definition retryable (rp : option RetryPolicy) (r : result error TransportResult) : Prop :=
  ∃ e, r = Err e ∧ IsRetryable rp e = true.

(** How a sequence of attempts [rs] (never more than [limit]) explains the
    outcome of the call: every attempt but the last failed in a retryable
    way; a success is the last attempt's; a failure is the last attempt's,
    for which there was no retry or no attempt left, or it is the context's,
    which ended before the next retry. *)
Definition explains (rp : option RetryPolicy) (limit : nat) (rs : list (result error TransportResult))
    (outcome : result error TransportResult) : Prop :=
  ∃ first lst, rs = first ++ [lst] ∧ (length rs ≤ limit)%nat ∧ Forall (retryable rp) first ∧
    match outcome with
    | Ok v => lst = Ok v
    | Err e =>
        lst = Err e ∧ (length rs = limit ∨ IsRetryable rp e = false) ∨
        (∃ m, e = ContextError m) ∧ retryable rp lst ∧ (length rs < limit)%nat
    end.

Lemma explains_cons rp limit r rs outcome :
  retryable rp r → explains rp limit rs outcome → explains rp (S limit) (r :: rs) outcome.
Proof.
  intros Hr (first & lst & -> & Hlen & Hf & Ho). exists (r :: first), lst.
  split_and!; [done|simpl; lia|by constructor|].
  destruct outcome as [v|e]; [done|]. simpl in *.
  destruct Ho as [[? [?|?]]|(?&?&?)]; [left; split; [done|left; lia]|by left; auto|right; split_and!; auto; lia].
Qed.

(** A context error before the retry that would follow attempt [r]. *)
Lemma explains_ctx rp limit r m :
  retryable rp r → (1 < limit)%nat → explains rp limit [r] (Err (ContextError m)).
Proof. intros. exists [], r. split_and!; [done|simpl; lia|done|]. right. split_and!; eauto. Qed.

Lemma before_retry_error env name rp attempt m m' e :
  before_retry env name rp attempt m = (m', Some e) → ∃ msg, e = ContextError msg.
Proof.
  unfold before_retry, WaitBackoff. destruct attempt; [done|].
  destruct (ctx_err _ _); intros; simplify_eq; [by eauto|].
  destruct rp as [p|]; simplify_option_eq; eauto.
Qed.

Lemma explains_one rp limit r :
  (0 < limit)%nat → (limit = 1%nat ∨ ¬ retryable rp r) → explains rp limit [r] r.
Proof.
  intros Hl Hr. exists [], r. split_and!; [done|simpl; lia|done|]. destruct r as [v|e]; [done|].
  left. split; [done|]. destruct Hr as [->|Hr]; [by left|right].
  destruct (IsRetryable rp e) eqn:E; [|done]. destruct Hr. by eexists.
Qed.

(** The configured number of attempts; one where there is none. *)
Definition attempt_limit (rp : option RetryPolicy) : nat :=
  Z.to_nat (Z.max 1 (match rp with Some rp => MaxAttempts rp | None => 1 end)).

Lemma max_attempts_limit rp : max_attempts rp = attempt_limit rp.
Proof.
  unfold max_attempts, attempt_limit. destruct rp as [rp|]; [|done]. destruct (Z.ltb_spec 1 (MaxAttempts rp)); lia.
Qed.

Definition outcome (out : result (option error) TransportResult) : result error TransportResult :=
  match out with Ok r => Ok r | Err e => Err (default (PlainError "") e) end.

Lemma retry_loop_S env ctx req name rp remaining attempt last t m :
  retry_loop env ctx req name rp (S remaining) attempt last t m =
  match before_retry env name rp attempt m with
  | (m, Some e) => (t, m, Err (Some e))
  | (m, None) =>
      match RoundTrip ctx req t with
      | (t, Ok r) => (t, m, Ok r)
      | (t, Err e) =>
          if IsRetryable rp e then retry_loop env ctx req name rp remaining (S attempt) (Some e) t m
          else (t, m, Err (Some e))
      end
  end.
Proof. done. Qed.

Lemma retry_loop_spec env ctx req name rp remaining attempt last t m t' m' out :
  retry_loop env ctx req name rp (S remaining) attempt last t m = (t', m', out) →
  (∃ e, before_retry env name rp attempt m = (m', Some e) ∧ out = Err (Some e) ∧ t' = t) ∨
  ∃ n rs, round_trips ctx req n t = (t', rs) ∧ explains rp (S remaining) rs (outcome out).
Proof.
  revert attempt last t m. induction remaining as [|k IH]; intros attempt last t m; rewrite retry_loop_S;
    destruct (before_retry env name rp attempt m) as [m1 [e|]] eqn:Eb; intros Hrun;
    try (left; exists e; by simplify_eq); right;
    destruct (RoundTrip ctx req t) as [t1 r] eqn:Er;
    assert (round_trips ctx req 1 t = (t1, [r])) as H1 by (simpl; by rewrite Er).
  - exists 1%nat, [r]. destruct r as [v|e]; [|destruct (IsRetryable rp e) eqn:Ee; simpl in Hrun]; simplify_eq;
      (split; [done|]); apply explains_one; auto.
  - destruct r as [v|e]; [|destruct (IsRetryable rp e) eqn:Ee].
    + simplify_eq. exists 1%nat, [Ok v]. split; [done|]. apply explains_one; [lia|]. right. by intros (?&?&?).
    + destruct (IH _ _ _ _ Hrun) as [(e' & He & -> & ->)|(n & rs & Hn & Hex)].
      * destruct (before_retry_error _ _ _ _ _ _ _ He) as [msg ->].
        exists 1%nat, [Err e]. split; [done|]. apply explains_ctx; [by eexists|lia].
      * exists (S n), (Err e :: rs). simpl. rewrite Er, Hn. split; [done|].
        apply explains_cons; [by eexists|done].
    + simplify_eq. exists 1%nat, [Err e]. split; [done|]. apply explains_one; [lia|].
      right. intros (e0 & Heq & Hr0). injection Heq as ->. congruence.
Qed.

Lemma max_attempts_pos rp : ∃ k, max_attempts rp = S k.
Proof.
  unfold max_attempts. destruct rp as [p|]; [|by eexists].
  destruct (Z.ltb_spec 1 (MaxAttempts p)); [|by eexists]. exists (Nat.pred (Z.to_nat (MaxAttempts p))). lia.
Qed.

(** What the breaker says to the call, and what it becomes. *)
Definition admitted rt : bool :=
  match cb rt with Some b => (Breaker.Allow (allow_now (world rt 0%nat)) b).2 | None => true end.

Definition breaker_after rt (ok : bool) : option Breaker.CircuitBreaker :=
  (λ b, let b := (Breaker.Allow (allow_now (world rt 0%nat)) b).1 in
        if ok then Breaker.RecordSuccess b else Breaker.RecordFailure (record_now (world rt 0%nat)) b) <$> cb rt.

(** C12: a call through the wrapper. If the breaker refuses it, the wrapped
    transport is not touched, nothing is recorded in the breaker and the error
    is the open circuit. If it is admitted, the outcome is explained by a
    sequence of at least one and at most [MaxAttempts] round trips of the
    wrapped transport, each but the last a retryable error, and the breaker is
    told the outcome exactly once, whichever way the loop ended. *)
Theorem resilient_round_trip ctx req rt :
  let '(rt', res) := Resilient_RoundTrip ctx req rt in
  if admitted rt then
    (∃ n rs, round_trips ctx req n (inner rt) = (inner rt', rs) ∧
      explains (retry rt) (attempt_limit (retry rt)) rs res) ∧
    cb rt' = breaker_after rt (is_ok res)
  else inner rt' = inner rt ∧ cb rt' = cb rt ∧ res = Err ErrCircuitOpen.
Proof.
  unfold Resilient_RoundTrip, admitted, breaker_after.
  destruct (max_attempts_pos (retry rt)) as [k Hk].
  assert (∀ env m t' m' out, retry_loop env ctx req (rt_name rt) (retry rt) (max_attempts (retry rt)) 0 None (inner rt) m
      = (t', m', out) →
    ∃ n rs, round_trips ctx req n (inner rt) = (t', rs) ∧
    explains (retry rt) (attempt_limit (retry rt)) rs (outcome out)) as Hloop.
  { intros env m t' m' out. rewrite <- max_attempts_limit, Hk. intros [(e & He & _)|Hl]%retry_loop_spec; [done|]. done. }
  destruct (cb rt) as [b|]; simpl.
  - destruct (Breaker.Allow _ b) as [b' ok] eqn:Ea. destruct ok; simpl.
    + destruct (retry_loop _ _ _ _ _ _ _ _ _ _) as [[t' m'] out] eqn:El. apply Hloop in El.
      split; [done|]. by destruct out.
    + split_and!; try done. unfold Breaker.Allow in Ea. repeat case_match; by simplify_eq.
  - destruct (retry_loop _ _ _ _ _ _ _ _ _ _) as [[t' m'] out] eqn:El. apply Hloop in El.
    split; [done|]. by destruct out.
Qed.
End resilient_props.

(** The wait before a retry never exceeds [MaxBackoff]. *)
Theorem backoff_capped `{Float64.GoPlatform} rp rand attempt : ComputeBackoff rp rand attempt ≤ MaxBackoff rp.
Proof. unfold ComputeBackoff. cbv zeta. case_match; lia. Qed.

(** The cap is applied after the conversion to an integer, so a wait that
    exceeds the range of [time.Duration] is not capped but, on amd64, becomes
    the smallest (negative) duration, that is no wait at all: with the default
    backoff of 100ms and a jitter of 0.75 this is the case from the 38th retry on. *)
Theorem backoff_overflow errs :
  let rp := MkRetry 50 (100 * Duration.Millisecond) (2 * Duration.Second) errs in
  @ComputeBackoff Float64.amd64 rp half 30 = 2 * Duration.Second ∧
  @ComputeBackoff Float64.amd64 rp half 37 = Strconv.min_int64.
Proof. split; vm_compute; reflexivity. Qed.

(** A breaker configured by the validated configuration has a positive
    threshold, as the theorems on the breaker require. *)
Theorem Wrap_threshold_positive `{Float64.GoPlatform} {T} (t : T) cfg m w rt b :
  upstream_valid cfg → Wrap t cfg m w = Resilient rt → cb rt = Some b →
  0 < Breaker.threshold b ∧ ∃ th cd, b = Breaker.NewCircuitBreaker th cd.
Proof.
  intros Hv Hw Hb. pose proof (uv_cb _ Hv) as Hc. unfold Wrap in Hw.
  destruct (CircuitBreakerOf cfg) as [c|]; [|destruct (RetryOf cfg); by simplify_eq].
  destruct Hc as [Hc _]. simplify_eq. simpl in Hb. simplify_eq. split; [done|]. by eexists _, _.
Qed.

Definition guarded_upstream : UpstreamConfig :=
  HTTPUpstream (MkHTTPUpstream "api" "http://api" None None [] None None (60 * Duration.Second)
    (Some (MkCBConfig 2 10)) (Some (MkRetryConfig 3 1 10 ["connection_error"; "503"]))).

Definition calm : CallEnv := MkEnv 0 0 (λ _, None) (λ _, half) (λ _ _, None).

Lemma guarded_upstream_valid : @upstream_valid Float64.amd64 guarded_upstream.
Proof. split; done. Qed.

Lemma Wrap_threshold_positive_witness :
  0 < Breaker.threshold (Breaker.NewCircuitBreaker 2 10) ∧
  ∃ th cd, Breaker.NewCircuitBreaker 2 10 = Breaker.NewCircuitBreaker th cd.
Proof.
  eapply (@Wrap_threshold_positive Float64.amd64 unit tt guarded_upstream None (λ _, calm));
    [apply guarded_upstream_valid|reflexivity|reflexivity].
Defined.

(** ** Runs on a scripted transport *)

#[local] Existing Instance scripted.

Definition answer : TransportResult := JSONResult (MkResponse "2.0" (Some JNull) None None).

Definition run_wrapped (answers : script) (n : nat) :=
  let req := MkRequest "2.0" "tools/call" None None in
  Nat.iter n (λ '(w, rs), let '(w, r) := @RoundTrip _ (@Wrapped_Transport Float64.amd64 _ _) Background req w in (w, r :: rs))
    (Wrap answers guarded_upstream (Some []) (λ _, calm), []).

(** Retried errors, a success, an error that is not retried; then the breaker
    opens after the second failed call and the third call does not reach the
    transport. *)
Example wrapped_run :
  (run_wrapped [Err (ConnectError "x"); Err (StatusError 503); Ok answer] 1).2 = [Ok answer] ∧
  (run_wrapped [Err (StatusError 500); Ok answer] 1).2 = [Err (StatusError 500)] ∧
  (run_wrapped [Err (StatusError 500); Err (StatusError 404); Ok answer] 3).2 =
    [Err ErrCircuitOpen; Err (StatusError 404); Err (StatusError 500)].
Proof. split_and!; vm_compute; reflexivity. Qed.
