(* ===== verification/RateLimit.v ===== *)
(** * In-memory rate limiting ([internal/policy/ratelimit.go], [factory.go])

    [LocalRateLimiter] keeps one token bucket per caller, per caller and tool,
    and per upstream. The buckets are those of golang.org/x/time/rate, which is
    a parameter ([TokenBucket]). A clock reading of [Allow] is [clock i]: two
    for each of the three levels (the check, then the token count), and one for
    the reset time. *)

From Stdlib Require Import SpecFloat.
From S2P Require Import Prelude GoLib ConfigData.

(** ** What the limiter promises to its clients *)

(** [Denial.Level] *)
Inductive Level := CallerLevel | ToolLevel | UpstreamLevel.

#[global] Instance Level_eq_dec : EqDecision Level.
Proof. solve_decision. Defined.

Record RateLimitResult := MkRLResult {
  Denial : option Level;
  Limit : Z;
  Remaining : Z;
  ResetAt : Z;
  RetryAfter : Z;
}.

(** The interface [RateLimiter], for a limiter with state [S] whose calls read
    an environment [Env] (clocks, replies of a server); a nil result means that
    no limit applies. *)
Class RateLimiter (Env S : Type) := {
  AllowRequest : Env → string → string → string → list string → S → S * option RateLimitResult;
}.

(** ** golang.org/x/time/rate *)

Class TokenBucket (L : Type) := {
  NewLimiter : spec_float → Z → L;
  AllowAt : Z → L → L * bool;
  TokensAt : Z → L → spec_float;
  BurstOf : L → Z;
  LimitOf : L → spec_float;
}.

(** [rate.Inf] *)
Definition Inf : spec_float := Float64.max_float.

(** ** The limiter *)

Record LocalRateLimiter (L : Type) := MkLocal {
  callerLimiters : gmap string L;
  toolLimiters : gmap string (gmap string L);
  upstreamLimiters : gmap string L;
  defaultCallerRate : spec_float;
  defaultCallerBurst : Z;
  defaultToolRate : spec_float;
  defaultToolBurst : Z;
  roleCallerRate : gmap string spec_float;
  roleCallerBurst : gmap string Z;
  roleToolRate : gmap string spec_float;
  roleToolBurst : gmap string Z;
  callerRate : gmap string spec_float;
  callerBurst : gmap string Z;
  callerToolRate : gmap string spec_float;
  callerToolBurst : gmap string Z;
}.
Arguments MkLocal {L}.
Arguments callerLimiters {L}. Arguments toolLimiters {L}. Arguments upstreamLimiters {L}.
Arguments defaultCallerRate {L}. Arguments defaultCallerBurst {L}.
Arguments defaultToolRate {L}. Arguments defaultToolBurst {L}.
Arguments roleCallerRate {L}. Arguments roleCallerBurst {L}.
Arguments roleToolRate {L}. Arguments roleToolBurst {L}.
Arguments callerRate {L}. Arguments callerBurst {L}.
Arguments callerToolRate {L}. Arguments callerToolBurst {L}.

Record limitSnapshot := MkSnapshot { limit : Z; remaining : Z; ratePerS : spec_float }.

Section local.
Context `{Float64.GoPlatform} {L : Type} `{TokenBucket L}.
Implicit Types rl : LocalRateLimiter L.

(** Assignments to the limiter's mutable fields. *)
Definition set_callers rl m : LocalRateLimiter L :=
  MkLocal m (toolLimiters rl) (upstreamLimiters rl) (defaultCallerRate rl) (defaultCallerBurst rl)
    (defaultToolRate rl) (defaultToolBurst rl) (roleCallerRate rl) (roleCallerBurst rl)
    (roleToolRate rl) (roleToolBurst rl) (callerRate rl) (callerBurst rl) (callerToolRate rl) (callerToolBurst rl).
Definition set_tools rl m : LocalRateLimiter L :=
  MkLocal (callerLimiters rl) m (upstreamLimiters rl) (defaultCallerRate rl) (defaultCallerBurst rl)
    (defaultToolRate rl) (defaultToolBurst rl) (roleCallerRate rl) (roleCallerBurst rl)
    (roleToolRate rl) (roleToolBurst rl) (callerRate rl) (callerBurst rl) (callerToolRate rl) (callerToolBurst rl).
Definition set_upstreams rl m : LocalRateLimiter L :=
  MkLocal (callerLimiters rl) (toolLimiters rl) m (defaultCallerRate rl) (defaultCallerBurst rl)
    (defaultToolRate rl) (defaultToolBurst rl) (roleCallerRate rl) (roleCallerBurst rl)
    (roleToolRate rl) (roleToolBurst rl) (callerRate rl) (callerBurst rl) (callerToolRate rl) (callerToolBurst rl).
Definition set_registered rl cr cb tr tb : LocalRateLimiter L :=
  MkLocal (callerLimiters rl) (toolLimiters rl) (upstreamLimiters rl) (defaultCallerRate rl) (defaultCallerBurst rl)
    (defaultToolRate rl) (defaultToolBurst rl) (roleCallerRate rl) (roleCallerBurst rl)
    (roleToolRate rl) (roleToolBurst rl) cr cb tr tb.

(** A default limit; without one, the rate is infinite. *)
Definition default_rate (d : option RateLimit) : spec_float := match d with Some d => rate d | None => Inf end.
Definition default_burst (d : option RateLimit) : Z := match d with Some d => burst d | None => 0 end.

(** The loop over the upstreams. *)
Definition new_upstream_limiters (defaultUpstream : option RateLimit) (us : list UpstreamConfig) : gmap string L :=
  foldl (λ m u,
    match UpstreamRateLimit u with
    | Some r => <[UpstreamName u := NewLimiter (rate r) (burst r)]> m
    | None =>
        if negb (Float64.eqb (default_rate defaultUpstream) Inf)
        then <[UpstreamName u := NewLimiter (default_rate defaultUpstream) (default_burst defaultUpstream)]> m
        else m
    end) ∅ us.

(** The loops that collect one field of the roles' limits. *)
Definition role_map {A} (sel : RoleConfig → option RateLimit) (f : RateLimit → A) (rs : list RoleConfig) : gmap string A :=
  foldl (λ m r, match sel r with Some l => <[role_name r := f l]> m | None => m end) ∅ rs.

Definition NewLocalRateLimiter (cfg : Config) : LocalRateLimiter L :=
  let defaults := rateLimitDefaults cfg in
  MkLocal ∅ ∅ (new_upstream_limiters (defaultUpstream defaults) (upstreams cfg))
    (default_rate (defaultCaller defaults)) (default_burst (defaultCaller defaults))
    (default_rate (defaultTool defaults)) (default_burst (defaultTool defaults))
    (role_map role_rateLimit rate (roles cfg)) (role_map role_rateLimit burst (roles cfg))
    (role_map toolRateLimit rate (roles cfg)) (role_map toolRateLimit burst (roles cfg))
    ∅ ∅ ∅ ∅.

(** One of the two loops of [registerCallerLocked]. *)
Definition most_permissive (roleRate : gmap string spec_float) (roleBurst : gmap string Z) (roles : list string)
    (dflt : spec_float * Z) : spec_float * Z :=
  foldl (λ '(cr, cb) role,
    match roleRate !! role with
    | Some r =>
        if Float64.eqb cr Inf then (r, default 0 (roleBurst !! role))
        else if Float64.ltb cr r then (r, default 0 (roleBurst !! role))
        else (cr, cb)
    | None => (cr, cb)
    end) dflt roles.

Definition registerCallerLocked (caller : string) (roles : list string) rl : LocalRateLimiter L :=
  match callerRate rl !! caller with
  | Some _ => rl
  | None =>
      let '(cr, cb) := most_permissive (roleCallerRate rl) (roleCallerBurst rl) roles
                         (defaultCallerRate rl, defaultCallerBurst rl) in
      let '(tr, tb) := most_permissive (roleToolRate rl) (roleToolBurst rl) roles
                         (defaultToolRate rl, defaultToolBurst rl) in
      set_registered rl (<[caller := cr]> (callerRate rl)) (<[caller := cb]> (callerBurst rl))
        (<[caller := tr]> (callerToolRate rl)) (<[caller := tb]> (callerToolBurst rl))
  end.

(** The limit in force for a caller when its bucket is created. *)
Definition caller_limit (caller : string) rl : spec_float * Z :=
  match callerRate rl !! caller with
  | Some cr => (cr, default 0 (callerBurst rl !! caller))
  | None => (defaultCallerRate rl, defaultCallerBurst rl)
  end.
Definition tool_limit (caller : string) rl : spec_float * Z :=
  match callerToolRate rl !! caller with
  | Some cr => (cr, default 0 (callerToolBurst rl !! caller))
  | None => (defaultToolRate rl, defaultToolBurst rl)
  end.

Definition getOrCreateCallerLimiterLocked (caller : string) rl : LocalRateLimiter L * option L :=
  match callerLimiters rl !! caller with
  | Some lim => (rl, Some lim)
  | None =>
      let '(r, b) := caller_limit caller rl in
      if Float64.eqb r Inf then (rl, None)
      else
        let lim := NewLimiter r b in
        (set_callers rl (<[caller := lim]> (callerLimiters rl)), Some lim)
  end.

Definition maxToolLimitersPerCaller : nat := 1000.

(** [getOrCreateToolLimiterLocked]; the flag tells whether the bucket is in
    the map or a one-shot bucket. *)
Definition getOrCreateToolLimiterLocked (caller tool : string) rl : LocalRateLimiter L * option (L * bool) :=
  let callerTools := default ∅ (toolLimiters rl !! caller) in
  let rl := set_tools rl (<[caller := callerTools]> (toolLimiters rl)) in
  match callerTools !! tool with
  | Some lim => (rl, Some (lim, true))
  | None =>
      let '(r, b) := tool_limit caller rl in
      if Float64.eqb r Inf then (rl, None)
      else if decide (maxToolLimitersPerCaller ≤ size callerTools)%nat
      then (rl, Some (NewLimiter r b, false))
      else
        let lim := NewLimiter r b in
        (set_tools rl (<[caller := <[tool := lim]> callerTools]> (toolLimiters rl)), Some (lim, true))
  end.

Definition snapshotFromLimiter (now : Z) (lim : L) : limitSnapshot :=
  let tokens := Float64.to_int (TokensAt now lim) in
  MkSnapshot (BurstOf lim) (if tokens <? 0 then 0 else tokens) (LimitOf lim).

(** The three checks; each yields the new limiter, and the bucket's verdict
    and snapshot if there is a bucket. *)
Definition check_caller (clock : nat → Z) (caller : string) rl : LocalRateLimiter L * option (bool * limitSnapshot) :=
  match getOrCreateCallerLimiterLocked caller rl with
  | (rl, None) => (rl, None)
  | (rl, Some lim) =>
      let '(lim, ok) := AllowAt (clock 0%nat) lim in
      (set_callers rl (<[caller := lim]> (callerLimiters rl)), Some (ok, snapshotFromLimiter (clock 1%nat) lim))
  end.

Definition check_tool (clock : nat → Z) (caller tool : string) rl :
    LocalRateLimiter L * option (bool * limitSnapshot) :=
  match getOrCreateToolLimiterLocked caller tool rl with
  | (rl, None) => (rl, None)
  | (rl, Some (lim, stored)) =>
      let '(lim, ok) := AllowAt (clock 2%nat) lim in
      (if stored : bool
       then set_tools rl (<[caller := <[tool := lim]> (default ∅ (toolLimiters rl !! caller))]> (toolLimiters rl))
       else rl,
       Some (ok, snapshotFromLimiter (clock 3%nat) lim))
  end.

Definition check_upstream (clock : nat → Z) (upstream : string) rl :
    LocalRateLimiter L * option (bool * limitSnapshot) :=
  match upstreamLimiters rl !! upstream with
  | None => (rl, None)
  | Some lim =>
      let '(lim, ok) := AllowAt (clock 4%nat) lim in
      (set_upstreams rl (<[upstream := lim]> (upstreamLimiters rl)), Some (ok, snapshotFromLimiter (clock 5%nat) lim))
  end.

(** A level of [Allow]: skipped when it does not apply or after a denial. *)
Definition level (applies : bool) (lv : Level)
    (check : LocalRateLimiter L → LocalRateLimiter L * option (bool * limitSnapshot))
    (s : LocalRateLimiter L * list limitSnapshot * option Level) :
    LocalRateLimiter L * list limitSnapshot * option Level :=
  let '(rl, snapshots, denial) := s in
  if applies && bool_decide (denial = None) then
    match check rl with
    | (rl, None) => (rl, snapshots, denial)
    | (rl, Some (ok, snap)) => (rl, snapshots ++ [snap], if ok : bool then denial else Some lv)
    end
  else s.

Definition most_restrictive (best : limitSnapshot) (l : list limitSnapshot) : limitSnapshot :=
  foldl (λ best s, if remaining s <? remaining best then s else best) best l.

Definition make_result (now : Z) (denial : option Level) (best : limitSnapshot) : RateLimitResult :=
  let deficit := Float64.of_Z (limit best - remaining best) in
  let positive := Float64.ltb Float64.zero (ratePerS best) in
  let resetAt :=
    if Float64.ltb Float64.zero deficit && positive
    then now + Float64.to_int (Float64.mul (Float64.div deficit (ratePerS best)) (Float64.of_Z Duration.Second))
    else now in
  let retryAfter :=
    if negb (bool_decide (denial = None)) && positive
    then Strconv.wrap64 (Float64.to_int (Float64.ceil (Float64.div Float64.one (ratePerS best))) * Duration.Second)
    else 0 in
  MkRLResult denial (limit best) (remaining best) resetAt retryAfter.

(** The registration step of [Allow]. *)
Definition register_roles (caller : string) (roles : list string) rl : LocalRateLimiter L :=
  if negb (bool_decide (caller = "")) && negb (bool_decide (roles = []))
  then registerCallerLocked caller roles rl else rl.

Definition Allow (clock : nat → Z) (caller tool upstream : string) (roles : list string) rl :
    LocalRateLimiter L * option RateLimitResult :=
  let named := negb (bool_decide (caller = "")) in
  let rl := register_roles caller roles rl in
  let '(rl, snapshots, denial) :=
    level (negb (bool_decide (upstream = ""))) UpstreamLevel (check_upstream clock upstream)
      (level (named && negb (bool_decide (tool = ""))) ToolLevel (check_tool clock caller tool)
        (level named CallerLevel (check_caller clock caller) (rl, [], None))) in
  (rl,
   match snapshots with
   | [] => None
   | s :: rest => Some (make_result (clock 6%nat) denial (most_restrictive s rest))
   end).

#[global] Instance LocalRateLimiter_RateLimiter : RateLimiter (nat → Z) (LocalRateLimiter L) :=
  {| AllowRequest clock caller tool upstream roles rl := Allow clock caller tool upstream roles rl |}.
End local.

(** ** Properties *)

Record call := MkCall {
  call_clock : nat → Z;
  call_caller : string;
  call_tool : string;
  call_upstream : string;
  call_roles : list string;
}.

Section local_props.
Context `{Float64.GoPlatform} {L : Type} `{TokenBucket L}.
Implicit Types rl : LocalRateLimiter L.

Definition allow_call (k : call) rl : LocalRateLimiter L * option RateLimitResult :=
  Allow (call_clock k) (call_caller k) (call_tool k) (call_upstream k) (call_roles k) rl.

(** A sequence of calls, in order. *)
Definition run (h : list call) rl : LocalRateLimiter L := foldl (λ rl k, (allow_call k rl).1) rl h.

(** What the limiter keeps for one caller, and what never changes. *)
Definition view (c : string) rl :=
  (callerLimiters rl !! c, toolLimiters rl !! c, callerRate rl !! c, callerBurst rl !! c,
   callerToolRate rl !! c, callerToolBurst rl !! c).
Definition static rl :=
  (defaultCallerRate rl, defaultCallerBurst rl, defaultToolRate rl, defaultToolBurst rl,
   roleCallerRate rl, roleCallerBurst rl, roleToolRate rl, roleToolBurst rl).

(** Two limiters that a caller cannot tell apart below the upstream level. *)
Definition agree (c : string) rl1 rl2 : Prop := static rl1 = static rl2 ∧ view c rl1 = view c rl2.

#[global] Instance agree_equivalence c : Equivalence (agree c).
Proof. split; unfold agree; [done|intros ?? [-> ->]; done|intros ??? [-> ->] [-> ->]; done]. Qed.

Ltac agree_inv Ha := destruct Ha as [Hst Hvw]; unfold static in Hst; unfold view in Hvw; injection Hst; injection Hvw; intros.
Ltac agree_solve := unfold agree, static, view; simpl; split; rewrite ?lookup_insert_eq, ?lookup_insert_ne by done; congruence.

Lemma register_agree c roles rl1 rl2 :
  agree c rl1 rl2 → agree c (registerCallerLocked c roles rl1) (registerCallerLocked c roles rl2).
Proof.
  intros Ha. unfold registerCallerLocked. pose proof Ha as Ha'. agree_inv Ha'.
  replace (callerRate rl2 !! c) with (callerRate rl1 !! c) by congruence.
  destruct (callerRate rl1 !! c); [done|].
  replace (roleCallerRate rl2) with (roleCallerRate rl1) by congruence.
  replace (roleCallerBurst rl2) with (roleCallerBurst rl1) by congruence.
  replace (roleToolRate rl2) with (roleToolRate rl1) by congruence.
  replace (roleToolBurst rl2) with (roleToolBurst rl1) by congruence.
  replace (defaultCallerRate rl2) with (defaultCallerRate rl1) by congruence.
  replace (defaultCallerBurst rl2) with (defaultCallerBurst rl1) by congruence.
  replace (defaultToolRate rl2) with (defaultToolRate rl1) by congruence.
  replace (defaultToolBurst rl2) with (defaultToolBurst rl1) by congruence.
  destruct (most_permissive _ _ roles _) as [cr cb], (most_permissive _ _ roles _) as [tr tb].
  agree_solve.
Qed.

Lemma limits_agree c rl1 rl2 :
  agree c rl1 rl2 → caller_limit c rl1 = caller_limit c rl2 ∧ tool_limit c rl1 = tool_limit c rl2.
Proof.
  intros Ha. agree_inv Ha. unfold caller_limit, tool_limit.
  split; repeat case_match; congruence.
Qed.

Lemma set_callers_agree c c' lim1 lim2 rl1 rl2 :
  agree c rl1 rl2 → (c = c' → lim1 = lim2) →
  agree c (set_callers rl1 (<[c' := lim1]> (callerLimiters rl1))) (set_callers rl2 (<[c' := lim2]> (callerLimiters rl2))).
Proof.
  intros Ha Hl. agree_inv Ha. destruct (decide (c = c')) as [<-|]; [rewrite Hl by done|]; agree_solve.
Qed.

Lemma set_tools_agree c m1 m2 rl1 rl2 :
  agree c rl1 rl2 → m1 !! c = m2 !! c → agree c (set_tools rl1 m1) (set_tools rl2 m2).
Proof. intros Ha Hm. agree_inv Ha. agree_solve. Qed.

Lemma check_caller_agree clock c rl1 rl2 :
  agree c rl1 rl2 →
  (check_caller clock c rl1).2 = (check_caller clock c rl2).2 ∧
  agree c (check_caller clock c rl1).1 (check_caller clock c rl2).1.
Proof.
  intros Ha. unfold check_caller, getOrCreateCallerLimiterLocked.
  destruct (limits_agree _ _ _ Ha) as [<- _].
  replace (callerLimiters rl2 !! c) with (callerLimiters rl1 !! c) by (agree_inv Ha; congruence).
  destruct (callerLimiters rl1 !! c) as [lim|].
  - destruct (AllowAt _ lim) as [lim' ok]. split; [done|]. by apply set_callers_agree.
  - destruct (caller_limit c rl1) as [r b]. destruct (Float64.eqb r Inf); [done|].
    destruct (AllowAt _ _) as [lim' ok]. split; [done|]. simpl. apply (set_callers_agree c c); [|done].
    by apply set_callers_agree.
Qed.

Lemma check_tool_agree clock c tool rl1 rl2 :
  agree c rl1 rl2 →
  (check_tool clock c tool rl1).2 = (check_tool clock c tool rl2).2 ∧
  agree c (check_tool clock c tool rl1).1 (check_tool clock c tool rl2).1.
Proof.
  intros Ha. unfold check_tool, getOrCreateToolLimiterLocked.
  replace (toolLimiters rl2 !! c) with (toolLimiters rl1 !! c) by (agree_inv Ha; congruence).
  set (ts := default ∅ (toolLimiters rl1 !! c)).
  assert (agree c (set_tools rl1 (<[c := ts]> (toolLimiters rl1))) (set_tools rl2 (<[c := ts]> (toolLimiters rl2)))) as Ha'.
  { apply set_tools_agree; [done|]. by rewrite !lookup_insert_eq. }
  destruct (limits_agree _ _ _ Ha') as [_ <-].
  destruct (ts !! tool) as [lim|].
  - destruct (AllowAt _ lim) as [lim' ok]. split; [done|]. apply set_tools_agree; [done|].
    simpl. by rewrite !lookup_insert_eq.
  - destruct (tool_limit c _) as [r b]. destruct (Float64.eqb r Inf); [done|].
    destruct (decide _); (destruct (AllowAt _ _) as [lim' ok]; split; [done|]); [done|].
    apply set_tools_agree; [|simpl; by rewrite !lookup_insert_eq].
    apply set_tools_agree; [done|]. simpl. by rewrite !lookup_insert_eq.
Qed.

(** Calls of others and upstream buckets leave a caller's view alone. *)
Lemma register_other c c' roles rl : c ≠ c' → agree c rl (registerCallerLocked c' roles rl).
Proof.
  intros Hne. unfold registerCallerLocked. destruct (callerRate rl !! c'); [done|].
  destruct (most_permissive _ _ roles _) as [cr cb], (most_permissive _ _ roles _) as [tr tb]. agree_solve.
Qed.

Lemma check_caller_other clock c c' rl : c ≠ c' → agree c rl (check_caller clock c' rl).1.
Proof.
  intros Hne. unfold check_caller, getOrCreateCallerLimiterLocked.
  destruct (callerLimiters rl !! c') as [lim|]; [destruct (AllowAt _ lim); agree_solve|].
  destruct (caller_limit c' rl) as [r b]. destruct (Float64.eqb r Inf); [done|].
  destruct (AllowAt _ _). agree_solve.
Qed.

Lemma check_tool_other clock c c' tool rl : c ≠ c' → agree c rl (check_tool clock c' tool rl).1.
Proof.
  intros Hne. unfold check_tool, getOrCreateToolLimiterLocked.
  destruct (default ∅ (toolLimiters rl !! c') !! tool) as [lim|]; [destruct (AllowAt _ lim); agree_solve|].
  destruct (tool_limit c' _) as [r b]. destruct (Float64.eqb r Inf); [agree_solve|].
  destruct (decide _); destruct (AllowAt _ _); agree_solve.
Qed.

Lemma check_upstream_any clock c u rl : agree c rl (check_upstream clock u rl).1.
Proof.
  unfold check_upstream. destruct (upstreamLimiters rl !! u) as [lim|]; [|done].
  destruct (AllowAt _ lim). agree_solve.
Qed.

(** One level of [Allow] on limiters that agree, and on a foreign level. *)
Lemma level_agree c b lv check1 check2 rl1 rl2 sn dn :
  agree c rl1 rl2 →
  (agree c rl1 rl2 → (check1 rl1).2 = (check2 rl2).2 ∧ agree c (check1 rl1).1 (check2 rl2).1) →
  let s1 := level b lv check1 (rl1, sn, dn) in
  let s2 := level b lv check2 (rl2, sn, dn) in
  agree c s1.1.1 s2.1.1 ∧ s1.1.2 = s2.1.2 ∧ s1.2 = s2.2.
Proof.
  intros Ha Hc. destruct (Hc Ha) as [Heq Hag]. unfold level. destruct (b && bool_decide (dn = None)); [|done].
  destruct (check1 rl1) as [rl1' [[ok1 sn1]|]], (check2 rl2) as [rl2' [[ok2 sn2]|]]; simpl in *; by simplify_eq.
Qed.

Lemma level_other c b lv check s :
  (∀ rl, agree c rl (check rl).1) → agree c s.1.1 (level b lv check s).1.1.
Proof.
  intros Hc. destruct s as [[rl sn] dn]. unfold level. destruct (b && _); [|done].
  specialize (Hc rl). destruct (check rl) as [rl' [[ok sn']|]]; done.
Qed.

(** A denial is always accompanied by a snapshot. *)
Lemma level_denied b lv check (s : LocalRateLimiter L * list limitSnapshot * option Level) :
  (s.2 ≠ None → s.1.2 ≠ []) → (level b lv check s).2 ≠ None → (level b lv check s).1.2 ≠ [].
Proof.
  destruct s as [[rl sn] dn]. unfold level. intros Hs. destruct (b && _); [|done].
  destruct (check rl) as [rl' [[ok sn']|]]; simpl in *; [|done]. intros _ ?%app_nil. naive_solver.
Qed.

(** The levels that concern the caller alone. *)
Definition own_levels (k : call) rl : LocalRateLimiter L * list limitSnapshot * option Level :=
  let named := negb (bool_decide (call_caller k = "")) in
  let rl := register_roles (call_caller k) (call_roles k) rl in
  level (named && negb (bool_decide (call_tool k = ""))) ToolLevel
    (check_tool (call_clock k) (call_caller k) (call_tool k))
    (level named CallerLevel (check_caller (call_clock k) (call_caller k)) (rl, [], None)).

(** The denial of a result, unless it is due to the upstream. *)
Definition own_denial (r : option RateLimitResult) : option Level :=
  match r ≫= Denial with Some UpstreamLevel => None | d => d end.

Lemma own_levels_agree k rl1 rl2 :
  agree (call_caller k) rl1 rl2 →
  agree (call_caller k) (own_levels k rl1).1.1 (own_levels k rl2).1.1 ∧
  (own_levels k rl1).2 = (own_levels k rl2).2.
Proof.
  intros Ha. unfold own_levels. cbv zeta.
  assert (agree (call_caller k) (register_roles (call_caller k) (call_roles k) rl1)
            (register_roles (call_caller k) (call_roles k) rl2)) as Ha1.
  { unfold register_roles. destruct (_ && _); [by apply register_agree|done]. }
  destruct (level_agree (call_caller k) (negb (bool_decide (call_caller k = ""))) CallerLevel
    (check_caller (call_clock k) (call_caller k)) (check_caller (call_clock k) (call_caller k)) _ _ [] None Ha1)
    as (Ha2 & Hs & Hd); [apply check_caller_agree|].
  destruct (level _ CallerLevel _ (_ _ _ rl1, _, _)) as [[r1 sn1] d1],
    (level _ CallerLevel _ (_ _ _ rl2, _, _)) as [[r2 sn2] d2].
  simpl in Ha2, Hs, Hd. subst sn2 d2.
  destruct (level_agree (call_caller k)
    (negb (bool_decide (call_caller k = "")) && negb (bool_decide (call_tool k = ""))) ToolLevel
    (check_tool (call_clock k) (call_caller k) (call_tool k)) (check_tool (call_clock k) (call_caller k) (call_tool k))
    _ _ sn1 d1 Ha2) as (Ha3 & _ & Hd); [apply check_tool_agree|]. done.
Qed.

Lemma own_levels_denied k rl : (own_levels k rl).2 ≠ None → (own_levels k rl).1.2 ≠ [].
Proof. unfold own_levels. cbv zeta. by do 2 apply level_denied. Qed.

Lemma own_levels_not_upstream k rl : (own_levels k rl).2 ≠ Some UpstreamLevel.
Proof.
  unfold own_levels, level. repeat case_match; simplify_eq; simpl; try congruence;
    repeat case_match; simplify_eq; congruence.
Qed.

Lemma allow_call_levels k rl :
  allow_call k rl =
  let '(rl, sn, d) := level (negb (bool_decide (call_upstream k = ""))) UpstreamLevel
      (check_upstream (call_clock k) (call_upstream k)) (own_levels k rl) in
  (rl, match sn with
       | [] => None
       | s :: rest => Some (make_result (call_clock k 6%nat) d (most_restrictive s rest)) end).
Proof. done. Qed.

Lemma allow_call_own k rl :
  own_denial (allow_call k rl).2 = (own_levels k rl).2 ∧
  ∀ c, agree c (own_levels k rl).1.1 (allow_call k rl).1.
Proof.
  rewrite allow_call_levels.
  pose proof (own_levels_denied k rl) as Hd. pose proof (own_levels_not_upstream k rl) as Hu.
  pose proof (λ c, level_other c (negb (bool_decide (call_upstream k = ""))) UpstreamLevel
    (check_upstream (call_clock k) (call_upstream k)) (own_levels k rl)
    (check_upstream_any (call_clock k) c (call_upstream k))) as Ha.
  destruct (own_levels k rl) as [[rl1 sn1] d1]. unfold level in *. simpl in Hd, Hu.
  destruct d1 as [lv|].
  - rewrite andb_false_r in *. split; [|done]. simpl. destruct sn1; [naive_solver|].
    unfold own_denial. simpl. by destruct lv.
  - destruct (negb _ && bool_decide _); [|by destruct sn1].
    destruct (check_upstream _ _ rl1) as [rl2 [[ok sn]|]]; simpl in *; [|by destruct sn1].
    split; [|done]. destruct sn1, ok; done.
Qed.

Lemma own_levels_other c k rl : c ≠ call_caller k → agree c rl (own_levels k rl).1.1.
Proof.
  intros Hne. unfold own_levels. cbv zeta.
  etransitivity; [|apply level_other; intros; by apply check_tool_other].
  etransitivity; [|apply level_other; intros; by apply check_caller_other].
  simpl. unfold register_roles. destruct (_ && _); [by apply register_other|done].
Qed.

Lemma allow_call_other c k rl : c ≠ call_caller k → agree c rl (allow_call k rl).1.
Proof. intros Hne. etransitivity; [by apply own_levels_other|]. apply allow_call_own. Qed.

Lemma allow_call_agree k rl1 rl2 :
  agree (call_caller k) rl1 rl2 →
  agree (call_caller k) (allow_call k rl1).1 (allow_call k rl2).1 ∧
  own_denial (allow_call k rl1).2 = own_denial (allow_call k rl2).2.
Proof.
  intros Ha. destruct (allow_call_own k rl1) as [H1 A1], (allow_call_own k rl2) as [H2 A2].
  destruct (own_levels_agree k rl1 rl2 Ha) as [Ha' Hd]. split; [|congruence].
  rewrite <- (A1 _), <- (A2 _). done.
Qed.

Lemma run_own c h rl1 rl2 :
  agree c rl1 rl2 → agree c (run h rl1) (run (filter (λ k, call_caller k = c) h) rl2).
Proof.
  revert rl1 rl2. induction h as [|k h IH]; intros rl1 rl2 Ha; [done|]. simpl.
  destruct (decide (call_caller k = c)) as [<-|Hne].
  - rewrite filter_cons_True by done. simpl. apply IH. by apply allow_call_agree.
  - rewrite filter_cons_False by done. apply IH. rewrite <- Ha. symmetry. by apply allow_call_other.
Qed.

(** C26: callers are isolated from each other: after any sequence of calls,
    whether a caller's next call is denied by its caller limit or its tool
    limit is the same as if only that caller's own calls had been made. *)
Theorem callers_isolated cfg h k :
  own_denial (allow_call k (run h (NewLocalRateLimiter cfg))).2 =
  own_denial (allow_call k (run (filter (λ k', call_caller k' = call_caller k) h) (NewLocalRateLimiter cfg))).2.
Proof. apply allow_call_agree. by apply run_own. Qed.

(** The limit with which a new caller is registered. *)
Lemma registered_limit c roles rl :
  callerRate rl !! c = None →
  caller_limit c (registerCallerLocked c roles rl) =
    most_permissive (roleCallerRate rl) (roleCallerBurst rl) roles (defaultCallerRate rl, defaultCallerBurst rl).
Proof.
  intros Hc. unfold registerCallerLocked. rewrite Hc.
  destruct (most_permissive _ _ roles _) as [cr cb], (most_permissive _ _ roles _) as [tr tb].
  unfold caller_limit. simpl. by rewrite !lookup_insert_eq.
Qed.

(** ** Memory *)

Definition bounded rl : Prop :=
  ∀ c, (size (default ∅ (toolLimiters rl !! c)) ≤ maxToolLimitersPerCaller)%nat.

Lemma bounded_insert rl c m :
  bounded rl → (size m ≤ maxToolLimitersPerCaller)%nat → bounded (set_tools rl (<[c := m]> (toolLimiters rl))).
Proof.
  intros Hb Hm c'. simpl. destruct (decide (c = c')) as [<-|].
  - by rewrite lookup_insert_eq.
  - rewrite lookup_insert_ne by done. apply Hb.
Qed.

Lemma getOrCreateTool_bounded c tool rl :
  bounded rl → bounded (getOrCreateToolLimiterLocked c tool rl).1 ∧
  match (getOrCreateToolLimiterLocked c tool rl).2 with
  | Some (_, true) => is_Some (default ∅ (toolLimiters (getOrCreateToolLimiterLocked c tool rl).1 !! c) !! tool)
  | _ => True
  end.
Proof.
  intros Hb. unfold getOrCreateToolLimiterLocked.
  pose proof (bounded_insert rl c _ Hb (Hb c)) as Hb1.
  destruct (default ∅ (toolLimiters rl !! c) !! tool) as [lim|] eqn:El.
  - split; [done|]. simpl. rewrite lookup_insert_eq. simpl. by rewrite El.
  - destruct (tool_limit c _) as [r b]. destruct (Float64.eqb r Inf); [done|].
    destruct (decide _) as [|Hlt]; [done|]. simpl. split.
    + apply (bounded_insert (set_tools rl _) c); [done|]. rewrite map_size_insert_None by done. lia.
    + rewrite lookup_insert_eq. simpl. by rewrite lookup_insert_eq.
Qed.

Lemma check_tool_bounded clock c tool rl : bounded rl → bounded (check_tool clock c tool rl).1.
Proof.
  intros Hb. unfold check_tool. destruct (getOrCreateTool_bounded c tool rl Hb) as [Hb1 Hin].
  destruct (getOrCreateToolLimiterLocked c tool rl) as [rl1 [[lim stored]|]]; [|done].
  simpl in *. destruct (AllowAt _ lim) as [lim' ok]. destruct stored; [|done].
  apply bounded_insert; [done|]. rewrite map_size_insert_Some by done. apply Hb1.
Qed.

Lemma level_tools_same b lv check (s : LocalRateLimiter L * list limitSnapshot * option Level) :
  (∀ rl, bounded rl → bounded (check rl).1) → bounded s.1.1 → bounded (level b lv check s).1.1.
Proof.
  intros Hc Hs. destruct s as [[rl sn] dn]. unfold level. destruct (b && _); [|done].
  specialize (Hc rl Hs). by destruct (check rl) as [rl' [[ok sn']|]].
Qed.

Lemma check_caller_bounded clock c rl : bounded rl → bounded (check_caller clock c rl).1.
Proof.
  unfold check_caller, getOrCreateCallerLimiterLocked. repeat case_match; simplify_eq; try done.
Qed.

Lemma allow_call_bounded k rl : bounded rl → bounded (allow_call k rl).1.
Proof.
  intros Hb. rewrite allow_call_levels.
  match goal with |- bounded (let '(_, _) := ?x in _).1 => enough (bounded x.1.1); [by destruct x as [[??]?]|] end.
  apply level_tools_same; [unfold check_upstream; intros; by repeat case_match|].
  unfold own_levels. cbv zeta. apply level_tools_same; [intros; by apply check_tool_bounded|].
  apply level_tools_same; [intros; by apply check_caller_bounded|].
  unfold register_roles, registerCallerLocked. simpl. by repeat case_match.
Qed.

(** The limiter keeps at most [maxToolLimitersPerCaller] tool buckets for
    each caller, whatever calls are made. *)
Theorem tool_buckets_bounded cfg h c :
  (size (default ∅ (toolLimiters (run h (NewLocalRateLimiter cfg)) !! c)) ≤ maxToolLimitersPerCaller)%nat.
Proof.
  revert c. change (bounded (run h (NewLocalRateLimiter cfg))).
  assert (bounded (NewLocalRateLimiter cfg)) as Hb.
  { intros c. simpl. rewrite lookup_empty. simpl. rewrite map_size_empty. lia. }
  revert Hb. generalize (NewLocalRateLimiter cfg). induction h as [|k h IH]; intros rl Hb; [done|].
  apply IH. by apply allow_call_bounded.
Qed.
End local_props.

(** A bucket that is never refilled, for runs on concrete inputs. *)
#[local] Instance counter_bucket : TokenBucket (spec_float * Z * Z) := {|
  NewLimiter r b := (r, b, b);
  AllowAt _ l := let '(r, b, n) := l in if 0 <? n then ((r, b, n - 1), true) else (l, false);
  TokensAt _ l := Float64.of_Z l.2;
  BurstOf l := l.1.2;
  LimitOf l := l.1.1;
|}.

Definition sample_config : Config :=
  MkConfig (MkServer ":8080" 0 "" (MkDatabase "" "") 0 None 0) [] 
    [MkRole "dev" ["*"] ∅ (Some (MkRateLimit (Float64.of_Z 2) 2 2 1)) None]
    (MkRLDefaults "" None (Some (MkRateLimit Float64.one 1 1 1)) None None)
    (MkLogging "info" "json") (MkAudit false "" "") (MkTraces false "" Float64.zero)
    (MkHealthConfig "local" 0 "healthy" None) None [].

Definition sample_call (caller : string) (roles : list string) : call :=
  MkCall (λ _, 0) caller "search" "api" roles.

(** A developer has two calls, a caller without roles one. *)
Example sample_run :
  let rl h := @run Float64.amd64 _ _ h (NewLocalRateLimiter sample_config) in
  let denied k h := own_denial (@allow_call Float64.amd64 _ _ k (rl h)).2 in
  let ann := sample_call "ann" ["dev"] in
  let bob := sample_call "bob" [] in
  denied ann [ann] = None ∧ denied ann [ann; bob; ann] = Some CallerLevel ∧ denied bob [ann; ann] = None ∧
  denied bob [bob] = Some CallerLevel.
Proof. split_and!; vm_compute; reflexivity. Qed.
