(* ===== verification/RedisLimit.v ===== *)
(** * Rate limiting shared through Redis ([internal/policy/redis.go], [factory.go])

    The Lua script of the sliding window is translated command by command, on
    sorted sets with an expiry time. What comes from outside is an argument:
    the gateway's and the server's clocks, whether the exchange with the server
    failed (and if so whether the script ran), and the text of the number that
    [math.random] returned in the script. *)

From Stdlib Require Import SpecFloat Sorted.
From S2P Require Import Prelude GoLib ConfigData RateLimit.

(** ** Redis *)

(** A sorted set: members with their scores; and the time at which the key
    expires, on the server's clock in microseconds. *)
Record zset := MkZset { members : gmap string Z; expires : option Z }.

Abbreviation Redis := (gmap string zset).

(** Keys past their expiry are gone. *)
Definition live (srv : Z) (db : Redis) (key : string) : gmap string Z :=
  match db !! key with
  | Some z =>
      match expires z with
      | Some e => if e <=? srv then ∅ else members z
      | None => members z
      end
  | None => ∅
  end.

(** *** Numbers as Lua prints them ("%.14g") *)

Definition round_half_even (n d : Z) : Z :=
  let q := n / d in
  let r := n mod d in
  if (2 * r <? d) || ((2 * r =? d) && Z.even q) then q else q + 1.

Fixpoint strip_zeros (fuel : nat) (q : Z) : Z :=
  match fuel with
  | O => q
  | S fuel => if q mod 10 =? 0 then strip_zeros fuel (q / 10) else q
  end.

(** The number of decimal digits of [n]. *)
Fixpoint decimals (fuel : nat) (n : Z) : Z :=
  match fuel with
  | O => 0
  | S fuel => if n <? 10 then 1 else 1 + decimals fuel (n / 10)
  end.

Definition scientific (q e : Z) : string :=
  match Strconv.Itoa (strip_zeros 14 q) with
  | String c "" => String c ("e+" +:+ Strconv.Itoa e)
  | String c frac => String c ("." +:+ frac +:+ "e+" +:+ Strconv.Itoa e)
  | EmptyString => ""
  end.

(** [tostring(n)] for a natural number below 2^53: all digits up to fourteen
    of them, otherwise fourteen significant digits and an exponent. *)
Definition lua_tostring (n : Z) : string :=
  if n <? 10 ^ 14 then Strconv.Itoa n
  else
    let e := decimals 20 n - 1 in
    let q := round_half_even n (10 ^ (e - 13)) in
    if q =? 10 ^ 14 then scientific (10 ^ 13) (e + 1) else scientific q e.

Example lua_prints :
  lua_tostring 1712345678901234 = "1.7123456789012e+15" ∧ lua_tostring 1712345678901267 = "1.7123456789013e+15" ∧
  lua_tostring 2000000000000000 = "2e+15" ∧ lua_tostring 999999999999999 = "1e+15" ∧
  lua_tostring 12345678901234 = "12345678901234".
Proof. split_and!; vm_compute; reflexivity. Qed.

(** ** The script *)

(** [now .. ':' .. math.random()] *)
Definition member (now : Z) (random : string) : string := lua_tostring now +:+ ":" +:+ random.

(** [ZREMRANGEBYSCORE key 0 max] *)
Definition zremrangebyscore (max : Z) (s : gmap string Z) : gmap string Z :=
  filter (λ kv, ¬ (0 ≤ kv.2 ∧ kv.2 ≤ max)) s.

(** [slidingWindowScript]: the new database, and the pair that is returned. *)
Definition slidingWindowScript (srv : Z) (random : string) (key : string) (limit window_us now : Z) (db : Redis) :
    Redis * (Z * Z) :=
  let s := zremrangebyscore (now - window_us) (live srv db key) in
  let count := Z.of_nat (size s) in
  if count <? limit then
    let ttl := - ((- window_us) / 1000000) + 1 in
    (<[key := MkZset (<[member now random := now]> s) (Some (srv + ttl * 1000000))]> db, (1, count + 1))
  else
    let e := match db !! key with Some z => expires z | None => None end in
    (if bool_decide (s = ∅) then delete key db else <[key := MkZset s e]> db, (0, count)).

(** ** The limiter *)

Record RedisRateLimiter := MkRedisRL {
  keyPrefix : string;
  rr_defaultCaller : option RateLimit;
  rr_defaultTool : option RateLimit;
  rr_defaultUpstream : option RateLimit;
  roleCaller : gmap string RateLimit;
  roleTool : gmap string RateLimit;
  upstreamLimits : gmap string RateLimit;
}.

(** [NewRedisRateLimiter]; [ping] is whether the server answers, and [None]
    the error otherwise. A configuration without Redis settings does not reach
    this constructor. *)
Definition NewRedisRateLimiter (ping : bool) (cfg : Config) : option RedisRateLimiter :=
  redisCfg ← rl_redis (rateLimitDefaults cfg);
  if ping then
    let defaults := rateLimitDefaults cfg in
    Some (MkRedisRL (redis_keyPrefix redisCfg) (defaultCaller defaults) (defaultTool defaults) (defaultUpstream defaults)
      (role_map role_rateLimit id (roles cfg)) (role_map toolRateLimit id (roles cfg))
      (foldl (λ m u, match UpstreamRateLimit u with Some r => <[UpstreamName u := r]> m | None => m end)
         ∅ (upstreams cfg)))
  else None.

(** The most permissive limit of the roles, or the default:
    [effectiveCallerLimit] and [effectiveToolLimit]. *)
Definition best_role_limit (m : gmap string RateLimit) (roles : list string) : option RateLimit :=
  foldl (λ best role,
    match m !! role with
    | Some r =>
        match best with
        | None => Some r
        | Some b => if Float64.ltb (rate b) (rate r) then Some r else best
        end
    | None => best
    end) None roles.

Definition effectiveCallerLimit (rl : RedisRateLimiter) (roles : list string) : option RateLimit :=
  match best_role_limit (roleCaller rl) roles with Some b => Some b | None => rr_defaultCaller rl end.

Definition effectiveToolLimit (rl : RedisRateLimiter) (roles : list string) : option RateLimit :=
  match best_role_limit (roleTool rl) roles with Some b => Some b | None => rr_defaultTool rl end.

Definition upstreamLimit (rl : RedisRateLimiter) (upstream : string) : option RateLimit :=
  match upstreamLimits rl !! upstream with Some l => Some l | None => rr_defaultUpstream rl end.

(** The environment of one check: the server's clock and random text, and
    whether the exchange failed ([Some ran]: it did, and [ran] says whether the
    script was executed nevertheless). *)
Record CheckEnv := MkCheckEnv { srv_now : Z; random_text : string; failed : option bool }.

Record redisCheckResult := MkCheck { allowed : bool; cr_limit : Z; cr_count : Z; cr_window : Z }.

(** [checkLimitWithInfo] *)
Definition checkLimitWithInfo (env : CheckEnv) (key : string) (l : RateLimit) (nowMicro : Z) (db : Redis) :
    Redis * redisCheckResult :=
  let windowMicro := window l * 1000000 in
  let '(db', (ok, n)) := slidingWindowScript (srv_now env) (random_text env) key (count l) windowMicro nowMicro db in
  match failed env with
  | Some ran => (if ran : bool then db' else db, MkCheck false (count l) (count l) (window l))
  | None => (db', MkCheck (ok =? 1) (count l) n (window l))
  end.

Record RedisEnv := MkRedisEnv { nowMicro : Z; nowTime : Z; check_env : Level → CheckEnv }.

Record snapshot := MkSnap { sn_limit : Z; sn_remaining : Z; sn_window : Z }.

(** One level of [Allow]. *)
Definition redis_level (env : RedisEnv) (applies : bool) (lv : Level) (key : string) (limit : option RateLimit)
    (s : Redis * list snapshot * option Level) : Redis * list snapshot * option Level :=
  let '(db, snapshots, denial) := s in
  if applies && bool_decide (denial = None) then
    match limit with
    | Some l =>
        let '(db, cr) := checkLimitWithInfo (check_env env lv) key l (nowMicro env) db in
        let remaining := cr_limit cr - cr_count cr in
        let remaining := if remaining <? 0 then 0 else remaining in
        (db, snapshots ++ [MkSnap (cr_limit cr) remaining (cr_window cr)],
         if allowed cr then denial else Some lv)
    | None => s
    end
  else s.

Definition redis_result (now : Z) (denial : option Level) (best : snapshot) : RateLimitResult :=
  let retryAfter :=
    if negb (bool_decide (denial = None)) && (0 <? sn_limit best) then
      let d := (sn_window best * Duration.Second) ÷ sn_limit best in
      if d <? Duration.Second then Duration.Second else d
    else 0 in
  MkRLResult denial (sn_limit best) (sn_remaining best) (now + sn_window best * Duration.Second) retryAfter.

Definition callerKey (rl : RedisRateLimiter) (caller : string) : string := keyPrefix rl +:+ "rl:caller:" +:+ caller.
Definition toolKey (rl : RedisRateLimiter) (caller tool : string) : string :=
  keyPrefix rl +:+ "rl:tool:" +:+ caller +:+ ":" +:+ tool.
Definition upstreamKey (rl : RedisRateLimiter) (upstream : string) : string :=
  keyPrefix rl +:+ "rl:upstream:" +:+ upstream.

(** [RedisRateLimiter.Allow] *)
Definition redis_levels (env : RedisEnv) (rl : RedisRateLimiter) (caller tool upstream : string) (roles : list string)
    (db : Redis) : Redis * list snapshot * option Level :=
  let named := negb (bool_decide (caller = "")) in
  redis_level env (negb (bool_decide (upstream = ""))) UpstreamLevel (upstreamKey rl upstream) (upstreamLimit rl upstream)
    (redis_level env (named && negb (bool_decide (tool = ""))) ToolLevel (toolKey rl caller tool) (effectiveToolLimit rl roles)
      (redis_level env named CallerLevel (callerKey rl caller) (effectiveCallerLimit rl roles) (db, [], None))).

Definition Redis_Allow (env : RedisEnv) (rl : RedisRateLimiter) (caller tool upstream : string) (roles : list string)
    (db : Redis) : Redis * option RateLimitResult :=
  let '(db, snapshots, denial) := redis_levels env rl caller tool upstream roles db in
  (db,
   match snapshots with
   | [] => None
   | s :: rest =>
       let best := foldl (λ best s, if sn_remaining s <? sn_remaining best then s else best) s rest in
       Some (redis_result (nowTime env) denial best)
   end).

#[global] Instance RedisRateLimiter_RateLimiter : RateLimiter RedisEnv (RedisRateLimiter * Redis) := {|
  AllowRequest env caller tool upstream roles s :=
    let '(db, r) := Redis_Allow env s.1 caller tool upstream roles s.2 in ((s.1, db), r);
|}.

(** ** The factory *)

Inductive SomeLimiter (L : Type) := Local (rl : LocalRateLimiter L) | Shared (rl : RedisRateLimiter).
Arguments Local {L}. Arguments Shared {L}.

(** [NewRateLimiterFromConfig] *)
Definition NewRateLimiterFromConfig {L} `{TokenBucket L} (ping : bool) (cfg : Config) : option (SomeLimiter L) :=
  if bool_decide (RateLimitBackend cfg = "redis") then Shared <$> NewRedisRateLimiter ping cfg
  else Some (Local (NewLocalRateLimiter cfg)).

(** ** Properties of the window *)

(** A check of one key: the gateway's clock, the server's, the random text. *)
Record check_at := At { at_now : Z; at_srv : Z; at_random : string }.

Section window.
Variables (key : string) (limit win_s : Z).
Abbreviation win := (win_s * 1000000).

(** A sequence of checks of the key; [acc] lists the admitted ones, the most
    recent first. *)
Fixpoint run_checks (cs : list check_at) (db : Redis) (acc : list check_at) : Redis * list check_at :=
  match cs with
  | [] => (db, acc)
  | c :: cs =>
      let '(db, (ok, _)) := slidingWindowScript (at_srv c) (at_random c) key limit win (at_now c) db in
      run_checks cs db (if ok =? 1 then c :: acc else acc)
  end.

Definition at_member (c : check_at) : string := member (at_now c) (at_random c).
Definition in_window (t : Z) (c : check_at) : Prop := t - win < at_now c ∧ at_now c ≤ t.
#[global] Instance in_window_dec t c : Decision (in_window t c) := _.
Definition recent (t : Z) (c : check_at) : Prop := t - win < at_now c.
#[global] Instance recent_dec t c : Decision (recent t c) := Z_lt_dec _ _.

(** The reference: a log of admissions; a check is admitted when fewer than
    the limit lie in the window that ends at it. *)
Fixpoint sliding_log (cs acc : list check_at) : list check_at :=
  match cs with
  | [] => acc
  | c :: cs =>
      sliding_log cs (if Z.of_nat (length (filter (recent (at_now c)) acc)) <? limit then c :: acc else acc)
  end.

(** The state after checks up to gateway time [T], [acc] admitted: the set
    holds the recent admissions and only admissions, and the key outlives
    them. [off] bounds the difference of the clocks. *)
Record window_inv (off T : Z) (db : Redis) (acc : list check_at) : Prop := {
  wi_past : Forall (λ c, 0 ≤ at_now c ≤ T) acc;
  wi_distinct : NoDup (at_member <$> acc);
  wi_present : ∀ c, c ∈ acc → recent T c → ∃ z, db !! key = Some z ∧ members z !! at_member c = Some (at_now c);
  wi_only : ∀ z m s, db !! key = Some z → members z !! m = Some s → ∃ c, c ∈ acc ∧ at_member c = m ∧ at_now c = s;
  wi_expiry : ∀ z e c, db !! key = Some z → expires z = Some e → c ∈ acc → off + at_now c + win + 1000000 ≤ e;
}.

Lemma window_inv_empty off : window_inv off 0 ∅ [].
Proof. split; try constructor; try done; intros; set_solver. Qed.

Definition live_recent (srv now : Z) (db : Redis) : gmap string Z := zremrangebyscore (now - win) (live srv db key).

(** After the script's clean-up the set is exactly the recent admissions. *)
Lemma live_recent_spec off T db acc now srv m s :
  window_inv off T db acc → T ≤ now → srv ≤ now + off + 1000000 →
  live_recent srv now db !! m = Some s ↔ ∃ c, c ∈ acc ∧ recent now c ∧ at_member c = m ∧ at_now c = s.
Proof.
  intros Hi HT Hs. unfold live_recent, zremrangebyscore. rewrite map_lookup_filter_Some. simpl. split.
  - intros [Hl Hr]. unfold live in Hl. destruct (db !! key) as [z|] eqn:Hz; [|done].
    assert (members z !! m = Some s) as Hm by (repeat case_match; done).
    destruct (wi_only _ _ _ _ Hi z m s Hz Hm) as (c & Hc & <- & <-). exists c. split_and!; try done.
    pose proof (wi_past _ _ _ _ Hi) as Hp. rewrite Forall_forall in Hp. specialize (Hp c Hc). unfold recent. lia.
  - intros (c & Hc & Hr & <- & <-). unfold recent in Hr. split; [|lia].
    destruct (wi_present _ _ _ _ Hi c Hc) as (z & Hz & Hm); [unfold recent; lia|].
    unfold live. rewrite Hz. destruct (expires z) as [e|] eqn:Ee; [|done].
    pose proof (wi_expiry _ _ _ _ Hi z e c Hz Ee Hc). destruct (Z.leb_spec e srv); [lia|done].
Qed.

Lemma live_recent_size off T db acc now srv :
  window_inv off T db acc → T ≤ now → srv ≤ now + off + 1000000 →
  size (live_recent srv now db) = length (filter (recent now) acc).
Proof.
  intros Hi HT Hs. rewrite <- (size_dom (D:=gset string)), <- (length_fmap at_member (filter _ acc)).
  rewrite <- (size_list_to_set (C:=gset string)).
  - f_equal. apply leibniz_equiv. intros x. rewrite elem_of_dom, elem_of_list_to_set, list_elem_of_fmap. split.
    + intros [s (c & ? & ? & <- & <-)%(live_recent_spec off T db acc now srv)]; try done.
      exists c. split; [done|]. by apply list_elem_of_filter.
    + intros (c & -> & [Hr Hc]%list_elem_of_filter). exists (at_now c).
      apply (live_recent_spec off T db acc); eauto.
  - eapply sublist_NoDup; [exact (wi_distinct _ _ _ _ Hi)|].
    clear. induction acc as [|c acc IH]; [done|]. rewrite filter_cons. case_decide; csimpl; by constructor.
Qed.

Lemma script_step off T db acc c db' ok n :
  window_inv off T db acc → T ≤ at_now c → 0 ≤ at_now c → off ≤ at_srv c - at_now c ≤ off + 1000000 →
  at_member c ∉ at_member <$> acc →
  slidingWindowScript (at_srv c) (at_random c) key limit win (at_now c) db = (db', (ok, n)) →
  (ok =? 1) = (Z.of_nat (length (filter (recent (at_now c)) acc)) <? limit) ∧
  window_inv off (at_now c) db' (if ok =? 1 then c :: acc else acc).
Proof.
  intros Hi HT H0 Hoff Hfresh. unfold slidingWindowScript. fold (live_recent (at_srv c) (at_now c) db).
  fold (at_member c).
  pose proof (λ m s, live_recent_spec off T db acc (at_now c) (at_srv c) m s Hi HT ltac:(lia)) as Hspec.
  rewrite (live_recent_size off T db acc) by (done || lia).
  assert (Forall (λ c', 0 ≤ at_now c' ≤ at_now c) acc) as Hpast.
  { eapply Forall_impl; [exact (wi_past _ _ _ _ Hi)|]. simpl. lia. }
  destruct (Z.ltb_spec (Z.of_nat (length (filter (recent (at_now c)) acc))) limit) as [Hlt|Hge];
    intros Heq; simplify_eq; (split; [done|]); simpl.
  - split.
    + constructor; [lia|done].
    + csimpl. constructor; [done|exact (wi_distinct _ _ _ _ Hi)].
    + intros c' Hc' Hr. rewrite lookup_insert_eq. eexists; split; [done|]. simpl.
      apply elem_of_cons in Hc' as [->|Hc']; [by rewrite lookup_insert_eq|].
      rewrite lookup_insert_ne by (intros Heq; apply Hfresh; rewrite Heq; by apply list_elem_of_fmap_2).
      apply Hspec; eauto.
    + intros z m s. rewrite lookup_insert_eq. intros [= <-]. simpl. intros Hm.
      destruct (decide (m = at_member c)) as [->|Hne].
      * rewrite lookup_insert_eq in Hm. simplify_eq. exists c. split; [left|done].
      * rewrite lookup_insert_ne in Hm by done. apply Hspec in Hm as (c' & ? & ? & ? & ?). exists c'. split; [by right|done].
    + intros z e c'. rewrite lookup_insert_eq. intros [= <-]. simpl. intros [= <-] Hc'.
      replace (- (- win / 1000000)) with win_s by (rewrite <- Z.mul_opp_l, Z.div_mul by lia; lia).
      apply elem_of_cons in Hc' as [->|Hc']; [lia|]. rewrite Forall_forall in Hpast. specialize (Hpast c' Hc'). lia.
  - split; [done|exact (wi_distinct _ _ _ _ Hi)|..].
    + intros c' Hc' Hr. assert (live_recent (at_srv c) (at_now c) db !! at_member c' = Some (at_now c')) as Hin
        by (apply Hspec; eauto).
      rewrite bool_decide_eq_false_2 by (intros Hx; by rewrite Hx in Hin).
      rewrite lookup_insert_eq. eauto.
    + intros z m s. case_bool_decide as Hemp; [by rewrite lookup_delete_eq|]. rewrite lookup_insert_eq.
      intros [= <-]. simpl. intros (c' & ? & ? & ? & ?)%Hspec. eauto.
    + intros z e c'. case_bool_decide as Hemp; [by rewrite lookup_delete_eq|]. rewrite lookup_insert_eq.
      intros [= <-]. simpl. destruct (db !! key) as [z|] eqn:Hz; [|done]. intros He Hc'.
      by eapply (wi_expiry _ _ _ _ Hi).
Qed.

(** Checks as a group of gateways makes them: in the order of their clocks,
    which are within a second of the server's up to a constant, with distinct
    members. *)
Record checks_ok (off : Z) (cs : list check_at) : Prop := {
  co_sorted : StronglySorted Z.le (at_now <$> cs);
  co_clocks : Forall (λ c, 0 ≤ at_now c ∧ off ≤ at_srv c - at_now c ≤ off + 1000000) cs;
  co_distinct : NoDup (at_member <$> cs);
}.

Lemma run_checks_log off T cs db acc :
  window_inv off T db acc → checks_ok off cs → Forall (λ c, T ≤ at_now c) cs →
  (∀ c, c ∈ cs → at_member c ∉ at_member <$> acc) →
  (run_checks cs db acc).2 = sliding_log cs acc.
Proof.
  revert T db acc. induction cs as [|c cs IH]; intros T db acc Hi [Hs Hc Hd] HT Hf; [done|]. cbn [run_checks sliding_log].
  csimpl in Hs. csimpl in Hd. inv Hs. inv Hc. inv Hd. inv HT. rename select (_ ∧ _) into Hck. destruct Hck as [? ?].
  destruct (slidingWindowScript _ _ _ _ _ _ _) as [db' [ok n]] eqn:Es.
  destruct (script_step off T db acc c db' ok n) as [Hok Hi']; try done; [by apply Hf; left|].
  rewrite <- Hok. eapply IH; [done|by split| |].
  - rename select (Forall (Z.le (at_now c)) _) into Hle. by rewrite Forall_fmap in Hle.
  - intros c' Hc'. destruct (ok =? 1); [csimpl; rewrite not_elem_of_cons; split|]; [|by apply Hf; right..].
    intros Heq. rename select (at_member c ∉ _) into Hn. apply Hn. rewrite <- Heq. by apply list_elem_of_fmap_2.
Qed.

Lemma filter_length_impl {A} (P Q : A → Prop) `{∀ x, Decision (P x), ∀ x, Decision (Q x)} (l : list A) :
  (∀ x, P x → Q x) → (length (filter P l) ≤ length (filter Q l))%nat.
Proof.
  intros HPQ. induction l as [|x l IH]; [done|]. rewrite !filter_cons.
  destruct (decide (P x)), (decide (Q x)); simpl; try lia. naive_solver.
Qed.

Lemma sliding_log_limit cs acc :
  (∀ t, Z.of_nat (length (filter (in_window t) acc)) ≤ Z.max 0 limit) →
  ∀ t, Z.of_nat (length (filter (in_window t) (sliding_log cs acc))) ≤ Z.max 0 limit.
Proof.
  revert acc. induction cs as [|c cs IH]; intros acc Hacc; [done|]. cbn [sliding_log]. apply IH.
  destruct (Z.ltb_spec (Z.of_nat (length (filter (recent (at_now c)) acc))) limit) as [Hlt|]; [|done].
  intros t. rewrite filter_cons. destruct (decide (in_window t c)) as [[H1 H2]|]; [|by apply Hacc].
  assert (length (filter (in_window t) acc) ≤ length (filter (recent (at_now c)) acc))%nat.
  { apply filter_length_impl. unfold in_window, recent. intros. lia. }
  simpl. lia.
Qed.

Lemma script_log off cs : checks_ok off cs → (run_checks cs ∅ []).2 = sliding_log cs [].
Proof.
  intros Hc. eapply run_checks_log; [apply window_inv_empty|done| |set_solver].
  eapply Forall_impl; [exact (co_clocks _ _ Hc)|]. simpl. lia.
Qed.

(** C13: for checks that reach the server in the order of the gateways' clocks,
    whose offsets from the server's vary by at most a second, and with distinct
    members, the script admits exactly the checks that a log of past admissions would: those for which
    fewer than the limit were admitted in the window that ends at the check. Under
    these conditions the clean-up and the expiry of the key never lose an admission
    that still counts. *)
Theorem script_is_sliding_log off cs : checks_ok off cs → (run_checks cs ∅ []).2 = sliding_log cs [].
Proof. apply script_log. Qed.

(** With distinct members, no window of the configured length, wherever it
    lies, contains more admitted requests than the limit. *)
Theorem window_respected off cs t :
  checks_ok off cs → Z.of_nat (length (filter (in_window t) (run_checks cs ∅ []).2)) ≤ Z.max 0 limit.
Proof. intros Hc. rewrite (script_log off) by done. apply sliding_log_limit. simpl. lia. Qed.
End window.

Definition burst_checks : list check_at :=
  [At 1712345678000000 1712345678000000 "0.1"; At 1712345678000500 1712345678000500 "0.2";
   At 1712345678000900 1712345678000900 "0.3"; At 1712345679000000 1712345679000000 "0.4"].

Lemma burst_checks_ok : checks_ok 0 burst_checks.
Proof.
  split.
  - repeat constructor; simpl; lia.
  - repeat constructor; simpl; lia.
  - apply (bool_decide_unpack _). vm_compute. exact I.
Qed.

Lemma script_is_sliding_log_witness :
  (run_checks "k" 2 1 burst_checks ∅ []).2 = sliding_log 2 1 burst_checks [] ∧
  length (sliding_log 2 1 burst_checks []) = 3%nat.
Proof.
  split; [apply (script_is_sliding_log "k" 2 1 0 burst_checks), burst_checks_ok|vm_compute; reflexivity].
Defined.

Lemma window_respected_witness :
  Z.of_nat (length (filter (in_window 1 1712345678001000) (run_checks "k" 2 1 burst_checks ∅ []).2)) ≤ Z.max 0 2.
Proof. apply (window_respected "k" 2 1 0 burst_checks), burst_checks_ok. Defined.

(** *** Members that coincide *)

Lemma live_same_member key m srv db :
  (∀ z, db !! key = Some z → dom (members z) ⊆ ({[m]} : gset string)) → dom (live srv db key) ⊆ ({[m]} : gset string).
Proof. intros Hz. unfold live. repeat case_match; try (rewrite dom_empty_L; set_solver); by apply Hz. Qed.

Lemma script_same_member key limit win_s m db c :
  2 ≤ limit → at_member c = m →
  (∀ z, db !! key = Some z → dom (members z) ⊆ ({[m]} : gset string)) →
  ∃ db' n, slidingWindowScript (at_srv c) (at_random c) key limit (win_s * 1000000) (at_now c) db = (db', (1, n)) ∧
    ∀ z, db' !! key = Some z → dom (members z) ⊆ ({[m]} : gset string).
Proof.
  intros Hlim Hm Hdb. unfold slidingWindowScript. fold (at_member c).
  set (s := zremrangebyscore _ _).
  assert (dom s ⊆ ({[m]} : gset string)) as Hs.
  { etransitivity; [apply dom_filter_subseteq|]. by apply live_same_member. }
  assert (size s ≤ 1)%nat.
  { rewrite <- (size_dom (D:=gset string)). etransitivity; [by apply subseteq_size|]. by rewrite size_singleton. }
  rewrite (proj2 (Z.ltb_lt _ _)) by lia. eexists _, _. split; [done|].
  intros z. rewrite lookup_insert_eq. intros [= <-]. simpl. rewrite dom_insert_L. set_solver.
Qed.

(** Requests whose members coincide are counted as one: whatever the limit
    (of two or more) and however many such requests there are, all of them are
    admitted. Members coincide for requests within 100 microseconds: Lua prints
    the clock with fourteen digits, and the server restarts the random sequence
    with every run of a script. *)
Theorem same_member_all_admitted key limit win_s m cs :
  2 ≤ limit → Forall (λ c, at_member c = m) cs →
  length (run_checks key limit win_s cs ∅ []).2 = length cs.
Proof.
  intros Hlim Hcs.
  enough (∀ db acc, (∀ z, db !! key = Some z → dom (members z) ⊆ ({[m]} : gset string)) →
    length (run_checks key limit win_s cs db acc).2 = (length cs + length acc)%nat) as Hgen.
  { rewrite Hgen; [simpl; lia|]. intros z. by rewrite lookup_empty. }
  induction Hcs as [|c cs Hc _ IH]; intros db acc Hdb; [done|]. cbn [run_checks].
  destruct (script_same_member key limit win_s m db c Hlim Hc Hdb) as (db' & n & -> & Hdb').
  rewrite IH by done. simpl. lia.
Qed.

(** Five requests in eighty microseconds, with a limit of two per second. *)
Definition hasty_checks : list check_at :=
  (λ i, At (1712345678901200 + i) (1712345678901200 + i) "0.17082803611217") <$> [0; 20; 30; 40; 45].

Lemma same_member_all_admitted_witness : length (run_checks "k" 2 1 hasty_checks ∅ []).2 = 5%nat.
Proof.
  apply (same_member_all_admitted "k" 2 1 "1.7123456789012e+15:0.17082803611217" hasty_checks); [lia|].
  repeat constructor; vm_compute; reflexivity.
Defined.

(** ** Properties of the limiter *)

(** A level that applies was refused, or its script ran and admitted. *)
Definition level_admits (env : RedisEnv) (lv : Level) (key : string) (limit : option RateLimit) (db : Redis) : Prop :=
  match limit with
  | None => True
  | Some l =>
      failed (check_env env lv) = None ∧
      (slidingWindowScript (srv_now (check_env env lv)) (random_text (check_env env lv)) key (count l)
        (window l * 1000000) (nowMicro env) db).2.1 = 1
  end.

Lemma redis_level_admits env applies lv key limit s s' :
  redis_level env applies lv key limit s = s' → s'.2 = None →
  s.2 = None ∧ (applies = true → level_admits env lv key limit s.1.1).
Proof.
  destruct s as [[db sn] dn]. unfold redis_level, level_admits. intros <- Hd.
  destruct applies, dn as [d|]; simpl in *; try done.
  destruct limit as [l|]; [|done]. unfold checkLimitWithInfo in *.
  destruct (slidingWindowScript _ _ _ _ _ _ _) as [db' [ok n]]. simpl.
  destruct (failed (check_env env lv)) as [ran|]; simpl in *; [done|].
  split; [done|]. intros _. split; [done|]. destruct (Z.eqb_spec ok 1); by simplify_eq.
Qed.

Definition denied (r : option RateLimitResult) : option Level := r ≫= Denial.

Lemma redis_level_snapshot env applies lv key limit s :
  (s.2 ≠ None → s.1.2 ≠ []) →
  (redis_level env applies lv key limit s).2 ≠ None → (redis_level env applies lv key limit s).1.2 ≠ [].
Proof.
  destruct s as [[db sn] dn]. unfold redis_level. intros Hs. destruct (applies && _); [|done].
  destruct limit as [l|]; [|done]. destruct (checkLimitWithInfo _ _ _ _ _) as [db' cr]. simpl. intros _ ?%app_nil. naive_solver.
Qed.

Lemma denied_levels env rl caller tool upstream roles db :
  denied (Redis_Allow env rl caller tool upstream roles db).2 = (redis_levels env rl caller tool upstream roles db).2.
Proof.
  unfold Redis_Allow.
  assert ((redis_levels env rl caller tool upstream roles db).2 ≠ None →
          (redis_levels env rl caller tool upstream roles db).1.2 ≠ []) as Hs.
  { unfold redis_levels. cbv zeta. by do 3 apply redis_level_snapshot. }
  destruct (redis_levels _ _ _ _ _ _ _) as [[db' sn] dn]. simpl in *.
  destruct sn; [|done]. destruct dn; [naive_solver|done].
Qed.

(** The limiter fails closed: a request of a named caller for a tool of an
    upstream is let through only if, at each level that has a limit, the server
    answered and its script admitted the request. *)
Theorem redis_fails_closed env rl caller tool upstream roles db :
  denied (Redis_Allow env rl caller tool upstream roles db).2 = None →
  (caller ≠ "" → level_admits env CallerLevel (callerKey rl caller) (effectiveCallerLimit rl roles) db) ∧
  (caller ≠ "" → tool ≠ "" → ∃ db1, level_admits env ToolLevel (toolKey rl caller tool) (effectiveToolLimit rl roles) db1) ∧
  (upstream ≠ "" → ∃ db2, level_admits env UpstreamLevel (upstreamKey rl upstream) (upstreamLimit rl upstream) db2).
Proof.
  rewrite denied_levels. unfold redis_levels. cbv zeta. intros Hd.
  apply (redis_level_admits _ _ _ _ _ _ _ eq_refl) in Hd as [Hd Hu].
  apply (redis_level_admits _ _ _ _ _ _ _ eq_refl) in Hd as [Hd Ht].
  apply (redis_level_admits _ _ _ _ _ _ _ eq_refl) in Hd as [_ Hc].
  split_and!.
  - intros Hn. apply Hc. by rewrite bool_decide_eq_false_2.
  - intros Hn Hn'. eexists. apply Ht. by rewrite !bool_decide_eq_false_2.
  - intros Hn. eexists. apply Hu. by rewrite bool_decide_eq_false_2.
Qed.

Definition shared_config : Config :=
  MkConfig (MkServer ":8080" 0 "" (MkDatabase "" "") 0 None 0) []
    [MkRole "trial" ["*"] ∅ (Some (MkRateLimit Float64.one 1 1 1)) None]
    (MkRLDefaults "redis" (Some (MkRedis "redis:6379" "" 0 "stile:"))
       (Some (MkRateLimit (Float64.of_Z 10) 10 10 1)) None None)
    (MkLogging "info" "json") (MkAudit false "" "") (MkTraces false "" Float64.zero)
    (MkHealthConfig "local" 0 "healthy" None) None [].

Definition shared_limiter : RedisRateLimiter :=
  default (MkRedisRL "" None None None ∅ ∅ ∅) (NewRedisRateLimiter true shared_config).

Definition quiet_env : RedisEnv := MkRedisEnv 1712345678901200 0 (λ _, MkCheckEnv 0 "0.1" None).

Lemma redis_fails_closed_witness :
  level_admits quiet_env CallerLevel (callerKey shared_limiter "ann") (effectiveCallerLimit shared_limiter ["trial"]) ∅.
Proof.
  apply (redis_fails_closed quiet_env shared_limiter "ann" "search" "api" ["trial"] ∅); [|done].
  vm_compute. reflexivity.
Defined.

(** ** The two backends *)

Lemma role_map_fmap {A} (sel : RoleConfig → option RateLimit) (f : RateLimit → A) rs n :
  role_map sel f rs !! n = f <$> role_map sel id rs !! n.
Proof.
  unfold role_map. enough (∀ (m1 : gmap string A) (m2 : gmap string RateLimit), (∀ n, m1 !! n = f <$> m2 !! n) →
    foldl (λ m r, match sel r with Some l => <[role_name r := f l]> m | None => m end) m1 rs !! n =
    f <$> foldl (λ m r, match sel r with Some l => <[role_name r := id l]> m | None => m end) m2 rs !! n) as Hgen.
  { apply Hgen. intros k. by rewrite !lookup_empty. }
  induction rs as [|r rs IH]; intros m1 m2 Hm; simpl; [done|]. apply IH. intros k.
  destruct (sel r) as [l|]; [|done].
  destruct (decide (role_name r = k)) as [<-|]; rewrite ?lookup_insert_eq, ?lookup_insert_ne by done; done.
Qed.

(** A role limit below the default caller limit takes effect only with the
    Redis backend: the in-memory limiter registers the caller with the default
    limit, while the shared limiter applies the role's. *)
Theorem backends_disagree {L} `{TokenBucket L} cfg rl caller role d l :
  NewRedisRateLimiter true cfg = Some rl →
  defaultCaller (rateLimitDefaults cfg) = Some d →
  role_map role_rateLimit id (roles cfg) !! role = Some l →
  Float64.eqb (rate d) Inf = false → Float64.ltb (rate d) (rate l) = false →
  caller_limit caller (registerCallerLocked caller [role] (NewLocalRateLimiter (L:=L) cfg)) = (rate d, burst d) ∧
  effectiveCallerLimit rl [role] = Some l.
Proof.
  intros Hrl Hd Hl Hinf Hlt. split.
  - rewrite registered_limit by apply lookup_empty. simpl.
    by rewrite (role_map_fmap _ rate), Hl, Hd; simpl; rewrite Hinf, Hlt.
  - unfold NewRedisRateLimiter in Hrl. destruct (rl_redis _); simplify_eq/=.
    unfold effectiveCallerLimit, best_role_limit. simpl. by rewrite Hl.
Qed.

(** A bucket for the statement below; its behaviour plays no part. *)
#[local] Instance open_bucket : TokenBucket unit :=
  {| NewLimiter _ _ := tt; AllowAt _ l := (l, true); TokensAt _ _ := Float64.zero; BurstOf _ := 0; LimitOf _ := Inf |}.

Lemma backends_disagree_witness :
  caller_limit "ann" (registerCallerLocked "ann" ["trial"] (NewLocalRateLimiter (L:=unit) shared_config)) =
    (Float64.of_Z 10, 10) ∧
  effectiveCallerLimit shared_limiter ["trial"] = Some (MkRateLimit Float64.one 1 1 1).
Proof.
  apply (backends_disagree shared_config shared_limiter "ann" "trial"
    (MkRateLimit (Float64.of_Z 10) 10 10 1) (MkRateLimit Float64.one 1 1 1)); vm_compute; reflexivity.
Defined.
