(* ===== verification/Router.v ===== *)
(** * Routing of tools to upstreams ([internal/router/router.go])

    [RouteTable] holds the upstreams with their tools and the table from tool
    names to routes. A pointer to an [Upstream] is its [uid]; [next_uid] stands
    for the allocator. The mutex protects only the second half of a refresh:
    discovery talks to the transports without it. The operations are therefore
    given both as whole functions and, for the invariant, as a step relation at
    the granularity of the lock. *)

From stdpp Require Import relations.
From S2P Require Import Prelude GoLib Json JsonRpc Transport ConfigData Config ConfigProps.
Import GoStr.

(** ** Data *)

Record Route := MkRoute { Tool : ToolSchema; RouteUpstream : nat; OriginalName : string }.

Record Upstream (T : Type) := MkUp {
  uid : nat;
  up_name : string;
  up_transport : T;
  up_tools : list ToolSchema;
  PrefixedTools : list ToolSchema;
  Prefix : string;
  Stale : bool;
  LastRefresh : Z;
}.
Arguments MkUp {T}. Arguments uid {T}. Arguments up_name {T}. Arguments up_transport {T}. Arguments up_tools {T}.
Arguments PrefixedTools {T}. Arguments Prefix {T}. Arguments Stale {T}. Arguments LastRefresh {T}.

Record UpstreamStatus := MkStatus { status_tools : nat; status_stale : bool }.

Record RefreshResult := MkRefresh { RefreshUpstreams : gmap string UpstreamStatus; TotalTools : nat }.

Record RouteTable (T : Type) := MkTable {
  entries : gmap string Route;
  rt_upstreams : list (Upstream T);
  next_uid : nat;
  refresh_metrics : list (string * bool);   (* upstream, success *)
}.
Arguments MkTable {T}. Arguments entries {T}. Arguments rt_upstreams {T}. Arguments next_uid {T}.
Arguments refresh_metrics {T}.

(** ** Prefixes *)

(** [for _, r := range name]: one output byte per code point; an invalid byte
    counts as one. *)
Fixpoint sanitize (fuel : nat) (name : string) : string :=
  match fuel, name with
  | S fuel, String c rest =>
      if prefix_char c then String c (sanitize fuel rest)
      else match utf8_len name with
           | Some n => String "_" (sanitize fuel (String.substring n (String.length name - n) name))
           | None => String "_" (sanitize fuel rest)
           end
  | _, _ => ""
  end.

Definition sanitizePrefix (name : string) : string := sanitize (String.length name) name.

Definition resolvePrefix (cfg : UpstreamConfig) : string :=
  match ToolPrefix cfg with
  | None => sanitizePrefix (UpstreamName cfg)
  | Some p => p
  end.

Definition applyPrefix (prefix name : string) : string :=
  if bool_decide (prefix = "") then name else prefix +:+ "__" +:+ name.

(** ** Discovery *)

(** [json.Unmarshal] of one element of the tools array. *)
Definition decodeTool (j : json) : option ToolSchema :=
  match j with
  | JNull => Some (MkTool "" "" None ∅)
  | JObj l =>
      name ← decode_all as_string "" (field_values "name" l);
      desc ← decode_all as_string "" (field_values "description" l);
      ann ← decode_all (λ m v, match v with
                               | JObj kvs => Some (obj_map kvs ∪ m)
                               | JNull => Some ∅
                               | _ => None end) ∅ (field_values "annotations" l);
      Some (MkTool name desc (last (field_values "inputSchema" l)) ann)
  | _ => None
  end.

(** The [result] of tools/list; a repeated member is decoded again. *)
Definition decodeTools (j : json) : option (list ToolSchema) :=
  match j with
  | JNull => Some []
  | JObj l => decode_all (λ _ v, as_array v ≫= mapM decodeTool) [] (field_values "tools" l)
  | _ => None
  end.

Definition initReq : Request :=
  MkRequest Version "initialize"
    (Some (JObj [("protocolVersion", JStr "2025-11-25"); ("capabilities", JObj []);
                 ("clientInfo", JObj [("name", JStr "stile"); ("version", JStr "0.1.0")])]))
    (Some (IntID 0)).
Definition initializedNotification : Request := MkRequest Version "notifications/initialized" None None.
Definition listReq : Request := MkRequest Version "tools/list" None (Some (IntID 1)).

Section router.
Context {T : Type} `{Transport T}.
Implicit Types (rt : RouteTable T) (u : Upstream T).

Definition discoverTools (ctx : Context) (t : T) : T * result error (list ToolSchema) :=
  let t :=
    match Send ctx t initReq with
    | (t, Err _) => t
    | (t, Ok initResp) =>
        match RError initResp with
        | Some _ => t
        | None => (Send ctx t initializedNotification).1
        end
    end in
  match Send ctx t listReq with
  | (t, Err e) => (t, Err (PlainError ("tools/list request: " +:+ error_string e)))
  | (t, Ok resp) =>
      (t, match RError resp with
          | Some e => Err (PlainError ("tools/list error: " +:+ Message e))
          | None =>
              match Result resp ≫= decodeTools with
              | Some tools => Ok tools
              | None => Err (PlainError "parse tools/list result")
              end
          end)
  end.

(** ** The table *)

Definition prefixedTool (name prefix : string) (tool : ToolSchema) : ToolSchema :=
  let ann := {["x-stile-upstream" := JStr name]} in
  MkTool (applyPrefix prefix (ToolName tool)) (Description tool) (InputSchema tool)
    (if bool_decide (prefix = "") then ann else <["x-stile-original-name" := JStr (ToolName tool)]> ann).

(** The inner loop: [prefixed] is [u.PrefixedTools] so far. *)
Fixpoint rebuild_tools (id : nat) (name prefix : string) (tools : list ToolSchema)
    (es : gmap string Route) (prefixed : list ToolSchema) : gmap string Route * list ToolSchema :=
  match tools with
  | [] => (es, prefixed)
  | tool :: tools =>
      let p := prefixedTool name prefix tool in
      match es !! ToolName p with
      | Some _ => rebuild_tools id name prefix tools es prefixed
      | None =>
          rebuild_tools id name prefix tools
            (<[ToolName p := MkRoute p id (ToolName tool)]> es) (prefixed ++ [p])
      end
  end.

Definition set_prefixed u (ps : list ToolSchema) : Upstream T :=
  MkUp (uid u) (up_name u) (up_transport u) (up_tools u) ps (Prefix u) (Stale u) (LastRefresh u).

Fixpoint rebuild_upstreams (us : list (Upstream T)) (es : gmap string Route) :
    gmap string Route * list (Upstream T) :=
  match us with
  | [] => (es, [])
  | u :: us =>
      let '(es, ps) := rebuild_tools (uid u) (up_name u) (Prefix u) (up_tools u) es [] in
      let '(es, us) := rebuild_upstreams us es in
      (es, set_prefixed u ps :: us)
  end.

Definition rebuildEntriesLocked rt : RouteTable T :=
  let '(es, us) := rebuild_upstreams (rt_upstreams rt) ∅ in
  MkTable es us (next_uid rt) (refresh_metrics rt).

Definition Resolve rt (toolName : string) : option Route := entries rt !! toolName.

Definition ListTools rt : list ToolSchema := rt_upstreams rt ≫= PrefixedTools.

Definition Upstreams rt : list string := up_name <$> rt_upstreams rt.

Definition UpstreamDetails rt : list (Upstream T) := rt_upstreams rt.

(** ** Refreshing *)

(** The first half of [Refresh]: no lock is held. *)
Fixpoint discover_all (ctx : Context) (us : list (Upstream T)) :
    list (Upstream T) * list (nat * result error (list ToolSchema)) * list (string * bool) :=
  match us with
  | [] => ([], [], [])
  | u :: us =>
      let '(t, r) := discoverTools ctx (up_transport u) in
      let u := MkUp (uid u) (up_name u) t (up_tools u) (PrefixedTools u) (Prefix u) (Stale u) (LastRefresh u) in
      let '(us, rs, log) := discover_all ctx us in
      (u :: us, (uid u, r) :: rs, (up_name u, is_ok r) :: log)
  end.

(** What is assigned to the upstream that a result belongs to. *)
Definition apply_result (now : Z) (r : result error (list ToolSchema)) u : Upstream T :=
  match r with
  | Err _ => MkUp (uid u) (up_name u) (up_transport u) (up_tools u) (PrefixedTools u) (Prefix u) true (LastRefresh u)
  | Ok tools => MkUp (uid u) (up_name u) (up_transport u) tools (PrefixedTools u) (Prefix u) false now
  end.

Definition assign (now : Z) (us : list (Upstream T)) (d : nat * result error (list ToolSchema)) : list (Upstream T) :=
  (λ u, if bool_decide (uid u = d.1) then apply_result now d.2 u else u) <$> us.

(** The second half, under the lock. *)
Definition commit_refresh (now : Z) (results : list (nat * result error (list ToolSchema))) rt : RouteTable T :=
  rebuildEntriesLocked
    (MkTable (entries rt) (foldl (assign now) (rt_upstreams rt) results) (next_uid rt) (refresh_metrics rt)).

Definition refresh_status rt : RefreshResult :=
  MkRefresh (foldl (λ m u, <[up_name u := MkStatus (length (up_tools u)) (Stale u)]> m) ∅ (rt_upstreams rt))
    (size (entries rt)).

Definition Refresh (ctx : Context) (now : Z) rt : RouteTable T * RefreshResult :=
  let '(us, rs, log) := discover_all ctx (rt_upstreams rt) in
  let rt := commit_refresh now rs (MkTable (entries rt) us (next_uid rt) (refresh_metrics rt ++ log)) in
  (rt, refresh_status rt).

Definition set_transport (id : nat) (t : T) (us : list (Upstream T)) : list (Upstream T) :=
  (λ u, if bool_decide (uid u = id)
        then MkUp (uid u) (up_name u) t (up_tools u) (PrefixedTools u) (Prefix u) (Stale u) (LastRefresh u)
        else u) <$> us.

(** The locked half of [RefreshUpstream]: the table is rebuilt on success
    only. *)
Definition commit_one (now : Z) (id : nat) (r : result error (list ToolSchema)) rt : RouteTable T :=
  let rt := MkTable (entries rt) (assign now (rt_upstreams rt) (id, r)) (next_uid rt) (refresh_metrics rt) in
  match r with Err _ => rt | Ok _ => rebuildEntriesLocked rt end.

Definition RefreshUpstream (ctx : Context) (now : Z) (name : string) rt : RouteTable T * option error :=
  match List.find (λ u, bool_decide (up_name u = name)) (rt_upstreams rt) with
  | None => (rt, Some (PlainError ("unknown upstream " +:+ name)))
  | Some target =>
      let '(t, r) := discoverTools ctx (up_transport target) in
      let rt := MkTable (entries rt) (set_transport (uid target) t (rt_upstreams rt)) (next_uid rt) (refresh_metrics rt) in
      (commit_one now (uid target) r rt, match r with Err e => Some e | Ok _ => None end)
  end.

(** The locked part of [AddUpstream]. *)
Definition append_upstream (name : string) (t : T) rt : RouteTable T :=
  MkTable (entries rt) (rt_upstreams rt ++ [MkUp (next_uid rt) name t [] [] name false 0])
    (S (next_uid rt)) (refresh_metrics rt).

Definition AddUpstream (now : Z) (name : string) (t : T) rt : RouteTable T :=
  (RefreshUpstream Background now name (append_upstream name t rt)).1.

(** [RemoveUpstream]; the removed upstream's closed transport is dropped. *)
Fixpoint remove_first (name : string) (us : list (Upstream T)) : list (Upstream T) :=
  match us with
  | [] => []
  | u :: us => if bool_decide (up_name u = name) then us else u :: remove_first name us
  end.

Definition RemoveUpstream (name : string) rt : RouteTable T :=
  rebuildEntriesLocked
    (MkTable (entries rt) (remove_first name (rt_upstreams rt)) (next_uid rt) (refresh_metrics rt)).

(** [RouteTable.Close], after the background goroutine has stopped. *)
Definition CloseRouter rt : RouteTable T :=
  MkTable (entries rt)
    ((λ u, MkUp (uid u) (up_name u) (CloseTransport (up_transport u)) (up_tools u) (PrefixedTools u)
             (Prefix u) (Stale u) (LastRefresh u)) <$> rt_upstreams rt)
    (next_uid rt) (refresh_metrics rt).

(** The loop of [New]; upstreams without a transport are skipped. *)
Fixpoint new_upstreams (transports : gmap string T) (configs : list UpstreamConfig) (id : nat) : list (Upstream T) :=
  match configs with
  | [] => []
  | cfg :: configs =>
      match transports !! UpstreamName cfg with
      | None => new_upstreams transports configs id
      | Some t =>
          MkUp id (UpstreamName cfg) t [] [] (resolvePrefix cfg) false 0 :: new_upstreams transports configs (S id)
      end
  end.

Definition initial_table (transports : gmap string T) (configs : list UpstreamConfig) : RouteTable T :=
  let us := new_upstreams transports configs 0 in MkTable ∅ us (length us) [].

Definition New (transports : gmap string T) (configs : list UpstreamConfig) (now : Z) : RouteTable T :=
  (Refresh Background now (initial_table transports configs)).1.
End router.

(** ** Specification of the table *)

Section spec.
Context {T : Type}.
Implicit Types (u : Upstream T) (us : list (Upstream T)) (es : gmap string Route).

(** The route an upstream offers for each of its tools, in order. *)
Definition offers u : list Route :=
  (λ tool, MkRoute (prefixedTool (up_name u) (Prefix u) tool) (uid u) (ToolName tool)) <$> up_tools u.
Definition all_offers us : list Route := us ≫= offers.

Definition route_name (r : Route) : string := ToolName (Tool r).

(** The first offer for a name wins. *)
Definition first_offer (rs : list Route) (n : string) : option Route := head (filter (λ r, route_name r = n) rs).

(** Offers that are entered into a table, and the table they make. *)
Fixpoint accepted es (rs : list Route) : list Route :=
  match rs with
  | [] => []
  | r :: rs =>
      match es !! route_name r with
      | Some _ => accepted es rs
      | None => r :: accepted (<[route_name r := r]> es) rs
      end
  end.

Definition enter es (rs : list Route) : gmap string Route := foldl (λ es r, <[route_name r := r]> es) es rs.

Lemma lookup_enter_accepted es rs n :
  enter es (accepted es rs) !! n = match es !! n with Some r => Some r | None => first_offer rs n end.
Proof.
  revert es. induction rs as [|r rs IH]; intros es; simpl.
  { by destruct (es !! n). }
  unfold first_offer in *. rewrite filter_cons.
  destruct (es !! route_name r) as [r'|] eqn:Er; simpl.
  - rewrite IH. destruct (es !! n) eqn:En; [done|]. rewrite decide_False by congruence. done.
  - rewrite IH. destruct (decide (route_name r = n)) as [<-|Hne].
    + by rewrite lookup_insert_eq, Er.
    + by rewrite lookup_insert_ne.
Qed.

Lemma accepted_spec es rs :
  NoDup (route_name <$> accepted es rs) ∧ Forall (λ r, es !! route_name r = None) (accepted es rs).
Proof.
  revert es. induction rs as [|r rs IH]; intros es; simpl; [by split; constructor|].
  destruct (es !! route_name r) eqn:Er; [apply IH|].
  destruct (IH (<[route_name r := r]> es)) as [Hnd Hf]. csimpl. split.
  - constructor; [|done]. intros (r' & Heq & Hin)%list_elem_of_fmap.
    rewrite Forall_forall in Hf. specialize (Hf r' Hin). by rewrite <- Heq, lookup_insert_eq in Hf.
  - constructor; [done|]. eapply Forall_impl; [exact Hf|]. simpl. intros r' Hr'.
    destruct (decide (route_name r = route_name r')) as [Heq|Hne].
    + by rewrite <- Heq, lookup_insert_eq in Hr'.
    + by rewrite lookup_insert_ne in Hr'.
Qed.

Lemma lookup_enter es rs r :
  NoDup (route_name <$> rs) → r ∈ rs → enter es rs !! route_name r = Some r.
Proof.
  revert es. induction rs as [|r' rs IH]; intros es Hnd Hr; [set_solver|]. csimpl in Hnd. inv Hnd. simpl.
  apply elem_of_cons in Hr as [->|Hr]; [|by apply IH].
  clear IH. rename select (route_name r' ∉ _) into Hn. revert Hn.
  induction rs as [|r rs IH] using rev_ind; intros Hn; simpl; [by rewrite lookup_insert_eq|].
  unfold enter in *. rewrite foldl_app. simpl. rewrite fmap_app in *.
  rewrite lookup_insert_ne by (intros Heq; apply Hn; rewrite <- Heq; set_solver).
  apply IH; [|set_solver]. rename select (NoDup (_ ++ _)) into Hnd'. by apply NoDup_app in Hnd' as [? _].
Qed.

Lemma lookup_enter_inv es rs n r :
  enter es rs !! n = Some r → es !! n = Some r ∨ r ∈ rs ∧ route_name r = n.
Proof.
  revert es. induction rs as [|r' rs IH]; intros es; simpl; [by left|].
  intros [Hl|[? ?]]%IH; [|right; set_solver].
  destruct (decide (route_name r' = n)) as [<-|Hne].
  - rewrite lookup_insert_eq in Hl. simplify_eq. right. set_solver.
  - rewrite lookup_insert_ne in Hl by done. by left.
Qed.

Lemma enter_app es rs1 rs2 : enter es (rs1 ++ rs2) = enter (enter es rs1) rs2.
Proof. apply foldl_app. Qed.

Lemma accepted_app es rs1 rs2 :
  accepted es (rs1 ++ rs2) = accepted es rs1 ++ accepted (enter es (accepted es rs1)) rs2.
Proof.
  revert es. induction rs1 as [|r rs1 IH]; intros es; simpl; [done|].
  destruct (es !! route_name r); simpl; by rewrite IH.
Qed.

(** The two loops compute the accepted offers. *)
Lemma rebuild_tools_spec id name prefix tools es ps :
  let rs := (λ tool, MkRoute (prefixedTool name prefix tool) id (ToolName tool)) <$> tools in
  rebuild_tools id name prefix tools es ps = (enter es (accepted es rs), ps ++ (Tool <$> accepted es rs)).
Proof.
  revert es ps. induction tools as [|tool tools IH]; intros es ps; [simpl; by rewrite app_nil_r|].
  cbn [rebuild_tools fmap list_fmap accepted].
  change (route_name _) with (ToolName (prefixedTool name prefix tool)).
  destruct (es !! ToolName (prefixedTool name prefix tool)); [apply IH|].
  specialize (IH (<[ToolName (prefixedTool name prefix tool) :=
    MkRoute (prefixedTool name prefix tool) id (ToolName tool)]> es)).
  cbv zeta in IH. rewrite IH. csimpl. by rewrite <- app_assoc.
Qed.

Lemma rebuild_upstreams_spec us es :
  let '(es', us') := rebuild_upstreams us es in
  es' = enter es (accepted es (all_offers us)) ∧
  us' ≫= PrefixedTools = Tool <$> accepted es (all_offers us) ∧
  all_offers us' = all_offers us ∧ uid <$> us' = uid <$> us ∧
  ∀ u p, u ∈ us' → p ∈ PrefixedTools u → ∃ r, r ∈ accepted es (all_offers us) ∧ Tool r = p ∧ RouteUpstream r = uid u.
Proof.
  revert es. induction us as [|u us IH]; intros es; simpl; [by split_and!; try done; set_solver|].
  rewrite rebuild_tools_spec. simpl. fold (offers u).
  specialize (IH (enter es (accepted es (offers u)))).
  destruct (rebuild_upstreams us _) as [es' us']. destruct IH as (-> & Hl & Ho & Hu & Hp).
  change (all_offers (u :: us)) with (offers u ++ all_offers us). rewrite accepted_app, enter_app. split_and!.
  - done.
  - csimpl. by rewrite Hl, fmap_app.
  - unfold all_offers in *. csimpl. by rewrite Ho.
  - csimpl. by rewrite Hu.
  - intros u' p [->|Hin]%elem_of_cons Hps; simpl in *.
    + apply list_elem_of_fmap in Hps as (r & -> & Hr). exists r. split_and!; [set_solver|done|].
      assert (r ∈ offers u) as Hof.
      { clear -Hr. revert Hr. generalize es. induction (offers u) as [|r' rs IH]; intros es'; simpl; [done|].
        destruct (es' !! route_name r'); set_solver. }
      by apply list_elem_of_fmap in Hof as (tool & -> & _).
    + destruct (Hp u' p Hin Hps) as (r & ? & ? & ?). exists r. split_and!; try done. set_solver.
Qed.
End spec.

(** ** Invariant and steps *)

Section invariant.
Context {T : Type} `{Transport T}.
Implicit Types (rt : RouteTable T) (u : Upstream T) (us : list (Upstream T)) (transports : gmap string T).

(** The table is what the tools of the upstreams, in order, make of it. *)
Record synced rt : Prop := {
  sy_entries : entries rt = enter ∅ (accepted ∅ (all_offers (rt_upstreams rt)));
  sy_listed : ListTools rt = Tool <$> accepted ∅ (all_offers (rt_upstreams rt));
  sy_owner : ∀ u p, u ∈ rt_upstreams rt → p ∈ PrefixedTools u →
    ∃ r, r ∈ accepted ∅ (all_offers (rt_upstreams rt)) ∧ Tool r = p ∧ RouteUpstream r = uid u;
  sy_uids : NoDup (uid <$> rt_upstreams rt);
  sy_next : Forall (λ i, (i < next_uid rt)%nat) (uid <$> rt_upstreams rt);
}.

(** One critical section, or an unlocked change to the transports. *)
Inductive step : RouteTable T → RouteTable T → Prop :=
| step_transports rt us' log :
    Forall2 (λ u u', u' = MkUp (uid u) (up_name u) (up_transport u') (up_tools u) (PrefixedTools u)
                            (Prefix u) (Stale u) (LastRefresh u)) (rt_upstreams rt) us' →
    step rt (MkTable (entries rt) us' (next_uid rt) log)
| step_commit rt now results : step rt (commit_refresh now results rt)
| step_commit_one rt now id r : step rt (commit_one now id r rt)
| step_append rt name t : step rt (append_upstream name t rt)
| step_remove rt name : step rt (RemoveUpstream name rt).

(** What the invariant reads of an upstream. *)
Definition tool_part u := (uid u, up_name u, up_tools u, PrefixedTools u, Prefix u).

Lemma tool_part_inv u u' :
  tool_part u' = tool_part u →
  uid u' = uid u ∧ offers u' = offers u ∧ PrefixedTools u' = PrefixedTools u.
Proof. unfold tool_part, offers. intros Heq. injection Heq as -> -> -> -> ->. done. Qed.

Lemma synced_same_tools rt us' log :
  Forall2 (λ u u', tool_part u' = tool_part u) (rt_upstreams rt) us' → synced rt →
  synced (MkTable (entries rt) us' (next_uid rt) log).
Proof.
  intros Heq [He Hl Ho Hu Hn].
  assert (all_offers us' = all_offers (rt_upstreams rt) ∧ uid <$> us' = uid <$> rt_upstreams rt ∧
    us' ≫= PrefixedTools = rt_upstreams rt ≫= PrefixedTools) as (Hoff & Huid & Hps).
  { clear -Heq. induction Heq as [|u u' us us' (Hu & Ho & Hp)%tool_part_inv _ (IH1 & IH2 & IH3)]; [done|].
    unfold all_offers in *. csimpl. split_and!; congruence. }
  split; simpl; rewrite ?Hoff; try done.
  - unfold ListTools. simpl. by rewrite Hps.
  - intros u' p Hu' Hp. apply list_elem_of_lookup in Hu' as [i Hi].
    destruct (Forall2_lookup_r _ _ _ _ _ Heq Hi) as (u & Hui & (Hid & _ & Hpt)%tool_part_inv).
    rewrite Hid. apply Ho; [by eapply list_elem_of_lookup_2|congruence].
  - by rewrite Huid.
  - by rewrite Huid.
Qed.

Lemma synced_rebuild rt :
  NoDup (uid <$> rt_upstreams rt) → Forall (λ i, (i < next_uid rt)%nat) (uid <$> rt_upstreams rt) →
  synced (rebuildEntriesLocked rt).
Proof.
  intros Hu Hn. unfold rebuildEntriesLocked. pose proof (rebuild_upstreams_spec (rt_upstreams rt) ∅) as Hs.
  destruct (rebuild_upstreams (rt_upstreams rt) ∅) as [es us']. destruct Hs as (-> & Hl & Ho & Hid & Hp).
  split; simpl; rewrite ?Ho; try done; by rewrite Hid.
Qed.

Lemma apply_result_uid now r u : uid (apply_result now r u) = uid u.
Proof. by destruct r. Qed.

Lemma assign_uids now us d : uid <$> assign now us d = uid <$> us.
Proof.
  unfold assign. rewrite <- list_fmap_compose. apply list_fmap_ext. intros _ u _. simpl.
  case_bool_decide; [apply apply_result_uid|done].
Qed.

Lemma assign_all_uids now us ds : uid <$> foldl (assign now) us ds = uid <$> us.
Proof. revert us. induction ds as [|d ds IH]; intros us; simpl; [done|]. by rewrite IH, assign_uids. Qed.

Lemma remove_first_sublist name us : remove_first name us `sublist_of` us.
Proof.
  induction us as [|u us IH]; simpl; [done|]. case_bool_decide; [by apply sublist_cons|by apply sublist_skip].
Qed.

Lemma synced_commit now results rt : synced rt → synced (commit_refresh now results rt).
Proof.
  intros [_ _ _ Hu Hn]. apply synced_rebuild; simpl; by rewrite assign_all_uids.
Qed.

Lemma synced_commit_one now id r rt : synced rt → synced (commit_one now id r rt).
Proof.
  intros Hs. unfold commit_one. destruct r as [tools|e].
  - destruct Hs as [_ _ _ Hu Hn]. apply synced_rebuild; simpl; by rewrite assign_uids.
  - apply synced_same_tools; [|done]. unfold assign. clear. induction (rt_upstreams rt); constructor; [|done].
    by case_bool_decide.
Qed.

Lemma synced_append name t rt : synced rt → synced (append_upstream name t rt).
Proof.
  intros [He Hl Ho Hu Hn]. unfold append_upstream.
  assert (all_offers (rt_upstreams rt ++ [MkUp (next_uid rt) name t [] [] name false 0]) = all_offers (rt_upstreams rt)) as Hoff.
  { unfold all_offers. rewrite bind_app. csimpl. by rewrite app_nil_r. }
  split; simpl; rewrite ?Hoff; try done.
  - rewrite <- Hl. unfold ListTools. simpl. rewrite bind_app. csimpl. by rewrite app_nil_r.
  - intros u p [Hin|Hin]%elem_of_app; [by apply Ho|]. apply list_elem_of_singleton in Hin as ->. simpl. set_solver.
  - rewrite fmap_app. apply NoDup_app. split_and!; [done| |apply NoDup_singleton].
    intros x Hx Hx'. apply list_elem_of_singleton in Hx' as ->. simpl in Hx. rewrite Forall_forall in Hn. specialize (Hn _ Hx). lia.
  - rewrite fmap_app. apply Forall_app. split; [eapply Forall_impl; [done|]; simpl; lia|].
    constructor; [simpl; lia|constructor].
Qed.

Lemma synced_remove name rt : synced rt → synced (RemoveUpstream name rt).
Proof.
  intros [_ _ _ Hu Hn].
  assert ((uid <$> remove_first name (rt_upstreams rt)) `sublist_of` (uid <$> rt_upstreams rt)) as Hs.
  { clear. induction (rt_upstreams rt) as [|u us IH]; simpl; [done|]. csimpl.
    case_bool_decide; [by apply sublist_cons|by apply sublist_skip]. }
  apply synced_rebuild; simpl; [by eapply sublist_NoDup|rewrite Forall_forall in *; intros x Hx; apply Hn; by eapply elem_of_sublist].
Qed.

Lemma step_synced rt rt' : step rt rt' → synced rt → synced rt'.
Proof.
  destruct 1; intros Hs.
  - apply synced_same_tools; [|done]. eapply Forall2_impl; [done|]. simpl. by intros u u' ->.
  - by apply synced_commit.
  - by apply synced_commit_one.
  - by apply synced_append.
  - by apply synced_remove.
Qed.

Lemma steps_synced rt rt' : rtc step rt rt' → synced rt → synced rt'.
Proof. induction 1; eauto using step_synced. Qed.

Lemma new_upstreams_uids transports configs id :
  uid <$> new_upstreams transports configs id = seq id (length (new_upstreams transports configs id)).
Proof.
  revert id. induction configs as [|cfg configs IH]; intros id; simpl; [done|].
  destruct (transports !! UpstreamName cfg); [|apply IH]. csimpl. by rewrite IH.
Qed.

Lemma synced_initial transports configs : synced (initial_table transports configs).
Proof.
  assert (all_offers (new_upstreams transports configs 0) = [] ∧
    (new_upstreams transports configs 0) ≫= PrefixedTools = [] ∧
    Forall (λ u, PrefixedTools u = []) (new_upstreams transports configs 0)) as (Ho & Hp & Hf).
  { generalize 0%nat. induction configs as [|cfg configs IH]; intros id; simpl; [done|].
    destruct (transports !! UpstreamName cfg); [|apply IH]. destruct (IH (S id)) as (H1 & H2 & H3).
    unfold all_offers in *. csimpl. rewrite H1, H2. by split_and!; try constructor. }
  unfold initial_table. split; simpl; rewrite ?Ho; try done.
  - intros u p Hu Hin. rewrite Forall_forall in Hf. rewrite (Hf u Hu) in Hin. set_solver.
  - rewrite new_upstreams_uids. apply NoDup_seq.
  - rewrite new_upstreams_uids. apply Forall_forall. intros x Hx%elem_of_seq. lia.
Qed.

(** ** The operations are sequences of steps *)

Lemma discover_all_transports ctx us us' rs log :
  discover_all ctx us = (us', rs, log) →
  Forall2 (λ u u', u' = MkUp (uid u) (up_name u) (up_transport u') (up_tools u) (PrefixedTools u)
                          (Prefix u) (Stale u) (LastRefresh u)) us us' ∧
  rs = (λ u, (uid u, (discoverTools ctx (up_transport u)).2)) <$> us.
Proof.
  revert us' rs log. induction us as [|u us IH]; intros us' rs log; simpl; [intros; simplify_eq; by split|].
  destruct (discoverTools ctx (up_transport u)) as [t r] eqn:Ed.
  destruct (discover_all ctx us) as [[us1 rs1] log1] eqn:Ea. intros; simplify_eq.
  destruct (IH _ _ _ eq_refl) as [IH1 ->]. cbn [fmap list_fmap]. split; [by constructor|done].
Qed.

Lemma Refresh_steps ctx now rt : rtc step rt (Refresh ctx now rt).1.
Proof.
  unfold Refresh. destruct (discover_all ctx (rt_upstreams rt)) as [[us rs] log] eqn:Ed.
  apply discover_all_transports in Ed as [Hf _].
  eapply rtc_l; [by apply (step_transports rt us)|]. apply rtc_once, step_commit.
Qed.

Lemma RefreshUpstream_steps ctx now name rt : rtc step rt (RefreshUpstream ctx now name rt).1.
Proof.
  unfold RefreshUpstream. destruct (List.find _ _) as [target|]; [|done].
  destruct (discoverTools ctx (up_transport target)) as [t r].
  eapply rtc_l; [apply (step_transports rt (set_transport (uid target) t (rt_upstreams rt)) (refresh_metrics rt))|].
  - unfold set_transport. clear. induction (rt_upstreams rt) as [|[] us IH]; constructor; [|done].
    by case_bool_decide.
  - apply rtc_once, step_commit_one.
Qed.

Lemma AddUpstream_steps now name t rt : rtc step rt (AddUpstream now name t rt).
Proof. eapply rtc_l; [apply step_append|]. apply RefreshUpstream_steps. Qed.

(** A table that the gateway can have: created by [New], then changed by any
    interleaving of refreshes, additions and removals. *)
Definition reachable transports configs rt : Prop := rtc step (initial_table transports configs) rt.

(** The operations of the table compose of its critical sections: after
    [New], a full refresh, the refresh of one upstream, an addition and a
    removal, the table is one that the step relation reaches. *)
Theorem operations_reachable transports configs ctx now name t rt :
  reachable transports configs (New transports configs now) ∧
  (reachable transports configs rt →
    reachable transports configs (Refresh ctx now rt).1 ∧
    reachable transports configs (RefreshUpstream ctx now name rt).1 ∧
    reachable transports configs (AddUpstream now name t rt) ∧
    reachable transports configs (RemoveUpstream name rt)).
Proof.
  unfold reachable. split; [apply Refresh_steps|]. intros Hr. split_and!; (etransitivity; [exact Hr|]).
  - apply Refresh_steps.
  - apply RefreshUpstream_steps.
  - apply AddUpstream_steps.
  - apply rtc_once, step_remove.
Qed.

Lemma reachable_synced transports configs rt : reachable transports configs rt → synced rt.
Proof. intros Hr. eapply steps_synced; [done|]. apply synced_initial. Qed.

Lemma synced_resolve rt n : synced rt → Resolve rt n = first_offer (all_offers (rt_upstreams rt)) n.
Proof. intros Hs. unfold Resolve. rewrite (sy_entries _ Hs), lookup_enter_accepted. by rewrite lookup_empty. Qed.

(** C6: in every reachable table a tool name resolves to the first upstream,
    in configuration order, that offers it under its prefix, and to nothing
    if no upstream does. *)
Theorem resolve_first_upstream transports configs rt n :
  reachable transports configs rt → Resolve rt n = first_offer (all_offers (rt_upstreams rt)) n.
Proof. intros Hr. by eapply synced_resolve, reachable_synced. Qed.

Lemma first_offer_inv rs n r : first_offer rs n = Some r → r ∈ rs ∧ route_name r = n.
Proof.
  unfold first_offer. intros [? ?]%head_Some_elem_of%list_elem_of_filter. done.
Qed.

Lemma synced_route rt n r :
  synced rt → Resolve rt n = Some r →
  ∃ u tool, u ∈ rt_upstreams rt ∧ uid u = RouteUpstream r ∧ tool ∈ up_tools u ∧
    OriginalName r = ToolName tool ∧ n = applyPrefix (Prefix u) (OriginalName r) ∧
    Tool r = prefixedTool (up_name u) (Prefix u) tool.
Proof.
  intros Hr Hn. rewrite synced_resolve in Hn by done.
  apply first_offer_inv in Hn as [Hin <-].
  apply list_elem_of_bind in Hin as (u & Hoff & Hu).
  apply list_elem_of_fmap in Hoff as (tool & -> & Htool). by exists u, tool.
Qed.

(** What is listed is what the table holds. *)
Lemma synced_listed rt t :
  synced rt → t ∈ ListTools rt ↔ ∃ r, Resolve rt (ToolName t) = Some r ∧ Tool r = t.
Proof.
  intros Hs. destruct (accepted_spec ∅ (all_offers (rt_upstreams rt))) as [Hnd _].
  unfold Resolve. rewrite (sy_listed _ Hs), (sy_entries _ Hs), list_elem_of_fmap. split.
  - intros (r & -> & Hr). exists r. split; [by apply (lookup_enter ∅ _ r)|done].
  - intros (r & [Hl|[Hr _]]%lookup_enter_inv & <-); [by rewrite lookup_empty in Hl|eauto].
Qed.

(** In every reachable table a route is sound: it leads to an upstream of
    the table, under the name that upstream gave to the tool, and the name it
    is found under is the upstream's prefix applied to that name. *)
Theorem resolve_sound transports configs rt n r :
  reachable transports configs rt → Resolve rt n = Some r →
  ∃ u tool, u ∈ rt_upstreams rt ∧ uid u = RouteUpstream r ∧ tool ∈ up_tools u ∧
    OriginalName r = ToolName tool ∧ n = applyPrefix (Prefix u) (OriginalName r) ∧
    Tool r = prefixedTool (up_name u) (Prefix u) tool.
Proof. intros Hr%reachable_synced. by apply synced_route. Qed.

(** The listing and the table agree in every reachable state: no name is
    listed twice, a name is listed exactly when it resolves, and what an
    upstream lists resolves to that very tool of that very upstream. *)
Theorem listing_agrees transports configs rt :
  reachable transports configs rt →
  NoDup (ToolName <$> ListTools rt) ∧
  (∀ n, n ∈ ToolName <$> ListTools rt ↔ is_Some (Resolve rt n)) ∧
  ∀ u p, u ∈ rt_upstreams rt → p ∈ PrefixedTools u →
    ∃ r, Resolve rt (ToolName p) = Some r ∧ Tool r = p ∧ RouteUpstream r = uid u.
Proof.
  intros Hs%reachable_synced. destruct (accepted_spec ∅ (all_offers (rt_upstreams rt))) as [Hnd _].
  assert (ToolName <$> ListTools rt = route_name <$> accepted ∅ (all_offers (rt_upstreams rt))) as Hnames.
  { rewrite (sy_listed _ Hs), <- list_fmap_compose. done. }
  rewrite Hnames. unfold Resolve. rewrite (sy_entries _ Hs). split_and!; [done| |].
  - intros n. split.
    + intros (r & -> & Hr)%list_elem_of_fmap. eexists. by apply lookup_enter.
    + intros [r [Hl|[Hr <-]]%lookup_enter_inv]; [by rewrite lookup_empty in Hl|]. by apply list_elem_of_fmap_2.
  - intros u p Hu Hp. destruct (sy_owner _ Hs u p Hu Hp) as (r & Hr & <- & Hid).
    exists r. split_and!; [|done|done]. by apply (lookup_enter ∅ _ r).
Qed.

(** ** Failures *)

Lemma foldl_assign now ds u us :
  NoDup ds.*1 → u ∈ us →
  (∃ r, (uid u, r) ∈ ds ∧ apply_result now r u ∈ foldl (assign now) us ds) ∨
  (uid u ∉ ds.*1 ∧ u ∈ foldl (assign now) us ds).
Proof.
  revert u us. induction ds as [|[i r] ds IH]; intros u us Hnd Hu; [right; split; [set_solver|done]|].
  csimpl in Hnd. inv Hnd. simpl.
  destruct (decide (uid u = i)) as [<-|Hne].
  - left. exists r. split; [left|].
    destruct (IH (apply_result now r u) (assign now us (uid u, r))) as [(r' & Hin & _)|[_ Hin]]; [done| | |done].
    + unfold assign. apply list_elem_of_fmap. exists u. split; [|done]. by rewrite bool_decide_eq_true_2.
    + rewrite apply_result_uid in Hin. rename select (uid u ∉ _) into Hn. destruct Hn.
      by apply (list_elem_of_fmap_2 fst) in Hin.
  - destruct (IH u (assign now us (i, r))) as [(r' & Hin & Hx)|[Hn Hx]]; [done| | |].
    + unfold assign. apply list_elem_of_fmap. exists u. split; [|done]. by rewrite bool_decide_eq_false_2.
    + left. exists r'. split; [by right|done].
    + right. split; [|done]. csimpl. set_solver.
Qed.

Lemma rebuild_upstreams_keep us es u :
  u ∈ us → ∃ ps, set_prefixed u ps ∈ (rebuild_upstreams us es).2.
Proof.
  revert es. induction us as [|u' us IH]; intros es Hu; [set_solver|]. simpl.
  destruct (rebuild_tools _ _ _ _ _ _) as [es1 ps1]. destruct (rebuild_upstreams us es1) as [es2 us2] eqn:Er.
  simpl. apply elem_of_cons in Hu as [->|Hu]; [exists ps1; left|].
  destruct (IH es1 Hu) as [ps Hps]. rewrite Er in Hps. exists ps. by right.
Qed.

(** A refresh treats every upstream on its own: one whose discovery fails
    is marked stale and keeps the tools it had, so that they stay routable; one
    whose discovery succeeds gets the discovered tools and is no longer
    stale. *)
Theorem refresh_keeps_stale_tools transports configs ctx now rt u :
  reachable transports configs rt → u ∈ rt_upstreams rt →
  ∃ u', u' ∈ rt_upstreams (Refresh ctx now rt).1 ∧ uid u' = uid u ∧ Prefix u' = Prefix u ∧
    match (discoverTools ctx (up_transport u)).2 with
    | Err _ => up_tools u' = up_tools u ∧ Stale u' = true ∧ LastRefresh u' = LastRefresh u
    | Ok tools => up_tools u' = tools ∧ Stale u' = false ∧ LastRefresh u' = now
    end.
Proof.
  intros Hs%reachable_synced Hu. unfold Refresh.
  destruct (discover_all ctx (rt_upstreams rt)) as [[us rs] log] eqn:Ed.
  apply discover_all_transports in Ed as [Hf ->]. simpl.
  apply list_elem_of_lookup in Hu as [i Hi]. destruct (Forall2_lookup_l _ _ _ _ _ Hf Hi) as (u1 & Hu1 & Heq).
  set (ds := (λ u, (uid u, (discoverTools ctx (up_transport u)).2)) <$> rt_upstreams rt).
  assert (ds.*1 = uid <$> rt_upstreams rt) as Hds by (unfold ds; by rewrite <- list_fmap_compose).
  assert ((uid u, (discoverTools ctx (up_transport u)).2) ∈ ds) as Hin.
  { unfold ds. apply list_elem_of_fmap. exists u. split; [done|]. by eapply list_elem_of_lookup_2. }
  destruct (foldl_assign now ds u1 us) as [(r & Hr & Hx)|[Hn _]]; [rewrite Hds; exact (sy_uids _ Hs)|by eapply list_elem_of_lookup_2| |].
  - assert (uid u1 = uid u) as Hid by by rewrite Heq.
    assert (r = (discoverTools ctx (up_transport u)).2) as ->.
    { rewrite Hid in Hr. eapply NoDup_keys_inj; [|exact Hr|exact Hin]. rewrite Hds. exact (sy_uids _ Hs). }
    destruct (rebuild_upstreams_keep (foldl (assign now) us ds) ∅ _ Hx) as [ps Hps].
    eexists. split; [unfold commit_refresh, rebuildEntriesLocked; simpl; destruct (rebuild_upstreams _ _); exact Hps|].
    rewrite Heq. by destruct (discoverTools ctx (up_transport u)).2.
  - destruct Hn. rewrite Heq. simpl. by apply (list_elem_of_fmap_2 fst) in Hin.
Qed.
End invariant.

(** ** Prefixes *)

Lemma sanitize_chars fuel name : all_bytes prefix_char (sanitize fuel name) = true.
Proof.
  revert name. induction fuel as [|fuel IH]; intros [|c rest]; try done. cbn [sanitize].
  destruct (prefix_char c) eqn:Ec; cbn [all_bytes]; [rewrite Ec; apply IH|].
  destruct (utf8_len (String c rest)); apply IH.
Qed.

Lemma sanitizePrefix_pattern name : name ≠ "" → toolPrefixPattern (sanitizePrefix name) = true.
Proof.
  intros Hn. unfold toolPrefixPattern, sanitizePrefix. apply andb_true_iff. split; [|apply sanitize_chars].
  rewrite bool_decide_eq_false_2; [done|]. destruct name as [|c rest]; [done|]. cbn [String.length sanitize].
  destruct (prefix_char c); [done|]. by destruct (utf8_len (String c rest)).
Qed.

Lemma applyPrefix_inj prefix n1 n2 : applyPrefix prefix n1 = applyPrefix prefix n2 → n1 = n2.
Proof.
  unfold applyPrefix. case_bool_decide; [done|]. clear.
  induction prefix as [|c p IH]; [by str_simpl; intros [= ->]|]. rewrite !str_app_cons. intros [= ?]. auto.
Qed.

(** For an upstream of a valid configuration the prefix in force is either
    empty (prefixing switched off) or made of letters, digits and underscores,
    and distinct tools of the upstream get distinct names. *)
Theorem prefix_valid `{Float64.GoPlatform} cfg n1 n2 :
  upstream_valid cfg →
  (resolvePrefix cfg = "" ∨ toolPrefixPattern (resolvePrefix cfg) = true) ∧
  (n1 ≠ n2 → applyPrefix (resolvePrefix cfg) n1 ≠ applyPrefix (resolvePrefix cfg) n2).
Proof.
  intros Hv. split; [|by intros Hne Heq%applyPrefix_inj].
  unfold resolvePrefix. pose proof (uv_prefix _ Hv) as Hp. destruct (ToolPrefix cfg) as [p|]; [done|].
  right. apply sanitizePrefix_pattern, Hv.
Qed.

(** ** A table on concrete inputs *)

#[local] Existing Instance scripted.

Definition sample_upstream (name : string) : UpstreamConfig :=
  HTTPUpstream (MkHTTPUpstream name "http://x" None None [] None None 1 None None).

Lemma prefix_valid_witness :
  (resolvePrefix (sample_upstream "my-svc") = "" ∨ toolPrefixPattern (resolvePrefix (sample_upstream "my-svc")) = true) ∧
  ("a" ≠ "b" → applyPrefix (resolvePrefix (sample_upstream "my-svc")) "a" ≠
               applyPrefix (resolvePrefix (sample_upstream "my-svc")) "b").
Proof. apply (@prefix_valid Float64.amd64 (sample_upstream "my-svc")). split; done. Defined.

(** An upstream that is added later is not given the same prefix as one of the
    same name in the configuration. *)
Example added_upstream_prefix :
  resolvePrefix (sample_upstream "my-svc") = "my_svc" ∧
  (Prefix <$> rt_upstreams (AddUpstream 0 "my-svc" [] (initial_table ∅ []))) = ["my-svc"].
Proof. split; vm_compute; reflexivity. Qed.

Definition offer (names : list string) : json :=
  JObj [("tools", JArr ((λ n, JObj [("name", JStr n)]) <$> names))].

Definition two_transports : gmap string script :=
  <["a" := [reply JNull; reply JNull; reply (offer ["x"; "y"; "x"])]]>
    {["b" := [Err (ConnectError "down"); reply (offer ["x"])]]}.

Definition two_upstreams : list UpstreamConfig := [sample_upstream "a"; sample_upstream "b"].

Definition two_table : RouteTable script := New two_transports two_upstreams 7.

Example two_table_names :
  ToolName <$> ListTools two_table = ["a__x"; "a__y"; "b__x"] ∧
  OriginalName <$> Resolve two_table "b__x" = Some "x" ∧ Resolve two_table "x" = None.
Proof. split_and!; vm_compute; reflexivity. Qed.

Lemma two_table_reachable : reachable two_transports two_upstreams two_table.
Proof. apply Refresh_steps. Qed.

Lemma operations_reachable_witness :
  reachable two_transports two_upstreams (RemoveUpstream "a" two_table).
Proof.
  apply (operations_reachable two_transports two_upstreams Background 0 "a" [] two_table), two_table_reachable.
Defined.

Lemma resolve_first_upstream_witness :
  Resolve two_table "a__x" = first_offer (all_offers (rt_upstreams two_table)) "a__x" ∧
  is_Some (Resolve two_table "a__x").
Proof.
  split; [apply (resolve_first_upstream two_transports two_upstreams), two_table_reachable|].
  vm_compute. eexists. reflexivity.
Defined.

Definition b_route : Route := MkRoute (prefixedTool "b" "b" (MkTool "x" "" None ∅)) 1 "x".

Lemma resolve_sound_witness :
  ∃ u tool, u ∈ rt_upstreams two_table ∧ uid u = RouteUpstream b_route ∧ tool ∈ up_tools u ∧
    OriginalName b_route = ToolName tool ∧ "b__x" = applyPrefix (Prefix u) (OriginalName b_route) ∧
    Tool b_route = prefixedTool (up_name u) (Prefix u) tool.
Proof.
  apply (resolve_sound two_transports two_upstreams); [apply two_table_reachable|].
  vm_compute. reflexivity.
Defined.

Lemma listing_agrees_witness :
  NoDup (ToolName <$> ListTools two_table) ∧
  (∀ n, n ∈ ToolName <$> ListTools two_table ↔ is_Some (Resolve two_table n)) ∧
  ∀ u p, u ∈ rt_upstreams two_table → p ∈ PrefixedTools u →
    ∃ r, Resolve two_table (ToolName p) = Some r ∧ Tool r = p ∧ RouteUpstream r = uid u.
Proof. apply (listing_agrees two_transports two_upstreams), two_table_reachable. Defined.

(** The scripts have ended, so every discovery of the next refresh fails. *)
Definition a_upstream : Upstream script :=
  default (MkUp 0 "" [] [] [] "" false 0) (head (rt_upstreams two_table)).

Lemma refresh_keeps_stale_tools_witness :
  ∃ u', u' ∈ rt_upstreams (Refresh Background 9 two_table).1 ∧
    up_tools u' = up_tools a_upstream ∧ Stale u' = true ∧ length (up_tools a_upstream) = 3%nat.
Proof.
  assert (a_upstream ∈ rt_upstreams two_table) as Hu by (apply head_Some_elem_of; vm_compute; reflexivity).
  assert ((discoverTools Background (up_transport a_upstream)).2 =
    Err (PlainError "tools/list request: end of script")) as Hd by (vm_compute; reflexivity).
  destruct (refresh_keeps_stale_tools two_transports two_upstreams Background 9 two_table a_upstream
    two_table_reachable Hu) as (u' & Hin & _ & _ & Hspec).
  rewrite Hd in Hspec. destruct Hspec as (Ht & Hst & _). exists u'. split_and!; try assumption.
  vm_compute. reflexivity.
Defined.
