(* ===== verification/StdioMock.v ===== *)
(** * The stdio server of the tests ([internal/transport/testdata/mock_stdio_server.go])

    A child process, as written: for every line it reads it writes one line. The
    stdio transport of [Stdio] is run against it: what a session of calls gets, and
    what becomes of a notification, which this server answers too. How [%v] prints
    a value that is not a string is a parameter. *)

From S2P Require Import Prelude GoLib Json JsonRpc JsonText Transport ConfigData Stdio Router.
Import GoStr.

Section server.
Variable Sprint : json → string.

Record request := MkStdioRequest { sr_method : string; sr_params : option json; sr_id : option json }.

(** [json.Unmarshal] into a [request]. *)
Definition read_request (j : json) : option request :=
  match j with
  | JNull => Some (MkStdioRequest "" None None)
  | JObj l =>
      _ ← decode_all as_string "" (field_values "jsonrpc" l);
      m ← decode_all as_string "" (field_values "method" l);
      Some (MkStdioRequest m (last (field_values "params" l)) (last (field_values "id" l)))
  | _ => None
  end.

(** The [arguments] of a call, read into a map with the error ignored: several
    objects are merged. *)
Definition read_arguments (params : option json) : gmap string json :=
  match params with
  | Some (JObj l) =>
      foldl (λ m j, match j with
                    | JObj kv => foldl (λ m '(k, v), <[k := v]> m) m kv
                    | JNull => ∅
                    | _ => m
                    end) ∅ (field_values "arguments" l)
  | _ => ∅
  end.

Definition message_text (params : option json) : string :=
  match read_arguments params !! "message" with
  | None => ""
  | Some (JStr s) => s
  | Some v => Sprint v
  end.

Definition any_map (l : list (string * json)) : json := marshal_map (list_to_map l).

(** A [response] struct: a nil result and a nil error are left out, a nil id is
    null. *)
Definition response_json (r : json + (Z * string)) (id : option json) : json :=
  JObj ([("jsonrpc", JStr "2.0")]
    ++ match r with
       | inl result => [("result", result)]
       | inr (code, msg) => [("error", JObj [("code", JNum (Strconv.FormatInt code)); ("message", JStr msg)])]
       end
    ++ [("id", default JNull id)]).

Definition initialize_json : json :=
  any_map [("protocolVersion", JStr "2024-11-05");
           ("serverInfo", any_map [("name", JStr "mock-stdio-server"); ("version", JStr "1.0.0")]);
           ("capabilities", any_map [("tools", any_map [])])].

Definition tools_json : json :=
  any_map [("tools", JArr [JObj [("name", JStr "test_echo"); ("description", JStr "Echoes back the input");
    ("inputSchema", any_map [("type", JStr "object"); ("properties", any_map [("message", any_map [("type", JStr "string")])])])]])].

Definition call_json (text : string) : json :=
  any_map [("content", JArr [any_map [("type", JStr "text"); ("text", JStr text)]])].

(** The switch on the method. *)
Definition respond (req : request) : json + (Z * string) :=
  if bool_decide (sr_method req = "initialize") then inl initialize_json
  else if bool_decide (sr_method req = "tools/list") then inl tools_json
  else if bool_decide (sr_method req = "tools/call") then inl (call_json (message_text (sr_params req)))
  else if bool_decide (sr_method req = "ping") then inl (any_map [])
  else inr (-32601, "method not found: " +:+ sr_method req).

(** The answer to a line, without its newline. *)
Definition serve_line (line : string) : string :=
  match parse line ≫= read_request with
  | None => JsonText.encode (response_json (inr (-32700, "parse error")) None)
  | Some req => JsonText.encode (response_json (respond req) (sr_id req))
  end.

(** ** The transport in front of it *)

(** A child that runs the server and is sent [reqs]: it takes each and writes the
    answer. *)
Definition server_child (reqs : list Request) : child :=
  MkChild (replicate (length reqs) Written) ((λ r, (0, Line (serve_line (JsonText.encode (marshalRequest r))))) <$> reqs) [].

(** The request as the server reads it. *)
Definition as_read (r : Request) : request :=
  MkStdioRequest (Method r) (Params r) (match RequestID r with None => None | id => Some (marshalID id) end).

(** The response that the transport reads. *)
Definition answer_of (r : Request) : Response :=
  match respond (as_read r) with
  | inl result => with_id (MkResponse Version (Some result) None (RequestID r))
  | inr (code, msg) => with_id (MkResponse Version None (Some (MkError code msg None)) (RequestID r))
  end.

Lemma fields_of_request v m p i :
  let l := [("jsonrpc", v); ("method", m)] ++ member "params" p ++ member "id" i in
  field_values "jsonrpc" l = [v] ∧ field_values "method" l = [m] ∧
  field_values "params" l = option_list p ∧ field_values "id" l = option_list i.
Proof. destruct p, i; vm_compute; by split_and!. Qed.

Lemma server_reads r : wire_ok r → parse (JsonText.encode (marshalRequest r)) ≫= read_request = Some (as_read r).
Proof.
  intros Hw. destruct (wire_document r Hw) as (H1 & H2 & H3).
  rewrite parse_encode by (split_and!; [done|done|lia]). cbn [mbind option_bind]. unfold read_request, marshalRequest.
  destruct (fields_of_request (JStr (JSONRPC r)) (JStr (Method r)) (Params r) match RequestID r with None => None | id => Some (marshalID id) end)
    as (-> & -> & -> & ->).
  unfold as_read, decode_all. simpl. by destruct (Params r), (RequestID r).
Qed.

(** What is printed is a document: the message is UTF-8. *)
Definition printable (r : Request) : Prop :=
  valid_utf8 (message_text (Params r)) = true.

Lemma respond_document r : wire_ok r → printable r →
  document (response_json (respond (as_read r)) (sr_id (as_read r))).
Proof.
  intros Hw Hp. assert (document (default JNull (sr_id (as_read r))) ∧ (nesting (default JNull (sr_id (as_read r))) = 0)%N) as [(Hi1 & Hi2 & _) Hi3].
  { destruct Hw as (_ & _ & Hid & _). unfold as_read, document. cbn [sr_id]. destruct (RequestID r) as [[x|n|]|]; [..|done]; cbn [default from_option id];
      unfold marshalID; cbn [numbers_ok strings_ok nesting]; [by rewrite Hid| |done].
    rewrite (bool_decide_eq_true_2 _ (FormatInt_number _)). done. }
  unfold response_json, document. cbn [numbers_ok strings_ok nesting].
  set (i := default JNull (sr_id (as_read r))) in *. clearbody i.
  assert (∀ res, numbers_ok res = true → strings_ok res = true → (nesting res ≤ 10)%N →
    document (JObj ([("jsonrpc", JStr "2.0")] ++ [("result", res)] ++ [("id", i)]))) as Hres.
  { intros res R1 R2 R3. unfold document. cbn [app numbers_ok strings_ok forallb fst snd nesting foldr]. rewrite R1, R2, Hi1, Hi2, Hi3.
    split_and!; [done|done|]. unfold maxNestingDepth. lia. }
  assert (∀ code msg, numbers_ok (JNum (Strconv.FormatInt code)) = true → valid_utf8 msg = true →
    document (JObj ([("jsonrpc", JStr "2.0")] ++ [("error", JObj [("code", JNum (Strconv.FormatInt code)); ("message", JStr msg)])] ++ [("id", i)]))) as Herr.
  { intros code msg Hc Hm. unfold document. cbn [app numbers_ok strings_ok forallb fst snd nesting foldr] in *. rewrite Hc, Hm, Hi1, Hi2, Hi3.
    split_and!; [done|done|]. unfold maxNestingDepth. lia. }
  unfold respond. cbn [sr_method sr_params as_read].
  destruct (bool_decide (Method r = "initialize")); [apply Hres; by vm_compute|].
  destruct (bool_decide (Method r = "tools/list")); [apply Hres; by vm_compute|].
  destruct (bool_decide (Method r = "tools/call")).
  { assert (call_json (message_text (Params r)) = JObj [("content", JArr [JObj [("text", JStr (message_text (Params r))); ("type", JStr "text")]])]) as ->.
    { generalize (message_text (Params r)). by vm_compute. }
    apply Hres; [done| |done]. cbn [strings_ok forallb fst snd]. by rewrite Hp. }
  destruct (bool_decide (Method r = "ping")); [apply Hres; by vm_compute|].
  apply Herr; [apply jint_number|]. rewrite valid_app by done. apply Hw.
Qed.

Lemma unmarshal_shape l i :
  Response_UnmarshalJSON (JObj ([("jsonrpc", JStr "2.0")] ++ l ++ [("id", i)])) =
  (raw ← Some (obj_map ([("jsonrpc", JStr "2.0")] ++ l ++ [("id", i)]));
   version ← match raw !! "jsonrpc" with Some v => as_string "" v | None => Some "" end;
   err ← match raw !! "error" with Some v => Some <$> unmarshalError v | None => Some None end;
   id ← match raw !! "id" with Some v => Some <$> parseID v | None => Some None end;
   Some (MkResponse version (raw !! "result") err id)).
Proof. done. Qed.

Lemma sr_id_parsed r : id_ok (RequestID r) →
  parseID (default JNull (sr_id (as_read r))) = Some match RequestID r with Some i => i | None => NullID end.
Proof. intros Hi. unfold as_read. cbn [sr_id]. destruct (RequestID r) as [i|]; [by apply parseID_marshalID|done]. Qed.

(** The transport reads from the server's line the answer to the request. *)
Lemma line_read r : wire_ok r → printable r →
  serve_line (JsonText.encode (marshalRequest r)) ≠ "" ∧
  parse (serve_line (JsonText.encode (marshalRequest r))) ≫= Response_UnmarshalJSON = Some (answer_of r).
Proof.
  intros Hw Hp. unfold serve_line. rewrite server_reads by done. pose proof (respond_document r Hw Hp) as Hd. split; [done|].
  rewrite parse_encode by done. cbn [mbind option_bind]. unfold answer_of, response_json.
  pose proof (sr_id_parsed r (proj2 (proj2 (proj1 Hw)))) as Hid.
  assert (∀ code msg, respond (as_read r) = inr (code, msg) → code = -32601) as Hcode
    by (unfold respond; intros code msg; repeat case_bool_decide; by intros [= <- <-]).
  revert Hid Hcode. generalize (default JNull (sr_id (as_read r))). intros i Hid Hcode.
  destruct (respond (as_read r)) as [res|[code msg]]; [|rewrite (Hcode code msg eq_refl)]; clear Hcode;
    rewrite unmarshal_shape; cbn [mbind option_bind]; set (m := obj_map _);
    change (m !! "jsonrpc") with (Some (JStr "2.0")); change (m !! "id") with (Some i).
  - change (m !! "error") with (None : option json). change (m !! "result") with (Some res). cbn [as_string mbind option_bind fmap option_fmap option_map].
    by rewrite Hid.
  - change (m !! "error") with (Some (marshalError (MkError (-32601) msg None))).
    change (m !! "result") with (None : option json). cbn [as_string mbind option_bind fmap option_fmap option_map].
    rewrite unmarshalError_marshal by done. cbn [mbind option_bind fmap option_fmap option_map]. by rewrite Hid.
Qed.

(** Calls one after the other. *)
Fixpoint session (reqs : list Request) : M (list (result error TransportResult)) :=
  match reqs with
  | [] => mret []
  | req :: reqs => r ← Stdio_RoundTrip req; rs ← session reqs; mret (r :: rs)
  end.

(** A transport whose child is up. *)
Record up (p : nat) (c : child) (t : StdioTransport) : Prop := {
  up_open : closed t = false;
  up_ok : permanentFail t = false;
  up_started : started t = true;
  up_cmd : cmd t = Some (Some p);
  up_stdin : stdin t = Some p;
  up_stdout : stdout t = Some p;
  up_child : procs (os t) !! p = Some c;
}.

Lemma up_next p c c' t : up p c t → up p c' (ResetBackoff (with_child p c' t)).
Proof. intros []. split; try done. cbn. by rewrite lookup_insert_eq. Qed.

(** A notification is written, and nothing is read. *)
Lemma notification_written req t p ws rs got : up p (MkChild (Written :: ws) rs got) t → IsNotification req = true →
  let c := MkChild ws rs (got ++ [marshalRequest req]) in
  Stdio_RoundTrip req t = (with_child p c t, Val (Ok (JSONResult (MkResponse Version None None None)))) ∧ up p c (with_child p c t).
Proof.
  intros [H1 H2 H3 H4 H5 H6 H7] Hn c. split; [|split; try done; cbn; by rewrite lookup_insert_eq].
  unfold Stdio_RoundTrip, RoundTrip_enter, after_write. rewrite Hn. unfold gets, mbind, M_bind, mret, M_ret.
  rewrite H1, (running_ensured t p _ H2 H3 H4 H7). unfold encode, encode_raw, mbind, M_bind, pipe_write. by rewrite H5, H7.
Qed.

(** A session of calls over stdio with the tests' server: every call gets the
    server's answer to that very request, with its identifier, in order, whatever
    the methods are; nothing is restarted. *)
Theorem stdio_server_session reqs t p got :
  up p (MkChild (replicate (length reqs) Written) (on_scan (server_child reqs)) got) t →
  Forall (λ r, wire_ok r ∧ printable r ∧ IsNotification r = false) reqs →
  ∃ t', session reqs t = (t', Val ((λ r, Ok (JSONResult (answer_of r))) <$> reqs)) ∧
    up p (MkChild [] [] (got ++ (marshalRequest <$> reqs))) t'.
Proof.
  intros Hu Hall. revert t got Hu. induction Hall as [|r reqs (Hw & Hp & Hn) _ IH]; intros t got Hu.
  - exists t. split; [done|]. cbn [length replicate] in Hu. by rewrite app_nil_r.
  - destruct (line_read r Hw Hp) as [Hl Hr]. destruct Hu as [H1 H2 H3 H4 H5 H6 H7].
    pose proof (first_response_answers r t p (replicate (length reqs) Written) [] 0 _ (on_scan (server_child reqs)) got (answer_of r)
      H1 H2 H3 H4 H5 H6 Hn H7 (Forall_nil_2 _) (Nat.lt_0_succ _) Hl Hr) as Hrt.
    destruct (IH _ (got ++ [marshalRequest r]) (up_next p _ (MkChild (replicate (length reqs) Written) (on_scan (server_child reqs)) (got ++ [marshalRequest r])) t
      (Build_up p _ t H1 H2 H3 H4 H5 H6 H7))) as (t' & Hs & Hu').
    exists t'. split; [|by rewrite <- app_assoc in Hu'].
    cbn [session]. unfold mbind, M_bind. rewrite Hrt, Hs. done.
Qed.
End server.

(** The server answers notifications, and the transport does not read these
    answers: in the exchange of the router's discovery the answer to the
    notification is taken for that to tools/list, which fails. *)
Theorem discovery_shifted Sprint t p got :
  let reqs := [initReq; initializedNotification; listReq] in
  up p (MkChild (replicate 3 Written) (on_scan (server_child Sprint reqs)) got) t →
  (session reqs t).2 =
    Val [Ok (JSONResult (answer_of Sprint initReq)); Ok (JSONResult (MkResponse Version None None None));
         Ok (JSONResult (NewErrorResponse (Some NullID) (-32601) "method not found: notifications/initialized"))].
Proof.
  intros reqs [H1 H2 H3 H4 H5 H6 H7]. unfold reqs at 1. cbn [session]. unfold mbind, M_bind.
  set (line r := serve_line Sprint (JsonText.encode (marshalRequest r))).
  change (on_scan (server_child Sprint reqs)) with [(0, Line (line initReq)); (0, Line (line initializedNotification)); (0, Line (line listReq))] in H7.
  destruct (line_read Sprint initReq) as [L1 R1]; [repeat split; vm_compute; done|done|].
  destruct (line_read Sprint initializedNotification) as [L2 R2]; [repeat split; vm_compute; done|done|].
  fold (line initReq) in L1, R1. fold (line initializedNotification) in L2, R2. clearbody line.
  rewrite (first_response_answers initReq t p [Written; Written] [] 0 (line initReq) _ got (answer_of Sprint initReq)
    H1 H2 H3 H4 H5 H6 eq_refl H7 (Forall_nil_2 _) (Nat.lt_0_succ _) L1 R1).
  set (c1 := MkChild [Written; Written] _ _). set (t1 := ResetBackoff _).
  assert (up p c1 t1) as Hu1 by (split; try done; cbn; by rewrite lookup_insert_eq).
  destruct (notification_written initializedNotification t1 p [Written] _ _ Hu1 eq_refl) as [-> Hu2].
  set (c2 := MkChild [Written] _ _) in *. set (t2 := with_child p c2 t1) in *. destruct Hu2 as [K1 K2 K3 K4 K5 K6 K7].
  rewrite (first_response_answers listReq t2 p [] [] 0 (line initializedNotification) _ _ (answer_of Sprint initializedNotification)
    K1 K2 K3 K4 K5 K6 eq_refl K7 (Forall_nil_2 _) (Nat.lt_0_succ _) L2 R2).
  reflexivity.
Qed.

(** ** A run *)

Definition echo_request (id : Z) (text : string) : Request :=
  MkRequest Version "tools/call" (Some (JObj [("name", JStr "test_echo"); ("arguments", JObj [("message", JStr text)])])) (Some (IntID id)).

Definition attached (c : child) : StdioTransport :=
  MkStdio ["server"] [] "s" (Some (Some 0%nat)) (Some 0%nat) (Some 0%nat) true false 0 10 0 false (10 * second) (MkOS {[0%nat := c]} 1 [] [] []) 0.

Lemma stdio_server_session_witness :
  let reqs := [echo_request 1 "hello"; MkRequest Version "ping" None (Some (StringID "a"))] in
  (session reqs (attached (server_child (λ _, "") reqs))).2 =
    Val [Ok (JSONResult (MkResponse Version (Some (call_json "hello")) None (Some (IntID 1))));
         Ok (JSONResult (MkResponse Version (Some (JObj [])) None (Some (StringID "a"))))].
Proof.
  intros reqs. destruct (stdio_server_session (λ _, "") reqs (attached (server_child (λ _, "") reqs)) 0 []) as (t' & Hs & _).
  - split; reflexivity.
  - repeat constructor; vm_compute; done.
  - rewrite Hs. reflexivity.
Defined.
