(* ===== verification/AuthStore.v ===== *)
(** * Callers, API keys and roles ([internal/auth/store.go], [postgres.go])

    - [Store]: the interface, over a state [S]; every call reads an environment
      [E] (faults of the database, clocks).
    - [StoreLaws]: what a store promises to the cache in front of it.
    - [DB]: the three tables with their constraints, and every operation of
      [SQLiteStore] on them, statement by statement: [fault i] says that the
      [i]-th statement of the operation fails. The Postgres store issues the
      same statements. *)

From S2P Require Import Prelude GoLib.

(** ** The interface *)

Inductive store_error := ErrNotFound | ErrDuplicate | ErrDB.

#[global] Instance store_error_eq_dec : EqDecision store_error.
Proof. solve_decision. Defined.

(** A [KeyLookupResult]; its caller has a name and nothing else yet. *)
Record KeyLookupResult := MkLookup { lk_name : string; KeyLabel : string }.

Record CallerInfo := MkCallerInfo { ci_name : string; ci_keys : nat; ci_roles : list string; ci_created : Z }.
Record KeyInfo := MkKeyInfo { ki_id : Z; ki_label : string; ki_created : Z }.
Record CallerDetail := MkDetail { cd_name : string; cd_keys : list KeyInfo; cd_created : Z }.

Class Store (E S : Type) := {
  LookupByKey : E → string → S → S * result store_error KeyLookupResult;
  RolesForCaller : E → string → S → S * result store_error (list string);
  AddCaller : E → string → S → S * result store_error unit;
  DeleteCaller : E → string → S → S * result store_error unit;
  ListCallers : E → S → S * result store_error (list CallerInfo);
  GetCaller : E → string → S → S * result store_error CallerDetail;
  AddKey : E → string → string → string → S → S * result store_error unit;
  ListKeys : E → string → S → S * result store_error (list KeyInfo);
  DeleteKey : E → string → Z → S → S * result store_error unit;
  RevokeKey : E → string → string → S → S * result store_error unit;
  KeyCountForCaller : E → string → S → S * result store_error nat;
  AssignRole : E → string → string → S → S * result store_error unit;
  UnassignRole : E → string → string → S → S * result store_error unit;
  EnsureCaller : E → string → list string → S → S * result store_error unit;
  CallerExists : E → string → S → S * result store_error bool;
}.

(** ** The tables *)

Record caller_row := CallerRow { c_id : Z; c_name : string; c_created : Z }.
Record key_row := KeyRow { k_id : Z; k_caller : Z; k_hash : string; k_label : string; k_created : Z }.

Record DB := MkDB {
  callers : list caller_row;
  api_keys : list key_row;
  caller_roles : list (Z * string);
  next_caller : Z;   (* AUTOINCREMENT counters *)
  next_key : Z;
}.

Definition empty_db : DB := MkDB [] [] [] 1 1.

(** Faults of the statements of one operation, and CURRENT_TIMESTAMP. *)
Record DBEnv := MkDBEnv { fault : nat → bool; db_now : Z }.

Definition caller_by_name (db : DB) (name : string) : option caller_row :=
  List.find (λ c, bool_decide (c_name c = name)) (callers db).
Definition caller_by_id (db : DB) (id : Z) : option caller_row :=
  List.find (λ c, bool_decide (c_id c = id)) (callers db).

(** [SELECT id FROM callers WHERE name = ?], scanned. *)
Definition select_id (env : DBEnv) (i : nat) (db : DB) (name : string) : result store_error Z :=
  if fault env i then Err ErrNotFound
  else match caller_by_name db name with Some c => Ok (c_id c) | None => Err ErrNotFound end.

(** The join of a key or a role with its caller. *)
Definition owned_by (db : DB) (name : string) (id : Z) : bool :=
  match caller_by_id db id with Some c => bool_decide (c_name c = name) | None => false end.

Definition keys_of (db : DB) (name : string) : list key_row :=
  filter (λ k, owned_by db name (k_caller k) = true) (api_keys db).
Definition roles_of_db (db : DB) (name : string) : list string :=
  (filter (λ r, owned_by db name r.1 = true) (caller_roles db)).*2.

(** ** Reads *)

Definition lookup_key (db : DB) (h : string) : option KeyLookupResult :=
  k ← List.find (λ k, bool_decide (k_hash k = h)) (api_keys db);
  c ← caller_by_id db (k_caller k);
  Some (MkLookup (c_name c) (k_label k)).

(** Any error of the query is reported as a missing key. *)
Definition SQL_LookupByKey (env : DBEnv) (hashedKey : string) (db : DB) : DB * result store_error KeyLookupResult :=
  (db, if fault env 0 then Err ErrNotFound
       else match lookup_key db hashedKey with Some r => Ok r | None => Err ErrNotFound end).

Definition SQL_RolesForCaller (env : DBEnv) (name : string) (db : DB) : DB * result store_error (list string) :=
  (db, if fault env 0 then Err ErrDB else Ok (roles_of_db db name)).

Definition info_le (a b : caller_row) : bool := String.leb (c_name a) (c_name b).

(** [ORDER BY c.name] *)
Fixpoint insert_row (c : caller_row) (l : list caller_row) : list caller_row :=
  match l with
  | [] => [c]
  | d :: l => if info_le c d then c :: d :: l else d :: insert_row c l
  end.

(** The query, then one query of the roles for each row. *)
Fixpoint list_infos (env : DBEnv) (i : nat) (db : DB) (rows : list caller_row) : result store_error (list CallerInfo) :=
  match rows with
  | [] => Ok []
  | c :: rows =>
      if fault env i then Err ErrDB
      else
        rest ← list_infos env (S i) db rows;
        Ok (MkCallerInfo (c_name c) (length (filter (λ k, k_caller k = c_id c) (api_keys db)))
              (roles_of_db db (c_name c)) (c_created c) :: rest)
  end.

Definition SQL_ListCallers (env : DBEnv) (db : DB) : DB * result store_error (list CallerInfo) :=
  (db, if fault env 0 then Err ErrDB else list_infos env 1 db (foldr insert_row [] (callers db))).

Definition key_infos (db : DB) (name : string) : list KeyInfo :=
  (λ k, MkKeyInfo (k_id k) (k_label k) (k_created k)) <$> keys_of db name.

Definition SQL_ListKeys (env : DBEnv) (callerName : string) (db : DB) : DB * result store_error (list KeyInfo) :=
  (db, if fault env 0 then Err ErrDB else Ok (key_infos db callerName)).

Definition SQL_GetCaller (env : DBEnv) (name : string) (db : DB) : DB * result store_error CallerDetail :=
  (db, if fault env 0 then Err ErrNotFound
       else match caller_by_name db name with
            | None => Err ErrNotFound
            | Some c => if fault env 1 then Err ErrDB else Ok (MkDetail name (key_infos db name) (c_created c))
            end).

Definition SQL_KeyCountForCaller (env : DBEnv) (callerName : string) (db : DB) : DB * result store_error nat :=
  (db, if fault env 0 then Err ErrDB else Ok (length (keys_of db callerName))).

Definition SQL_CallerExists (env : DBEnv) (name : string) (db : DB) : DB * result store_error bool :=
  (db, if fault env 0 then Err ErrDB
       else Ok (match caller_by_name db name with Some _ => true | None => false end)).

(** ** Writes *)

Definition insert_caller (env : DBEnv) (name : string) (db : DB) : DB :=
  MkDB (callers db ++ [CallerRow (next_caller db) name (db_now env)]) (api_keys db) (caller_roles db)
    (next_caller db + 1) (next_key db).

Definition SQL_AddCaller (env : DBEnv) (name : string) (db : DB) : DB * result store_error unit :=
  if fault env 0 then (db, Err ErrDB)
  else match caller_by_name db name with
       | Some _ => (db, Err ErrDuplicate)
       | None => (insert_caller env name db, Ok tt)
       end.

Definition SQL_AddKey (env : DBEnv) (callerName keyHash label : string) (db : DB) : DB * result store_error unit :=
  match select_id env 0 db callerName with
  | Err e => (db, Err e)
  | Ok callerID =>
      if fault env 1 then (db, Err ErrDB)
      else if existsb (λ k, bool_decide (k_hash k = keyHash)) (api_keys db) then (db, Err ErrDB)
      else (MkDB (callers db) (api_keys db ++ [KeyRow (next_key db) callerID keyHash label (db_now env)])
              (caller_roles db) (next_caller db) (next_key db + 1), Ok tt)
  end.

(** [INSERT OR IGNORE INTO caller_roles] *)
Definition insert_role (id : Z) (role : string) (db : DB) : DB :=
  if bool_decide ((id, role) ∈ caller_roles db) then db
  else MkDB (callers db) (api_keys db) (caller_roles db ++ [(id, role)]) (next_caller db) (next_key db).

Definition SQL_AssignRole (env : DBEnv) (callerName role : string) (db : DB) : DB * result store_error unit :=
  match select_id env 0 db callerName with
  | Err e => (db, Err e)
  | Ok callerID => if fault env 1 then (db, Err ErrDB) else (insert_role callerID role db, Ok tt)
  end.

Definition SQL_UnassignRole (env : DBEnv) (callerName role : string) (db : DB) : DB * result store_error unit :=
  match select_id env 0 db callerName with
  | Err e => (db, Err e)
  | Ok callerID =>
      if fault env 1 then (db, Err ErrDB)
      else if bool_decide ((callerID, role) ∈ caller_roles db) then
        (MkDB (callers db) (api_keys db) (filter (λ r, r ≠ (callerID, role)) (caller_roles db))
           (next_caller db) (next_key db), Ok tt)
      else (db, Err ErrNotFound)
  end.

(** The foreign keys delete the caller's keys and roles. *)
Definition SQL_DeleteCaller (env : DBEnv) (name : string) (db : DB) : DB * result store_error unit :=
  if fault env 0 then (db, Err ErrDB)
  else match caller_by_name db name with
       | None => (db, Err ErrNotFound)
       | Some c =>
           (MkDB (filter (λ c', c_name c' ≠ name) (callers db))
              (filter (λ k, k_caller k ≠ c_id c) (api_keys db))
              (filter (λ r, r.1 ≠ c_id c) (caller_roles db)) (next_caller db) (next_key db), Ok tt)
       end.

(** [DELETE FROM api_keys WHERE caller_id = (the caller's id) AND p] *)
Definition delete_keys (env : DBEnv) (name : string) (p : key_row → bool) (db : DB) : DB * result store_error unit :=
  if fault env 0 then (db, Err ErrDB)
  else
    let doomed k := match caller_by_name db name with
      | Some c => bool_decide (k_caller k = c_id c) && p k
      | None => false end in
    if existsb doomed (api_keys db) then
      (MkDB (callers db) (filter (λ k, doomed k = false) (api_keys db)) (caller_roles db)
         (next_caller db) (next_key db), Ok tt)
    else (db, Err ErrNotFound).

Definition SQL_DeleteKey (env : DBEnv) (callerName : string) (keyID : Z) (db : DB) : DB * result store_error unit :=
  delete_keys env callerName (λ k, bool_decide (k_id k = keyID)) db.

Definition SQL_RevokeKey (env : DBEnv) (callerName label : string) (db : DB) : DB * result store_error unit :=
  delete_keys env callerName (λ k, bool_decide (k_label k = label)) db.

(** The loop over the default roles; there is no transaction around it. Without
    the caller its identifier is NULL, which OR IGNORE of SQLite skips and ON CONFLICT
    of Postgres does not. *)
Fixpoint assign_defaults (skip_null : bool) (env : DBEnv) (i : nat) (name : string) (defaultRoles : list string) (db : DB) :
    DB * result store_error unit :=
  match defaultRoles with
  | [] => (db, Ok tt)
  | role :: defaultRoles =>
      if fault env i then (db, Err ErrDB)
      else match caller_by_name db name with
           | None => if skip_null then assign_defaults skip_null env (S i) name defaultRoles db else (db, Err ErrDB)
           | Some c => assign_defaults skip_null env (S i) name defaultRoles (insert_role (c_id c) role db)
           end
  end.

Definition SQL_EnsureCaller (env : DBEnv) (name : string) (defaultRoles : list string) (db : DB) :
    DB * result store_error unit :=
  if fault env 0 then (db, Err ErrDB)
  else match caller_by_name db name with
       | Some _ => (db, Ok tt)
       | None => assign_defaults true env 1 name defaultRoles (insert_caller env name db)
       end.

#[global] Instance SQLiteStore : Store DBEnv DB := {|
  LookupByKey := SQL_LookupByKey;
  RolesForCaller := SQL_RolesForCaller;
  AddCaller := SQL_AddCaller;
  DeleteCaller := SQL_DeleteCaller;
  ListCallers := SQL_ListCallers;
  GetCaller := SQL_GetCaller;
  AddKey := SQL_AddKey;
  ListKeys := SQL_ListKeys;
  DeleteKey := SQL_DeleteKey;
  RevokeKey := SQL_RevokeKey;
  KeyCountForCaller := SQL_KeyCountForCaller;
  AssignRole := SQL_AssignRole;
  UnassignRole := SQL_UnassignRole;
  EnsureCaller := SQL_EnsureCaller;
  CallerExists := SQL_CallerExists;
|}.

(** [GenerateAPIKey], from sixteen random bytes. *)
Definition GenerateAPIKey (random : string) : string := "sk-" +:+ Encoding.hex_EncodeToString random.

(** ** Postgres ([postgres.go]) *)

(** A sequence gives out a number also to an insertion that a constraint
    then refuses. *)
Definition burn_caller_id (db : DB) : DB :=
  MkDB (callers db) (api_keys db) (caller_roles db) (next_caller db + 1) (next_key db).
Definition burn_key_id (db : DB) : DB :=
  MkDB (callers db) (api_keys db) (caller_roles db) (next_caller db) (next_key db + 1).

Definition PG_AddCaller (env : DBEnv) (name : string) (db : DB) : DB * result store_error unit :=
  if fault env 0 then (db, Err ErrDB)
  else match caller_by_name db name with
       | Some _ => (burn_caller_id db, Err ErrDuplicate)
       | None => (insert_caller env name db, Ok tt)
       end.

Definition PG_AddKey (env : DBEnv) (callerName keyHash label : string) (db : DB) : DB * result store_error unit :=
  match select_id env 0 db callerName with
  | Err e => (db, Err e)
  | Ok callerID =>
      if fault env 1 then (db, Err ErrDB)
      else if existsb (λ k, bool_decide (k_hash k = keyHash)) (api_keys db) then (burn_key_id db, Err ErrDB)
      else (MkDB (callers db) (api_keys db ++ [KeyRow (next_key db) callerID keyHash label (db_now env)])
              (caller_roles db) (next_caller db) (next_key db + 1), Ok tt)
  end.

Definition PG_EnsureCaller (env : DBEnv) (name : string) (defaultRoles : list string) (db : DB) :
    DB * result store_error unit :=
  if fault env 0 then (db, Err ErrDB)
  else match caller_by_name db name with
       | Some _ => (burn_caller_id db, Ok tt)
       | None => assign_defaults false env 1 name defaultRoles (insert_caller env name db)
       end.

(** The other methods have the statements of SQLite, with numbered placeholders. *)
Definition PG_LookupByKey := SQL_LookupByKey.
Definition PG_RolesForCaller := SQL_RolesForCaller.
Definition PG_DeleteCaller := SQL_DeleteCaller.
Definition PG_ListCallers := SQL_ListCallers.
Definition PG_GetCaller := SQL_GetCaller.
Definition PG_ListKeys := SQL_ListKeys.
Definition PG_DeleteKey := SQL_DeleteKey.
Definition PG_RevokeKey := SQL_RevokeKey.
Definition PG_KeyCountForCaller := SQL_KeyCountForCaller.
Definition PG_AssignRole := SQL_AssignRole.
Definition PG_UnassignRole := SQL_UnassignRole.
Definition PG_CallerExists := SQL_CallerExists.

Definition PostgresStore : Store DBEnv DB := {|
  LookupByKey := PG_LookupByKey;
  RolesForCaller := PG_RolesForCaller;
  AddCaller := PG_AddCaller;
  DeleteCaller := PG_DeleteCaller;
  ListCallers := PG_ListCallers;
  GetCaller := PG_GetCaller;
  AddKey := PG_AddKey;
  ListKeys := PG_ListKeys;
  DeleteKey := PG_DeleteKey;
  RevokeKey := PG_RevokeKey;
  KeyCountForCaller := PG_KeyCountForCaller;
  AssignRole := PG_AssignRole;
  UnassignRole := PG_UnassignRole;
  EnsureCaller := PG_EnsureCaller;
  CallerExists := PG_CallerExists;
|}.

(** ** What a store promises *)

(** The operations that write. *)
Inductive write :=
| WAddCaller (name : string)
| WDeleteCaller (name : string)
| WAddKey (name hash label : string)
| WDeleteKey (name : string) (id : Z)
| WRevokeKey (name label : string)
| WAssignRole (name role : string)
| WUnassignRole (name role : string)
| WEnsureCaller (name : string) (roles : list string).

Definition run_write {E S} `{Store E S} (e : E) (w : write) (s : S) : S * result store_error unit :=
  match w with
  | WAddCaller n => AddCaller e n s
  | WDeleteCaller n => DeleteCaller e n s
  | WAddKey n h l => AddKey e n h l s
  | WDeleteKey n i => DeleteKey e n i s
  | WRevokeKey n l => RevokeKey e n l s
  | WAssignRole n r => AssignRole e n r s
  | WUnassignRole n r => UnassignRole e n r s
  | WEnsureCaller n rs => EnsureCaller e n rs s
  end.

(** The caller who may lose keys by a write, and the one whose roles may
    change. *)
Definition revokes_from (w : write) : option string :=
  match w with WDeleteCaller n | WDeleteKey n _ | WRevokeKey n _ => Some n | _ => None end.
Definition regroups (w : write) : option string :=
  match w with WDeleteCaller n | WAssignRole n _ | WUnassignRole n _ | WEnsureCaller n _ => Some n | _ => None end.
Definition is_ensure (w : write) : bool := match w with WEnsureCaller _ _ => true | _ => false end.

Class StoreLaws (E S : Type) `{Store E S} := {
  store_inv : S → Prop;
  key_owner : S → string → option KeyLookupResult;
  roles_of : S → string → list string;
  lookup_law : ∀ e h s s' r, LookupByKey e h s = (s', r) →
    s' = s ∧ ∀ k, r = Ok k → key_owner s h = Some k;
  roles_law : ∀ e n s s' r, RolesForCaller e n s = (s', r) →
    s' = s ∧ ∀ l, r = Ok l → l = roles_of s n;
  write_inv : ∀ e w s s' r, store_inv s → run_write e w s = (s', r) → store_inv s';
  write_keys : ∀ e w s s' r h k, store_inv s → run_write e w s = (s', r) →
    key_owner s h = Some k → revokes_from w ≠ Some (lk_name k) → key_owner s' h = Some k;
  write_roles : ∀ e w s s' r n, store_inv s → run_write e w s = (s', r) →
    regroups w ≠ Some n → roles_of s' n = roles_of s n;
  write_failed : ∀ e w s s' x, store_inv s → run_write e w s = (s', Err x) → is_ensure w = false →
    (∀ h, key_owner s' h = key_owner s h) ∧ ∀ n, roles_of s' n = roles_of s n;
}.

(** ** The constraints of the schema *)

Record wf (db : DB) : Prop := {
  wf_ids : NoDup (c_id <$> callers db);
  wf_names : NoDup (c_name <$> callers db);
  wf_key_ids : NoDup (k_id <$> api_keys db);
  wf_hashes : NoDup (k_hash <$> api_keys db);
  wf_roles : NoDup (caller_roles db);
  wf_key_fk : ∀ k, k ∈ api_keys db → k_caller k ∈ c_id <$> callers db;
  wf_role_fk : ∀ r, r ∈ caller_roles db → r.1 ∈ c_id <$> callers db;
  wf_next_caller : ∀ c, c ∈ callers db → c_id c < next_caller db;
  wf_next_key : ∀ k, k ∈ api_keys db → k_id k < next_key db;
}.

Lemma wf_empty : wf empty_db.
Proof. split; simpl; try constructor; set_solver. Qed.

Lemma caller_by_name_Some db n c : wf db → caller_by_name db n = Some c ↔ c ∈ callers db ∧ c_name c = n.
Proof. intros Hwf. apply find_key, Hwf. Qed.
Lemma caller_by_id_Some db i c : wf db → caller_by_id db i = Some c ↔ c ∈ callers db ∧ c_id c = i.
Proof. intros Hwf. apply find_key, Hwf. Qed.
Lemma caller_by_name_None db n : caller_by_name db n = None ↔ n ∉ c_name <$> callers db.
Proof. apply find_key_None. Qed.

Lemma same_id db c d : wf db → c ∈ callers db → d ∈ callers db → c_id c = c_id d → c = d.
Proof.
  intros Hwf Hc Hd Heq.
  assert (caller_by_id db (c_id d) = Some c) as H1 by (apply caller_by_id_Some; auto).
  assert (caller_by_id db (c_id d) = Some d) as H2 by (apply caller_by_id_Some; auto). congruence.
Qed.

Lemma same_name db c d : wf db → c ∈ callers db → d ∈ callers db → c_name c = c_name d → c = d.
Proof.
  intros Hwf Hc Hd Heq.
  assert (caller_by_name db (c_name d) = Some c) as H1 by (apply caller_by_name_Some; auto).
  assert (caller_by_name db (c_name d) = Some d) as H2 by (apply caller_by_name_Some; auto). congruence.
Qed.

Lemma owned_by_true db n i : wf db → owned_by db n i = true ↔ ∃ c, c ∈ callers db ∧ c_id c = i ∧ c_name c = n.
Proof.
  intros Hwf. unfold owned_by. destruct (caller_by_id db i) as [c|] eqn:Ec.
  - apply caller_by_id_Some in Ec as [Hc Hi]; [|done]. rewrite bool_decide_eq_true. split; [naive_solver|].
    intros (d & Hd & Hdi & <-). f_equal. eapply same_id; eauto. congruence.
  - apply find_key_None in Ec. split; [done|]. intros (c & Hc & <- & _). destruct Ec. by apply list_elem_of_fmap_2.
Qed.

Lemma lookup_key_Some db h r : wf db →
  lookup_key db h = Some r ↔
  ∃ k c, k ∈ api_keys db ∧ k_hash k = h ∧ c ∈ callers db ∧ c_id c = k_caller k ∧ r = MkLookup (c_name c) (k_label k).
Proof.
  intros Hwf. unfold lookup_key. split.
  - intros (k & Hk & Hr)%bind_Some. apply bind_Some in Hr as (c & Hc & Hr). simplify_eq.
    apply find_key in Hk as [? ?]; [|apply Hwf]. apply caller_by_id_Some in Hc as [? ?]; [|done]. by exists k, c.
  - intros (k & c & Hk & Hh & Hc & Hi & ->).
    rewrite (proj2 (find_key k_hash (api_keys db) h k (wf_hashes _ Hwf))) by done. simpl.
    by rewrite (proj2 (caller_by_id_Some db (k_caller k) c Hwf)).
Qed.

(** Keys whose row and caller survive are still found. *)
Lemma lookup_key_keep db db' h r : wf db → wf db' → lookup_key db h = Some r →
  (∀ k c, k ∈ api_keys db → c ∈ callers db → c_id c = k_caller k → c_name c = lk_name r →
    k ∈ api_keys db' ∧ c ∈ callers db') →
  lookup_key db' h = Some r.
Proof.
  intros Hwf Hwf' Hl Hk. apply lookup_key_Some in Hl as (k & c & ? & ? & ? & ? & ->); [|done].
  destruct (Hk k c) as [? ?]; try done. apply lookup_key_Some; [done|]. by exists k, c.
Qed.

(** *** Each statement keeps the constraints *)

Lemma wf_insert_caller env n db : wf db → n ∉ c_name <$> callers db → wf (insert_caller env n db).
Proof.
  intros [] Hn. split; simpl; try done.
  - apply NoDup_fmap_snoc; [done|]. intros (c & Hc & Hin)%list_elem_of_fmap. simpl in Hc.
    specialize (wf_next_caller0 c Hin). lia.
  - by apply NoDup_fmap_snoc.
  - intros k Hk. rewrite fmap_app. apply elem_of_app. left. auto.
  - intros k Hk. rewrite fmap_app. apply elem_of_app. left. auto.
  - intros c [Hc|Hc]%elem_of_app; [specialize (wf_next_caller0 c Hc); lia|].
    apply list_elem_of_singleton in Hc as ->. simpl. lia.
Qed.

Lemma wf_insert_role i r db : wf db → i ∈ c_id <$> callers db → wf (insert_role i r db).
Proof.
  intros Hwf Hi. unfold insert_role. case_bool_decide; [done|]. destruct Hwf. split; simpl; try done.
  - apply NoDup_app. split_and!; [done| |apply NoDup_singleton].
    intros x Hx Hx'. apply list_elem_of_singleton in Hx' as ->. done.
  - intros x [Hx|Hx]%elem_of_app; [auto|]. apply list_elem_of_singleton in Hx as ->. done.
Qed.

Lemma wf_assign_defaults sk env i n rs db : wf db → wf (assign_defaults sk env i n rs db).1.
Proof.
  revert i db. induction rs as [|r rs IH]; intros i db Hwf; simpl; [done|]. destruct (fault env i); [done|].
  destruct (caller_by_name db n) as [c|] eqn:Ec; [|destruct sk; auto]. apply IH. apply wf_insert_role; [done|].
  apply caller_by_name_Some in Ec as [Hc _]; [|done]. by apply list_elem_of_fmap_2.
Qed.

Lemma wf_burn db : wf db → wf (burn_caller_id db) ∧ wf (burn_key_id db).
Proof.
  intros []. split; split; simpl; try done.
  - intros c Hc. specialize (wf_next_caller0 c Hc). lia.
  - intros k Hk. specialize (wf_next_key0 k Hk). lia.
Qed.

Lemma wf_add_key db i h l t : wf db → i ∈ c_id <$> callers db → h ∉ k_hash <$> api_keys db →
  wf (MkDB (callers db) (api_keys db ++ [KeyRow (next_key db) i h l t]) (caller_roles db) (next_caller db) (next_key db + 1)).
Proof.
  intros [] Hi Hh. split; simpl; try done.
  - apply NoDup_fmap_snoc; [done|]. intros (k & Hk & Hin)%list_elem_of_fmap. simpl in Hk.
    specialize (wf_next_key0 k Hin). lia.
  - by apply NoDup_fmap_snoc.
  - intros k [Hk|Hk]%elem_of_app; [auto|]. by apply list_elem_of_singleton in Hk as ->.
  - intros k [Hk|Hk]%elem_of_app; [specialize (wf_next_key0 k Hk); lia|].
    apply list_elem_of_singleton in Hk as ->. simpl. lia.
Qed.

Lemma wf_filter_keys db (P : key_row → Prop) `{∀ k, Decision (P k)} :
  wf db → wf (MkDB (callers db) (filter P (api_keys db)) (caller_roles db) (next_caller db) (next_key db)).
Proof.
  intros []. split; simpl; try done; try (by apply NoDup_fmap_filter);
    intros k [_ Hk]%list_elem_of_filter; auto.
Qed.

Lemma wf_filter_roles db (P : Z * string → Prop) `{∀ r, Decision (P r)} :
  wf db → wf (MkDB (callers db) (api_keys db) (filter P (caller_roles db)) (next_caller db) (next_key db)).
Proof.
  intros []. split; simpl; try done; [by apply NoDup_filter|]. intros r [_ Hr]%list_elem_of_filter; auto.
Qed.

Lemma wf_delete_caller db c : wf db → c ∈ callers db →
  wf (MkDB (filter (λ c', c_name c' ≠ c_name c) (callers db)) (filter (λ k, k_caller k ≠ c_id c) (api_keys db))
        (filter (λ r, r.1 ≠ c_id c) (caller_roles db)) (next_caller db) (next_key db)).
Proof.
  intros Hwf Hc.
  assert (∀ i, i ∈ c_id <$> callers db → i ≠ c_id c → i ∈ c_id <$> filter (λ c', c_name c' ≠ c_name c) (callers db)) as Hid.
  { intros i (d & -> & Hd)%list_elem_of_fmap Hne. apply list_elem_of_fmap_2. apply list_elem_of_filter.
    split; [|done]. intros Hn. apply Hne. by rewrite (same_name db d c). }
  destruct Hwf. split; simpl; try (by apply NoDup_fmap_filter); try (by apply NoDup_filter).
  - intros k [Hne Hk]%list_elem_of_filter. auto.
  - intros r [Hne Hr]%list_elem_of_filter. auto.
  - intros d [_ Hd]%list_elem_of_filter. auto.
  - intros k [_ Hk]%list_elem_of_filter. auto.
Qed.

(** *** Each operation keeps its promises *)

Record write_ok (w : write) (db db' : DB) (r : result store_error unit) : Prop := {
  wo_wf : wf db';
  wo_keys : ∀ h k, lookup_key db h = Some k → revokes_from w ≠ Some (lk_name k) → lookup_key db' h = Some k;
  wo_roles : ∀ n, regroups w ≠ Some n → roles_of_db db' n = roles_of_db db n;
  wo_failed : is_ok r = false → is_ensure w = false →
    (∀ h, lookup_key db' h = lookup_key db h) ∧ ∀ n, roles_of_db db' n = roles_of_db db n;
}.

Lemma write_ok_refl w db r : wf db → write_ok w db db r.
Proof. by split. Qed.

(** A write that succeeds, in terms of the surviving rows. *)
Lemma write_ok_done w db db' :
  wf db → wf db' →
  (∀ k c, k ∈ api_keys db → c ∈ callers db → c_id c = k_caller k → revokes_from w ≠ Some (c_name c) →
    k ∈ api_keys db' ∧ c ∈ callers db') →
  (∀ n, regroups w ≠ Some n → roles_of_db db' n = roles_of_db db n) →
  write_ok w db db' (Ok tt).
Proof.
  intros Hwf Hwf' Hk Hr. split; try done. intros h k Hl Hne. apply (lookup_key_keep db db' h k Hwf Hwf' Hl).
  intros k' c' ? ? ? Hn. apply Hk; try done. by rewrite Hn.
Qed.

Lemma select_id_Ok env i db n id : wf db →
  select_id env i db n = Ok id → ∃ c, c ∈ callers db ∧ c_name c = n ∧ c_id c = id.
Proof.
  intros Hwf. unfold select_id. destruct (fault env i); [done|].
  destruct (caller_by_name db n) as [c|] eqn:Ec; [|done]. intros; simplify_eq.
  apply caller_by_name_Some in Ec as [? ?]; [|done]. eauto.
Qed.

Lemma insert_caller_roles env n db m : wf db → n ∉ c_name <$> callers db →
  roles_of_db (insert_caller env n db) m = roles_of_db db m.
Proof.
  intros Hwf Hn. unfold roles_of_db. f_equal. apply filter_ext_elem. intros r Hr. simpl in Hr.
  rewrite !owned_by_true by auto using wf_insert_caller. simpl. split; [|set_solver].
  intros (c & [Hc|Hc]%elem_of_app & Hi & Hm); [by eauto|]. apply list_elem_of_singleton in Hc as ->. simpl in *.
  pose proof (wf_role_fk _ Hwf r Hr) as Hfk.
  apply list_elem_of_fmap in Hfk as (d & Hd & Hdin). pose proof (wf_next_caller _ Hwf d Hdin). lia.
Qed.

Lemma insert_caller_ok w env n db : wf db → n ∉ c_name <$> callers db →
  write_ok w db (insert_caller env n db) (Ok tt).
Proof.
  intros Hwf Hn. apply write_ok_done; [done|by apply wf_insert_caller| |].
  - intros k c Hk Hc _ _. simpl. set_solver.
  - intros m _. by apply insert_caller_roles.
Qed.

Lemma insert_role_other db c r n : wf db → c ∈ callers db → n ≠ c_name c →
  roles_of_db (insert_role (c_id c) r db) n = roles_of_db db n.
Proof.
  intros Hwf Hc Hne. unfold insert_role. case_bool_decide; [done|]. unfold roles_of_db. simpl.
  rewrite filter_app, fmap_app. change (owned_by (MkDB _ _ _ _ _)) with (owned_by db).
  rewrite (filter_cons_False _ (c_id c, r)), filter_nil; [by rewrite app_nil_r|].
  rewrite owned_by_true by done. intros (d & Hd & Hi & <-). simpl in Hi. by rewrite (same_id db d c) in Hne.
Qed.

Lemma insert_role_ok w db c r : wf db → c ∈ callers db → regroups w = Some (c_name c) →
  write_ok w db (insert_role (c_id c) r db) (Ok tt).
Proof.
  intros Hwf Hc Hw. apply write_ok_done; [done|apply wf_insert_role; [done|by apply list_elem_of_fmap_2]| |].
  - intros k d Hk Hd _ _. unfold insert_role. by case_bool_decide.
  - intros n Hn. apply insert_role_other; congruence.
Qed.

Lemma unassign_ok n c r db : wf db → c ∈ callers db → c_name c = n →
  write_ok (WUnassignRole n r) db
    (MkDB (callers db) (api_keys db) (filter (λ x, x ≠ (c_id c, r)) (caller_roles db)) (next_caller db) (next_key db)) (Ok tt).
Proof.
  intros Hwf Hc <-. apply write_ok_done; [done|by apply wf_filter_roles|done|].
  intros m Hm. unfold roles_of_db. simpl. f_equal. change (owned_by (MkDB _ _ _ _ _)) with (owned_by db).
  apply filter_filter_elem. intros x Hx. split; [naive_solver|]. intros Ho. split; [done|]. intros ->.
  apply owned_by_true in Ho as (d & Hd & Hi & <-); [|done]. simpl in Hi. by rewrite (same_id db d c) in Hm.
Qed.

Lemma delete_caller_ok c db : wf db → c ∈ callers db →
  write_ok (WDeleteCaller (c_name c)) db
    (MkDB (filter (λ c', c_name c' ≠ c_name c) (callers db)) (filter (λ k, k_caller k ≠ c_id c) (api_keys db))
        (filter (λ r, r.1 ≠ c_id c) (caller_roles db)) (next_caller db) (next_key db)) (Ok tt).
Proof.
  intros Hwf Hc. apply write_ok_done; [done|by apply wf_delete_caller| |].
  - simpl. intros k d Hk Hd Hi Hn. rewrite !list_elem_of_filter. split_and!; try done; [|congruence].
    rewrite <- Hi. intros Heq. by rewrite (same_id db d c) in Hn.
  - simpl. intros m Hm. unfold roles_of_db. simpl. f_equal. apply filter_filter_elem. intros x Hx.
    rewrite !owned_by_true by auto using wf_delete_caller. simpl. setoid_rewrite list_elem_of_filter. split; [naive_solver|].
    intros (d & Hd & Hi & <-). split; [exists d; split_and!; congruence|].
    intros Heq. by rewrite (same_id db d c) in Hm; [|done|done|done|congruence].
Qed.

Lemma delete_keys_ok w env n p db : wf db → revokes_from w = Some n → is_ensure w = false →
  write_ok w db (delete_keys env n p db).1 (delete_keys env n p db).2.
Proof.
  intros Hwf Hw He. unfold delete_keys. destruct (fault env 0); [by apply write_ok_refl|].
  set (doomed := λ k, _). destruct (existsb doomed (api_keys db)); [|by apply write_ok_refl].
  apply write_ok_done; [done|by apply (wf_filter_keys db (λ k, doomed k = false))| |done].
  intros k c Hk Hc Hi Hn. simpl. split; [|done]. apply list_elem_of_filter. split; [|done].
  unfold doomed. destruct (caller_by_name db n) as [d|] eqn:Ed; [|done].
  apply caller_by_name_Some in Ed as [Hd <-]; [|done]. rewrite bool_decide_eq_false_2; [done|].
  intros Heq. rewrite (same_id db c d) in Hn by congruence. congruence.
Qed.

Lemma assign_defaults_ok sk env i n rs rs' db : wf db →
  write_ok (WEnsureCaller n rs') db (assign_defaults sk env i n rs db).1 (assign_defaults sk env i n rs db).2.
Proof.
  revert i db. induction rs as [|r rs IH]; intros i db Hwf; simpl; [by apply write_ok_refl|].
  destruct (fault env i); [by apply write_ok_refl|].
  destruct (caller_by_name db n) as [c|] eqn:Ec; [|destruct sk; [by apply IH|by apply write_ok_refl]].
  apply caller_by_name_Some in Ec as [Hc Hn]; [|done].
  assert (write_ok (WEnsureCaller n rs') db (insert_role (c_id c) r db) (Ok tt)) as [H1 H2 H3 _]
    by (apply insert_role_ok; simpl; congruence).
  destruct (IH (S i) _ H1) as [G1 G2 G3 _]. split; [done| | |done].
  - intros h k Hk Hne. apply G2; [|done]. by apply H2.
  - intros m Hm. by rewrite G3, H3.
Qed.

Lemma ensure_new_ok sk env n rs db : wf db → caller_by_name db n = None →
  write_ok (WEnsureCaller n rs) db (assign_defaults sk env 1 n rs (insert_caller env n db)).1
    (assign_defaults sk env 1 n rs (insert_caller env n db)).2.
Proof.
  intros Hwf Hn%caller_by_name_None.
  destruct (insert_caller_ok (WEnsureCaller n rs) env n db Hwf Hn) as [H1 H2 H3 _].
  destruct (assign_defaults_ok sk env 1 n rs rs _ H1) as [G1 G2 G3 _]. split; [done| | |done].
  - intros h k Hk Hne. apply G2; [|done]. by apply H2.
  - intros m Hm. by rewrite G3, H3.
Qed.

Lemma add_key_ok n id h l t db : wf db → id ∈ c_id <$> callers db → h ∉ k_hash <$> api_keys db →
  write_ok (WAddKey n h l) db
    (MkDB (callers db) (api_keys db ++ [KeyRow (next_key db) id h l t]) (caller_roles db) (next_caller db) (next_key db + 1)) (Ok tt).
Proof.
  intros Hwf Hid Hh. apply write_ok_done; [done|by apply wf_add_key| |done].
  intros k c Hk Hc _ _. simpl. set_solver.
Qed.

Lemma existsb_hash db h : existsb (λ k, bool_decide (k_hash k = h)) (api_keys db) = false → h ∉ k_hash <$> api_keys db.
Proof.
  intros He (k & -> & Hk)%list_elem_of_fmap. apply not_true_iff_false in He. apply He, existsb_exists.
  exists k. split; [by apply list_elem_of_In|]. by apply bool_decide_eq_true.
Qed.

Lemma SQL_write_ok env w db : wf db →
  write_ok w db (run_write (S:=DB) env w db).1 (run_write (S:=DB) env w db).2.
Proof.
  intros Hwf. destruct w as [n|n|n h l|n i|n l|n r|n r|n rs]; simpl.
  - unfold SQL_AddCaller. destruct (fault env 0); [by apply write_ok_refl|].
    destruct (caller_by_name db n) eqn:En; [by apply write_ok_refl|]. by apply insert_caller_ok, caller_by_name_None.
  - unfold SQL_DeleteCaller. destruct (fault env 0); [by apply write_ok_refl|].
    destruct (caller_by_name db n) as [c|] eqn:En; [|by apply write_ok_refl].
    apply caller_by_name_Some in En as [Hc <-]; [|done]. by apply delete_caller_ok.
  - unfold SQL_AddKey. destruct (select_id env 0 db n) as [id|] eqn:Es; [|by apply write_ok_refl].
    apply select_id_Ok in Es as (c & Hc & _ & <-); [|done]. destruct (fault env 1); [by apply write_ok_refl|].
    destruct (existsb _ _) eqn:He; [by apply write_ok_refl|].
    apply add_key_ok; [done|by apply list_elem_of_fmap_2|by apply existsb_hash].
  - by apply delete_keys_ok.
  - by apply delete_keys_ok.
  - unfold SQL_AssignRole. destruct (select_id env 0 db n) as [id|] eqn:Es; [|by apply write_ok_refl].
    apply select_id_Ok in Es as (c & Hc & <- & <-); [|done]. destruct (fault env 1); [by apply write_ok_refl|].
    by apply insert_role_ok.
  - unfold SQL_UnassignRole. destruct (select_id env 0 db n) as [id|] eqn:Es; [|by apply write_ok_refl].
    apply select_id_Ok in Es as (c & Hc & Hn & <-); [|done]. destruct (fault env 1); [by apply write_ok_refl|].
    case_bool_decide; [by apply unassign_ok|by apply write_ok_refl].
  - unfold SQL_EnsureCaller. destruct (fault env 0); [by apply write_ok_refl|].
    destruct (caller_by_name db n) eqn:En; [by apply write_ok_refl|]. by apply ensure_new_ok.
Qed.

(** The numbers that Postgres skips are not observable. *)
Lemma write_ok_burn w db db' r : wf db' →
  (∀ h, lookup_key db' h = lookup_key db h) → (∀ n, roles_of_db db' n = roles_of_db db n) → write_ok w db db' r.
Proof. intros Hwf Hk Hr. split; try done. intros h k Hl _. by rewrite Hk. Qed.

Lemma PG_write_ok env w db : wf db →
  write_ok w db (run_write (H:=PostgresStore) env w db).1 (run_write (H:=PostgresStore) env w db).2.
Proof.
  intros Hwf. pose proof (SQL_write_ok env w db Hwf) as Hs. destruct (wf_burn db Hwf) as [Hb1 Hb2].
  destruct w as [n|n|n h l|n i|n l|n r|n r|n rs]; try exact Hs; simpl in *.
  - unfold PG_AddCaller. unfold SQL_AddCaller in Hs. destruct (fault env 0); [done|].
    destruct (caller_by_name db n); [by apply write_ok_burn|done].
  - unfold PG_AddKey. unfold SQL_AddKey in Hs. destruct (select_id env 0 db n); [|done]. destruct (fault env 1); [done|].
    destruct (existsb _ _); [by apply write_ok_burn|done].
  - unfold PG_EnsureCaller. unfold SQL_EnsureCaller in Hs. destruct (fault env 0); [done|].
    destruct (caller_by_name db n) eqn:En; [by apply write_ok_burn|by apply ensure_new_ok].
Qed.

Lemma db_lookup_law env h (db db' : DB) r : SQL_LookupByKey env h db = (db', r) →
  db' = db ∧ ∀ k, r = Ok k → lookup_key db h = Some k.
Proof.
  unfold SQL_LookupByKey. intros [= <- <-]. split; [done|]. intros k. destruct (fault env 0); [done|].
  destruct (lookup_key db h); by intros; simplify_eq.
Qed.

Lemma db_roles_law env n (db db' : DB) r : SQL_RolesForCaller env n db = (db', r) →
  db' = db ∧ ∀ l, r = Ok l → l = roles_of_db db n.
Proof.
  unfold SQL_RolesForCaller. intros [= <- <-]. split; [done|]. intros k. destruct (fault env 0); [done|]. by intros; simplify_eq.
Qed.

#[refine] #[global] Instance SQLiteStore_laws : StoreLaws DBEnv DB :=
  {| store_inv := wf; key_owner := lookup_key; roles_of := roles_of_db; lookup_law := db_lookup_law; roles_law := db_roles_law |}.
Proof.
  - intros e w s s' r Hwf Hr. pose proof (wo_wf _ _ _ _ (SQL_write_ok e w s Hwf)) as Hx. by rewrite Hr in Hx.
  - intros e w s s' r h k Hwf Hr Hk Hn. pose proof (wo_keys _ _ _ _ (SQL_write_ok e w s Hwf) h k Hk Hn) as Hx. by rewrite Hr in Hx.
  - intros e w s s' r n Hwf Hr Hn. pose proof (wo_roles _ _ _ _ (SQL_write_ok e w s Hwf) n Hn) as Hx. by rewrite Hr in Hx.
  - intros e w s s' x Hwf Hr He. pose proof (wo_failed _ _ _ _ (SQL_write_ok e w s Hwf)) as Hx. rewrite Hr in Hx. by apply Hx.
Defined.

#[refine] Definition PostgresStore_laws : @StoreLaws DBEnv DB PostgresStore :=
  @Build_StoreLaws DBEnv DB PostgresStore wf lookup_key roles_of_db db_lookup_law db_roles_law _ _ _ _.
Proof.
  - intros e w s s' r Hwf Hr. pose proof (wo_wf _ _ _ _ (PG_write_ok e w s Hwf)) as Hx. by rewrite Hr in Hx.
  - intros e w s s' r h k Hwf Hr Hk Hn. pose proof (wo_keys _ _ _ _ (PG_write_ok e w s Hwf) h k Hk Hn) as Hx. by rewrite Hr in Hx.
  - intros e w s s' r n Hwf Hr Hn. pose proof (wo_roles _ _ _ _ (PG_write_ok e w s Hwf) n Hn) as Hx. by rewrite Hr in Hx.
  - intros e w s s' x Hwf Hr He. pose proof (wo_failed _ _ _ _ (PG_write_ok e w s Hwf)) as Hx. rewrite Hr in Hx. by apply Hx.
Defined.

(** ** Properties of the store *)

(** Writes one after the other, each with its own faults. *)
Definition run_writes {S} `{Store DBEnv S} (ws : list (DBEnv * write)) (s : S) : S :=
  foldl (λ s ew, (run_write ew.1 ew.2 s).1) s ws.

Lemma run_writes_wf ws db : wf db → wf (run_writes (S:=DB) ws db) ∧ wf (run_writes (H:=PostgresStore) ws db).
Proof.
  unfold run_writes. intros Hwf. split; revert db Hwf; induction ws as [|[e w] ws IH]; intros db Hwf; try done; apply IH; simpl.
  - apply SQL_write_ok, Hwf.
  - apply PG_write_ok, Hwf.
Qed.

(** C27: whatever writes are made and wherever the database fails, the tables of
    either backend satisfy the constraints of the schema: names, hashes and
    identifiers are unique, and every key and role belongs to a caller that
    exists. *)
Theorem constraints_hold ws :
  wf (run_writes (S:=DB) ws empty_db) ∧ wf (run_writes (H:=PostgresStore) ws empty_db).
Proof. apply run_writes_wf, wf_empty. Qed.

Lemma add_key_lookup env n h l db db' h' :
  wf db → SQL_AddKey env n h l db = (db', Ok tt) →
  lookup_key db' h = Some (MkLookup n l) ∧ (h' ≠ h → lookup_key db' h' = lookup_key db h').
Proof.
  intros Hwf Ha. pose proof (SQL_write_ok env (WAddKey n h l) db Hwf) as Hok. simpl in Hok. rewrite Ha in Hok. simpl in Hok.
  unfold SQL_AddKey in Ha. destruct (select_id env 0 db n) as [id|] eqn:Es; [|done].
  apply select_id_Ok in Es as (c & Hc & <- & <-); [|done]. destruct (fault env 1); [done|].
  destruct (existsb _ _) eqn:He; [done|]. injection Ha as <-. split.
  - apply lookup_key_Some; [apply Hok|]. eexists _, c. split_and!; [apply elem_of_app; right; left|done..].
  - intros Hne. apply option_eq. intros r. rewrite !lookup_key_Some by (done || apply Hok). simpl.
    split; [|intros (k & d & ? & ?); exists k, d; set_solver].
    intros (k & d & [Hk|Hk]%elem_of_app & Hh & Hd); [by exists k, d|].
    apply list_elem_of_singleton in Hk as ->. by simpl in Hh.
Qed.

(** A key that was added identifies its caller, with its label, on the next
    lookup, and no other key is affected. *)
Theorem added_key_found env n h l db db' h' :
  wf db → SQL_AddKey env n h l db = (db', Ok tt) →
  lookup_key db' h = Some (MkLookup n l) ∧ (h' ≠ h → lookup_key db' h' = lookup_key db h').
Proof. apply add_key_lookup. Qed.

Lemma revoked_label_gone env n l db db' h :
  wf db → SQL_RevokeKey env n l db = (db', Ok tt) → lookup_key db' h ≠ Some (MkLookup n l).
Proof.
  intros Hwf Hr Hl. pose proof (SQL_write_ok env (WRevokeKey n l) db Hwf) as Hok. simpl in Hok. rewrite Hr in Hok. simpl in Hok.
  apply lookup_key_Some in Hl as (k & c & Hk & _ & Hc & Hi & Heq); [|apply Hok]. injection Heq as Hn Hlab.
  unfold SQL_RevokeKey, delete_keys in Hr. destruct (fault env 0); [done|].
  destruct (existsb _ _); [|done]. injection Hr as <-. simpl in *.
  apply list_elem_of_filter in Hk as [Hd _].
  rewrite (proj2 (caller_by_name_Some db n c Hwf)) in Hd by done.
  by rewrite !bool_decide_eq_true_2 in Hd by congruence.
Qed.

(** Revocation is complete: after a key of a caller is revoked by label, no
    key of that caller with that label identifies anybody; after a caller is
    deleted, none of its keys does and it has no roles, also once a caller of
    the same name is created again. *)
Theorem revocation_complete env n l db :
  wf db →
  (∀ db', SQL_RevokeKey env n l db = (db', Ok tt) → ∀ h, lookup_key db' h ≠ Some (MkLookup n l)) ∧
  (∀ db', SQL_DeleteCaller env n db = (db', Ok tt) →
    ∀ env' db'', (db'' = db' ∨ SQL_AddCaller env' n db' = (db'', Ok tt)) →
      (∀ h k, lookup_key db'' h = Some k → lk_name k ≠ n) ∧ roles_of_db db'' n = []).
Proof.
  intros Hwf. split.
  - intros db' Hr h. by eapply revoked_label_gone.
  - intros db' Hd. pose proof (SQL_write_ok env (WDeleteCaller n) db Hwf) as Hok. simpl in Hok. rewrite Hd in Hok. simpl in Hok.
    assert (n ∉ c_name <$> callers db') as Hgone.
    { unfold SQL_DeleteCaller in Hd. destruct (fault env 0); [done|]. destruct (caller_by_name db n) as [c0|]; [|done].
      injection Hd as <-. simpl. intros (c & -> & [Hne _]%list_elem_of_filter)%list_elem_of_fmap. done. }
    intros env' db'' Hdb''.
    assert (wf db'' ∧ api_keys db'' = api_keys db' ∧ caller_roles db'' = caller_roles db' ∧
      ∀ c, c ∈ callers db'' → c_name c = n → c_id c = next_caller db') as (Hwf'' & Hk'' & Hr'' & Hnew).
    { destruct Hdb'' as [->|Ha].
      - split_and!; try done; [apply Hok|]. intros c Hc <-. destruct Hgone. by apply list_elem_of_fmap_2.
      - pose proof (SQL_write_ok env' (WAddCaller n) db' (wo_wf _ _ _ _ Hok)) as Hok'. simpl in Hok'. rewrite Ha in Hok'.
        unfold SQL_AddCaller in Ha. destruct (fault env' 0); [done|]. destruct (caller_by_name db' n); [done|].
        injection Ha as <-. split_and!; [apply Hok'|done|done|]. simpl. intros c [Hc|Hc]%elem_of_app <-.
        + destruct Hgone. by apply list_elem_of_fmap_2.
        + by apply list_elem_of_singleton in Hc as ->. }
    destruct Hok as [Hwf' _ _ _]. split.
    + intros h k (kr & c & Hk & _ & Hc & Hi & ->)%lookup_key_Some Hn; [|done]. simpl in Hn. rewrite Hk'' in Hk.
      pose proof (wf_key_fk _ Hwf' kr Hk) as (d & Hd' & Hdin)%list_elem_of_fmap.
      pose proof (wf_next_caller _ Hwf' d Hdin). specialize (Hnew c Hc Hn). lia.
    + unfold roles_of_db. rewrite Hr'', filter_none; [done|].
      intros r Hin (c & Hc & Hi & Hn)%owned_by_true; [|done].
      pose proof (wf_role_fk _ Hwf' r Hin) as (d & Hd' & Hdin)%list_elem_of_fmap.
      pose proof (wf_next_caller _ Hwf' d Hdin). specialize (Hnew c Hc Hn). lia.
Qed.

(** Provisioning is not atomic: if the database fails after the caller has
    been inserted, the caller stays without its default roles, and provisioning
    the same caller again does not assign them. *)
Theorem provisioning_not_atomic n roles env env' db :
  fault env 0 = false → fault env 1 = true → fault env' 0 = false → roles ≠ [] →
  wf db → caller_by_name db n = None →
  let db1 := (SQL_EnsureCaller env n roles db).1 in
  SQL_EnsureCaller env n roles db = (db1, Err ErrDB) ∧
  SQL_EnsureCaller env' n roles db1 = (db1, Ok tt) ∧ roles_of_db db1 n = [].
Proof.
  intros H0 H1 H2 Hne Hwf Hn. unfold SQL_EnsureCaller. rewrite H0, H2, Hn.
  destruct roles as [|r roles]; [done|]. cbn [assign_defaults]. rewrite H1. cbn [fst]. split; [done|].
  apply caller_by_name_None in Hn.
  pose proof (wf_insert_caller env n db Hwf Hn) as Hwf'.
  assert (caller_by_name (insert_caller env n db) n = Some (CallerRow (next_caller db) n (db_now env))) as ->.
  { apply caller_by_name_Some; [done|]. simpl. set_solver. }
  split; [done|]. rewrite insert_caller_roles by done. unfold roles_of_db.
  rewrite filter_none; [done|]. intros x Hx (c & Hc & _ & <-)%owned_by_true; [|done].
  destruct Hn. by apply list_elem_of_fmap_2.
Qed.

(** ** Runs on concrete tables *)

Definition no_faults : DBEnv := MkDBEnv (λ _, false) 0.

Definition sample_db : DB :=
  run_writes (S:=DB)
    ((λ w, (no_faults, w)) <$> [WAddCaller "ann"; WAddCaller "bob"; WAddKey "ann" "h1" "laptop";
       WAddKey "bob" "h2" "ci"; WAssignRole "ann" "dev"; WAssignRole "ann" "dev"]) empty_db.

Lemma sample_db_wf : wf sample_db.
Proof. apply run_writes_wf, wf_empty. Qed.

Lemma added_key_found_witness :
  let db' := (SQL_AddKey no_faults "bob" "h3" "phone" sample_db).1 in
  lookup_key db' "h3" = Some (MkLookup "bob" "phone") ∧ ("h1" ≠ "h3" → lookup_key db' "h1" = lookup_key sample_db "h1").
Proof.
  apply (added_key_found no_faults "bob" "h3" "phone" sample_db); [apply sample_db_wf|vm_compute; reflexivity].
Defined.

Lemma revocation_complete_witness :
  lookup_key sample_db "h1" = Some (MkLookup "ann" "laptop") ∧
  ∀ h, lookup_key (SQL_RevokeKey no_faults "ann" "laptop" sample_db).1 h ≠ Some (MkLookup "ann" "laptop").
Proof.
  split; [vm_compute; reflexivity|].
  apply (revocation_complete no_faults "ann" "laptop" sample_db); [apply sample_db_wf|vm_compute; reflexivity].
Defined.

Lemma provisioning_not_atomic_witness :
  let env := MkDBEnv (λ i, bool_decide (i = 1%nat)) 0 in
  let db1 := (SQL_EnsureCaller env "eve" ["dev"] sample_db).1 in
  SQL_EnsureCaller env "eve" ["dev"] sample_db = (db1, Err ErrDB) ∧
  SQL_EnsureCaller no_faults "eve" ["dev"] db1 = (db1, Ok tt) ∧ roles_of_db db1 "eve" = [].
Proof.
  apply (provisioning_not_atomic "eve" ["dev"]); try reflexivity; [done|apply sample_db_wf].
Defined.
