(* ===== verification/CachedStore.v ===== *)
(** * The credential cache ([internal/auth/cached_store.go], [pg_notify.go])

    [CachedStore] in front of any store that keeps the promises of
    [StoreLaws]. Three views: the operations of the cache, which make it a store
    again; their sequential behaviour (the cache is transparent); and their
    concurrent behaviour, where a lookup is three separate steps (cache, inner
    store, fill) and other instances write to the same database. *)

From stdpp Require Import relations.
From S2P Require Import Prelude GoLib AuthStore.
Import GoStr.

Record CacheStats := MkStats {
  keyHits : Z; keyMisses : Z; roleHits : Z; roleMisses : Z; evictions : Z;
}.

Record CachedStore (S : Type) := MkCache {
  inner : S;
  ttl : Z;
  byKeyHash : gmap string (KeyLookupResult * Z);     (* value, expiresAt *)
  reverseIndex : gmap string (gset string);
  rolesByName : gmap string (list string * Z);
  stats : CacheStats;
  notify : option (list (string * string));          (* nil, or what was sent *)
}.
Arguments MkCache {S}. Arguments inner {S}. Arguments ttl {S}. Arguments byKeyHash {S}.
Arguments reverseIndex {S}. Arguments rolesByName {S}. Arguments stats {S}. Arguments notify {S}.

(** The environment of a call: the inner store's, and the clock. *)
Record CacheEnv (E : Type) := MkCacheEnv { inner_env : E; cache_now : Z }.
Arguments MkCacheEnv {E}. Arguments inner_env {E}. Arguments cache_now {E}.

(** [now.After(e.expiresAt)] *)
Definition expired {A} (now : Z) (e : A * Z) : bool := e.2 <? now.

Section cache.
Context {E S : Type} `{Store E S}.
Implicit Types c : CachedStore S.

Definition set_inner c (s : S) : CachedStore S :=
  MkCache s (ttl c) (byKeyHash c) (reverseIndex c) (rolesByName c) (stats c) (notify c).
Definition count_stats c (f : CacheStats → CacheStats) : CachedStore S :=
  MkCache (inner c) (ttl c) (byKeyHash c) (reverseIndex c) (rolesByName c) (f (stats c)) (notify c).

(** [NewCachedStore]; a zero TTL means no cache. *)
Definition NewCachedStore (s : S) (t : Z) : S + CachedStore S :=
  if bool_decide (t = 0) then inl s
  else inr (MkCache s t ∅ ∅ ∅ (MkStats 0 0 0 0 0) None).

Definition SetNotify c : CachedStore S :=
  MkCache (inner c) (ttl c) (byKeyHash c) (reverseIndex c) (rolesByName c) (stats c) (Some []).

Definition sendNotify (kind callerName : string) c : CachedStore S :=
  MkCache (inner c) (ttl c) (byKeyHash c) (reverseIndex c) (rolesByName c) (stats c)
    ((λ l, l ++ [(kind, callerName)]) <$> notify c).

(** ** Reads *)

(** The entry that a lookup finds, if it is still valid. *)
Definition key_hit (now : Z) (h : string) c : option KeyLookupResult :=
  match byKeyHash c !! h with
  | Some e => if expired now e then None else Some e.1
  | None => None
  end.

(** Under the write lock: the entry and the reverse index. *)
Definition fill_key (now : Z) (h : string) (r : KeyLookupResult) c : CachedStore S :=
  MkCache (inner c) (ttl c) (<[h := (r, now + ttl c)]> (byKeyHash c))
    (<[lk_name r := {[h]} ∪ default ∅ (reverseIndex c !! lk_name r)]> (reverseIndex c))
    (rolesByName c) (stats c) (notify c).

Definition Cached_LookupByKey (env : CacheEnv E) (h : string) c : CachedStore S * result store_error KeyLookupResult :=
  match key_hit (cache_now env) h c with
  | Some v =>
      (count_stats c (λ s, MkStats (keyHits s + 1) (keyMisses s) (roleHits s) (roleMisses s) (evictions s)), Ok v)
  | None =>
      let c := count_stats c (λ s, MkStats (keyHits s) (keyMisses s + 1) (roleHits s) (roleMisses s) (evictions s)) in
      match LookupByKey (inner_env env) h (inner c) with
      | (s, Err e) => (set_inner c s, Err e)
      | (s, Ok r) => (fill_key (cache_now env) h r (set_inner c s), Ok r)
      end
  end.

Definition role_hit (now : Z) (n : string) c : option (list string) :=
  match rolesByName c !! n with
  | Some e => if expired now e then None else Some e.1
  | None => None
  end.

Definition fill_roles (now : Z) (n : string) (roles : list string) c : CachedStore S :=
  MkCache (inner c) (ttl c) (byKeyHash c) (reverseIndex c) (<[n := (roles, now + ttl c)]> (rolesByName c))
    (stats c) (notify c).

Definition Cached_RolesForCaller (env : CacheEnv E) (name : string) c : CachedStore S * result store_error (list string) :=
  match role_hit (cache_now env) name c with
  | Some v =>
      (count_stats c (λ s, MkStats (keyHits s) (keyMisses s) (roleHits s + 1) (roleMisses s) (evictions s)), Ok v)
  | None =>
      let c := count_stats c (λ s, MkStats (keyHits s) (keyMisses s) (roleHits s) (roleMisses s + 1) (evictions s)) in
      match RolesForCaller (inner_env env) name (inner c) with
      | (s, Err e) => (set_inner c s, Err e)
      | (s, Ok r) => (fill_roles (cache_now env) name r (set_inner c s), Ok r)
      end
  end.

(** ** Eviction *)

Definition count_evictions (n : nat) c : CachedStore S :=
  count_stats c (λ s, MkStats (keyHits s) (keyMisses s) (roleHits s) (roleMisses s) (evictions s + Z.of_nat n)).

Definition evictKeysForCaller (callerName : string) c : CachedStore S :=
  let hashes := default ∅ (reverseIndex c !! callerName) in
  count_evictions (size hashes)
    (MkCache (inner c) (ttl c) (filter (λ kv, kv.1 ∉ hashes) (byKeyHash c)) (delete callerName (reverseIndex c))
       (rolesByName c) (stats c) (notify c)).

Definition evictRoles (callerName : string) c : CachedStore S :=
  let existed := match rolesByName c !! callerName with Some _ => 1%nat | None => 0%nat end in
  count_evictions existed
    (MkCache (inner c) (ttl c) (byKeyHash c) (reverseIndex c) (delete callerName (rolesByName c)) (stats c) (notify c)).

Definition flushLocal c : CachedStore S :=
  count_evictions (size (byKeyHash c) + size (rolesByName c))
    (MkCache (inner c) (ttl c) ∅ ∅ ∅ (stats c) (notify c)).

Definition Flush c : CachedStore S := sendNotify "flush" "" (flushLocal c).

(** [Stats], with the sizes of the two maps. *)
Definition Stats c : nat * nat * CacheStats := (size (byKeyHash c), size (rolesByName c), stats c).

(** ** Writes: the inner store first, then eviction and notification *)

(** Pass a call through to the inner store. *)
Definition through {A} (f : S → S * result store_error A) c : CachedStore S * result store_error A :=
  let '(s, r) := f (inner c) in (set_inner c s, r).

Definition then_evict (f : S → S * result store_error unit) (after : CachedStore S → CachedStore S) c :
    CachedStore S * result store_error unit :=
  match through f c with
  | (c, Err e) => (c, Err e)
  | (c, Ok tt) => (after c, Ok tt)
  end.

Definition Cached_DeleteCaller (env : CacheEnv E) (name : string) :=
  then_evict (DeleteCaller (inner_env env) name)
    (λ c, sendNotify "roles" name (sendNotify "keys" name (evictRoles name (evictKeysForCaller name c)))).
Definition Cached_DeleteKey (env : CacheEnv E) (callerName : string) (keyID : Z) :=
  then_evict (DeleteKey (inner_env env) callerName keyID) (λ c, sendNotify "keys" callerName (evictKeysForCaller callerName c)).
Definition Cached_RevokeKey (env : CacheEnv E) (callerName label : string) :=
  then_evict (RevokeKey (inner_env env) callerName label) (λ c, sendNotify "keys" callerName (evictKeysForCaller callerName c)).
Definition Cached_AssignRole (env : CacheEnv E) (callerName role : string) :=
  then_evict (AssignRole (inner_env env) callerName role) (λ c, sendNotify "roles" callerName (evictRoles callerName c)).
Definition Cached_UnassignRole (env : CacheEnv E) (callerName role : string) :=
  then_evict (UnassignRole (inner_env env) callerName role) (λ c, sendNotify "roles" callerName (evictRoles callerName c)).
Definition Cached_EnsureCaller (env : CacheEnv E) (name : string) (defaultRoles : list string) :=
  then_evict (EnsureCaller (inner_env env) name defaultRoles) (λ c, sendNotify "roles" name (evictRoles name c)).

#[global] Instance CachedStore_Store : Store (CacheEnv E) (CachedStore S) := {|
  LookupByKey := Cached_LookupByKey;
  RolesForCaller := Cached_RolesForCaller;
  AddCaller env n := through (AddCaller (inner_env env) n);
  DeleteCaller := Cached_DeleteCaller;
  ListCallers env := through (ListCallers (inner_env env));
  GetCaller env n := through (GetCaller (inner_env env) n);
  AddKey env n h l := through (AddKey (inner_env env) n h l);
  ListKeys env n := through (ListKeys (inner_env env) n);
  DeleteKey := Cached_DeleteKey;
  RevokeKey := Cached_RevokeKey;
  KeyCountForCaller env n := through (KeyCountForCaller (inner_env env) n);
  AssignRole := Cached_AssignRole;
  UnassignRole := Cached_UnassignRole;
  EnsureCaller := Cached_EnsureCaller;
  CallerExists env n := through (CallerExists (inner_env env) n);
|}.

(** ** Lookups under way *)

(** What a lookup that missed has learned from the inner store, with the clock
    reading it started from, and has yet to put into the cache. *)
Inductive lookup_answer :=
| KeyAnswer (now : Z) (h : string) (k : KeyLookupResult)
| RolesAnswer (now : Z) (n : string) (roles : list string).

Definition fill_answer (a : lookup_answer) c : CachedStore S :=
  match a with
  | KeyAnswer now h k => fill_key now h k c
  | RolesAnswer now n roles => fill_roles now n roles c
  end.

(** The first two parts of a lookup: the cache misses, and the inner store
    answers. *)
Definition missing (env : CacheEnv E) (a : lookup_answer) c : Prop :=
  match a with
  | KeyAnswer now h _ => now = cache_now env ∧ key_hit now h c = None
  | RolesAnswer now n _ => now = cache_now env ∧ role_hit now n c = None
  end.
Definition inner_answers (env : CacheEnv E) (a : lookup_answer) c : Prop :=
  match a with
  | KeyAnswer _ h k => (LookupByKey (inner_env env) h (inner c)).2 = Ok k
  | RolesAnswer _ n roles => (RolesForCaller (inner_env env) n (inner c)).2 = Ok roles
  end.

(** ** Notifications of other instances ([pg_notify.go]) *)

(** The payload that [NotifyFunc] sends. *)
Definition payload (kind callerName : string) : string := kind +:+ ":" +:+ callerName.

Definition handleNotification (p : string) c : CachedStore S :=
  if bool_decide (p = "flush:") then flushLocal c
  else match SplitN p ":" 2 with
       | [kind; callerName] =>
           if bool_decide (kind = "keys") then evictKeysForCaller callerName c
           else if bool_decide (kind = "roles") then evictRoles callerName c
           else c
       | _ => c
       end.
End cache.

(** ** The cache is transparent *)

Section coherence.
Context {E S : Type} `{StoreLaws E S}.
Implicit Types c : CachedStore S.

(** The callers whose provisioning may fail halfway. *)
Variable F : string → Prop.

(** Every entry is what the inner store says now, and can be found for
    eviction through the reverse index; the roles of callers in [F] may be stale. *)
Record coherent c : Prop := {
  co_inv : store_inv (inner c);
  co_keys : ∀ h v t, byKeyHash c !! h = Some (v, t) → key_owner (inner c) h = Some v;
  co_index : ∀ h v t, byKeyHash c !! h = Some (v, t) → h ∈ default ∅ (reverseIndex c !! lk_name v);
  co_roles : ∀ n l t, rolesByName c !! n = Some (l, t) → ¬ F n → l = roles_of (inner c) n;
}.

Lemma coherent_new s t : store_inv s → coherent (MkCache s t ∅ ∅ ∅ (MkStats 0 0 0 0 0) None).
Proof. by split. Qed.

Lemma coherent_stats c f : coherent c → coherent (count_stats c f).
Proof. by destruct 1. Qed.

Lemma coherent_notify c k n : coherent c → coherent (sendNotify k n c).
Proof. by destruct 1. Qed.

Lemma coherent_fill_key now h r c :
  coherent c → key_owner (inner c) h = Some r → coherent (fill_key now h r c).
Proof.
  intros [Hi Hk Hx Hr] Ho. split; simpl; try done.
  - intros h' v t. destruct (decide (h = h')) as [<-|Hne].
    + rewrite lookup_insert_eq. by intros [= <- _].
    + rewrite lookup_insert_ne by done. apply Hk.
  - intros h' v t Hl.
    assert (h' = h ∧ v = r ∨ h' ∈ default ∅ (reverseIndex c !! lk_name v)) as Hcase.
    { destruct (decide (h = h')) as [<-|Hne].
      - rewrite lookup_insert_eq in Hl. left. by simplify_eq.
      - rewrite lookup_insert_ne in Hl by done. right. by eapply Hx. }
    destruct (decide (lk_name r = lk_name v)) as [Heq|Hne].
    + rewrite Heq, lookup_insert_eq. simpl. destruct Hcase as [[-> ->]|]; set_solver.
    + rewrite lookup_insert_ne by done. destruct Hcase as [[-> ->]|]; done.
Qed.

Lemma coherent_fill_roles now n l c : coherent c → l = roles_of (inner c) n → coherent (fill_roles now n l c).
Proof.
  intros [Hi Hk Hx Hr] ->. split; simpl; try done. intros n' l t. destruct (decide (n = n')) as [<-|Hne].
  - rewrite lookup_insert_eq. by intros [= <- _] _.
  - rewrite lookup_insert_ne by done. apply Hr.
Qed.

(** Eviction repairs what a write to the inner store may have made stale. *)
Record nearly (ks rs : option string) c : Prop := {
  ne_inv : store_inv (inner c);
  ne_keys : ∀ h v t, byKeyHash c !! h = Some (v, t) → ks ≠ Some (lk_name v) → key_owner (inner c) h = Some v;
  ne_index : ∀ h v t, byKeyHash c !! h = Some (v, t) → h ∈ default ∅ (reverseIndex c !! lk_name v);
  ne_roles : ∀ n l t, rolesByName c !! n = Some (l, t) → ¬ F n → rs ≠ Some n → l = roles_of (inner c) n;
}.

Lemma nearly_coherent c : nearly None None c → coherent c.
Proof. intros [Hi Hk Hx Hr]. split; [done|intros; by eapply Hk|done|intros; by eapply Hr]. Qed.

Lemma coherent_nearly c : coherent c → nearly None None c.
Proof. intros [Hi Hk Hx Hr]. split; [done|intros; by eapply Hk|done|intros; by eapply Hr]. Qed.

Lemma nearly_stats ks rs c f : nearly ks rs c → nearly ks rs (count_stats c f).
Proof. by destruct 1. Qed.

Lemma nearly_evict_keys n rs c : nearly (Some n) rs c → nearly None rs (evictKeysForCaller n c).
Proof.
  intros [Hi Hk Hx Hr]. apply nearly_stats. split; simpl; try done.
  - intros h v t [Hl Hn]%map_lookup_filter_Some _. eapply Hk; [done|]. intros Heq. simplify_eq.
    apply Hn. simpl. by eapply Hx.
  - intros h v t [Hl Hn]%map_lookup_filter_Some. simpl in Hn. pose proof (Hx _ _ _ Hl) as Hin.
    destruct (decide (n = lk_name v)) as [->|Hne]; [done|]. by rewrite lookup_delete_ne.
Qed.

Lemma nearly_evict_roles n ks c : nearly ks (Some n) c → nearly ks None (evictRoles n c).
Proof.
  intros [Hi Hk Hx Hr]. apply nearly_stats. split; simpl; try done.
  intros n' l t Hl HF _. destruct (decide (n = n')) as [<-|Hne]; [by rewrite lookup_delete_eq in Hl|].
  rewrite lookup_delete_ne in Hl by done. eapply Hr; [done..|congruence].
Qed.

Lemma nearly_weaken ks rs c : nearly None None c → nearly ks rs c.
Proof. intros [Hi Hk Hx Hr]. split; try done; intros; [by eapply Hk|by eapply Hr]. Qed.

(** The inner write. *)
Lemma coherent_write e w c s r :
  coherent c → run_write e w (inner c) = (s, r) → nearly (revokes_from w) (regroups w) (set_inner c s).
Proof.
  intros [Hi Hk Hx Hr] Hw. split; simpl; try done.
  - by eapply write_inv.
  - intros h v t Hl Hn. eapply write_keys; eauto.
  - intros n l t Hl HF Hn. rewrite (write_roles _ _ _ _ _ n Hi Hw) by done. by eapply Hr.
Qed.

Lemma coherent_failed e w c s x :
  coherent c → run_write e w (inner c) = (s, Err x) → is_ensure w = false → coherent (set_inner c s).
Proof.
  intros [Hi Hk Hx Hr] Hw He. destruct (write_failed _ _ _ _ _ Hi Hw He) as [Hk' Hr']. split; simpl; try done.
  - by eapply write_inv.
  - intros h v t Hl. rewrite Hk'. by eapply Hk.
  - intros n l t Hl HF. rewrite Hr'. by eapply Hr.
Qed.

(** A provisioning that failed for a caller in [F]. *)
Lemma coherent_half e n rs c s x :
  coherent c → run_write e (WEnsureCaller n rs) (inner c) = (s, Err x) → F n → coherent (set_inner c s).
Proof.
  intros Hc Hw HF. destruct (coherent_write _ _ _ _ _ Hc Hw) as [Hi Hk Hx Hr].
  split; [done|intros; by eapply Hk|done|]. intros m l t Hl Hm. apply (Hr m l t Hl Hm). simpl. congruence.
Qed.

(** What each write of the cache does after the inner write. *)
Definition after_write (w : write) (c : CachedStore S) : CachedStore S :=
  match w with
  | WAddCaller _ | WAddKey _ _ _ => c
  | WDeleteCaller n => sendNotify "roles" n (sendNotify "keys" n (evictRoles n (evictKeysForCaller n c)))
  | WDeleteKey n _ | WRevokeKey n _ => sendNotify "keys" n (evictKeysForCaller n c)
  | WAssignRole n _ | WUnassignRole n _ | WEnsureCaller n _ => sendNotify "roles" n (evictRoles n c)
  end.

Lemma cached_write env w c :
  run_write (S:=CachedStore S) env w c =
  let '(s, r) := run_write (inner_env env) w (inner c) in
  match r with
  | Ok tt => (after_write w (set_inner c s), Ok tt)
  | Err e => (set_inner c s, Err e)
  end.
Proof.
  destruct w; simpl; unfold Cached_DeleteCaller, Cached_DeleteKey, Cached_RevokeKey, Cached_AssignRole,
    Cached_UnassignRole, Cached_EnsureCaller, then_evict, through;
    match goal with |- context [let '(_, _) := ?x in _] => destruct x as [s [[]|e]]; done end.
Qed.

Lemma after_write_coherent w c : nearly (revokes_from w) (regroups w) c → coherent (after_write w c).
Proof.
  intros Hn. destruct w; simpl in *; repeat apply coherent_notify; apply nearly_coherent; try done;
    repeat first [apply nearly_evict_roles | apply nearly_evict_keys]; done.
Qed.

(** One operation on the cache of a single instance. A provisioning that fails
    may have changed roles, and is not followed by an eviction. *)
Inductive cstep : CachedStore S → CachedStore S → Prop :=
| cs_lookup env h c : cstep c (LookupByKey env h c).1
| cs_roles env n c : cstep c (RolesForCaller env n c).1
| cs_write env w c :
    (∀ n rs, w = WEnsureCaller n rs → is_ok (run_write env w c).2 = true ∨ F n) → cstep c (run_write env w c).1
| cs_flush c : cstep c (Flush c)
| cs_notified p c : cstep c (handleNotification p c).

Lemma coherent_lookup env h c : coherent c → coherent (Cached_LookupByKey env h c).1.
Proof.
  intros Hc. unfold Cached_LookupByKey. destruct (key_hit _ h c); [by apply coherent_stats|].
  destruct (LookupByKey (inner_env env) h (inner _)) as [s [r|e]] eqn:El; apply lookup_law in El as [-> Hk]; simpl in *.
  - apply coherent_fill_key; [by destruct Hc|]. simpl. by apply Hk.
  - by destruct Hc.
Qed.

Lemma coherent_roles env n c : coherent c → coherent (Cached_RolesForCaller env n c).1.
Proof.
  intros Hc. unfold Cached_RolesForCaller. destruct (role_hit _ n c); [by apply coherent_stats|].
  destruct (RolesForCaller (inner_env env) n (inner _)) as [s [r|e]] eqn:El; apply roles_law in El as [-> Hk]; simpl in *.
  - apply coherent_fill_roles; [by destruct Hc|]. simpl. by apply Hk.
  - by destruct Hc.
Qed.

Lemma coherent_evict_keys n c : coherent c → coherent (evictKeysForCaller n c).
Proof. intros Hc. by apply nearly_coherent, nearly_evict_keys, nearly_weaken, coherent_nearly. Qed.

Lemma coherent_evict_roles n c : coherent c → coherent (evictRoles n c).
Proof. intros Hc. by apply nearly_coherent, nearly_evict_roles, nearly_weaken, coherent_nearly. Qed.

Lemma coherent_flush c : coherent c → coherent (flushLocal c).
Proof. intros Hc. apply coherent_stats. split; simpl; try done. apply Hc. Qed.

Lemma cstep_coherent c c' : cstep c c' → coherent c → coherent c'.
Proof.
  destruct 1 as [env h c|env n c|env w c He|c|p c]; intros Hc.
  - by apply coherent_lookup.
  - by apply coherent_roles.
  - rewrite cached_write in *. destruct (run_write (inner_env env) w (inner c)) as [s [[]|x]] eqn:Ew; simpl in *.
    + apply after_write_coherent. by eapply coherent_write.
    + destruct (is_ensure w) eqn:Ee; [|by eapply coherent_failed]. destruct w as [| | | | | | |n rs]; try done.
      destruct (He n rs eq_refl); [done|]. by eapply coherent_half.
  - by apply coherent_notify, coherent_flush.
  - unfold handleNotification. repeat case_match; auto using coherent_flush, coherent_evict_keys, coherent_evict_roles.
Qed.

Lemma csteps_coherent c c' : rtc cstep c c' → coherent c → coherent c'.
Proof. induction 1; eauto using cstep_coherent. Qed.

Lemma hit_fresh now h v c : coherent c → key_hit now h c = Some v → key_owner (inner c) h = Some v.
Proof.
  intros Hc. unfold key_hit. destruct (byKeyHash c !! h) as [[v' t]|] eqn:El; [|done].
  destruct (expired now _); [done|]. intros [= <-]. by eapply co_keys.
Qed.

Lemma role_hit_fresh now n l c : coherent c → ¬ F n → role_hit now n c = Some l → l = roles_of (inner c) n.
Proof.
  intros Hc HF. unfold role_hit. destruct (rolesByName c !! n) as [[v' t]|] eqn:El; [|done].
  destruct (expired now _); [done|]. intros [= <-]. by eapply co_roles.
Qed.

Lemma lookup_fresh env h c c' k :
  coherent c → Cached_LookupByKey env h c = (c', Ok k) → key_owner (inner c) h = Some k.
Proof.
  intros Hc. unfold Cached_LookupByKey. destruct (key_hit _ h c) eqn:Eh.
  - intros [= _ <-]. by eapply hit_fresh.
  - destruct (LookupByKey (inner_env env) h (inner _)) as [s [r|e]] eqn:El; [|done].
    apply lookup_law in El as [_ Hk]. intros [= _ <-]. by apply Hk.
Qed.

(** C14: on one instance, whose operations run one after the other, the cache is
    transparent: after any sequence of lookups, writes through the cache (failed ones
    too), flushes and notifications, a key that is accepted is one that the inner
    store accepts now, for the same caller and label, and whatever key the inner
    store would accept is accepted. Roles that are returned are the current ones,
    except for the callers (in [F]) whose provisioning has failed halfway. *)
Theorem cache_transparent s t c env h n :
  store_inv s → rtc cstep (MkCache s t ∅ ∅ ∅ (MkStats 0 0 0 0 0) None) c →
  (∀ k, (LookupByKey env h c).2 = Ok k → key_owner (inner c) h = Some k) ∧
  (¬ F n → ∀ l, (RolesForCaller env n c).2 = Ok l → l = roles_of (inner c) n) ∧
  (∀ k, (LookupByKey (inner_env env) h (inner c)).2 = Ok k → (LookupByKey env h c).2 = Ok k).
Proof.
  intros Hs Hr. apply csteps_coherent in Hr as Hc; [|by apply coherent_new]. simpl. split_and!.
  - intros k Hk. destruct (Cached_LookupByKey env h c) as [c' r] eqn:El. simpl in Hk. subst r. by eapply lookup_fresh.
  - intros HF l. unfold Cached_RolesForCaller. destruct (role_hit _ n c) eqn:Eh.
    + intros [= <-]. by eapply role_hit_fresh.
    + destruct (RolesForCaller (inner_env env) n (inner _)) as [s' [r|e]] eqn:El; [|done].
      apply roles_law in El as [_ Hk]. intros [= <-]. by apply Hk.
  - intros k Hk. unfold Cached_LookupByKey. destruct (key_hit _ h c) as [v|] eqn:Eh.
    + simpl. f_equal. apply hit_fresh in Eh; [|done].
      destruct (LookupByKey (inner_env env) h (inner c)) as [s' r] eqn:El. simpl in Hk. subst r.
      apply lookup_law in El as [_ Hk]. specialize (Hk k eq_refl). congruence.
    + simpl. by destruct (LookupByKey (inner_env env) h (inner c)) as [s' [r|e]].
Qed.
End coherence.

(** With the SQL stores behind the cache, a key that has been revoked
    through the cache is rejected from then on: the next lookup of any key does
    not yield the revoked label of that caller. *)
Theorem revoked_key_rejected F db t c n l env env' h :
  wf db → rtc (cstep (E:=DBEnv) F) (MkCache db t ∅ ∅ ∅ (MkStats 0 0 0 0 0) None) c →
  (RevokeKey env n l c).2 = Ok tt → (LookupByKey env' h (RevokeKey env n l c).1).2 ≠ Ok (MkLookup n l).
Proof.
  intros Hwf Hr Hrev Hl. apply csteps_coherent in Hr as Hc; [|by apply coherent_new].
  assert (coherent F (RevokeKey env n l c).1) as Hc'.
  { eapply cstep_coherent; [|exact Hc]. by apply (cs_write F env (WRevokeKey n l) c). }
  destruct (LookupByKey env' h (RevokeKey env n l c).1) as [c2 r] eqn:El. simpl in Hl. subst r.
  apply (lookup_fresh (E:=DBEnv) F) in El; [|done]. revert El Hrev. simpl. unfold Cached_RevokeKey, then_evict, through. simpl.
  destruct (SQL_RevokeKey (inner_env env) n l (inner c)) as [db' [[]|e]] eqn:Er; [|done]. simpl. intros El _.
  by eapply (revoked_label_gone _ _ _ (inner c)); [apply Hc|exact Er|exact El].
Qed.

Lemma payload_split k n : no_byte ":" k = true → SplitN (payload k n) ":" 2 = [k; n].
Proof.
  intros Hk. unfold payload. cbn [SplitN]. change (k +:+ ":" +:+ n) with (k +:+ String ":" n). by rewrite Cut_app.
Qed.

(** An invalidation reaches the cache of another instance whatever the
    caller's name: the payload that one instance sends makes the other evict
    exactly that caller's keys or roles, or everything for a flush. *)
Theorem notification_delivered {S} (c : CachedStore S) n :
  handleNotification (payload "keys" n) c = evictKeysForCaller n c ∧
  handleNotification (payload "roles" n) c = evictRoles n c ∧
  handleNotification (payload "flush" "") c = flushLocal c.
Proof.
  unfold handleNotification. split_and!; rewrite ?bool_decide_eq_true_2 by done; try done;
    rewrite bool_decide_eq_false_2 by done; by rewrite payload_split.
Qed.

(** ** Concurrent lookups and other writers *)

Section staleness.
Context {E S : Type} `{StoreLaws E S}.

(** Lookups in progress that missed ([asked]) and that have their answer from
    the inner store ([answered]), each with the clock reading it started
    from; [seen] records what the inner store was at the moments it was read. *)
Record world := MkWorld {
  clock : Z;
  cached : CachedStore S;
  asked : list (string * Z);
  answered : list (string * Z * KeyLookupResult);
  seen : list (Z * S);
}.

Inductive wstep : world → world → Prop :=
| ws_tick w t : clock w ≤ t → wstep w (MkWorld t (cached w) (asked w) (answered w) (seen w))
| ws_other_writer w s :
    wstep w (MkWorld (clock w) (set_inner (cached w) s) (asked w) (answered w) (seen w))
| ws_miss w h :
    key_hit (clock w) h (cached w) = None →
    wstep w (MkWorld (clock w) (cached w) ((h, clock w) :: asked w) (answered w) (seen w))
| ws_inner w h t e k s :
    (h, t) ∈ asked w → LookupByKey e h (inner (cached w)) = (s, Ok k) →
    wstep w (MkWorld (clock w) (cached w) (asked w) ((h, t, k) :: answered w) ((clock w, inner (cached w)) :: seen w))
| ws_fill w h t k :
    (h, t, k) ∈ answered w →
    wstep w (MkWorld (clock w) (fill_key t h k (cached w)) (asked w) (answered w) (seen w))
| ws_evict w n : wstep w (MkWorld (clock w) (evictKeysForCaller n (cached w)) (asked w) (answered w) (seen w))
| ws_flush w : wstep w (MkWorld (clock w) (flushLocal (cached w)) (asked w) (answered w) (seen w)).

(** [k] was the answer of the inner store for [h] at some time since [t]. *)
Definition seen_since (w : world) (t : Z) (h : string) (k : KeyLookupResult) : Prop :=
  ∃ τ s, (τ, s) ∈ seen w ∧ t ≤ τ ∧ τ ≤ clock w ∧ key_owner s h = Some k.

Record timely (w : world) : Prop := {
  ti_asked : ∀ h t, (h, t) ∈ asked w → t ≤ clock w;
  ti_answered : ∀ h t k, (h, t, k) ∈ answered w → seen_since w t h k;
  ti_cached : ∀ h k t, byKeyHash (cached w) !! h = Some (k, t) → seen_since w (t - ttl (cached w)) h k;
}.

Lemma seen_since_mono w w' t h k :
  clock w ≤ clock w' → (∀ x, x ∈ seen w → x ∈ seen w') → seen_since w t h k → seen_since w' t h k.
Proof. intros Hc Hs (τ & s & ? & ? & ? & ?). exists τ, s. split_and!; auto; lia. Qed.

Lemma wstep_timely w w' : wstep w w' → timely w → timely w'.
Proof.
  destruct 1 as [w t Ht|w s|w h Hm|w h t e k s Ha Hl|w h t k Ha|w n|w]; intros [H1 H2 H3].
  - split; simpl.
    + intros h u Hin. specialize (H1 h u Hin). lia.
    + intros h u k Hin. by eapply (seen_since_mono w), H2.
    + intros h k u Hin. by eapply (seen_since_mono w), H3.
  - by split.
  - split; simpl; try done. intros h' t [Heq|Hin]%elem_of_cons; [simplify_eq; lia|by eapply H1].
  - apply lookup_law in Hl as [-> Hk]. split; simpl; try done.
    + intros h' t' k' [Heq|Hin]%elem_of_cons.
      * simplify_eq. exists (clock w), (inner (cached w)). simpl. split_and!; [left|by eapply H1|lia|by apply Hk].
      * eapply (seen_since_mono w); [done| |by eapply H2]. simpl. set_solver.
    + intros h' k' t' Hin. eapply (seen_since_mono w); [done| |by eapply H3]. simpl. set_solver.
  - split; simpl; try done. intros h' k' t'. destruct (decide (h = h')) as [<-|Hne].
    + rewrite lookup_insert_eq. intros [= <- <-]. replace (t + ttl (cached w) - ttl (cached w)) with t by lia. by apply H2.
    + rewrite lookup_insert_ne by done. apply H3.
  - split; simpl; try done. intros h k t [Hl _]%map_lookup_filter_Some. by apply H3.
  - split; simpl; try done.
Qed.

Lemma wsteps_timely w w' : rtc wstep w w' → timely w → timely w'.
Proof. induction 1; eauto using wstep_timely. Qed.

Definition start (s : S) (t : Z) : world := MkWorld 0 (MkCache s t ∅ ∅ ∅ (MkStats 0 0 0 0 0) None) [] [] [].

(** C15: staleness is bounded by the TTL, however lookups interleave with
    evictions and with writers on this or other instances: a key that is
    accepted from the cache is one that the inner store accepted at some
    moment within the last TTL, for the same caller and label. *)
Theorem staleness_bounded s t w h k :
  rtc wstep (start s t) w → key_hit (clock w) h (cached w) = Some k →
  seen_since w (clock w - ttl (cached w)) h k.
Proof.
  intros Hr Hh. apply wsteps_timely in Hr as [_ _ H3]; [|by split; simpl; try set_solver].
  unfold key_hit in Hh. destruct (byKeyHash (cached w) !! h) as [[v u]|] eqn:El; [|done].
  unfold expired in Hh. simpl in Hh. destruct (Z.ltb_spec u (clock w)); [done|]. simplify_eq.
  destruct (H3 _ _ _ El) as (τ & s' & ? & ? & ? & ?). exists τ, s'. split_and!; try done. lia.
Qed.
End staleness.

(** ** Runs on the sample tables *)

Lemma start_lookup db t h k :
  lookup_key db h = Some k → rtc (wstep (E:=DBEnv)) (start db t)
    (MkWorld 0 (fill_key 0 h k (cached (start db t))) [(h, 0)] [(h, 0, k)] [(0, db)]).
Proof.
  intros Hk. eapply rtc_l; [by apply (ws_miss (E:=DBEnv) _ h)|].
  eapply rtc_l; [apply (ws_inner (E:=DBEnv) _ h 0 no_faults k db); [left|]|].
  - simpl. unfold SQL_LookupByKey. simpl. by rewrite Hk.
  - refine (rtc_once _ _ (ws_fill (E:=DBEnv) (MkWorld 0 (cached (start db t)) [(h, 0)] [(h, 0, k)] [(0, db)]) h 0 k _)). left.
Qed.

Lemma staleness_bounded_witness :
  seen_since (MkWorld 0 (fill_key 0 "h1" (MkLookup "ann" "laptop") (cached (start sample_db 60)))
    [("h1", 0)] [("h1", 0, MkLookup "ann" "laptop")] [(0, sample_db)]) (0 - 60) "h1" (MkLookup "ann" "laptop").
Proof.
  apply (staleness_bounded (E:=DBEnv) sample_db 60); [apply start_lookup; vm_compute; reflexivity|reflexivity].
Defined.

Lemma cache_transparent_witness :
  let env := MkCacheEnv no_faults 5 in
  let c := (LookupByKey env "h1" (MkCache sample_db 60 ∅ ∅ ∅ (MkStats 0 0 0 0 0) None)).1 in
  keyHits (stats (LookupByKey env "h1" c).1) = 1 ∧
  ∀ k, (LookupByKey env "h1" c).2 = Ok k → lookup_key (inner c) "h1" = Some k.
Proof.
  intros env c. split; [vm_compute; reflexivity|].
  refine (proj1 (cache_transparent (E:=DBEnv) (H0:=SQLiteStore_laws) (λ _, False) sample_db 60 c env "h1" "ann" _ _)).
  - apply sample_db_wf.
  - apply rtc_once. apply (cs_lookup (E:=DBEnv) _ env "h1").
Defined.

Lemma revoked_key_rejected_witness :
  let c := (LookupByKey (MkCacheEnv no_faults 5) "h1" (MkCache sample_db 60 ∅ ∅ ∅ (MkStats 0 0 0 0 0) None)).1 in
  let env := MkCacheEnv no_faults 6 in
  (LookupByKey env "h1" (RevokeKey env "ann" "laptop" c).1).2 ≠ Ok (MkLookup "ann" "laptop").
Proof.
  intros c env. apply (revoked_key_rejected (λ _, False) sample_db 60 c); [apply sample_db_wf| |vm_compute; reflexivity].
  apply rtc_once. apply (cs_lookup (E:=DBEnv) _ (MkCacheEnv no_faults 5) "h1").
Defined.

(** A provisioning that fails leaves what it has changed hidden behind the cache:
    here a new caller has its first role in the store, and none in the cache. *)
Theorem failed_provisioning_stale :
  let env := MkCacheEnv no_faults 5 in
  let c := (RolesForCaller env "eve" (MkCache sample_db 60 ∅ ∅ ∅ (MkStats 0 0 0 0 0) None)).1 in
  let '(c', r) := EnsureCaller (MkCacheEnv (MkDBEnv (λ i, bool_decide (i = 2%nat)) 0) 5) "eve" ["dev"; "ops"] c in
  is_ok r = false ∧ roles_of_db (inner c') "eve" = ["dev"] ∧ (RolesForCaller env "eve" c').2 = Ok [].
Proof. vm_compute. done. Qed.

(** A lookup that is under way while its key is revoked can put the revoked
    key back: it has the inner store's answer, the key is then revoked and
    evicted, and its fill makes the cache accept the key again, although the
    inner store refuses it. *)
Theorem revoked_key_revived :
  ∃ w, rtc (wstep (E:=DBEnv)) (start sample_db 60) w ∧
    inner (cached w) = (SQL_RevokeKey no_faults "ann" "laptop" sample_db).1 ∧
    lookup_key (inner (cached w)) "h1" = None ∧
    key_hit (clock w) "h1" (cached w) = Some (MkLookup "ann" "laptop").
Proof.
  eexists. split.
  { eapply rtc_l; [by apply (ws_miss (E:=DBEnv) _ "h1")|].
    eapply rtc_l; [by apply (ws_inner (E:=DBEnv) _ "h1" 0 no_faults (MkLookup "ann" "laptop") sample_db); [left|]|].
    eapply rtc_l; [by apply (ws_other_writer (E:=DBEnv) _ (SQL_RevokeKey no_faults "ann" "laptop" sample_db).1)|].
    eapply rtc_l; [by apply (ws_evict (E:=DBEnv) _ "ann")|].
    apply rtc_once. by apply (ws_fill (E:=DBEnv) _ "h1" 0 (MkLookup "ann" "laptop")); left. }
  split_and!; vm_compute; reflexivity.
Qed.
