(* ===== verification/Cluster.v ===== *)
(** * Several gateways on one database ([internal/auth/pg_notify.go])

    Each instance has its cache in front of the shared store, and a listener on a
    connection of its own, which may be lost and made again. A write evicts on its
    own instance; its notifications are then sent through the database, which
    queues them for every connection that listens at that moment, the sender's too.
    The step relation interleaves the operations of all instances with sending,
    delivery and reconnection, and with lookups that have their answer from the
    database and put it into the cache later. What an instance misses, and why, is
    remembered. *)

From stdpp Require Import relations.
From S2P Require Import Prelude GoLib AuthStore CachedStore.
Import GoStr.

#[global] Instance KeyLookupResult_eq_dec : EqDecision KeyLookupResult.
Proof. solve_decision. Defined.

Section cluster.
Context {E S : Type} `{StoreLaws E S}.

(** An operation of one instance. *)
Inductive op :=
| OpLookup (h : string)
| OpRoles (n : string)
| OpWrite (w : write)
| OpFlush.

Definition run_op (env : CacheEnv E) (o : op) (c : CachedStore S) : CachedStore S :=
  match o with
  | OpLookup h => (Cached_LookupByKey env h c).1
  | OpRoles n => (Cached_RolesForCaller env n c).1
  | OpWrite w => (run_write env w c).1
  | OpFlush => Flush c
  end.

(** Why an instance is not told that a caller has changed: the notification was
    sent while its listener had no connection, was lost with the connection, or could
    not be sent at all; or an answer was put into the cache after the database had
    changed; or a provisioning failed halfway and so sent nothing. *)
Inductive reason := Unconnected | ConnectionLost | NotifyFailed | Overtaken | HalfProvisioned.

(** [queue] is what the listener's connection has received, [None] while there
    is no connection that listens; [flight] are the answers of lookups under way;
    [missed] are the payloads that this instance has not received and will not. *)
Record instance := MkInstance {
  cache : CachedStore S;
  queue : option (list string);
  flight : list lookup_answer;
  missed : list (reason * string);
}.

(** The shared store, the instances, and the payloads of writes that are done
    but whose NOTIFY is not. *)
Record cluster := MkCluster {
  shared : S;
  instances : gmap nat instance;
  outgoing : list string;
}.

Definition no_entries (c : CachedStore S) : bool := bool_decide (byKeyHash c = ∅) && bool_decide (rolesByName c = ∅).

(** The cache of an instance on the shared store, before it has sent anything. *)
Definition on_shared (s : S) (c : CachedStore S) : CachedStore S := SetNotify (set_inner c s).

(** The payloads that [NotifyFunc] makes of what was sent. *)
Definition payloads (c : CachedStore S) : list string := (λ kn, payload kn.1 kn.2) <$> default [] (notify c).

Definition set_cache (c : CachedStore S) (i : instance) : instance := MkInstance c (queue i) (flight i) (missed i).

Definition miss (r : reason) (p : string) (i : instance) : instance :=
  MkInstance (cache i) (queue i) (flight i) ((r, p) :: missed i).

(** A NOTIFY reaches the connections that listen. *)
Definition receive (p : string) (i : instance) : instance :=
  match queue i with
  | Some q => MkInstance (cache i) (Some (q ++ [p])) (flight i) (missed i)
  | None => miss Unconnected p i
  end.

(** The caller of a provisioning that failed. *)
Definition half_provisioned (env : CacheEnv E) (o : op) (c : CachedStore S) : option string :=
  match o with
  | OpWrite (WEnsureCaller n rs) => if is_ok (run_write env (WEnsureCaller n rs) c).2 then None else Some n
  | _ => None
  end.

(** Whether an answer is still that of the store, and the payload that would have
    invalidated it. *)
Definition current (a : lookup_answer) (s : S) : bool :=
  match a with
  | KeyAnswer _ h k => bool_decide (key_owner s h = Some k)
  | RolesAnswer _ n roles => bool_decide (roles = roles_of s n)
  end.
Definition invalidates (a : lookup_answer) : string :=
  match a with KeyAnswer _ _ k => payload "keys" (lk_name k) | RolesAnswer _ n _ => payload "roles" n end.

(** The last part of a lookup. *)
Definition fill_in (s : S) (a : lookup_answer) (rest : list lookup_answer) (i : instance) : instance :=
  let i := MkInstance (fill_answer a (cache i)) (queue i) rest (missed i) in
  if current a s then i else miss Overtaken (invalidates a) i.

(** [cl_listen] is [listenLoop] up to the LISTEN, [cl_handle] a turn of its loop,
    [cl_lost] its return when waiting fails; [listen] then calls it again. A failed
    NOTIFY is logged and dropped. *)
Inductive cl_step : cluster → cluster → Prop :=
| cl_operate cl k i env o :
    instances cl !! k = Some i →
    let c0 := on_shared (shared cl) (cache i) in
    let c := run_op env o c0 in
    let insts := <[k := set_cache c i]> (instances cl) in
    cl_step cl (MkCluster (inner c)
      (match half_provisioned env o c0 with Some n => miss HalfProvisioned (payload "roles" n) <$> insts | None => insts end)
      (outgoing cl ++ payloads c))
| cl_answer cl k i env a :
    instances cl !! k = Some i →
    missing env a (set_inner (cache i) (shared cl)) → inner_answers env a (set_inner (cache i) (shared cl)) →
    cl_step cl (MkCluster (shared cl)
      (<[k := MkInstance (cache i) (queue i) (a :: flight i) (missed i)]> (instances cl)) (outgoing cl))
| cl_fill cl k i before a after :
    instances cl !! k = Some i → flight i = before ++ a :: after →
    cl_step cl (MkCluster (shared cl) (<[k := fill_in (shared cl) a (before ++ after) i]> (instances cl)) (outgoing cl))
| cl_send cl ps p ps' :
    outgoing cl = ps ++ p :: ps' →
    cl_step cl (MkCluster (shared cl) (receive p <$> instances cl) (ps ++ ps'))
| cl_send_fails cl ps p ps' :
    outgoing cl = ps ++ p :: ps' →
    cl_step cl (MkCluster (shared cl) (miss NotifyFailed p <$> instances cl) (ps ++ ps'))
| cl_listen cl k i :
    instances cl !! k = Some i → queue i = None →
    cl_step cl (MkCluster (shared cl)
      (<[k := MkInstance (cache i) (Some []) (flight i) (if no_entries (cache i) then [] else missed i)]> (instances cl)) (outgoing cl))
| cl_handle cl k i p q :
    instances cl !! k = Some i → queue i = Some (p :: q) →
    cl_step cl (MkCluster (shared cl)
      (<[k := MkInstance (handleNotification p (cache i)) (Some q) (flight i) (filter (λ rp, rp.2 ≠ p) (missed i))]> (instances cl))
      (outgoing cl))
| cl_lost cl k i :
    instances cl !! k = Some i →
    cl_step cl (MkCluster (shared cl)
      (<[k := MkInstance (cache i) None (flight i) ((pair ConnectionLost <$> default [] (queue i)) ++ missed i)]> (instances cl))
      (outgoing cl)).

(** Gateways that have just started: empty caches, no listener yet. *)
Definition started (t : Z) (s : S) : instance := MkInstance (MkCache s t ∅ ∅ ∅ (MkStats 0 0 0 0 0) None) None [] [].

Definition cl_start (t : Z) (n : nat) (s : S) : cluster :=
  MkCluster s (list_to_map ((λ k, (k, started t s)) <$> seq 0 n)) [].

(** ** Staleness is announced *)

(** Every entry of a cache that is not what [s] says belongs to a caller in [K]
    (keys) or [R] (roles). *)
Record within (K R : string → Prop) (s : S) (c : CachedStore S) : Prop := {
  wi_keys : ∀ h v t, byKeyHash c !! h = Some (v, t) → ¬ K (lk_name v) → key_owner s h = Some v;
  wi_index : ∀ h v t, byKeyHash c !! h = Some (v, t) → h ∈ default ∅ (reverseIndex c !! lk_name v);
  wi_roles : ∀ n l t, rolesByName c !! n = Some (l, t) → ¬ R n → l = roles_of s n;
}.

Lemma within_empty K R s c : no_entries c = true → within K R s c.
Proof.
  unfold no_entries. rewrite andb_true_iff, !bool_decide_eq_true. intros [Hk Hr].
  split; intros *; rewrite ?Hk, ?Hr; by rewrite lookup_empty.
Qed.

Lemma within_mono (K R K' R' : string → Prop) s c :
  (∀ n, K n → K' n) → (∀ n, R n → R' n) → within K R s c → within K' R' s c.
Proof. intros HK HR [Hk Hx Hr]. split; [|done|]; eauto. Qed.

(** A write of another instance. *)
Lemma within_write (K R K' R' : string → Prop) e w s s' r c :
  store_inv s → run_write e w s = (s', r) →
  (∀ n, K n ∨ revokes_from w = Some n → K' n) → (∀ n, R n ∨ regroups w = Some n → R' n) →
  within K R s c → within K' R' s' c.
Proof.
  intros Hi Hw HK HR [Hk Hx Hr]. split; [|done|].
  - intros h v t Hl Hn. eapply write_keys; [done|done| |intros Heq; apply Hn, HK; by right].
    eapply Hk; [done|]. intros HKn. apply Hn, HK. by left.
  - intros n l t Hl Hn. rewrite (write_roles e w s s' r n Hi Hw); [|intros Heq; apply Hn, HR; by right].
    eapply Hr; [done|]. intros HRn. apply Hn, HR. by left.
Qed.

(** A write that failed. *)
Lemma within_failed K R e w s s' x c :
  store_inv s → run_write e w s = (s', Err x) → is_ensure w = false → within K R s c → within K R s' c.
Proof.
  intros Hi Hw He [Hk Hx Hr]. destruct (write_failed _ _ _ _ _ Hi Hw He) as [Hko Hro]. split; [|done|].
  - intros h v t Hl Hn. rewrite Hko. eauto.
  - intros n l t Hl Hn. rewrite Hro. eauto.
Qed.

(** Operations only read these three maps. *)
Lemma within_maps K R s c c' :
  byKeyHash c' = byKeyHash c → reverseIndex c' = reverseIndex c → rolesByName c' = rolesByName c → within K R s c → within K R s c'.
Proof. intros Hk Hx Hr [H1 H2 H3]. split; intros *; rewrite ?Hk, ?Hx, ?Hr; eauto. Qed.

Lemma within_notify K R s kind n c : within K R s c → within K R s (sendNotify kind n c).
Proof. by apply within_maps. Qed.

Lemma within_fill_key K R s now h v c : (¬ K (lk_name v) → key_owner s h = Some v) → within K R s c → within K R s (fill_key now h v c).
Proof.
  intros Ho [Hk Hx Hr]. split; simpl; [| |done].
  - intros h' v' t. destruct (decide (h = h')) as [<-|Hne]; [rewrite lookup_insert_eq; intros [= <- _]; exact Ho|].
    rewrite lookup_insert_ne by done. eauto.
  - intros h' v' t. destruct (decide (h = h')) as [<-|Hne].
    + rewrite lookup_insert_eq. intros [= <- _]. rewrite lookup_insert_eq. set_solver.
    + rewrite lookup_insert_ne by done. intros Hl%Hx. destruct (decide (lk_name v = lk_name v')) as [Heq|Hn].
      * rewrite Heq, lookup_insert_eq. rewrite <- Heq in Hl. rewrite <- Heq. set_solver.
      * by rewrite lookup_insert_ne.
Qed.

Lemma within_fill_roles K (R : string → Prop) s now n l c : (¬ R n → l = roles_of s n) →
  within K R s c → within K R s (fill_roles now n l c).
Proof.
  intros Ho [Hk Hx Hr]. split; simpl; [done..|]. intros n' l' t. destruct (decide (n = n')) as [<-|Hne].
  - rewrite lookup_insert_eq. intros [= <- _]. exact Ho.
  - rewrite lookup_insert_ne by done. eauto.
Qed.

Lemma within_evict_keys (K K' : string → Prop) R s n c :
  (∀ m, K m → m = n ∨ K' m) → within K R s c → within K' R s (evictKeysForCaller n c).
Proof.
  intros HK [Hk Hx Hr]. split; simpl; [| |done].
  - intros h v t [Hl Hn]%map_lookup_filter_Some Hv. eapply Hk; [done|]. intros [Heq|]%HK; [|done].
    apply Hn. simpl. rewrite <- Heq. by eapply Hx.
  - intros h v t [Hl Hn]%map_lookup_filter_Some. simpl in Hn. pose proof (Hx _ _ _ Hl) as Hin.
    destruct (decide (n = lk_name v)) as [->|Hne]; [done|]. by rewrite lookup_delete_ne.
Qed.

Lemma within_evict_roles K (R R' : string → Prop) s n c :
  (∀ m, R m → m = n ∨ R' m) → within K R s c → within K R' s (evictRoles n c).
Proof.
  intros HR [Hk Hx Hr]. split; simpl; [done..|]. intros n' l t Hl Hn.
  destruct (decide (n = n')) as [<-|Hne]; [by rewrite lookup_delete_eq in Hl|]. rewrite lookup_delete_ne in Hl by done.
  eapply Hr; [done|]. intros [|]%HR; congruence.
Qed.

Lemma within_flush K R s c : within K R s (flushLocal c).
Proof. by apply within_empty. Qed.

(** A notification that is handled settles what it announced. *)
Lemma within_handle (K K' R R' : string → Prop) s p c :
  (∀ m, K m → p = payload "keys" m ∨ K' m) → (∀ m, R m → p = payload "roles" m ∨ R' m) →
  within K R s c → within K' R' s (handleNotification p c).
Proof.
  intros HK HR Hc. unfold handleNotification. destruct (bool_decide_reflect (p = "flush:")) as [|Hf]; [apply within_flush|].
  assert (∀ kind m, no_byte ":" kind = true → p = payload kind m → SplitN p ":" 2 = [kind; m]) as Hs
    by (intros kind m Hk ->; by apply payload_split).
  assert (∀ m, K m → SplitN p ":" 2 = ["keys"; m] ∨ K' m) as HK2 by (intros m [Hp|]%HK; [left; by apply Hs|by right]).
  assert (∀ m, R m → SplitN p ":" 2 = ["roles"; m] ∨ R' m) as HR2 by (intros m [Hp|]%HR; [left; by apply Hs|by right]).
  clear HK HR Hs Hf. destruct (SplitN p ":" 2) as [|kind [|name [|]]];
    try (eapply within_mono; [| |exact Hc]; [intros m [|]%HK2|intros m [|]%HR2]; done).
  destruct (bool_decide_reflect (kind = "keys")) as [->|Hnk]; [|destruct (bool_decide_reflect (kind = "roles")) as [->|Hnr]].
  - eapply within_evict_keys; [|eapply within_mono; [intros m HKm; exact HKm| |exact Hc]].
    + intros m [Heq|]%HK2; [left; by injection Heq|by right].
    + intros m [|]%HR2; done.
  - eapply within_evict_roles; [|eapply within_mono; [| |exact Hc]].
    + intros m [Heq|]%HR2; [left; by injection Heq|by right].
    + intros m [|]%HK2; done.
    + done.
  - eapply within_mono; [| |exact Hc]; [intros m [Heq|]%HK2|intros m [Heq|]%HR2]; congruence.
Qed.

Lemma after_write_payloads w (c : CachedStore S) : notify c = Some [] →
  (∀ n, revokes_from w = Some n → payload "keys" n ∈ payloads (after_write w c)) ∧
  (∀ n, regroups w = Some n → payload "roles" n ∈ payloads (after_write w c)).
Proof.
  intros Hn. unfold payloads. split; intros n Hw; destruct w; simplify_eq/=; rewrite Hn; simpl; set_solver.
Qed.

Lemma after_write_inner w (c : CachedStore S) : inner (after_write w c) = inner c.
Proof. by destruct w. Qed.

(** The writer evicts what it made stale. *)
Lemma within_after_write (K R : string → Prop) w s c :
  within (λ n, K n ∨ revokes_from w = Some n) (λ n, R n ∨ regroups w = Some n) s c → within K R s (after_write w c).
Proof.
  assert (∀ X : string → Prop, ∀ n m, X m ∨ Some n = Some m → m = n ∨ X m) as He by (intros X n m [|[= ->]]; auto).
  assert (∀ X : string → Prop, ∀ m, X m ∨ None = Some m → X m) as Hd by (intros X m [|]; done).
  intros Hc. destruct w; cbn [after_write revokes_from regroups] in *; repeat apply within_notify;
    try (eapply within_mono; [apply Hd|apply Hd|exact Hc]).
  - eapply within_evict_roles; [apply He|]. by eapply within_evict_keys; [apply He|].
  - eapply within_evict_keys; [apply He|]. by eapply within_mono; [| |exact Hc]; [done|apply Hd].
  - eapply within_evict_keys; [apply He|]. by eapply within_mono; [| |exact Hc]; [done|apply Hd].
  - eapply within_evict_roles; [apply He|]. by eapply within_mono; [| |exact Hc]; [apply Hd|done].
  - eapply within_evict_roles; [apply He|]. by eapply within_mono; [| |exact Hc]; [apply Hd|done].
  - eapply within_evict_roles; [apply He|]. by eapply within_mono; [| |exact Hc]; [apply Hd|done].
Qed.

Lemma within_on_shared K R s s' c : within K R s c → within K R s (on_shared s' c).
Proof. by apply within_maps. Qed.

(** What an operation keeps: its own cache is no worse than before, and what it
    makes stale elsewhere is announced; [half] is the caller it has provisioned
    halfway. *)
Record operation_ok (half : option string) (s : S) (c c' : CachedStore S) : Prop := {
  oo_inv : store_inv (inner c');
  oo_own : ∀ K R, within K R s c → within K (λ n, R n ∨ half = Some n) (inner c') c';
  oo_other : ∀ K R d, within K R s d →
    within (λ n, K n ∨ payload "keys" n ∈ payloads c') (λ n, R n ∨ payload "roles" n ∈ payloads c' ∨ half = Some n) (inner c') d;
}.

Lemma operation_reads s c c' : store_inv s → inner c' = s →
  (∀ K R, within K R s c → within K R s c') → operation_ok None s c c'.
Proof.
  intros Hi Hs Hown. split; rewrite Hs; [done|..].
  - intros K R Hc. eapply within_mono; [| |exact (Hown K R Hc)]; auto.
  - intros K R d Hd. eapply within_mono; [| |exact Hd]; auto.
Qed.

Lemma lookup_reads env h s c : store_inv s → operation_ok None s c (Cached_LookupByKey env h (on_shared s c)).1.
Proof.
  intros Hi. unfold Cached_LookupByKey. destruct (key_hit _ h _).
  { apply operation_reads; [done..|]. intros K R. by apply within_maps. }
  destruct (LookupByKey (inner_env env) h _) as [s' [v|e]] eqn:El; apply lookup_law in El as [-> Hk];
    (apply operation_reads; [done..|]); intros K R Hc; simpl.
  - apply within_fill_key; [intros _; by apply Hk|]. by eapply within_maps, Hc.
  - by eapply within_maps, Hc.
Qed.

Lemma roles_reads env n s c : store_inv s → operation_ok None s c (Cached_RolesForCaller env n (on_shared s c)).1.
Proof.
  intros Hi. unfold Cached_RolesForCaller. destruct (role_hit _ n _).
  { apply operation_reads; [done..|]. intros K R. by apply within_maps. }
  destruct (RolesForCaller (inner_env env) n _) as [s' [l|e]] eqn:El; apply roles_law in El as [-> Hl];
    (apply operation_reads; [done..|]); intros K R Hc; simpl.
  - apply within_fill_roles; [intros _; by apply Hl|]. by eapply within_maps, Hc.
  - by eapply within_maps, Hc.
Qed.

Lemma half_provisioned_write env w s c : half_provisioned env (OpWrite w) (on_shared s c) =
  match w, (run_write (inner_env env) w s).2 with WEnsureCaller n _, Err _ => Some n | _, _ => None end.
Proof.
  unfold half_provisioned. destruct w as [| | | | | | |n rs]; try done. rewrite cached_write.
  change (inner (on_shared s c)) with s. by destruct (run_write (inner_env env) _ s) as [s' [[]|x]].
Qed.

Lemma write_announced env w s c : store_inv s →
  operation_ok (half_provisioned env (OpWrite w) (on_shared s c)) s c (run_write env w (on_shared s c)).1.
Proof.
  intros Hi. rewrite half_provisioned_write, cached_write. change (inner (on_shared s c)) with s in *.
  destruct (run_write (inner_env env) w s) as [s' [[]|x]] eqn:Ew; simpl in *.
  - destruct (after_write_payloads w (set_inner (on_shared s c) s') eq_refl) as [Hk Hr].
    replace (match w with WEnsureCaller _ _ => None | _ => None end) with (@None string) by by destruct w.
    split; rewrite after_write_inner; simpl.
    + by eapply write_inv.
    + intros K R Hc. eapply within_mono; [intros n Hn; exact Hn|intros n Hn; left; exact Hn|].
      apply within_after_write. eapply within_write; [done|done| | |by eapply within_maps, Hc]; auto.
    + intros K R d Hd. eapply within_write; [done|done| | |exact Hd]; intros n [|]; auto.
  - destruct (is_ensure w) eqn:Ee.
    + destruct w as [| | | | | | |n rs]; try done. simpl in *.
      assert (∀ K R d, within K R s d → within K (λ m, R m ∨ Some n = Some m) s' d) as Hd.
      { intros K R d Hd. eapply (within_write _ _ _ _ _ (WEnsureCaller n rs)); [done|exact Ew| | |exact Hd]; simpl.
        - by intros m [|].
        - auto. }
      rewrite ?Ew. split; simpl; [by eapply (write_inv _ (WEnsureCaller n rs))|..].
      * intros K R Hc. apply (within_maps _ _ _ c); [done..|]. by apply Hd.
      * intros K R d Hc. eapply within_mono; [| |by apply (Hd K R d)]; [auto|intros m [|]; auto].
    + replace (match w with WEnsureCaller n _ => Some n | _ => None end) with (@None string) by by destruct w.
      split; simpl; [by eapply write_inv|..].
      * intros K R Hc. eapply within_mono; [| |apply (within_maps _ _ _ c); [done..|by eapply within_failed]]; auto.
      * intros K R d Hd. eapply within_mono; [| |by eapply within_failed]; auto.
Qed.

Lemma operate_announced env o s c : store_inv s →
  operation_ok (half_provisioned env o (on_shared s c)) s c (run_op env o (on_shared s c)).
Proof.
  intros Hi. destruct o as [h|n|w|]; [by apply lookup_reads|by apply roles_reads|by apply write_announced|].
  split; [done|by intros; apply within_notify, within_flush|].
  intros K R d Hd. eapply within_mono; [| |exact Hd]; auto.
Qed.

(** ** The invariant of the cluster *)

(** A notification is on its way to an instance. *)
Definition on_its_way (cl : cluster) (i : instance) (kind n : string) : Prop :=
  payload kind n ∈ outgoing cl ++ default [] (queue i).

(** ... or the instance has missed it. *)
Definition unsettled (cl : cluster) (i : instance) (kind n : string) : Prop :=
  on_its_way cl i kind n ∨ payload kind n ∈ (missed i).*2.

#[global] Instance unsettled_dec cl i kind n : Decision (unsettled cl i kind n).
Proof. unfold unsettled, on_its_way. apply _. Defined.

Record announced (cl : cluster) : Prop := {
  an_inv : store_inv (shared cl);
  an_cache : ∀ k i, instances cl !! k = Some i →
    within (unsettled cl i "keys") (unsettled cl i "roles") (shared cl) (cache i);
}.

Lemma announced_start t n s : store_inv s → announced (cl_start t n s).
Proof.
  intros Hs. split; [done|]. intros k i Hi. apply elem_of_list_to_map_2, list_elem_of_fmap in Hi as (? & [= -> ->] & _).
  by apply within_empty.
Qed.

(** One instance changes and the rest of the cluster stays. *)
Lemma announced_local cl k i : announced cl →
  within (unsettled cl i "keys") (unsettled cl i "roles") (shared cl) (cache i) →
  announced (MkCluster (shared cl) (<[k := i]> (instances cl)) (outgoing cl)).
Proof. intros [Hs Hc] Hi. split; [done|]. intros k' i'. simpl. intros [[<- <-]|[_ Hl]]%lookup_insert_Some; [done|exact (Hc k' i' Hl)]. Qed.

(** What every instance is told, or misses. *)
Lemma announced_all cl f ps : announced cl →
  (∀ i, cache (f i) = cache i ∧ ∀ kind n, unsettled cl i kind n → unsettled (MkCluster (shared cl) (f <$> instances cl) ps) (f i) kind n) →
  announced (MkCluster (shared cl) (f <$> instances cl) ps).
Proof.
  intros [Hs Hc] Hf. split; [done|]. simpl. intros k i' (i & <- & Hi)%lookup_fmap_Some. destruct (Hf i) as [-> Hu].
  eapply within_mono; [| |by apply (Hc k i)]; intros n; apply Hu.
Qed.

Lemma announced_operate cl k i env o : instances cl !! k = Some i → announced cl →
  let c0 := on_shared (shared cl) (cache i) in
  let c := run_op env o c0 in
  let insts := <[k := set_cache c i]> (instances cl) in
  announced (MkCluster (inner c)
    (match half_provisioned env o c0 with Some n => miss HalfProvisioned (payload "roles" n) <$> insts | None => insts end)
    (outgoing cl ++ payloads c)).
Proof.
  intros Hi [Hs Hc]. cbv zeta. destruct (operate_announced env o (shared cl) (cache i) Hs) as [Hinv Hown Hoth].
  set (c := run_op env o _) in *. set (half := half_provisioned _ _ _) in *. set (insts := <[k := set_cache c i]> (instances cl)).
  set (cl' := MkCluster (inner c) insts (outgoing cl ++ payloads c)).
  assert (∀ j kind n, unsettled cl j kind n ∨ payload kind n ∈ payloads c → unsettled cl' j kind n) as Hu.
  { unfold unsettled, on_its_way. simpl. intros j kind n. rewrite !elem_of_app. tauto. }
  assert (∀ k' i', insts !! k' = Some i' → within (unsettled cl' i' "keys") (λ n, unsettled cl' i' "roles" n ∨ half = Some n) (inner c) (cache i')) as Hw.
  { intros k' i' [[<- <-]|[_ Hl]]%lookup_insert_Some.
    - eapply within_mono; [| |apply Hown, (Hc _ _ Hi)].
      + intros n Hn. apply Hu. by left.
      + intros n [Hn|]; [left; apply Hu; by left|by right].
    - eapply within_mono; [| |apply Hoth, (Hc _ _ Hl)].
      + intros n Hn. by apply Hu.
      + intros n [Hn|[Hn|]]; [left; apply Hu; by left|left; apply Hu; by right|by right]. }
  split; [done|]. intros k' i'. simpl. destruct half as [n|].
  - intros (j & <- & Hj)%lookup_fmap_Some. eapply within_mono; [| |apply (Hw _ _ Hj)]; unfold unsettled, on_its_way; simpl; set_solver.
  - intros Hj. eapply within_mono; [| |apply (Hw _ _ Hj)]; [done|]. by intros m [|].
Qed.

Lemma announced_fill cl k i before a after : instances cl !! k = Some i → flight i = before ++ a :: after → announced cl →
  announced (MkCluster (shared cl) (<[k := fill_in (shared cl) a (before ++ after) i]> (instances cl)) (outgoing cl)).
Proof.
  intros Hi Hf Ha. apply announced_local; [done|]. pose proof (an_cache _ Ha k i Hi) as Hc.
  set (j := fill_in _ _ _ _).
  assert (∀ kind n, unsettled cl i kind n → unsettled cl j kind n) as Hu.
  { intros kind n. unfold j, fill_in, unsettled, on_its_way. destruct (current _ _); simpl; set_solver. }
  assert (cache j = fill_answer a (cache i)) as Hj by (unfold j, fill_in; by destruct (current _ _)).
  assert (within (unsettled cl j "keys") (unsettled cl j "roles") (shared cl) (cache i)) as Hw
    by (eapply within_mono; [| |exact Hc]; intros n; apply Hu).
  assert (current a (shared cl) = true ∨ invalidates a ∈ (missed j).*2) as Hm.
  { unfold j, fill_in. destruct (current _ _); simpl; [by left|right; set_solver]. }
  rewrite Hj. destruct a as [now h v|now n l]; simpl in *.
  - apply within_fill_key; [|done]. intros Hn. destruct Hm as [Hm%bool_decide_eq_true|Hm]; [done|]. destruct Hn. by right.
  - apply within_fill_roles; [|done]. intros Hn. destruct Hm as [Hm%bool_decide_eq_true|Hm]; [done|]. destruct Hn. by right.
Qed.

Lemma step_announced cl cl' : cl_step cl cl' → announced cl → announced cl'.
Proof.
  destruct 1 as [cl k i env o Hi c0 c insts|cl k i env a Hi Hm Hans|cl k i before a after Hi Hf|cl ps p ps' Hp|cl ps p ps' Hp|cl k i Hi Hq
    |cl k i p q Hi Hq|cl k i Hi]; intros Ha.
  - by apply announced_operate.
  - apply announced_local; [done|]. exact (an_cache _ Ha k i Hi).
  - by apply announced_fill.
  - apply announced_all; [done|]. intros i. unfold receive, unsettled, on_its_way. rewrite Hp.
    destruct (queue i) as [q|] eqn:Eq; simpl; rewrite ?Eq; (split; [done|]); set_solver.
  - apply announced_all; [done|]. intros i. split; [done|]. unfold unsettled, on_its_way. rewrite Hp. simpl. set_solver.
  - apply announced_local; [done|]. simpl. destruct (no_entries (cache i)) eqn:En; [by apply within_empty|].
    eapply within_mono; [| |by apply (an_cache _ Ha k i)]; unfold unsettled, on_its_way; simpl; rewrite Hq; done.
  - apply announced_local; [done|]. simpl.
    assert (∀ kind n, unsettled cl i kind n → p = payload kind n ∨
      unsettled cl (MkInstance (handleNotification p (cache i)) (Some q) (flight i) (filter (λ rp, rp.2 ≠ p) (missed i))) kind n) as Hu.
    { intros kind n. destruct (decide (p = payload kind n)) as [|Hne]; [by left|]. unfold unsettled, on_its_way. simpl. rewrite Hq. simpl.
      rewrite !elem_of_app, elem_of_cons, !list_elem_of_fmap. setoid_rewrite list_elem_of_filter. naive_solver. }
    eapply within_handle; [| |by apply (an_cache _ Ha k i)]; intros n; apply Hu.
  - apply announced_local; [done|]. simpl. eapply within_mono; [| |by apply (an_cache _ Ha k i)];
      unfold unsettled, on_its_way; simpl; intros n; rewrite fmap_app, <- list_fmap_compose; simpl;
      rewrite !elem_of_app; (replace (snd ∘ pair ConnectionLost <$> default [] (queue i)) with (default [] (queue i)) by (by rewrite list_fmap_id)); set_solver.
Qed.

Lemma reachable_announced t n s cl : store_inv s → rtc cl_step (cl_start t n s) cl → announced cl.
Proof.
  intros Hs Hr. pose proof (announced_start t n s Hs) as Ha. revert Ha. induction Hr; eauto using step_announced.
Qed.

(** C17: whatever the instances of a cluster do, and however their lookups, writes,
    notifications and reconnections interleave, an instance accepts a key only if the
    database accepts it now, for that caller and label, or an invalidation of that
    caller is still on its way to the instance, or the instance has missed one: it
    was sent while the listener had no connection, was lost with the connection or
    could not be sent, or a lookup stored its answer after the database had changed.
    The same holds for the roles it returns, of which a provisioning that failed
    halfway tells nobody. An instance that has missed nothing agrees with the
    database once nothing is on its way to it. *)
Theorem invalidations_converge t n s cl k i env h name :
  store_inv s → rtc cl_step (cl_start t n s) cl → instances cl !! k = Some i →
  (∀ v, (LookupByKey env h (on_shared (shared cl) (cache i))).2 = Ok v →
    key_owner (shared cl) h = Some v ∨ on_its_way cl i "keys" (lk_name v) ∨ ∃ why, (why, payload "keys" (lk_name v)) ∈ missed i) ∧
  (∀ l, (RolesForCaller env name (on_shared (shared cl) (cache i))).2 = Ok l →
    l = roles_of (shared cl) name ∨ on_its_way cl i "roles" name ∨ ∃ why, (why, payload "roles" name) ∈ missed i).
Proof.
  intros Hs Hr Hi. destruct (an_cache _ (reachable_announced _ _ _ _ Hs Hr) k i Hi) as [Hk _ Hro].
  assert (∀ kind m, unsettled cl i kind m → on_its_way cl i kind m ∨ ∃ why, (why, payload kind m) ∈ missed i) as Hu.
  { intros kind m [Hw|([why p] & Hp & Hin)%list_elem_of_fmap]; [by left|right]. simpl in Hp. subst p. eauto. }
  simpl. split.
  - intros v. unfold Cached_LookupByKey, key_hit. simpl. destruct (byKeyHash (cache i) !! h) as [[v' u]|] eqn:El;
      [destruct (expired _ _)|].
    2: { intros [= <-]. destruct (decide (unsettled cl i "keys" (lk_name v'))); [right; by apply Hu|left; by eapply Hk]. }
    all: destruct (LookupByKey (inner_env env) h _) as [s' [r|e]] eqn:Er; simpl; [|done]; apply lookup_law in Er as [_ Hl];
      intros [= <-]; left; by apply Hl.
  - intros l. unfold Cached_RolesForCaller, role_hit. simpl. destruct (rolesByName (cache i) !! name) as [[l' u]|] eqn:El;
      [destruct (expired _ _)|].
    2: { intros [= <-]. destruct (decide (unsettled cl i "roles" name)); [right; by apply Hu|left; by eapply Hro]. }
    all: destruct (RolesForCaller (inner_env env) name _) as [s' [r|e]] eqn:Er; simpl; [|done]; apply roles_law in Er as [_ Hl];
      intros [= <-]; left; by apply Hl.
Qed.
End cluster.

(** ** Two gateways *)

#[local] Existing Instance PostgresStore_laws | 0.

(** Gateway 0 revokes a key that gateway 1 has cached. *)
Definition quiet : CacheEnv DBEnv := MkCacheEnv no_faults 5.
Definition gateways : cluster (S:=DB) := cl_start 60 2 sample_db.

Definition listening (cl : cluster (S:=DB)) : cluster (S:=DB) :=
  match instances cl !! 1%nat with
  | Some i => MkCluster (shared cl) 
      (<[1%nat := MkInstance (cache i) (Some []) (flight i) (if no_entries (cache i) then [] else missed i)]> (instances cl)) (outgoing cl)
  | None => cl
  end.

Definition operated (k : nat) (o : op) (cl : cluster (S:=DB)) : cluster (S:=DB) :=
  match instances cl !! k with
  | Some i =>
      let c := @run_op DBEnv DB PostgresStore quiet o (on_shared (shared cl) (cache i)) in
      MkCluster (inner c) (<[k := set_cache c i]> (instances cl)) (outgoing cl ++ payloads c)
  | None => cl
  end.

Lemma listening_step cl i : instances cl !! 1%nat = Some i → queue i = None →
  rtc (@cl_step DBEnv DB PostgresStore PostgresStore_laws) cl (listening cl).
Proof. intros Hi Hq. unfold listening. rewrite Hi. apply rtc_once. by apply cl_listen. Qed.

Lemma operated_step k i o cl : instances cl !! k = Some i → (∀ n rs, o ≠ OpWrite (WEnsureCaller n rs)) →
  rtc (@cl_step DBEnv DB PostgresStore PostgresStore_laws) cl (operated k o cl).
Proof.
  intros Hi Ho. unfold operated. rewrite Hi. apply rtc_once.
  pose proof (@cl_operate DBEnv DB PostgresStore _ cl k i quiet o Hi) as Hs. cbv zeta in Hs.
  destruct o as [| |w|]; try exact Hs. destruct w; try exact Hs. by destruct (Ho name roles).
Qed.

Definition cached_at_1 : cluster (S:=DB) := operated 1 (OpLookup "h1") (listening gateways).
Definition revoked_at_0 (cl : cluster (S:=DB)) : cluster (S:=DB) := operated 0 (OpWrite (WRevokeKey "ann" "laptop")) cl.

Lemma cached_at_1_reachable : rtc (@cl_step DBEnv DB PostgresStore PostgresStore_laws) gateways cached_at_1.
Proof. etransitivity; [by eapply listening_step|]. by eapply operated_step. Qed.

(** The key is still accepted by gateway 1, and the notification is on its way. *)
Lemma invalidations_converge_witness :
  ∃ i, instances (revoked_at_0 cached_at_1) !! 1%nat = Some i ∧
    lookup_key (shared (revoked_at_0 cached_at_1)) "h1" = None ∧
    (Cached_LookupByKey (H:=PostgresStore) quiet "h1" (on_shared (shared (revoked_at_0 cached_at_1)) (cache i))).2 = Ok (MkLookup "ann" "laptop") ∧
    on_its_way (revoked_at_0 cached_at_1) i "keys" "ann" ∧ missed i = [].
Proof.
  destruct (instances (revoked_at_0 cached_at_1) !! 1%nat) as [i|] eqn:Ei; [|vm_compute in Ei; discriminate Ei].
  assert (rtc (@cl_step DBEnv DB PostgresStore PostgresStore_laws) gateways (revoked_at_0 cached_at_1)) as Hr.
  { etransitivity; [apply cached_at_1_reachable|]. by eapply operated_step. }
  pose proof (@invalidations_converge DBEnv DB PostgresStore PostgresStore_laws 60 2 sample_db (revoked_at_0 cached_at_1) 1 i
    quiet "h1" "ann" sample_db_wf Hr Ei) as Hc.
  exists i. split; [done|]. revert Ei Hc. vm_compute (instances _ !! _). intros [= <-] Hc. split; [vm_compute; reflexivity|].
  split; [vm_compute; reflexivity|]. split; [|vm_compute; reflexivity].
  destruct Hc as [Hk _]. destruct (Hk (MkLookup "ann" "laptop")) as [Ho|[Hu|[why Hm]]];
    [vm_compute; reflexivity|vm_compute in Ho; discriminate Ho|exact Hu|vm_compute in Hm; inversion Hm].
Defined.

(** A notification that is sent while the listener reconnects is lost, and
    [listenLoop] does not flush the cache when it listens again: a key that was
    revoked meanwhile is accepted although every listener is connected and nothing
    is on its way, until the entry expires. *)
Theorem missed_while_reconnecting :
  ∃ cl i, rtc (@cl_step DBEnv DB PostgresStore PostgresStore_laws) gateways cl ∧ instances cl !! 1%nat = Some i ∧
    queue i = Some [] ∧ outgoing cl = [] ∧
    lookup_key (shared cl) "h1" = None ∧ key_hit 5 "h1" (cache i) = Some (MkLookup "ann" "laptop").
Proof.
  destruct (instances cached_at_1 !! 1%nat) as [i1|] eqn:E1; [|vm_compute in E1; discriminate E1].
  set (cl2 := MkCluster (shared cached_at_1) (<[1%nat := MkInstance (cache i1) None [] []]> (instances cached_at_1)) (outgoing cached_at_1)).
  set (cl3 := revoked_at_0 cl2).
  set (cl4 := MkCluster (shared cl3) (receive "keys:ann" <$> instances cl3) []).
  exists (listening cl4). revert E1. vm_compute (instances cached_at_1 !! _). intros [= <-].
  eexists. split; [|split; [vm_compute; reflexivity|split_and!; vm_compute; reflexivity]].
  etransitivity; [apply cached_at_1_reachable|]. etransitivity; [by apply rtc_once, (cl_lost cached_at_1 1)|].
  etransitivity; [by eapply (operated_step 0 _ (OpWrite (WRevokeKey "ann" "laptop")) cl2)|].
  etransitivity; [by apply rtc_once, (cl_send cl3 [] "keys:ann" [])|].
  by eapply listening_step.
Qed.
