(* ===== verification/Auth.v ===== *)
(** * Authentication and access control ([internal/auth/auth.go], [oidc.go])

    - [OIDC]: the validator of OIDC tokens, parametric in the verification of
      signed tokens and in the userinfo endpoint (go-oidc and the network).
    - [Authenticator], over any store; [sha256] stands for the hash function,
      [glob_compile] for gobwas/glob and [getenv] for the environment.
    - the middlewares, as functions from a request to what happens to it. *)

From S2P Require Import Prelude GoLib Json JsonRpc Transport ConfigData AuthStore.
Import GoStr.

Module OIDC.

Record userinfoEntry := MkEntry { ue_claims : gmap string json; ue_expiresAt : Z }.

Record OIDCValidator := MkOIDCValidator {
  cfg : OIDCConfig;
  userinfoCache : gmap string userinfoEntry;
  cacheTTL : Z;
}.

(** What a validation reads from outside: whether the signed token verifies,
    with its claims; the answer of the userinfo endpoint (status, body); and the
    clock, when the cache is read and when it is written. *)
Record OIDCEnv := MkOIDCEnv {
  verify : string → option (gmap string json);
  userinfo : string → result string (Z * Stream);
  read_now : Z;
  write_now : Z;
}.

Section oidc.
Variable sha256 : string → string.

(** [io.LimitReader(body, 1<<20)], then [io.ReadAll]. *)
Definition limited_body (b : Stream) : option string :=
  let n := 1048576%N in
  if (n <=? N.of_nat (String.length (stream_data b)))%N
  then Some (String.substring 0 (N.to_nat n) (stream_data b))
  else match stream_err b with Some _ => None | None => Some (stream_data b) end.

Definition cacheKey (token : string) : string := Encoding.hex_EncodeToString (sha256 token).

(** The unexpired entry of the cache. *)
Definition cached_claims (env : OIDCEnv) (token : string) (v : OIDCValidator) : option (gmap string json) :=
  match userinfoCache v !! cacheKey token with
  | Some e => if read_now env <? ue_expiresAt e then Some (ue_claims e) else None
  | None => None
  end.

(** The call of the endpoint. *)
Definition fetch_claims (env : OIDCEnv) (token : string) : result string (gmap string json) :=
  match userinfo env token with
  | Err _ => Err "auth: userinfo request failed"
  | Ok (status, body) =>
      if negb (status =? 200) then Err "auth: userinfo returned an error status"
      else match limited_body body with
      | None => Err "auth: read userinfo response"
      | Some data =>
          match parse data ≫= as_map with
          | None => Err "auth: parse userinfo response"
          | Some claims => Ok claims
          end
      end
  end.

Definition keep_claims (env : OIDCEnv) (token : string) (claims : gmap string json) (v : OIDCValidator) : OIDCValidator :=
  MkOIDCValidator (cfg v) (<[cacheKey token := MkEntry claims (write_now env + cacheTTL v)]> (userinfoCache v)) (cacheTTL v).

Definition validateUserinfo (env : OIDCEnv) (token : string) (v : OIDCValidator) :
    OIDCValidator * result string (gmap string json) :=
  match cached_claims env token v with
  | Some claims => (v, Ok claims)
  | None =>
      match fetch_claims env token with
      | Err e => (v, Err e)
      | Ok claims => (keep_claims env token claims v, Ok claims)
      end
  end.

Definition validateJWT (env : OIDCEnv) (token : string) : result string (gmap string json) :=
  match verify env token with
  | Some claims => Ok claims
  | None => Err "auth: JWT verification failed"
  end.

Definition domainAllowed (v : OIDCValidator) (email : string) : bool :=
  match SplitN email "@" 2 with
  | [_; domain] => existsb (EqualFold domain) (allowedDomains (cfg v))
  | _ => false
  end.

(** [claims[name].(string)]; the zero value if it is something else. *)
Definition claim_string (claims : gmap string json) (name : string) : string :=
  match claims !! name with Some (JStr s) => s | _ => "" end.

(** The checks on the claims: the identity, then the domain filter. *)
Definition check_claims (v : OIDCValidator) (claims : gmap string json) : result string string :=
  let identity := claim_string claims (callerClaim (cfg v)) in
  if bool_decide (identity = "") then Err "auth: OIDC token missing claim"
  else if bool_decide (allowedDomains (cfg v) = []) then Ok identity
  else
    let email := claim_string claims "email" in
    if bool_decide (email = "") then Err "auth: OIDC token missing email for domain filter"
    else if negb (domainAllowed v email) then Err "auth: email domain not in allowed list"
    else Ok identity.

Definition Validate (env : OIDCEnv) (token : string) (v : OIDCValidator) : OIDCValidator * result string string :=
  let '(v, claims) :=
    if bool_decide (validation (cfg v) = "jwt") then (v, validateJWT env token)
    else if bool_decide (validation (cfg v) = "userinfo") then validateUserinfo env token v
    else (v, Err "auth: unsupported OIDC validation mode") in
  (v, claims ≫= check_claims v).
End oidc.

(** [NewOIDCValidator], after discovery; [None] is an error. *)
Definition NewOIDCValidator (c : OIDCConfig) (discovered : bool) (userinfoURL : string) : option OIDCValidator :=
  if negb discovered then None
  else if bool_decide (validation c = "userinfo") && bool_decide (userinfoURL = "") then None
  else Some (MkOIDCValidator c ∅ (5 * Duration.Minute)).

End OIDC.

(** ** The authenticator *)

Record Authenticator := MkAuthenticator {
  auth_credentials : gmap string (gmap string string);   (* role, upstream → token *)
  auth_allowedTools : gmap string (list Glob);           (* role → compiled patterns *)
  roleOrder : list string;
  auth_oidc : option OIDC.OIDCValidator;
}.

Section auth.
Context {E S : Type} `{Store E S} `{GoRange}.
Variables (sha256 : string → string) (glob_compile : string → option Glob) (getenv : string → string).
Implicit Types a : Authenticator.

(** The tokens of one role: variables that are not set are skipped. *)
Definition role_tokens (r : RoleConfig) : gmap string string :=
  foldl (λ m uv, let val := getenv uv.2 in if bool_decide (val = "") then m else <[uv.1 := val]> m)
    ∅ (go_range (credentials r)).

(** Patterns that do not compile are skipped. *)
Definition role_globs (r : RoleConfig) : list Glob := omap glob_compile (allowedTools r).

Definition NewAuthenticator (roles : list RoleConfig) (oidc : option OIDC.OIDCValidator) : Authenticator :=
  MkAuthenticator (foldl (λ m r, <[role_name r := role_tokens r]> m) ∅ roles)
    (foldl (λ m r, <[role_name r := role_globs r]> m) ∅ roles)
    (role_name <$> roles) oidc.

Definition orderByConfig a (roles : list string) : list string :=
  filter (λ r, r ∈ (list_to_set roles : gset string)) (roleOrder a).

Definition unionAllowedTools a (roleNames : list string) : list Glob :=
  roleNames ≫= λ name, default [] (auth_allowedTools a !! name).

Fixpoint UpstreamToken a (roles : list string) (upstreamName : string) : option string :=
  match roles with
  | [] => None
  | role :: roles =>
      match auth_credentials a !! role ≫= (λ env, env !! upstreamName) with
      | Some token => Some token
      | None => UpstreamToken a roles upstreamName
      end
  end.

Definition isJWT (token : string) : bool := (Count token "." =? 2)%nat.

(** The environment of one authentication: of the calls to the store, and of
    the OIDC validation. *)
Record AuthEnv := MkAuthEnv {
  env_provision : E;
  env_oidc_roles : E;
  env_lookup : E;
  env_roles : E;
  env_oidc : OIDC.OIDCEnv;
}.

Definition with_roles a (name : string) (roles : list string) : Caller :=
  let ordered := orderByConfig a roles in MkCaller name ordered (unionAllowedTools a ordered).

Definition set_oidc a (v : OIDC.OIDCValidator) : Authenticator :=
  MkAuthenticator (auth_credentials a) (auth_allowedTools a) (roleOrder a) (Some v).

(** The caller must exist, or is created; a failure to create it is logged
    and ignored. *)
Definition provision (env : AuthEnv) (c : OIDCConfig) (identity : string) (s : S) : S * option string :=
  if autoProvision c then ((EnsureCaller (env_provision env) identity (defaultRoles c) s).1, None)
  else match CallerExists (env_provision env) identity s with
       | (s, Err _) => (s, Some "auth: check caller exists")
       | (s, Ok false) => (s, Some "auth: OIDC caller not registered")
       | (s, Ok true) => (s, None)
       end.

Definition authenticateOIDC (env : AuthEnv) (token : string) (v : OIDC.OIDCValidator) a (s : S) :
    Authenticator * S * result string Caller :=
  let '(v, r) := OIDC.Validate sha256 (env_oidc env) token v in
  let a := set_oidc a v in
  match r with
  | Err e => (a, s, Err e)
  | Ok identity =>
      match provision env (OIDC.cfg v) identity s with
      | (s, Some e) => (a, s, Err e)
      | (s, None) =>
          match RolesForCaller (env_oidc_roles env) identity s with
          | (s, Err _) => (a, s, Err "auth: lookup roles")
          | (s, Ok roles) => (a, s, Ok (with_roles a identity roles))
          end
      end
  end.

(** Whether OIDC is tried for a token. *)
Definition shouldTry (c : OIDCConfig) (token : string) : bool :=
  if bool_decide (validation c = "jwt") then isJWT token
  else if bool_decide (validation c = "userinfo") then negb (HasPrefix token "sk-")
  else false.

Definition authenticateKey (env : AuthEnv) (token : string) a (s : S) :
    Authenticator * S * result string (Caller * string) :=
  match LookupByKey (env_lookup env) (sha256 token) s with
  | (s, Err _) => (a, s, Err "unauthorized")
  | (s, Ok k) =>
      match RolesForCaller (env_roles env) (lk_name k) s with
      | (s, Err _) => (a, s, Err "lookup roles")
      | (s, Ok roles) => (a, s, Ok (with_roles a (lk_name k) roles, KeyLabel k))
      end
  end.

(** [Authenticate]; [header] is the Authorization header. *)
Definition Authenticate (env : AuthEnv) (header : string) a (s : S) :
    Authenticator * S * result string (Caller * string) :=
  if bool_decide (header = "") then (a, s, Err "missing Authorization header")
  else if negb (HasPrefix header "Bearer ") then (a, s, Err "Authorization header must use Bearer scheme")
  else
    let token := TrimPrefix header "Bearer " in
    match auth_oidc a with
    | Some v =>
        if shouldTry (OIDC.cfg v) token then
          match authenticateOIDC env token v a s with
          | (a, s, Ok caller) => (a, s, Ok (caller, "oidc"))
          | (a, s, Err _) => authenticateKey env token a s
          end
        else authenticateKey env token a s
    | None => authenticateKey env token a s
    end.

(** ** The middlewares *)

(** The context of a request that authenticated. *)
Definition auth_context (ctx : Context) (caller : Caller) (keyLabel : string) : Context :=
  let ctx := ContextWithCaller ctx caller in
  if bool_decide (keyLabel = "oidc") then ContextWithAuthMethod ctx "oidc"
  else ContextWithKeyLabel (ContextWithAuthMethod ctx "apikey") keyLabel.

(** What happens to a request: it is handed on, or answered. *)
Inductive disposition :=
| Next (ctx : Context)
| Respond (status : Z) (body : json)
| Redirect (location : string).

Definition unauthorized_body : json :=
  JObj [("jsonrpc", JStr "2.0"); ("error", JObj [("code", JNum "-32000"); ("message", JStr "unauthorized")]); ("id", JNull)].

Definition Middleware (env : AuthEnv) (header : string) (ctx : Context) a (s : S) : Authenticator * S * disposition :=
  match Authenticate env header a s with
  | (a, s, Err _) => (a, s, Respond 401 unauthorized_body)
  | (a, s, Ok (caller, keyLabel)) => (a, s, Next (auth_context ctx caller keyLabel))
  end.

Definition OptionalMiddleware (env : AuthEnv) (header : string) (ctx : Context) a (s : S) : Authenticator * S * disposition :=
  match Authenticate env header a s with
  | (a, s, Err _) => (a, s, Next ctx)
  | (a, s, Ok (caller, keyLabel)) => (a, s, Next (auth_context ctx caller keyLabel))
  end.

Definition zeroHash : string := String.concat "" (repeat (String "000" "") 32).

Definition forbidden_body : json := JObj [("error", JStr "forbidden")].

(** [AdminAuthMiddleware]; [session] is what the session check says of the
    request ([None] without one). *)
Definition AdminAuthMiddleware (adminKeyHash : string) (devMode : bool) (session : option bool)
    (path header : string) (ctx : Context) : disposition :=
  let hasAdminKey := negb (bool_decide (adminKeyHash = zeroHash)) in
  if bool_decide (path = "/admin/ui/login") || bool_decide (path = "/admin/ui/logout") then Next ctx
  else if negb hasAdminKey then
    if negb devMode then Respond 403 forbidden_body else Next ctx
  else if HasPrefix header "Bearer " && bool_decide (sha256 (TrimPrefix header "Bearer ") = adminKeyHash) then Next ctx
  else if default false session then Next ctx
  else if HasPrefix path "/admin/ui/" then Redirect "/admin/ui/login"
  else Respond 403 forbidden_body.
End auth.
Arguments MkAuthEnv {E}. Arguments env_provision {E}. Arguments env_oidc_roles {E}. Arguments env_lookup {E}.
Arguments env_roles {E}. Arguments env_oidc {E}.

(** ** Properties of OIDC validation *)

Section oidc_props.
Variable sha256 : string → string.
Implicit Types (env : OIDC.OIDCEnv) (v : OIDC.OIDCValidator) (claims : gmap string json).

(** A validator after the validations [past]. The handlers run concurrently: one
    that found nothing in the cache calls the endpoint, and may store the answer
    after any number of other validations. *)
Inductive validated (c : OIDCConfig) : list (OIDC.OIDCEnv * string) → OIDC.OIDCValidator → Prop :=
| validated_new discovered url v : OIDC.NewOIDCValidator c discovered url = Some v → validated c [] v
| validated_more past v env token :
    validated c past v → validated c (past ++ [(env, token)]) (OIDC.Validate sha256 env token v).1
| validated_late past v env token claims :
    validated c past v → OIDC.fetch_claims env token = Ok claims →
    validated c (past ++ [(env, token)]) (OIDC.keep_claims sha256 env token claims v).

(** The endpoint answered 200 to this token, with these claims in the body. *)
Definition vouches env (token : string) claims : Prop :=
  ∃ body data, OIDC.userinfo env token = Ok (200, body) ∧ OIDC.limited_body body = Some data ∧ parse data ≫= as_map = Some claims.

(** The settings are those of the start, and every entry of the cache comes from
    an answer of the endpoint, with the lifetime from when it was stored. *)
Record from_endpoint (c : OIDCConfig) (past : list (OIDC.OIDCEnv * string)) v : Prop := {
  fe_cfg : OIDC.cfg v = c;
  fe_ttl : OIDC.cacheTTL v = 5 * Duration.Minute;
  fe_entry : ∀ key e, OIDC.userinfoCache v !! key = Some e → ∃ env token,
    (env, token) ∈ past ∧ OIDC.cacheKey sha256 token = key ∧ vouches env token (OIDC.ue_claims e) ∧
    OIDC.ue_expiresAt e = OIDC.write_now env + 5 * Duration.Minute;
}.

Lemma fetch_claims_vouches env token claims : OIDC.fetch_claims env token = Ok claims → vouches env token claims.
Proof.
  unfold OIDC.fetch_claims. destruct (OIDC.userinfo env token) as [[status body]|] eqn:Eu; [|done].
  destruct (Z.eqb_spec status 200) as [->|]; [|done]. simpl.
  destruct (OIDC.limited_body body) as [data|] eqn:Eb; [|done].
  destruct (parse data ≫= as_map) eqn:Ep; [|done]. intros [= ->]. by exists body, data.
Qed.

Lemma keep_claims_from c past v env token claims :
  from_endpoint c past v → vouches env token claims →
  from_endpoint c (past ++ [(env, token)]) (OIDC.keep_claims sha256 env token claims v).
Proof.
  intros [Hc Ht He] Hv. split; [done|done|]. intros key e. simpl.
  intros [[<- <-]|[Hne Hl]]%lookup_insert_Some.
  - exists env, token. rewrite Ht. split_and!; [|done..]. apply elem_of_app. right. left.
  - destruct (He _ _ Hl) as (env' & token' & Hin & Hrest). exists env', token'. split; [|done]. apply elem_of_app. by left.
Qed.

Lemma from_endpoint_more c past x v : from_endpoint c past v → from_endpoint c (past ++ [x]) v.
Proof.
  intros [Hc Ht He]. split; [done|done|]. intros key e Hl. destruct (He _ _ Hl) as (env & token & Hin & Hrest).
  exists env, token. split; [|done]. apply elem_of_app. by left.
Qed.

Lemma Validate_state env token v :
  (OIDC.Validate sha256 env token v).1 = v ∨
  ∃ claims, OIDC.fetch_claims env token = Ok claims ∧ (OIDC.Validate sha256 env token v).1 = OIDC.keep_claims sha256 env token claims v.
Proof.
  unfold OIDC.Validate, OIDC.validateUserinfo. case_bool_decide; [by left|]. case_bool_decide; [|by left].
  destruct (OIDC.cached_claims _ _ _ _); [by left|]. destruct (OIDC.fetch_claims env token); [right; eauto|by left].
Qed.

Lemma validated_from_endpoint c past v : validated c past v → from_endpoint c past v.
Proof.
  induction 1 as [discovered url v Hn|past v env token _ IH|past v env token claims _ IH Hf].
  - unfold OIDC.NewOIDCValidator in Hn. repeat case_match; simplify_eq/=. split; [done|done|]. intros key e. simpl. by rewrite lookup_empty.
  - destruct (Validate_state env token v) as [->|(claims & Hf & ->)]; [by apply from_endpoint_more|].
    apply keep_claims_from; [done|by apply fetch_claims_vouches].
  - apply keep_claims_from; [done|by apply fetch_claims_vouches].
Qed.

Lemma check_claims_sound v claims id :
  OIDC.check_claims v claims = Ok id →
  id ≠ "" ∧ claims !! callerClaim (OIDC.cfg v) = Some (JStr id) ∧
  (allowedDomains (OIDC.cfg v) ≠ [] →
    ∃ local domain d, claims !! "email" = Some (JStr (local +:+ "@" +:+ domain)) ∧
      d ∈ allowedDomains (OIDC.cfg v) ∧ EqualFold domain d = true).
Proof.
  unfold OIDC.check_claims, OIDC.claim_string. case_bool_decide as Hid; [done|]. intros Hok.
  assert (id ≠ "" ∧ claims !! callerClaim (OIDC.cfg v) = Some (JStr id)) as [??].
  { destruct (claims !! callerClaim (OIDC.cfg v)) as [[]|]; try done.
    repeat case_match; simplify_eq; split; done. }
  split_and!; [done..|]. intros Hd. rewrite bool_decide_eq_false_2 in Hok by done.
  destruct (claims !! "email") as [[]|]; try done. case_bool_decide; [done|].
  destruct (OIDC.domainAllowed v s) eqn:Ed; [|done]. unfold OIDC.domainAllowed in Ed. cbn [SplitN] in Ed.
  destruct (Cut "@" s) as [[local domain]|] eqn:Ec; [|done].
  apply Cut_Some in Ec as [-> _]. apply existsb_exists in Ed as (d & Hin & Hf).
  exists local, domain, d. split_and!; [done|by apply list_elem_of_In|done].
Qed.

(** C39: take a validator after any validations, concurrent ones included. It
    accepts a token only with claims that its issuer vouched for: in mode "jwt",
    the claims of the token, whose verification succeeds; in mode "userinfo", the
    claims in a body that the endpoint sent with status 200, either now for this
    token, or in an earlier validation of a token with the same hash whose answer
    was stored less than five minutes ago. The caller is the non-empty string in
    the configured claim, and when domains are configured, the email address is in
    one of them. *)
Theorem oidc_identity_sound c past v env token v' id :
  validated c past v → OIDC.Validate sha256 env token v = (v', Ok id) →
  ∃ claims,
    (validation c = "jwt" ∧ OIDC.verify env token = Some claims ∨
     validation c = "userinfo" ∧
       (vouches env token claims ∨
        ∃ env' token', (env', token') ∈ past ∧ OIDC.cacheKey sha256 token' = OIDC.cacheKey sha256 token ∧
          vouches env' token' claims ∧ OIDC.read_now env < OIDC.write_now env' + 5 * Duration.Minute)) ∧
    id ≠ "" ∧ claims !! callerClaim c = Some (JStr id) ∧
    (allowedDomains c ≠ [] →
      ∃ local domain d, claims !! "email" = Some (JStr (local +:+ "@" +:+ domain)) ∧
        d ∈ allowedDomains c ∧ EqualFold domain d = true).
Proof.
  intros [Hc Ht He]%validated_from_endpoint Hv. rewrite <- Hc. unfold OIDC.Validate in Hv. case_bool_decide as Hj.
  { injection Hv as <- Hv. unfold OIDC.validateJWT in Hv. destruct (OIDC.verify env token) as [claims|]; [|done].
    exists claims. split; [by left|by apply check_claims_sound]. }
  case_bool_decide as Hu; [|by injection Hv as <- Hv]. unfold OIDC.validateUserinfo in Hv.
  destruct (OIDC.cached_claims sha256 env token v) as [claims|] eqn:Ec.
  - injection Hv as <- Hv. exists claims. split; [|by apply check_claims_sound]. right. split; [done|]. right.
    unfold OIDC.cached_claims in Ec. destruct (OIDC.userinfoCache v !! _) as [e|] eqn:El; [|done].
    destruct (Z.ltb_spec (OIDC.read_now env) (OIDC.ue_expiresAt e)); [|done]. injection Ec as <-.
    destruct (He _ _ El) as (env' & token' & Hin & Hk & Hvo & Hx). exists env', token'. split_and!; [done..|lia].
  - destruct (OIDC.fetch_claims env token) as [claims|e] eqn:Ef; [|by injection Hv as <- Hv].
    injection Hv as <- Hv. exists claims. split; [|by apply (check_claims_sound (OIDC.keep_claims sha256 env token claims v))].
    right. split; [done|]. left. by apply fetch_claims_vouches.
Qed.
End oidc_props.

(** ** Properties of the authenticator *)

Lemma lookup_by_role {A} (f : RoleConfig → A) roles r :
  NoDup (role_name <$> roles) → r ∈ roles →
  foldl (λ (m : gmap string A) r, <[role_name r := f r]> m) ∅ roles !! role_name r = Some (f r).
Proof.
  generalize (∅ : gmap string A). induction roles as [|r' roles IH] using rev_ind; intros m Hnd Hr; [set_solver|].
  rewrite foldl_app. simpl. rewrite fmap_app in Hnd. apply NoDup_app in Hnd as (Hnd & Hx & _).
  apply elem_of_app in Hr as [Hr|Hr].
  - rewrite lookup_insert_ne; [by apply IH|]. intros Heq.
    apply (Hx (role_name r)); [by apply list_elem_of_fmap_2|]. rewrite <- Heq. csimpl. set_solver.
  - apply list_elem_of_singleton in Hr as ->. by rewrite lookup_insert_eq.
Qed.

Lemma match_any_true globs t : match_any globs t = true ↔ ∃ g, g ∈ globs ∧ g t = true.
Proof.
  induction globs as [|g globs IH]; simpl; [set_solver|]. destruct (g t) eqn:Eg.
  - split; [|done]. intros _. exists g. set_solver.
  - rewrite IH. split; [set_solver|]. intros (g' & [->|Hg]%elem_of_cons & Ht); [congruence|eauto].
Qed.

Section auth_props.
Context {E S : Type} `{StoreLaws E S} `{GoRange}.
Variables (sha256 : string → string) (glob_compile : string → option Glob).
Implicit Types a : Authenticator.

(** What a caller with these roles in the store may use. *)
Definition may_use (roles : list RoleConfig) (held : list string) (tool : string) : Prop :=
  ∃ r p g, r ∈ roles ∧ role_name r ∈ held ∧ p ∈ allowedTools r ∧ glob_compile p = Some g ∧ g tool = true.

(** What stays as [NewAuthenticator] made it. *)
Definition configured (roles : list RoleConfig) a : Prop :=
  auth_allowedTools a = foldl (λ m r, <[role_name r := role_globs glob_compile r]> m) ∅ roles ∧
  roleOrder a = role_name <$> roles.

Lemma access_is_union roles a name held tool :
  NoDup (role_name <$> roles) → configured roles a →
  CanAccessTool (with_roles a name held) tool = true ↔ may_use roles held tool.
Proof.
  intros Hnd [Ht Ho]. unfold CanAccessTool, with_roles, unionAllowedTools, orderByConfig. simpl. rewrite match_any_true, Ht, Ho.
  simpl. split.
  - intros (g & Hg & Hm). apply list_elem_of_bind in Hg as (n & Hg & Hn).
    apply list_elem_of_filter in Hn as [Hheld (r & -> & Hr)%list_elem_of_fmap].
    rewrite (lookup_by_role (role_globs glob_compile) roles r Hnd Hr) in Hg. simpl in Hg.
    apply list_elem_of_omap in Hg as (p & Hp & Hg). exists r, p, g. split_and!; try done. set_solver.
  - intros (r & p & g & Hr & Hheld & Hp & Hg & Hm). exists g. split; [|done].
    apply list_elem_of_bind. exists (role_name r). split.
    + rewrite (lookup_by_role (role_globs glob_compile) roles r Hnd Hr). simpl. apply list_elem_of_omap. eauto.
    + apply list_elem_of_filter. split; [set_solver|by apply list_elem_of_fmap_2].
Qed.

Lemma authenticateKey_sound env token a s a' s' c l :
  authenticateKey sha256 env token a s = (a', s', Ok (c, l)) →
  a' = a ∧ s' = s ∧ key_owner s (sha256 token) = Some (MkLookup (CallerName c) l) ∧
  c = with_roles a (CallerName c) (roles_of s (CallerName c)).
Proof.
  unfold authenticateKey. destruct (LookupByKey _ _ s) as [s1 [k|e]] eqn:El; [|done].
  apply lookup_law in El as [-> Hk]. destruct (RolesForCaller _ _ s) as [s2 [roles|e]] eqn:Er; [|done].
  apply roles_law in Er as [-> Hr]. intros [= <- <- <- <-]. simpl. rewrite (Hk k eq_refl), (Hr roles eq_refl).
  split_and!; try done. by destruct k.
Qed.

Lemma authenticateOIDC_sound env token v a s a' s' c :
  authenticateOIDC sha256 env token v a s = (a', s', Ok c) →
  auth_allowedTools a' = auth_allowedTools a ∧ roleOrder a' = roleOrder a ∧
  (OIDC.Validate sha256 (env_oidc env) token v).2 = Ok (CallerName c) ∧
  c = with_roles a' (CallerName c) (roles_of s' (CallerName c)).
Proof.
  unfold authenticateOIDC. destruct (OIDC.Validate _ _ token v) as [v1 [id|e]]; [|done].
  destruct (provision _ _ _ s) as [s1 [e|]]; [done|].
  destruct (RolesForCaller _ _ s1) as [s2 [roles|e]] eqn:Er; [|done].
  apply roles_law in Er as [-> Hr]. intros [= <- <- <-]. simpl. by rewrite (Hr roles eq_refl).
Qed.

Lemma authenticateOIDC_frame env token v a s roles :
  configured roles a → configured roles (authenticateOIDC sha256 env token v a s).1.1.
Proof.
  unfold authenticateOIDC. destruct (OIDC.Validate _ _ token v) as [v1 [id|e]]; [|done].
  destruct (provision _ _ _ s) as [s1 [e|]]; [done|]. by destruct (RolesForCaller _ _ s1) as [s2 [held|e]].
Qed.

(** What authenticates a caller: a key of the store, under the label, or an
    OIDC token. *)
Definition credential (env : AuthEnv (E:=E)) a (s : S) (header name label : string) : Prop :=
  ∃ token, header = "Bearer " +:+ token ∧
    (key_owner s (sha256 token) = Some (MkLookup name label) ∨
     label = "oidc" ∧ ∃ v, auth_oidc a = Some v ∧ (OIDC.Validate sha256 (env_oidc env) token v).2 = Ok name).

Lemma Authenticate_sound env header roles a s a' s' c l :
  NoDup (role_name <$> roles) → configured roles a →
  Authenticate sha256 env header a s = (a', s', Ok (c, l)) →
  credential env a s' header (CallerName c) l ∧ configured roles a' ∧
  ∀ tool, CanAccessTool c tool = true ↔ may_use roles (roles_of s' (CallerName c)) tool.
Proof.
  intros Hnd Hcf. unfold Authenticate. case_bool_decide; [done|].
  destruct (HasPrefix header "Bearer ") eqn:Eh; [|done]. simpl.
  apply HasPrefix_true in Eh as [token ->]. rewrite TrimPrefix_app.
  assert (∀ a1 s1, configured roles a1 → authenticateKey sha256 env token a1 s1 = (a', s', Ok (c, l)) →
    credential env a s' ("Bearer " +:+ token) (CallerName c) l ∧ configured roles a' ∧
    ∀ tool, CanAccessTool c tool = true ↔ may_use roles (roles_of s' (CallerName c)) tool) as Hkey.
  { intros a1 s1 Hc1 (-> & -> & Hk & Hc)%authenticateKey_sound. split_and!; [by exists token; eauto|done|].
    intros tool. rewrite Hc at 1. by apply access_is_union. }
  destruct (auth_oidc a) as [v|] eqn:Eoidc; [|by apply Hkey]. destruct (shouldTry _ _); [|by apply Hkey].
  pose proof (authenticateOIDC_frame env token v a s roles Hcf) as Hf.
  destruct (authenticateOIDC _ _ _ _ _ _) as [[a1 s1] [c1|e]] eqn:Eo; simpl in Hf; [|by apply Hkey].
  intros [= <- <- <- <-]. apply authenticateOIDC_sound in Eo as (Ht & Ho & Hv & Hc).
  split_and!; [exists token; eauto 10|done|]. intros tool. rewrite Hc at 1. by apply access_is_union.
Qed.

Variable getenv : string → string.

(** C5: a request that authenticates is entitled to what it gets. Its bearer
    token is an API key of the caller in the store, under the reported label,
    or an OIDC token that validates for the caller's name; and the caller may
    use exactly the tools that match a pattern of a configured role which the
    store assigns to that caller. This holds from the start and after any
    number of requests: authentication leaves the configured part as it is. *)
Theorem authentication_sound env header roles oidc a s a' s' c l tool :
  NoDup (role_name <$> roles) →
  configured roles (NewAuthenticator glob_compile getenv roles oidc) ∧
  (configured roles a → Authenticate sha256 env header a s = (a', s', Ok (c, l)) →
    credential env a s' header (CallerName c) l ∧ configured roles a' ∧
    (CanAccessTool c tool = true ↔ may_use roles (roles_of s' (CallerName c)) tool)).
Proof.
  intros Hnd. split; [done|]. intros Hcf Ha.
  destruct (Authenticate_sound env header roles a s a' s' c l Hnd Hcf Ha) as (? & ? & ?). done.
Qed.

(** ** Credentials *)

Lemma role_tokens_lookup r u t :
  role_tokens getenv r !! u = Some t ↔ ∃ v, credentials r !! u = Some v ∧ getenv v = t ∧ t ≠ "".
Proof.
  clear sha256 glob_compile. unfold role_tokens. setoid_rewrite <- (elem_of_go_range (credentials r)).
  pose proof (go_range_NoDup (credentials r)) as Hnd.
  induction (go_range (credentials r)) as [|[u' v'] l IH] using rev_ind; [simpl; set_solver|].
  rewrite fmap_app in Hnd. apply NoDup_app in Hnd as (Hnd & Hx & _). rewrite foldl_app. simpl.
  specialize (IH Hnd).
  assert (∀ v, (u', v) ∈ l → False) as Hfresh.
  { intros v Hv. apply (list_elem_of_fmap_2 fst) in Hv. apply (Hx u'); [done|]. csimpl. set_solver. }
  setoid_rewrite elem_of_app. setoid_rewrite list_elem_of_singleton.
  case_bool_decide as He.
  - rewrite IH. split; [naive_solver|]. intros (v & [Hv|Hv] & Hg & Ht); [eauto|]. simplify_eq.
  - destruct (decide (u' = u)) as [->|Hne].
    + rewrite lookup_insert_eq. split; [intros [= <-]; eauto|].
      intros (v & [Hv|Hv] & Hg & Ht); [by destruct (Hfresh v)|]. by simplify_eq.
    + rewrite lookup_insert_ne by done. rewrite IH. naive_solver.
Qed.

(** The credential sent to an upstream is that of the first of the caller's
    roles, in configuration order, that has one: a variable configured for that
    role and upstream, which is set; no earlier role has one. *)
Theorem first_role_token roles oidc name held u t :
  NoDup (role_name <$> roles) →
  UpstreamToken (NewAuthenticator glob_compile getenv roles oidc)
    (Roles (with_roles (NewAuthenticator glob_compile getenv roles oidc) name held)) u = Some t →
  ∃ l1 r l2 v, filter (λ r, role_name r ∈ held) roles = l1 ++ r :: l2 ∧
    credentials r !! u = Some v ∧ getenv v = t ∧ t ≠ "" ∧
    ∀ r', r' ∈ l1 → ∀ v', credentials r' !! u = Some v' → getenv v' = "".
Proof.
  clear sha256. intros Hnd. set (a := NewAuthenticator glob_compile getenv roles oidc).
  assert (Roles (with_roles a name held) = role_name <$> filter (λ r, role_name r ∈ held) roles) as ->.
  { unfold with_roles, orderByConfig. simpl. clear. induction roles as [|r roles IH]; [done|]. csimpl. rewrite !filter_cons.
    destruct (decide (role_name r ∈ (list_to_set held : gset string))), (decide (role_name r ∈ held)); try set_solver.
    csimpl. by rewrite IH. }
  assert (∀ r, r ∈ filter (λ r, role_name r ∈ held) roles → auth_credentials a !! role_name r = Some (role_tokens getenv r)) as Hcred.
  { intros r [_ Hr]%list_elem_of_filter. by apply (lookup_by_role (role_tokens getenv)). }
  clearbody a. revert Hcred. induction (filter _ roles) as [|r rs IH]; intros Hcred; [done|]. csimpl. rewrite (Hcred r) by left. simpl.
  destruct (role_tokens getenv r !! u) as [t'|] eqn:Et.
  - intros [= ->]. apply role_tokens_lookup in Et as (v & ? & ? & ?). exists [], r, rs, v. set_solver.
  - intros Ht. destruct IH as (l1 & r' & l2 & v & -> & ? & ? & ? & Hl1); [intros; apply Hcred; by right|done|].
    exists (r :: l1), r', l2, v. split_and!; try done. intros r0 [->|Hr0]%elem_of_cons v' Hv'; [|by eapply Hl1].
    destruct (decide (getenv v' = "")) as [|Hne]; [done|].
    assert (role_tokens getenv r !! u = Some (getenv v')) by (apply role_tokens_lookup; eauto). congruence.
Qed.

(** A key whose label is "oidc" is taken for OIDC authentication: the
    request context reports the method "oidc" and no key label, although the
    caller authenticated with an API key and no OIDC validator is configured. *)
Theorem oidc_label_mistaken env token roles ctx s a' s' ctx' :
  Middleware sha256 env ("Bearer " +:+ token) ctx (NewAuthenticator glob_compile getenv roles None) s = (a', s', Next ctx') →
  (∀ k, key_owner s (sha256 token) = Some k → KeyLabel k = "oidc") →
  AuthMethodFromContext ctx' = "oidc" ∧ KeyLabelFromContext ctx' = KeyLabelFromContext ctx.
Proof.
  unfold Middleware, Authenticate. rewrite bool_decide_eq_false_2 by done. rewrite HasPrefix_app, TrimPrefix_app.
  cbn [negb auth_oidc NewAuthenticator].
  destruct (authenticateKey _ _ _ _ _) as [[a1 s1] [[c l]|e]] eqn:Ek; [|done]. intros [= <- <- <-] Hl.
  apply authenticateKey_sound in Ek as (_ & _ & Hk & _). apply Hl in Hk. simpl in Hk. subst l. done.
Qed.
End auth_props.

(** ** Properties of the admin middleware *)

(** A request reaches an admin handler exactly if it is for the login or
    logout page, or no admin key is configured and the gateway runs in
    development mode, or an admin key is configured and the request carries it as
    bearer token or has a valid session. *)
Theorem admin_access sha256 key devMode session path header ctx :
  AdminAuthMiddleware sha256 key devMode session path header ctx = Next ctx ↔
  path = "/admin/ui/login" ∨ path = "/admin/ui/logout" ∨ key = zeroHash ∧ devMode = true ∨
  key ≠ zeroHash ∧ ((∃ token, header = "Bearer " +:+ token ∧ sha256 token = key) ∨ session = Some true).
Proof.
  unfold AdminAuthMiddleware.
  destruct (bool_decide (path = "/admin/ui/login") || bool_decide (path = "/admin/ui/logout")) eqn:Ep.
  { apply orb_true_iff in Ep. rewrite !bool_decide_eq_true in Ep. split; [tauto|done]. }
  apply orb_false_iff in Ep as [Hp1%bool_decide_eq_false Hp2%bool_decide_eq_false].
  case_bool_decide as Hk; simpl.
  { destruct devMode; simpl; [split; [auto|done]|]. split; [done|]. intros [?|[?|[[_ ?]|[? _]]]]; done. }
  assert ((HasPrefix header "Bearer " && bool_decide (sha256 (TrimPrefix header "Bearer ") = key)) = true ↔
    ∃ token, header = "Bearer " +:+ token ∧ sha256 token = key) as Hb.
  { rewrite andb_true_iff, HasPrefix_true, bool_decide_eq_true. split.
    - intros [[token ->] Hs]. rewrite TrimPrefix_app in Hs. eauto.
    - intros (token & -> & Hs). rewrite TrimPrefix_app. eauto. }
  destruct (HasPrefix header "Bearer " && _); [split; [|done]; intros _; right; right; right; split; [done|]; left; by apply Hb|].
  destruct session as [[]|]; simpl; [split; [auto 10|done]|..].
  all: split; [by destruct (HasPrefix path "/admin/ui/")|].
  all: intros [?|[?|[[? _]|[_ [Hx%Hb|?]]]]]; done.
Qed.

(** ** Runs on the sample tables *)

Definition plain_glob (p : string) : option Glob :=
  Some (λ t, bool_decide (p = "*") || bool_decide (p = t)).

Definition sample_roles : list RoleConfig :=
  [MkRole "dev" ["search"] {["api" := "API_TOKEN"]} None None; MkRole "ops" ["*"] ∅ None None].

Definition sample_getenv (v : string) : string := if bool_decide (v = "API_TOKEN") then "secret" else "".

Definition quiet_oidc : OIDC.OIDCEnv := OIDC.MkOIDCEnv (λ _, None) (λ _, Err "") 0 0.

Definition sample_auth_env : AuthEnv := MkAuthEnv no_faults no_faults no_faults no_faults quiet_oidc.

(** The hash is the identity here: the token "h1" is the key of ann's laptop. *)
Definition ann : Caller :=
  with_roles (NewAuthenticator plain_glob sample_getenv sample_roles None) "ann" ["dev"].

Lemma authentication_sound_witness :
  (∃ token, "Bearer h1" = "Bearer " +:+ token ∧
    (lookup_key sample_db (id token) = Some (MkLookup "ann" "laptop") ∨
     "laptop" = "oidc" ∧ ∃ v, None = Some v ∧ (OIDC.Validate id quiet_oidc token v).2 = Ok "ann")) ∧
  (CanAccessTool ann "search" = true ↔ may_use plain_glob sample_roles (roles_of_db sample_db "ann") "search").
Proof.
  set (a := NewAuthenticator plain_glob sample_getenv sample_roles None).
  destruct (authentication_sound (H0:=SQLiteStore_laws) id plain_glob sample_getenv sample_auth_env "Bearer h1" sample_roles None
    a sample_db a sample_db ann "laptop" "search") as [Hcf Hs].
  { apply (bool_decide_unpack _). vm_compute. exact I. }
  destruct (Hs Hcf eq_refl) as (Hc & _ & Ht). split; [exact Hc|exact Ht].
Defined.

Lemma first_role_token_witness :
  ∃ l1 r l2 v, filter (λ r, role_name r ∈ ["ops"; "dev"]) sample_roles = l1 ++ r :: l2 ∧
    credentials r !! "api" = Some v ∧ sample_getenv v = "secret" ∧ "secret" ≠ "" ∧
    ∀ r', r' ∈ l1 → ∀ v', credentials r' !! "api" = Some v' → sample_getenv v' = "".
Proof.
  apply (first_role_token plain_glob sample_getenv sample_roles None "ann").
  - apply (bool_decide_unpack _). vm_compute. exact I.
  - vm_compute. reflexivity.
Defined.

Definition oidc_labelled_db : DB := (SQL_AddKey no_faults "bob" "h9" "oidc" sample_db).1.

Lemma oidc_label_mistaken_witness :
  ∃ ctx', AuthMethodFromContext ctx' = "oidc" ∧ KeyLabelFromContext ctx' = "" ∧ CallerFromContext ctx' ≠ None.
Proof.
  set (c := with_roles (NewAuthenticator plain_glob sample_getenv sample_roles None) "bob" []).
  exists (auth_context Background c "oidc").
  destruct (oidc_label_mistaken id plain_glob sample_getenv sample_auth_env "h9" sample_roles Background oidc_labelled_db
    (NewAuthenticator plain_glob sample_getenv sample_roles None) oidc_labelled_db (auth_context Background c "oidc"))
    as [Hm Hl].
  - reflexivity.
  - intros k Hk. vm_compute in Hk. by simplify_eq.
  - split_and!; [exact Hm|exact Hl|done].
Defined.

(** The endpoint answers once, and is down a minute later: the token is accepted
    then from the cache, and not any more after five minutes. *)
Definition userinfo_config : OIDCConfig := MkOIDC "https://idp" "stile" "email" "userinfo" true [] ["example.com"].
Definition ann_claims : gmap string json := {["email" := JStr "ann@EXAMPLE.com"]}.
Definition endpoint_up : OIDC.OIDCEnv :=
  OIDC.MkOIDCEnv (λ _, None) (λ _, Ok (200, MkStream ("{" +:+ quoted "email" +:+ ":" +:+ quoted "ann@EXAMPLE.com" +:+ "}") None)) 0 0.
Definition endpoint_down (now : Z) : OIDC.OIDCEnv := OIDC.MkOIDCEnv (λ _, None) (λ _, Err "down") now now.
Definition new_validator : OIDC.OIDCValidator := OIDC.MkOIDCValidator userinfo_config ∅ (5 * Duration.Minute).

Lemma oidc_identity_sound_witness :
  let v := (OIDC.Validate id endpoint_up "tok" new_validator).1 in
  OIDC.Validate id (endpoint_down Duration.Minute) "tok" v = (v, Ok "ann@EXAMPLE.com") ∧
  is_ok (OIDC.Validate id (endpoint_down (5 * Duration.Minute)) "tok" v).2 = false ∧
  ∃ claims, vouches endpoint_up "tok" claims ∧ claims !! "email" = Some (JStr "ann@EXAMPLE.com").
Proof.
  intros v. split; [vm_compute; reflexivity|]. split; [vm_compute; reflexivity|].
  destruct (oidc_identity_sound id userinfo_config ([] ++ [(endpoint_up, "tok")]) v (endpoint_down Duration.Minute) "tok" v "ann@EXAMPLE.com")
    as (claims & [[Hm _]|[_ [Hv|(env' & token' & Hin & _ & Hv & _)]]] & _ & Hc & _).
  - apply validated_more, (validated_new id userinfo_config true "https://idp/userinfo"). reflexivity.
  - vm_compute. reflexivity.
  - discriminate Hm.
  - destruct Hv as (body & data & Hd & _). discriminate Hd.
  - exists claims. split; [|exact Hc]. simpl in Hin. apply list_elem_of_singleton in Hin. injection Hin as -> ->. exact Hv.
Defined.
