(* ===== verification/SharedCaller.v ===== *)
(** * The shared [Caller] ([auth.go] with [cached_store.go])

    [CachedStore.LookupByKey] returns the same [*KeyLookupResult], and with it the
    same [*Caller], for every hit; [Authenticate] then writes the caller's roles
    and tools through that pointer, without a lock, and the handlers read them
    later. Here the callers live in a heap, and the authentications of concurrent
    requests are interleaved between their accesses to it. Without the cache every
    lookup allocates. *)

From stdpp Require Import relations.
From S2P Require Import Prelude GoLib Json JsonRpc Transport ConfigData AuthStore CachedStore Auth.
Import GoStr.

Section heap.
Variable a : Authenticator.
(** Whether the store caches; the owners of the keys. *)
Variable cached : bool.
Variable owner : string → option string.

(** How far a request is: it has its caller; the roles of the store; it has
    written them; it has computed the tools; it is authenticated. *)
Inductive progress :=
| Looked (l : nat)
| GotRoles (l : nat) (roles : list string)
| WroteRoles (l : nat) (roles : list string)
| GotTools (l : nat) (roles : list string) (tools : list Glob)
| Ready (l : nat) (roles : list string).

Definition place (p : progress) : nat :=
  match p with Looked l | GotRoles l _ | WroteRoles l _ | GotTools l _ _ | Ready l _ => l end.

(** [granted] are the roles in the store, [history] every pair of a name and
    roles that it has returned. *)
Record state := MkState {
  heap : gmap nat Caller;
  entries : gmap string nat;                (* the cache: hash → caller *)
  granted : string → list string;
  requests : gmap nat (string * progress);  (* the key, and how far it is *)
  history : list (string * list string);
}.

Definition set_request (i : nat) (h : string) (p : progress) (s : state) : state :=
  MkState (heap s) (entries s) (granted s) (<[i := (h, p)]> (requests s)) (history s).

Definition set_heap (l : nat) (c : Caller) (s : state) : state :=
  MkState (<[l := c]> (heap s)) (entries s) (granted s) (requests s) (history s).

(** The steps of [Authenticate] on a request [i] with the key [h]; a change of
    roles; an entry that expires or is evicted. *)
Inductive step : state → state → Prop :=
| lookup_hit s i h l : cached = true → entries s !! h = Some l → step s (set_request i h (Looked l) s)
| lookup_miss s i h n l : owner h = Some n → heap s !! l = None →
    step s (set_request i h (Looked l)
      (MkState (<[l := MkCaller n [] []]> (heap s)) (if cached then <[h := l]> (entries s) else entries s) (granted s) (requests s) (history s)))
| read_roles s i h l c : requests s !! i = Some (h, Looked l) → heap s !! l = Some c →
    step s (set_request i h (GotRoles l (granted s (CallerName c)))
      (MkState (heap s) (entries s) (granted s) (requests s) (history s ++ [(CallerName c, granted s (CallerName c))])))
| write_roles s i h l r c : requests s !! i = Some (h, GotRoles l r) → heap s !! l = Some c →
    step s (set_request i h (WroteRoles l r) (set_heap l (MkCaller (CallerName c) (orderByConfig a r) (AllowedTools c)) s))
| read_tools s i h l r c : requests s !! i = Some (h, WroteRoles l r) → heap s !! l = Some c →
    step s (set_request i h (GotTools l r (unionAllowedTools a (Roles c))) s)
| write_tools s i h l r ts c : requests s !! i = Some (h, GotTools l r ts) → heap s !! l = Some c →
    step s (set_request i h (Ready l r) (set_heap l (MkCaller (CallerName c) (Roles c) ts) s))
| regrant s g : step s (MkState (heap s) (entries s) g (requests s) (history s))
| evict s h : step s (MkState (heap s) (delete h (entries s)) (granted s) (requests s) (history s)).

Definition initial (g : string → list string) : state := MkState ∅ ∅ g ∅ [].

(** ** What holds of every interleaving *)

(** A list of roles, or of tools, that this caller was given at some time; or
    none. *)
Definition roles_given (s : state) (n : string) (rs : list string) : Prop := rs = [] ∨ ∃ r, (n, r) ∈ history s ∧ rs = orderByConfig a r.
Definition tools_given (s : state) (n : string) (ts : list Glob) : Prop :=
  ts = [] ∨ ∃ r, (n, r) ∈ history s ∧ ts = unionAllowedTools a (orderByConfig a r).

(** The roles that a request has read. *)
Definition read_by (p : progress) : option (list string) :=
  match p with Looked _ => None | GotRoles _ r | WroteRoles _ r | GotTools _ r _ | Ready _ r => Some r end.

Record sound (s : state) : Prop := {
  so_entries : ∀ h l, entries s !! h = Some l → ∃ n c, owner h = Some n ∧ heap s !! l = Some c ∧ CallerName c = n;
  so_requests : ∀ i h p, requests s !! i = Some (h, p) →
    ∃ n c, owner h = Some n ∧ heap s !! place p = Some c ∧ CallerName c = n ∧
      (∀ r, read_by p = Some r → (n, r) ∈ history s) ∧
      match p with GotTools _ _ ts => tools_given s n ts | _ => True end;
  so_heap : ∀ l c, heap s !! l = Some c → roles_given s (CallerName c) (Roles c) ∧ tools_given s (CallerName c) (AllowedTools c);
}.

Lemma given_mono s s' n rs ts : (∀ x, x ∈ history s → x ∈ history s') →
  (roles_given s n rs → roles_given s' n rs) ∧ (tools_given s n ts → tools_given s' n ts).
Proof. intros Hh. split; (intros [->|(r & Hr & ->)]; [by left|right; eauto]). Qed.

(** The callers keep their names, nothing read is forgotten. *)
Record grows (s s' : state) : Prop := {
  gr_heap : ∀ l c, heap s !! l = Some c → ∃ c', heap s' !! l = Some c' ∧ CallerName c' = CallerName c;
  gr_history : ∀ x, x ∈ history s → x ∈ history s';
}.

(** A step changes one request at most; the others are as sound as before. *)
Lemma others_sound s s' i h p :
  sound s → grows s s' → requests s' = <[i := (h, p)]> (requests s) →
  (∃ n c, owner h = Some n ∧ heap s' !! place p = Some c ∧ CallerName c = n ∧
     (∀ r, read_by p = Some r → (n, r) ∈ history s') ∧ match p with GotTools _ _ ts => tools_given s' n ts | _ => True end) →
  ∀ j h' p', requests s' !! j = Some (h', p') →
    ∃ n c, owner h' = Some n ∧ heap s' !! place p' = Some c ∧ CallerName c = n ∧
      (∀ r, read_by p' = Some r → (n, r) ∈ history s') ∧ match p' with GotTools _ _ ts => tools_given s' n ts | _ => True end.
Proof.
  intros Hs Hg Hr Hp j h' p'. rewrite Hr. intros [[<- [= <- <-]]|[_ Hj]]%lookup_insert_Some; [done|].
  destruct (so_requests _ Hs _ _ _ Hj) as (n & c & Ho & Hc & Hn & Hh & Ht). destruct (gr_heap _ _ Hg _ _ Hc) as (c' & Hc' & Hn').
  exists n, c'. split_and!; [done|done|congruence| |].
  - intros r Hrd. by apply (gr_history _ _ Hg), Hh.
  - destruct p'; try done. by apply (given_mono s s' n [] tools), Ht; apply Hg.
Qed.

Lemma entries_sound s s' : sound s → grows s s' → (∀ h l, entries s' !! h = Some l → entries s !! h = Some l) →
  ∀ h l, entries s' !! h = Some l → ∃ n c, owner h = Some n ∧ heap s' !! l = Some c ∧ CallerName c = n.
Proof.
  intros Hs Hg He h l Hl%He. destruct (so_entries _ Hs _ _ Hl) as (n & c & Ho & Hc & Hn).
  destruct (gr_heap _ _ Hg _ _ Hc) as (c' & Hc' & Hn'). exists n, c'. split_and!; congruence.
Qed.

Lemma step_grows s s' : step s s' → grows s s'.
Proof.
  destruct 1; split; cbn; try (by eauto); try (by intros ?; rewrite elem_of_app; left).
  all: intros l' c' Hl'; destruct (decide (l' = l)) as [->|Hne];
    [rewrite lookup_insert_eq|rewrite lookup_insert_ne by done]; simplify_eq; eauto.
Qed.

Lemma heap_given s s' l c : sound s → grows s s' → heap s !! l = Some c →
  roles_given s' (CallerName c) (Roles c) ∧ tools_given s' (CallerName c) (AllowedTools c).
Proof.
  intros Hs Hg Hc. destruct (so_heap _ Hs _ _ Hc) as [Hr Ht].
  destruct (given_mono s s' (CallerName c) (Roles c) (AllowedTools c) (gr_history _ _ Hg)) as [H1 H2]. split; auto.
Qed.

Lemma tools_of_roles s n rs : roles_given s n rs → tools_given s n (unionAllowedTools a rs).
Proof. intros [->|(r & Hr & ->)]; [by left|right; eauto]. Qed.

(** The request of a step, before it. *)
Lemma request_sound s i h p l c : sound s → requests s !! i = Some (h, p) → place p = l → heap s !! l = Some c →
  owner h = Some (CallerName c) ∧ (∀ r, read_by p = Some r → (CallerName c, r) ∈ history s) ∧
  match p with GotTools _ _ ts => tools_given s (CallerName c) ts | _ => True end.
Proof.
  intros Hs Hi <- Hc. destruct (so_requests _ Hs _ _ _ Hi) as (n & c' & Ho & Hc' & <- & Hh & Ht). by simplify_eq.
Qed.

Lemma step_entries s s' : sound s → step s s' →
  ∀ h l, entries s' !! h = Some l → ∃ n c, owner h = Some n ∧ heap s' !! l = Some c ∧ CallerName c = n.
Proof.
  intros Hs Hst. pose proof (step_grows _ _ Hst) as Hg. destruct Hst; try (by apply (entries_sound s)).
  - intros h' l' Hl. destruct (decide (h' = h ∧ l' = l)) as [[-> ->]|Hne].
    + exists n, (MkCaller n [] []). split_and!; [done| |done]. cbn. by rewrite lookup_insert_eq.
    + assert (entries s !! h' = Some l') as Hl'.
      { cbn in Hl. destruct cached; [|done]. apply lookup_insert_Some in Hl as [[<- <-]|[_ Hl]]; [by destruct Hne|done]. }
      destruct (so_entries _ Hs _ _ Hl') as (n' & c & Ho & Hc & Hn).
      destruct (gr_heap _ _ Hg _ _ Hc) as (c' & Hc' & Hn'). exists n', c'. split_and!; congruence.
  - apply (entries_sound s); [done|done|]. cbn. intros h' l' Hl. by apply lookup_delete_Some in Hl as [_ Hl].
Qed.

Lemma step_heap s s' : sound s → step s s' →
  ∀ l c, heap s' !! l = Some c → roles_given s' (CallerName c) (Roles c) ∧ tools_given s' (CallerName c) (AllowedTools c).
Proof.
  intros Hs Hst. pose proof (step_grows _ _ Hst) as Hg.
  destruct Hst; intros l' c' Hl'; cbn in Hl'; try (by eapply heap_given).
  all: apply lookup_insert_Some in Hl' as [[<- <-]|[_ Hl']]; [|by eapply heap_given]; cbn.
  - split; by left.
  - destruct (request_sound _ _ _ _ _ _ Hs H eq_refl H0) as (_ & Hr & _).
    split; [right; exists r; split; [by apply Hr|done]|by eapply heap_given].
  - destruct (request_sound _ _ _ _ _ _ Hs H eq_refl H0) as (_ & _ & Ht). split; [by eapply heap_given|done].
Qed.

Lemma step_requests s s' : sound s → step s s' →
  ∀ j h' p', requests s' !! j = Some (h', p') →
    ∃ n c, owner h' = Some n ∧ heap s' !! place p' = Some c ∧ CallerName c = n ∧
      (∀ r, read_by p' = Some r → (n, r) ∈ history s') ∧ match p' with GotTools _ _ ts => tools_given s' n ts | _ => True end.
Proof.
  intros Hs Hst. pose proof (step_grows _ _ Hst) as Hg.
  destruct Hst as [s i h l Hc Hl|s i h n l Ho Hl|s i h l c Hi Hl|s i h l r c Hi Hl|s i h l r c Hi Hl|s i h l r ts c Hi Hl|s g|s h];
    try (apply (others_sound s _ i h _ Hs Hg eq_refl)); cbn.
  - destruct (so_entries _ Hs _ _ Hl) as (n & c & Ho & Hc' & Hn). exists n, c. by split_and!.
  - exists n, (MkCaller n [] []). rewrite lookup_insert_eq. by split_and!.
  - destruct (request_sound _ _ _ _ _ _ Hs Hi eq_refl Hl) as (Ho & _). exists (CallerName c), c. split_and!; [done..| |done].
    intros r [= <-]. apply elem_of_app. right. by apply list_elem_of_singleton.
  - destruct (request_sound _ _ _ _ _ _ Hs Hi eq_refl Hl) as (Ho & Hr & _).
    eexists (CallerName c), _. rewrite lookup_insert_eq. by split_and!.
  - destruct (request_sound _ _ _ _ _ _ Hs Hi eq_refl Hl) as (Ho & Hr & _). exists (CallerName c), c. split_and!; [done..|].
    by apply tools_of_roles, (so_heap _ Hs _ _ Hl).
  - destruct (request_sound _ _ _ _ _ _ Hs Hi eq_refl Hl) as (Ho & Hr & _).
    eexists (CallerName c), _. rewrite lookup_insert_eq. by split_and!.
  - apply (so_requests _ Hs).
  - apply (so_requests _ Hs).
Qed.

Lemma reached_sound s s' : rtc step s s' → sound s → sound s'.
Proof.
  induction 1 as [|s1 s2 s3 Hst _ IH]; [done|]. intros Hs. apply IH. split; [by apply (step_entries s1)|by apply (step_requests s1)|by apply (step_heap s1)].
Qed.

Lemma initial_sound g : sound (initial g).
Proof. split; intros *; cbn; by rewrite lookup_empty. Qed.

(** ** Without the cache, nothing is shared *)

(** What a request has written is what its caller holds. *)
Definition own (p : progress) (c : Caller) : Prop :=
  match p with
  | Looked _ | GotRoles _ _ => True
  | WroteRoles _ r => Roles c = orderByConfig a r
  | GotTools _ r ts => Roles c = orderByConfig a r ∧ ts = unionAllowedTools a (orderByConfig a r)
  | Ready _ r => Roles c = orderByConfig a r ∧ AllowedTools c = unionAllowedTools a (orderByConfig a r)
  end.

Record unshared (s : state) : Prop := {
  un_entries : entries s = ∅;
  un_places : ∀ i j h h' p p', requests s !! i = Some (h, p) → requests s !! j = Some (h', p') → place p = place p' → i = j;
  un_own : ∀ i h p, requests s !! i = Some (h, p) → ∃ c, heap s !! place p = Some c ∧ own p c;
}.

(** A step of request [i] that writes nothing but its own caller. *)
Lemma unshared_step s s' i h p :
  unshared s → entries s' = ∅ → requests s' = <[i := (h, p)]> (requests s) →
  (∀ l, l ≠ place p → heap s' !! l = heap s !! l) →
  (∀ j h' p', requests s !! j = Some (h', p') → place p' = place p → j = i) →
  (∃ c, heap s' !! place p = Some c ∧ own p c) → unshared s'.
Proof.
  intros Hu He Hr Hh Hp Hc. split; [done|..].
  - intros j j' h1 h2 p1 p2. rewrite Hr. intros [[<- [= <- <-]]|[Hj H1]]%lookup_insert_Some [[<- [= <- <-]]|[Hj' H2]]%lookup_insert_Some Hpl; try done.
    + symmetry. by apply (Hp _ _ _ H2).
    + by apply (Hp _ _ _ H1).
    + by apply (un_places _ Hu _ _ _ _ _ _ H1 H2).
  - intros j h1 p1. rewrite Hr. intros [[<- [= <- <-]]|[Hj H1]]%lookup_insert_Some; [done|].
    destruct (un_own _ Hu _ _ _ H1) as (c1 & Hc1 & Ho). exists c1. split; [|done]. rewrite Hh; [done|].
    intros Heq. by apply Hj; symmetry; apply (Hp _ _ _ H1).
Qed.

Lemma step_unshared s s' : cached = false → step s s' → unshared s → unshared s'.
Proof.
  intros Hf Hst Hu. pose proof (un_entries _ Hu) as He.
  destruct Hst as [s i h l Hc Hl|s i h n l Ho Hl|s i h l c Hi Hl|s i h l r c Hi Hl|s i h l r c Hi Hl|s i h l r ts c Hi Hl|s g|s h].
  - congruence.
  - apply (unshared_step s _ i h (Looked l)); cbn; try done.
    + by rewrite Hf.
    + intros l' Hne. by rewrite lookup_insert_ne.
    + intros j h' p' Hj Hpl. destruct (un_own _ Hu _ _ _ Hj) as (c & Hc & _). congruence.
    + rewrite lookup_insert_eq. eauto.
  - apply (unshared_step s _ i h (GotRoles l (granted s (CallerName c)))); cbn; try done; [|eauto].
    intros j h' p' Hj Hpl. by apply (un_places _ Hu _ _ _ _ _ _ Hj Hi).
  - apply (unshared_step s _ i h (WroteRoles l r)); cbn; try done.
    + intros l' Hne. by rewrite lookup_insert_ne.
    + intros j h' p' Hj Hpl. by apply (un_places _ Hu _ _ _ _ _ _ Hj Hi).
    + rewrite lookup_insert_eq. eauto.
  - destruct (un_own _ Hu _ _ _ Hi) as (c' & Hc' & Ho). cbn in Hc', Ho. simplify_eq.
    apply (unshared_step s _ i h (GotTools l r (unionAllowedTools a (Roles c)))); cbn; try done.
    + intros j h' p' Hj Hpl. by apply (un_places _ Hu _ _ _ _ _ _ Hj Hi).
    + exists c. by rewrite Ho.
  - destruct (un_own _ Hu _ _ _ Hi) as (c' & Hc' & Ho & Ht). cbn in Hc'. simplify_eq.
    apply (unshared_step s _ i h (Ready l r)); cbn; try done.
    + intros l' Hne. by rewrite lookup_insert_ne.
    + intros j h' p' Hj Hpl. by apply (un_places _ Hu _ _ _ _ _ _ Hj Hi).
    + rewrite lookup_insert_eq. eauto.
  - destruct Hu. by split.
  - destruct Hu. split; [|done..]. cbn. by rewrite He, delete_empty.
Qed.

Lemma steps_unshared s s' : cached = false → rtc step s s' → unshared s → unshared s'.
Proof. intros Hf. induction 1; eauto using step_unshared. Qed.

Lemma initial_unshared g : unshared (initial g).
Proof. split; [done|..]; intros *; cbn; by rewrite lookup_empty. Qed.
End heap.

(** C16: however the authentications of concurrent requests interleave on the
    shared caller, with roles changed and cache entries evicted in between, the
    caller of an authenticated request has the name of its key's owner, the
    roles that the request itself read were that caller's in the store, and every
    tool it may use is one that roles of that same caller, as the store returned
    them at some time, allow: nothing leaks from one caller to another. *)
Theorem shared_caller_isolated (glob_compile : string → option Glob) roles a cached owner g s i h l r :
  NoDup (role_name <$> roles) → configured glob_compile roles a →
  rtc (step a cached owner) (initial g) s → requests s !! i = Some (h, Ready l r) →
  ∃ n c, owner h = Some n ∧ heap s !! l = Some c ∧ CallerName c = n ∧ (n, r) ∈ history s ∧
    ∀ tool, CanAccessTool c tool = true → ∃ held, (n, held) ∈ history s ∧ may_use glob_compile roles held tool.
Proof.
  intros Hnd Hcf Hst Hi. pose proof (reached_sound _ _ _ _ _ Hst (initial_sound a owner g)) as Hs.
  destruct (so_requests _ _ _ Hs _ _ _ Hi) as (n & c & Ho & Hc & Hn & Hr & _).
  exists n, c. split_and!; [done..|by apply Hr|]. intros tool Ht.
  destruct (so_heap _ _ _ Hs _ _ Hc) as [_ [He|(held & Hh & He)]].
  - unfold CanAccessTool in Ht. by rewrite He in Ht.
  - rewrite Hn in Hh. exists held. split; [done|]. apply (access_is_union glob_compile roles a n held tool Hnd Hcf).
    unfold CanAccessTool in *. by rewrite He in Ht.
Qed.

(** Without the cache (a TTL of 0) the caller of an authenticated request is
    exactly the one that the roles it read give, whatever the other requests do. *)
Theorem uncached_caller_private a owner g s i h l r :
  rtc (step a false owner) (initial g) s → requests s !! i = Some (h, Ready l r) →
  ∃ n, owner h = Some n ∧ (n, r) ∈ history s ∧ heap s !! l = Some (with_roles a n r).
Proof.
  intros Hst Hi. pose proof (reached_sound _ _ _ _ _ Hst (initial_sound a owner g)) as Hs.
  pose proof (steps_unshared _ _ _ _ _ eq_refl Hst (initial_unshared a g)) as Hu.
  destruct (so_requests _ _ _ Hs _ _ _ Hi) as (n & c & Ho & Hc & Hn & Hr & _).
  destruct (un_own _ _ Hu _ _ _ Hi) as (c' & Hc' & Hro & Hto). cbn in Hc, Hc'. simplify_eq.
  exists (CallerName c). split_and!; [done|by apply Hr|]. rewrite Hc. destruct c. cbn in *. by subst.
Qed.

(** With the cache it is not: a request that reads the old roles before they are
    changed and writes them afterwards gives them to every request that holds
    the same caller, also to one that began after the change, read the new roles
    and has been authenticated with them. *)
Theorem revoked_roles_return a owner h n old new :
  owner h = Some n →
  ∃ s, rtc (step a true owner) (initial (λ _, old)) s ∧
    requests s !! 1%nat = Some (h, Ready 0 new) ∧ granted s n = new ∧ heap s !! 0%nat = Some (with_roles a n old).
Proof.
  intros Ho. eexists. split.
  - eapply rtc_l; [by apply (lookup_miss _ _ _ _ 0%nat h n 0%nat)|].
    eapply rtc_l; [by apply (read_roles _ _ _ _ 0%nat h 0%nat (MkCaller n [] []))|].
    eapply rtc_l; [apply (regrant _ _ _ _ (λ _, new))|].
    eapply rtc_l; [by apply (lookup_hit _ _ _ _ 1%nat h 0%nat); [|apply lookup_insert_eq]|].
    eapply rtc_l; [by apply (read_roles _ _ _ _ 1%nat h 0%nat (MkCaller n [] []))|].
    eapply rtc_l; [by apply (write_roles _ _ _ _ 1%nat h 0%nat new (MkCaller n [] []))|].
    eapply rtc_l; [by eapply (read_tools _ _ _ _ 1%nat h 0%nat new)|].
    eapply rtc_l; [by eapply (write_tools _ _ _ _ 1%nat h 0%nat new)|].
    eapply rtc_l; [by eapply (write_roles _ _ _ _ 0%nat h 0%nat old)|].
    eapply rtc_l; [by eapply (read_tools _ _ _ _ 0%nat h 0%nat old)|].
    eapply rtc_l; [by eapply (write_tools _ _ _ _ 0%nat h 0%nat old)|]. apply rtc_refl.
  - by split_and!.
Qed.

(** ** A run *)

Definition one_owner (h : string) : option string := if bool_decide (h = "h1") then Some "ann" else None.

Definition sample_authenticator : Authenticator := NewAuthenticator plain_glob sample_getenv sample_roles None.

(** ann's request with "h1", alone. *)
Lemma one_request cached : ∃ s, rtc (step sample_authenticator cached one_owner) (initial (λ _, ["dev"])) s ∧
  requests s !! 7%nat = Some ("h1", Ready 0 ["dev"]) ∧ heap s !! 0%nat = Some ann.
Proof.
  eexists. split; [|shelve].
  eapply rtc_l; [by apply (lookup_miss _ _ _ _ 7%nat "h1" "ann" 0%nat)|].
  eapply rtc_l; [by apply (read_roles _ _ _ _ 7%nat "h1" 0%nat (MkCaller "ann" [] []))|].
  eapply rtc_l; [by apply (write_roles _ _ _ _ 7%nat "h1" 0%nat ["dev"] (MkCaller "ann" [] []))|].
  eapply rtc_l; [by eapply (read_tools _ _ _ _ 7%nat "h1" 0%nat ["dev"])|].
  eapply rtc_l; [by eapply (write_tools _ _ _ _ 7%nat "h1" 0%nat ["dev"])|]. apply rtc_refl.
  Unshelve. split; reflexivity.
Qed.

Lemma shared_caller_isolated_witness :
  ∃ s, heap s !! 0%nat = Some ann ∧ CanAccessTool ann "search" = true ∧
    ∃ held, ("ann", held) ∈ history s ∧ may_use plain_glob sample_roles held "search".
Proof.
  destruct (one_request true) as (s & Hst & Hr & Hh). exists s. split_and!; [exact Hh|reflexivity|].
  destruct (shared_caller_isolated plain_glob sample_roles sample_authenticator true one_owner (λ _, ["dev"]) s 7 "h1" 0 ["dev"])
    as (n & c & Ho & Hc & Hn & _ & Ht); [|split; reflexivity|exact Hst|exact Hr|].
  - apply (bool_decide_unpack _). vm_compute. exact I.
  - rewrite Hh in Hc. injection Hc as <-. cbn in Hn. subst n. apply Ht. reflexivity.
Defined.

Lemma uncached_caller_private_witness :
  ∃ s, heap s !! 0%nat = Some (with_roles sample_authenticator "ann" ["dev"]) ∧ ("ann", ["dev"]) ∈ history s.
Proof.
  destruct (one_request false) as (s & Hst & Hr & Hh). exists s.
  destruct (uncached_caller_private sample_authenticator one_owner (λ _, ["dev"]) s 7 "h1" 0 ["dev"] Hst Hr) as (n & Ho & Hn & Hc).
  vm_compute in Ho. injection Ho as <-. split; [exact Hc|exact Hn].
Defined.

(** ann loses "ops", and her next request may still use every tool. *)
Lemma revoked_roles_return_witness :
  ∃ s, rtc (step sample_authenticator true one_owner) (initial (λ _, ["ops"])) s ∧
    requests s !! 1%nat = Some ("h1", Ready 0 []) ∧ granted s "ann" = [] ∧
    ∃ c, heap s !! 0%nat = Some c ∧ CanAccessTool c "deploy" = true.
Proof.
  destruct (revoked_roles_return sample_authenticator one_owner "h1" "ann" ["ops"] [] eq_refl) as (s & Hst & Hr & Hg & Hh).
  exists s. split_and!; [exact Hst|exact Hr|exact Hg|]. eexists. split; [exact Hh|reflexivity].
Defined.
