(* ===== verification/Proxy.v ===== *)
(** * The proxy handler ([internal/proxy/proxy.go])

    [Handler] joins the router, the rate limiter and the OAuth interfaces, each
    through its class, and answers tools/list and tools/call. What is written
    to the client is a [ResponseWriter] value. Spans of the tracer have no
    effect on the behaviour and are left out; metrics and audit entries are
    recorded in lists. *)

From stdpp Require Import sorting.
From Stdlib Require Import SpecFloat.
From S2P Require Import Prelude GoLib Json JsonRpc Transport ConfigData Config RateLimit Router.
Import GoStr.

(** ** Interfaces *)

(** [UpstreamAuthResolver], which may refresh and store tokens, and
    [ConnectionChecker]; [X] is the state they share. *)
Class UpstreamAuth (X : Type) := {
  ResolveToken : string → string → X → X * result string string;
  IsConnected : string → string → X → bool * string;
  ConnectURL : string → string → X → string;
}.

(** ** Responses *)

Inductive Body := NoBody | JSONBody (j : json) | StreamBody (s : Stream).

Record ResponseWriter := MkWriter { w_status : Z; w_headers : gmap string string; w_body : Body }.

Definition new_writer : ResponseWriter := MkWriter 200 ∅ NoBody.

Definition set_header (k v : string) (w : ResponseWriter) : ResponseWriter :=
  MkWriter (w_status w) (<[k := v]> (w_headers w)) (w_body w).

Definition writeJSONResponse (resp : Response) (w : ResponseWriter) : ResponseWriter :=
  let w := set_header "Content-Type" "application/json" w in
  MkWriter (w_status w) (w_headers w) (JSONBody (Response_MarshalJSON resp)).

(** [TransportResult.WriteResponse], to a client that reads to the end. *)
Definition WriteResponse (r : TransportResult) (w : ResponseWriter) : ResponseWriter :=
  match r with
  | JSONResult resp => writeJSONResponse resp w
  | StreamResult s =>
      let w := set_header "Connection" "keep-alive" (set_header "Cache-Control" "no-cache"
                 (set_header "Content-Type" "text/event-stream" w)) in
      MkWriter (w_status w) (w_headers w) (StreamBody s)
  end.

(** [Duration.Seconds] *)
Definition seconds (d : Z) : spec_float :=
  Float64.add (Float64.of_Z (Z.quot d Duration.Second))
    (Float64.div (Float64.of_Z (Z.rem d Duration.Second)) (Float64.of_Z Duration.Second)).

Definition setRateLimitHeaders `{Float64.GoPlatform} (res : option RateLimitResult) (w : ResponseWriter) : ResponseWriter :=
  match res with
  | None => w
  | Some r =>
      let w := set_header "X-RateLimit-Limit" (Strconv.FormatInt (Limit r)) w in
      let w := set_header "X-RateLimit-Remaining" (Strconv.FormatInt (Remaining r)) w in
      let w := set_header "X-RateLimit-Reset" (Strconv.FormatInt (ResetAt r / Duration.Second)) w in
      match Denial r with
      | None => w
      | Some _ =>
          let retryAfter := Float64.to_int (Float64.ceil (seconds (RetryAfter r))) in
          set_header "Retry-After" (Strconv.FormatInt (if retryAfter <? 1 then 1 else retryAfter)) w
      end
  end.

Definition level_name (l : Level) : string :=
  match l with CallerLevel => "caller" | ToolLevel => "tool" | UpstreamLevel => "upstream" end.

(** ** Rewriting the tool name *)

Definition rewriteToolName (req : Request) (originalName : string) : Request :=
  match Params req ≫= as_map with
  | None => req
  | Some params =>
      MkRequest (JSONRPC req) (Method req) (Some (marshal_map (<["name" := JStr originalName]> params))) (RequestID req)
  end.

(** ** The handler *)

Record AuditEntry := MkAuditEntry {
  ae_caller : string;
  ae_method : string;
  ae_tool : string;
  ae_upstream : string;
  ae_params : option json;
  ae_status : string;
  ae_keyLabel : string;
  ae_timestamp : Z;
  ae_latencyMS : Z;
}.

Inductive proxy_metric :=
| RequestMetric (caller tool upstream status : string)
| DurationMetric (caller tool upstream : string) (secs : spec_float)
| RejectionMetric (caller tool : string).

Record Handler (T R X : Type) := MkHandler {
  router : RouteTable T;
  rateLimiter : option R;
  h_metrics : option (list proxy_metric);
  auditStore : option (list AuditEntry);
  oauth : X;
  authResolver : bool;        (* whether the resolver is set *)
  connectionChecker : bool;   (* whether the checker is set *)
}.
Arguments MkHandler {T R X}. Arguments router {T R X}. Arguments rateLimiter {T R X}. Arguments h_metrics {T R X}.
Arguments auditStore {T R X}. Arguments oauth {T R X}. Arguments authResolver {T R X}. Arguments connectionChecker {T R X}.

Record PendingConnection := MkPending { pc_provider : string; pc_url : string }.

Section proxy.
Context `{Float64.GoPlatform} `{GoRange} {T R X RLEnv : Type} `{Transport T} `{RateLimiter RLEnv R} `{UpstreamAuth X}.
Implicit Types h : Handler T R X.

(** Outside readings of one call: the limiter's environment, the start time, the
    latency, and whether the audit store fails to write the entry. *)
Record ProxyEnv := MkProxyEnv { rl_env : RLEnv; start : Z; latency : Z; audit_fault : bool }.

Definition set_router h (rt : RouteTable T) : Handler T R X :=
  MkHandler rt (rateLimiter h) (h_metrics h) (auditStore h) (oauth h) (authResolver h) (connectionChecker h).
Definition set_limiter h (r : R) : Handler T R X :=
  MkHandler (router h) (Some r) (h_metrics h) (auditStore h) (oauth h) (authResolver h) (connectionChecker h).
Definition set_oauth h (x : X) : Handler T R X :=
  MkHandler (router h) (rateLimiter h) (h_metrics h) (auditStore h) x (authResolver h) (connectionChecker h).
Definition record_metric h (m : proxy_metric) : Handler T R X :=
  MkHandler (router h) (rateLimiter h) ((λ l, l ++ [m]) <$> h_metrics h) (auditStore h) (oauth h) (authResolver h) (connectionChecker h).

(** *** tools/list *)

(** [t.Annotations["x-stile-upstream"].(string)] *)
Definition toolUpstream (t : ToolSchema) : string :=
  match Annotations t !! "x-stile-upstream" with Some (JStr s) => s | _ => "" end.

(** The second loop: tools of connected upstreams, and the providers that the
    caller has yet to connect to. *)
Fixpoint connected_tools (x : X) (caller : string) (tools : list ToolSchema) (connected : list ToolSchema)
    (pendingSet : gmap string string) : list ToolSchema * gmap string string :=
  match tools with
  | [] => (connected, pendingSet)
  | t :: tools =>
      let upstream := toolUpstream t in
      if bool_decide (upstream = "") then connected_tools x caller tools (connected ++ [t]) pendingSet
      else
        let '(ok, provider) := IsConnected caller upstream x in
        if ok then connected_tools x caller tools (connected ++ [t]) pendingSet
        else if bool_decide (provider = "") then connected_tools x caller tools connected pendingSet
        else match pendingSet !! provider with
             | Some _ => connected_tools x caller tools connected pendingSet
             | None => connected_tools x caller tools connected (<[provider := ConnectURL caller provider x]> pendingSet)
             end
  end.

Definition filteredToolsWithPending (ctx : Context) h : list ToolSchema * list PendingConnection :=
  let tools := ListTools (router h) in
  match CallerFromContext ctx with
  | None => (tools, [])
  | Some caller =>
      let tools := filter (λ t, CanAccessTool caller (ToolName t) = true) tools in
      if connectionChecker h then
        let '(connected, pendingSet) := connected_tools (oauth h) (CallerName caller) tools [] ∅ in
        (connected, (λ pu, MkPending pu.1 pu.2) <$> go_range pendingSet)
      else (tools, [])
  end.

Definition FilteredTools (ctx : Context) h : list ToolSchema := (filteredToolsWithPending ctx h).1.

(** [json.Marshal] of a tool. *)
Definition marshalTool (t : ToolSchema) : json :=
  JObj ([("name", JStr (ToolName t))]
    ++ (if bool_decide (Description t = "") then [] else [("description", JStr (Description t))])
    ++ member "inputSchema" (InputSchema t)
    ++ (if bool_decide (Annotations t = ∅) then [] else [("annotations", marshal_map (Annotations t))])).

(** A nil slice is marshalled as [null]. The filtered list is nil if the
    connection check leaves nothing of it, or if no upstream lists a tool and
    there is no caller. *)
Definition marshalTools (nil_if_empty : bool) (tools : list ToolSchema) : json :=
  match tools with
  | [] => if nil_if_empty then JNull else JArr []
  | _ => JArr (marshalTool <$> tools)
  end.

Definition tools_nil (ctx : Context) h : bool :=
  match CallerFromContext ctx with
  | None => true
  | Some _ => connectionChecker h
  end.

Definition HandleToolsList (ctx : Context) (id : option ID) h : option Response :=
  let '(tools, pending) := filteredToolsWithPending ctx h in
  NewResponse id (Some (JObj ([("tools", marshalTools (tools_nil ctx h) tools)]
    ++ match pending with
       | [] => []
       | _ => [("x-stile-pending-connections",
                 JArr ((λ p, JObj [("provider", JStr (pc_provider p)); ("connect_url", JStr (pc_url p))]) <$> pending))]
       end))).

(** *** tools/call *)

(** An entry that the audit store does not take is logged and dropped. *)
Definition recordRequest (env : ProxyEnv) (ctx : Context) (callerName tool upstream status : string)
    (params : option json) h : Handler T R X :=
  let h := record_metric h (RequestMetric callerName tool upstream status) in
  let h := record_metric h (DurationMetric callerName tool upstream (seconds (latency env))) in
  let entry := MkAuditEntry callerName "tools/call" tool upstream params status (KeyLabelFromContext ctx) (start env)
                 (Z.quot (latency env) Duration.Millisecond) in
  MkHandler (router h) (rateLimiter h) (h_metrics h) ((λ l, if audit_fault env then l else l ++ [entry]) <$> auditStore h) (oauth h)
    (authResolver h) (connectionChecker h).

(** The name that the handler decides on. *)
Definition requested_tool (req : Request) : option string :=
  name ← Params req ≫= struct_string "name";
  if bool_decide (name = "") then None else Some name.

Definition callerNameOf (ctx : Context) : string :=
  match CallerFromContext ctx with Some c => CallerName c | None => "anonymous" end.

Definition access_ok (ctx : Context) (tool : string) : bool :=
  match CallerFromContext ctx with Some c => CanAccessTool c tool | None => true end.

Definition check_rate (env : ProxyEnv) (ctx : Context) (tool upstream : string) h :
    Handler T R X * option RateLimitResult :=
  match rateLimiter h with
  | None => (h, None)
  | Some r =>
      let roles := match CallerFromContext ctx with Some c => Roles c | None => [] end in
      let '(r, res) := AllowRequest (rl_env env) (callerNameOf ctx) tool upstream roles r in
      (set_limiter h r, res)
  end.

(** The context of the round trip, with the caller's token if there is one. *)
Definition resolve_token (ctx : Context) (upstream : string) h : Handler T R X * result string Context :=
  if authResolver h then
    let '(x, r) := ResolveToken (callerNameOf ctx) upstream (oauth h) in
    (set_oauth h x,
     match r with
     | Err e => Err e
     | Ok token => Ok (if bool_decide (token = "") then ctx else ContextWithUpstreamToken ctx token)
     end)
  else (h, Ok ctx).

Definition find_upstream (id : nat) (rt : RouteTable T) : option (Upstream T) :=
  List.find (λ u, bool_decide (uid u = id)) (rt_upstreams rt).

(** The round trip with the upstream a route points to. *)
Definition round_trip (ctx : Context) (req : Request) (u : Upstream T) h : Handler T R X * result error TransportResult :=
  let '(t, r) := RoundTrip ctx req (up_transport u) in
  let rt := router h in
  (set_router h (MkTable (entries rt) (set_transport (uid u) t (rt_upstreams rt)) (next_uid rt) (refresh_metrics rt)), r).

Definition denial_response (req : Request) (l : Level) : Response :=
  NewErrorResponseWithData (RequestID req) (-32000) "rate limit exceeded" (JObj [("limit", JStr (level_name l))]).

(** From the route on. *)
Definition forward (env : ProxyEnv) (ctx : Context) (req : Request) (tool : string) (route : Route) (u : Upstream T)
    (w : ResponseWriter) h : Handler T R X * ResponseWriter :=
  let fail h up := recordRequest env ctx (callerNameOf ctx) tool up "error" (Params req) h in
  let '(h, rl) := check_rate env ctx tool (up_name u) h in
  match rl ≫= Denial with
  | Some l =>
      let h := record_metric h (RejectionMetric (callerNameOf ctx) tool) in
      (fail h (up_name u), writeJSONResponse (denial_response req l) (setRateLimitHeaders rl w))
  | None =>
      let '(h, tok) := resolve_token ctx (up_name u) h in
      match tok with
      | Err e => (fail h (up_name u), writeJSONResponse (NewErrorResponse (RequestID req) (-32000) e) w)
      | Ok rtCtx =>
          let upstreamReq := if bool_decide (OriginalName route = tool) then req else rewriteToolName req (OriginalName route) in
          let '(h, res) := round_trip rtCtx upstreamReq u h in
          let status := match res with Ok _ => "ok" | Err _ => "error" end in
          let h := recordRequest env ctx (callerNameOf ctx) tool (up_name u) status (Params req) h in
          (h, match res with
              | Err e => writeJSONResponse (NewErrorResponse (RequestID req) CodeInternalError (error_string e)) (setRateLimitHeaders rl w)
              | Ok r => WriteResponse r (setRateLimitHeaders rl w)
              end)
      end
  end.

(** [HandleToolsCall]. A route always points to an upstream of the table, so
    the last [None] does not occur. *)
Definition HandleToolsCall (env : ProxyEnv) (ctx : Context) (req : Request) (w : ResponseWriter) h :
    Handler T R X * ResponseWriter :=
  match requested_tool req with
  | None => (h, writeJSONResponse (NewErrorResponse (RequestID req) CodeInvalidParams "missing or invalid params.name") w)
  | Some tool =>
      let fail h := recordRequest env ctx (callerNameOf ctx) tool "" "error" (Params req) h in
      if negb (access_ok ctx tool) then
        (fail h, writeJSONResponse (NewErrorResponse (RequestID req) (-32000) "access denied") w)
      else
        match Resolve (router h) tool ≫= λ route, (λ u, (route, u)) <$> find_upstream (RouteUpstream route) (router h) with
        | None => (fail h, writeJSONResponse (NewErrorResponse (RequestID req) CodeInvalidParams "unknown tool") w)
        | Some (route, u) => forward env ctx req tool route u w h
        end
  end.
End proxy.
Arguments MkProxyEnv {RLEnv}. Arguments rl_env {RLEnv}. Arguments start {RLEnv}. Arguments latency {RLEnv}.
Arguments audit_fault {RLEnv}.

(** ** Properties of tools/call *)

Section call.
Context `{Float64.GoPlatform} `{GoRange} {T R X RLEnv : Type} `{Transport T} `{RateLimiter RLEnv R} `{UpstreamAuth X}.
Implicit Types (h : Handler T R X) (env : ProxyEnv (RLEnv:=RLEnv)).

(** The tool that a call is routed by, its route, and the guards before the
    upstream: access, the rate limits, the caller's token. *)
Record routed (ctx : Context) (req : Request) h (tool : string) (route : Route) (u : Upstream T) : Prop := {
  ro_tool : requested_tool req = Some tool;
  ro_access : access_ok ctx tool = true;
  ro_route : Resolve (router h) tool = Some route;
  ro_upstream : find_upstream (RouteUpstream route) (router h) = Some u;
}.

Definition admitted env ctx h (tool : string) (u : Upstream T) : bool :=
  match (check_rate env ctx tool (up_name u) h).2 ≫= Denial with Some _ => false | None => true end.

(** The request that the upstream of a route is to receive. *)
Definition outbound (req : Request) (tool : string) (route : Route) : Request :=
  if bool_decide (OriginalName route = tool) then req else rewriteToolName req (OriginalName route).

Record forwarded env ctx (req : Request) h (tool : string) (route : Route) (u : Upstream T) (rtCtx : Context) : Prop := {
  fw_routed : routed ctx req h tool route u;
  fw_admitted : admitted env ctx h tool u = true;
  fw_token : (resolve_token ctx (up_name u) (check_rate env ctx tool (up_name u) h).1).2 = Ok rtCtx;
}.

Lemma check_rate_frame env ctx tool up h :
  let h' := (check_rate env ctx tool up h).1 in
  router h' = router h ∧ auditStore h' = auditStore h ∧ oauth h' = oauth h ∧ h_metrics h' = h_metrics h.
Proof. unfold check_rate. destruct (rateLimiter h); [|done]. by destruct (AllowRequest _ _ _ _ _ _). Qed.

Lemma resolve_token_frame ctx up h :
  let h' := (resolve_token ctx up h).1 in router h' = router h ∧ auditStore h' = auditStore h.
Proof. unfold resolve_token. destruct (authResolver h); [|done]. by destruct (ResolveToken _ _ _). Qed.

Lemma resolve_token_ctx ctx up h rtCtx :
  (resolve_token ctx up h).2 = Ok rtCtx →
  rtCtx = ctx ∨ ∃ token, token ≠ "" ∧ rtCtx = ContextWithUpstreamToken ctx token.
Proof.
  unfold resolve_token. destruct (authResolver h); simpl; [|intros [= ->]; by left].
  destruct (ResolveToken _ _ _) as [x [token|e]]; simpl; [|done].
  case_bool_decide; intros [= <-]; [by left|right; eauto].
Qed.

(** One audit entry for a call, with its outcome; none if it cannot be written. *)
Definition audited env (ctx : Context) (req : Request) (tool status : string) h h' : Prop :=
  ∃ e, auditStore h' = (λ l, if audit_fault env then l else l ++ [e]) <$> auditStore h ∧
    ae_tool e = tool ∧ ae_caller e = callerNameOf ctx ∧ ae_params e = Params req ∧
    ae_keyLabel e = KeyLabelFromContext ctx ∧ ae_status e = status.

Lemma recordRequest_audited env ctx req tool up status h h1 :
  auditStore h1 = auditStore h →
  audited env ctx req tool status h (recordRequest env ctx (callerNameOf ctx) tool up status (Params req) h1).
Proof. intros Ha. eexists. unfold recordRequest. cbn [auditStore record_metric]. rewrite Ha. split; [reflexivity|done]. Qed.

(** A call that is answered by the gateway itself. *)
Definition rejected env (ctx : Context) (req : Request) h (h' : Handler T R X) (w' : ResponseWriter) : Prop :=
  router h' = router h ∧
  (∃ err, w_body w' = JSONBody (Response_MarshalJSON (MkResponse Version None (Some err) (RequestID req)))) ∧
  ∀ tool, requested_tool req = Some tool → audited env ctx req tool "error" h h'.

Lemma fail_rejected env ctx req tool up err w h h1 :
  requested_tool req = Some tool → router h1 = router h → auditStore h1 = auditStore h →
  rejected env ctx req h (recordRequest env ctx (callerNameOf ctx) tool up "error" (Params req) h1)
    (writeJSONResponse (MkResponse Version None (Some err) (RequestID req)) w).
Proof.
  intros Ht Hr Ha. split_and!; [done|by exists err|]. intros tool' Ht'. replace tool' with tool by congruence.
  by apply recordRequest_audited.
Qed.

(** The two outcomes of a call. *)
Lemma HandleToolsCall_not_forwarded env ctx req w h :
  (∀ tool route u rtCtx, ¬ forwarded env ctx req h tool route u rtCtx) →
  let r := HandleToolsCall env ctx req w h in rejected env ctx req h r.1 r.2.
Proof.
  intros Hnf. unfold HandleToolsCall. destruct (requested_tool req) as [tool|] eqn:Et.
  2: { split_and!; [done|by eexists|congruence]. }
  destruct (access_ok ctx tool) eqn:Ea; [|by apply fail_rejected].
  cbn [negb]. destruct (Resolve (router h) tool) as [route|] eqn:Er; simpl; [|by apply fail_rejected].
  destruct (find_upstream _ _) as [u|] eqn:Eu; simpl; [|by apply fail_rejected].
  unfold forward. pose proof (check_rate_frame env ctx tool (up_name u) h) as (F1 & F2 & _).
  assert (∀ rtCtx, admitted env ctx h tool u = true →
    (resolve_token ctx (up_name u) (check_rate env ctx tool (up_name u) h).1).2 ≠ Ok rtCtx) as Hno.
  { intros rtCtx Hadm Htok. by apply (Hnf tool route u rtCtx). }
  unfold admitted in Hno. destruct (check_rate env ctx tool (up_name u) h) as [h1 rl]; simpl in *.
  destruct (rl ≫= Denial) as [l|] eqn:El; [by apply fail_rejected|].
  pose proof (resolve_token_frame ctx (up_name u) h1) as [G1 G2].
  destruct (resolve_token ctx (up_name u) h1) as [h2 [rtCtx|e]]; simpl in *; [by destruct (Hno rtCtx)|].
  apply fail_rejected; congruence.
Qed.

Lemma HandleToolsCall_forwarded env ctx req w h tool route u rtCtx :
  forwarded env ctx req h tool route u rtCtx →
  let '(t, res) := RoundTrip rtCtx (outbound req tool route) (up_transport u) in
  let r := HandleToolsCall env ctx req w h in
  entries (router r.1) = entries (router h) ∧
  rt_upstreams (router r.1) = set_transport (uid u) t (rt_upstreams (router h)) ∧
  audited env ctx req tool (if is_ok res then "ok" else "error") h r.1 ∧
  w_body r.2 = match res with
    | Ok (JSONResult resp) => JSONBody (Response_MarshalJSON resp)
    | Ok (StreamResult s) => StreamBody s
    | Err e => JSONBody (Response_MarshalJSON (NewErrorResponse (RequestID req) CodeInternalError (error_string e)))
    end.
Proof.
  intros [[Ht Ha Hr Hu] Hadm Htok]. unfold HandleToolsCall. rewrite Ht, Ha. cbn [negb]. rewrite Hr. simpl. rewrite Hu. simpl.
  unfold forward. pose proof (check_rate_frame env ctx tool (up_name u) h) as (F1 & F2 & _).
  unfold admitted in Hadm. destruct (check_rate env ctx tool (up_name u) h) as [h1 rl]; simpl in *.
  destruct (rl ≫= Denial) as [l|]; [done|].
  pose proof (resolve_token_frame ctx (up_name u) h1) as [G1 G2].
  destruct (resolve_token ctx (up_name u) h1) as [h2 tok]; simpl in *. rewrite Htok.
  unfold round_trip. fold (outbound req tool route).
  destruct (RoundTrip rtCtx (outbound req tool route) (up_transport u)) as [t res]. cbn [fst snd]. split_and!.
  - simpl. by rewrite G1, F1.
  - simpl. by rewrite G1, F1.
  - replace (match res with Ok _ => "ok" | Err _ => "error" end) with (if is_ok res then "ok" else "error") by by destruct res.
    apply recordRequest_audited. simpl. congruence.
  - by destruct res as [[]|].
Qed.

Lemma forwarded_dec env ctx req h :
  (∃ tool route u rtCtx, forwarded env ctx req h tool route u rtCtx) ∨
  (∀ tool route u rtCtx, ¬ forwarded env ctx req h tool route u rtCtx).
Proof.
  destruct (requested_tool req) as [tool|] eqn:Et; [|right; intros ???? [[]]; congruence].
  destruct (access_ok ctx tool) eqn:Ea; [|right; intros ???? [[]]; congruence].
  destruct (Resolve (router h) tool) as [route|] eqn:Er; [|right; intros ???? [[]]; congruence].
  destruct (find_upstream (RouteUpstream route) (router h)) as [u|] eqn:Eu;
    [|right; intros ???? [[]]; congruence].
  assert (∀ tool' route' u', routed ctx req h tool' route' u' → tool' = tool ∧ u' = u) as Huniq.
  { intros tool' route' u' []. assert (tool' = tool) as -> by congruence. split; congruence. }
  destruct (admitted env ctx h tool u) eqn:Ead.
  2: { right. intros ???? [Hr Had _]. destruct (Huniq _ _ _ Hr) as [-> ->]. congruence. }
  destruct ((resolve_token ctx (up_name u) (check_rate env ctx tool (up_name u) h).1).2) as [rtCtx|e] eqn:Etok.
  - left. by exists tool, route, u, rtCtx.
  - right. intros ???? [Hr _ Htok]. destruct (Huniq _ _ _ Hr) as [-> ->]. congruence.
Qed.

(** C3: an upstream is contacted only for a call whose caller may use the
    named tool, whose tool is routed to that upstream, that no rate limit
    denies and for which a token (if one is needed) was resolved; and then by
    exactly one round trip on that upstream's transport, with the request for
    that route, the caller's context and at most the resolved token added.
    Every other call leaves all upstreams and routes alone and is answered
    with a JSON-RPC error for the request's id. *)
Theorem upstream_contact_guarded env ctx req w h :
  let r := HandleToolsCall env ctx req w h in
  rejected env ctx req h r.1 r.2 ∨
  ∃ tool route u rtCtx, forwarded env ctx req h tool route u rtCtx ∧
    (rtCtx = ctx ∨ ∃ token, token ≠ "" ∧ rtCtx = ContextWithUpstreamToken ctx token) ∧
    entries (router r.1) = entries (router h) ∧
    rt_upstreams (router r.1) =
      set_transport (uid u) (RoundTrip rtCtx (outbound req tool route) (up_transport u)).1 (rt_upstreams (router h)) ∧
    w_body r.2 = match (RoundTrip rtCtx (outbound req tool route) (up_transport u)).2 with
      | Ok (JSONResult resp) => JSONBody (Response_MarshalJSON resp)
      | Ok (StreamResult s) => StreamBody s
      | Err e => JSONBody (Response_MarshalJSON (NewErrorResponse (RequestID req) CodeInternalError (error_string e)))
      end.
Proof.
  destruct (forwarded_dec env ctx req h) as [(tool & route & u & rtCtx & Hf)|Hn].
  - right. exists tool, route, u, rtCtx. pose proof (HandleToolsCall_forwarded env ctx req w h _ _ _ _ Hf) as Hr.
    destruct (RoundTrip _ _ _) as [t res]. destruct Hr as (? & ? & _ & ?). split_and!; try done.
    eapply resolve_token_ctx, (fw_token _ _ _ _ _ _ _ _ Hf).
  - left. by apply HandleToolsCall_not_forwarded.
Qed.

(** Every tools/call that names a tool leaves exactly one audit entry (none if the
    store fails to write it), under the caller's name and key label and with the parameters as they were
    received; its status is ok exactly if the call was forwarded and the round
    trip succeeded, and error otherwise. *)
Theorem call_audited_once env ctx req w h tool :
  requested_tool req = Some tool →
  ∃ status, audited env ctx req tool status h (HandleToolsCall env ctx req w h).1 ∧ (status = "ok" ∨ status = "error") ∧
    (status = "ok" ↔ ∃ route u rtCtx res, forwarded env ctx req h tool route u rtCtx ∧
      (RoundTrip rtCtx (outbound req tool route) (up_transport u)).2 = Ok res).
Proof.
  intros Ht. destruct (forwarded_dec env ctx req h) as [(tool' & route & u & rtCtx & Hf)|Hn].
  - pose proof (HandleToolsCall_forwarded env ctx req w h _ _ _ _ Hf) as Hr.
    destruct (RoundTrip _ _ _) as [t res] eqn:Ert. destruct Hr as (_ & _ & Ha & _).
    assert (tool' = tool) as -> by (destruct (fw_routed _ _ _ _ _ _ _ _ Hf); congruence).
    eexists. split; [exact Ha|]. destruct res as [r|e]; simpl.
    + split; [by left|]. split; [|done]. intros _. exists route, u, rtCtx, r. by rewrite Ert.
    + split; [by right|]. split; [done|]. intros (route' & u' & rtCtx' & r & [[] Had' Htok'] & Hok).
      destruct Hf as [[] Had Htok]. assert (route' = route) as -> by congruence. assert (u' = u) as -> by congruence.
      rewrite Htok in Htok'. injection Htok' as <-. by rewrite Ert in Hok.
  - destruct (HandleToolsCall_not_forwarded env ctx req w h Hn) as (_ & _ & Ha).
    exists "error". split; [by apply Ha|]. split; [by right|]. split; [done|].
    intros (route & u & rtCtx & r & Hf & _). by destruct (Hn tool route u rtCtx).
Qed.

End call.

(** ** The request that reaches the upstream *)

Lemma obj_map_reverse l : obj_map l = list_to_map (reverse l).
Proof.
  induction l as [|[k v] l IH] using rev_ind; [done|]. by rewrite obj_map_snoc, reverse_snoc, IH.
Qed.

Lemma as_map_marshal_map m : as_map (marshal_map m) = Some m.
Proof.
  unfold as_map, marshal_map. f_equal. rewrite obj_map_reverse.
  assert (reverse (merge_sort key_le (map_to_list m)) ≡ₚ map_to_list m) as Hp
    by (rewrite reverse_Permutation; apply merge_sort_Permutation).
  rewrite (list_to_map_proper _ (map_to_list m)); [apply list_to_map_to_list|rewrite Hp; apply NoDup_fst_map_to_list|done].
Qed.

Lemma requested_tool_map req tool : requested_tool req = Some tool → is_Some (Params req ≫= as_map).
Proof.
  unfold requested_tool. destruct (Params req) as [[]|]; simpl; try done; eauto.
Qed.

Section outbound.
Context {T : Type} `{Transport T}.

(** The request that an upstream receives for a routed call names the tool
    as that upstream listed it: where the gateway's name of the tool differs
    from the upstream's, the member "name" of the parameters is replaced and
    every other parameter, the method and the id are kept; where it does not,
    the request is passed on unchanged. *)
Theorem outbound_names_tool transports configs (rt : RouteTable T) req tool route :
  reachable transports configs rt → requested_tool req = Some tool → Resolve rt tool = Some route →
  ∃ u t, u ∈ rt_upstreams rt ∧ uid u = RouteUpstream route ∧ t ∈ up_tools u ∧ tool = applyPrefix (Prefix u) (ToolName t) ∧
    Method (outbound req tool route) = Method req ∧ RequestID (outbound req tool route) = RequestID req ∧
    if bool_decide (ToolName t = tool) then outbound req tool route = req
    else ∃ m m', Params req ≫= as_map = Some m ∧ Params (outbound req tool route) ≫= as_map = Some m' ∧
           m' = <["name" := JStr (ToolName t)]> m.
Proof.
  intros Hs%reachable_synced Ht Hr. destruct (synced_route _ _ _ Hs Hr) as (u & t & Hu & Hid & Hin & Ho & Hn & _).
  exists u, t. rewrite <- Ho. unfold outbound. destruct (requested_tool_map _ _ Ht) as [m Hm].
  case_bool_decide; [by split_and!|]. unfold rewriteToolName. rewrite Hm. split_and!; try done.
  exists m, (<["name" := JStr (OriginalName route)]> m). split_and!; [done| |done]. apply as_map_marshal_map.
Qed.
End outbound.

(** ** Properties of tools/list *)

Section listing.
Context `{Float64.GoPlatform} `{GoRange} {T R X : Type} `{Transport T} `{UpstreamAuth X}.
Implicit Types h : Handler T R X.

(** Tools that need no connection or have one. *)
Definition tool_connected (x : X) (caller : string) (t : ToolSchema) : Prop :=
  toolUpstream t = "" ∨ (IsConnected caller (toolUpstream t) x).1 = true.
#[local] Instance tool_connected_dec x caller t : Decision (tool_connected x caller t).
Proof. unfold tool_connected. apply _. Defined.

(** A provider that some listed tool is waiting for. *)
Definition awaited (x : X) (caller : string) (tools : list ToolSchema) (p : string) : Prop :=
  p ≠ "" ∧ ∃ t, t ∈ tools ∧ toolUpstream t ≠ "" ∧ IsConnected caller (toolUpstream t) x = (false, p).

Lemma connected_tools_spec x caller tools acc pend :
  let r := connected_tools x caller tools acc pend in
  r.1 = acc ++ filter (tool_connected x caller) tools ∧
  ∀ p url, r.2 !! p = Some url ↔
    pend !! p = Some url ∨ pend !! p = None ∧ url = ConnectURL caller p x ∧ awaited x caller tools p.
Proof.
  revert acc pend. induction tools as [|t tools IH]; intros acc pend; cbn [connected_tools].
  { rewrite app_nil_r. unfold awaited. split; [done|]. set_solver. }
  rewrite filter_cons.
  assert (∀ p, awaited x caller (t :: tools) p ↔
    awaited x caller tools p ∨ p ≠ "" ∧ toolUpstream t ≠ "" ∧ IsConnected caller (toolUpstream t) x = (false, p)) as Haw
    by (unfold awaited; set_solver).
  setoid_rewrite Haw. case_bool_decide as Hu.
  { destruct (IH (acc ++ [t]) pend) as [-> IH2]. setoid_rewrite IH2. rewrite decide_True by (by left).
    rewrite <- app_assoc. split; [done|]. naive_solver. }
  destruct (IsConnected caller (toolUpstream t) x) as [[] p0] eqn:Ec; simpl.
  { destruct (IH (acc ++ [t]) pend) as [-> IH2]. setoid_rewrite IH2. rewrite decide_True by (right; by rewrite Ec).
    rewrite <- app_assoc. split; [done|]. naive_solver. }
  rewrite decide_False by (unfold tool_connected; rewrite Ec; naive_solver). case_bool_decide as Hp.
  { destruct (IH acc pend) as [-> IH2]. setoid_rewrite IH2. split; [done|]. naive_solver. }
  destruct (pend !! p0) as [url0|] eqn:E0.
  { destruct (IH acc pend) as [-> IH2]. setoid_rewrite IH2. split; [done|]. naive_solver. }
  destruct (IH acc (<[p0 := ConnectURL caller p0 x]> pend)) as [-> IH2]. setoid_rewrite IH2. split; [done|].
  intros p url. destruct (decide (p = p0)) as [->|Hne].
  - rewrite lookup_insert_eq. naive_solver.
  - rewrite lookup_insert_ne by done. naive_solver.
Qed.

(** Whether the connection check hides the tools of an upstream. *)
Definition connection_ok (ctx : Context) h (upstream : string) : Prop :=
  match CallerFromContext ctx with
  | Some c => connectionChecker h = true → upstream = "" ∨ (IsConnected (CallerName c) upstream (oauth h)).1 = true
  | None => True
  end.

Lemma elem_of_FilteredTools ctx h t :
  t ∈ FilteredTools ctx h ↔
    t ∈ ListTools (router h) ∧ access_ok ctx (ToolName t) = true ∧ connection_ok ctx h (toolUpstream t).
Proof.
  unfold FilteredTools, filteredToolsWithPending, access_ok, connection_ok.
  destruct (CallerFromContext ctx) as [c|]; simpl; [|naive_solver].
  destruct (connectionChecker h); simpl.
  - set (tools := filter _ _). pose proof (connected_tools_spec (oauth h) (CallerName c) tools [] ∅) as [Hc _].
    destruct (connected_tools _ _ _ _ _) as [connected pend]. simpl in *. subst connected.
    unfold tools. rewrite !list_elem_of_filter. unfold tool_connected. naive_solver.
  - rewrite list_elem_of_filter. naive_solver.
Qed.

Lemma toolUpstream_prefixed name prefix t : toolUpstream (prefixedTool name prefix t) = name.
Proof.
  unfold toolUpstream, prefixedTool. simpl. case_bool_decide; simpl; by simplify_map_eq.
Qed.

(** C10: the tool list and tools/call agree: over a table that the router can
    reach, a name is listed to a caller exactly if a call by that name passes
    the access check, is routed to an upstream of the table, and the caller is
    connected to that upstream (where connections are checked). *)
Theorem listing_matches_calls transports configs ctx h n :
  reachable transports configs (router h) →
  n ∈ ToolName <$> FilteredTools ctx h ↔
    ∃ route u, access_ok ctx n = true ∧ Resolve (router h) n = Some route ∧
      find_upstream (RouteUpstream route) (router h) = Some u ∧ connection_ok ctx h (up_name u).
Proof.
  intros Hs%reachable_synced. rewrite list_elem_of_fmap. setoid_rewrite elem_of_FilteredTools.
  assert (∀ m r, Resolve (router h) m = Some r → ToolName (Tool r) = m ∧ ∃ u,
    find_upstream (RouteUpstream r) (router h) = Some u ∧ toolUpstream (Tool r) = up_name u) as Hroute.
  { intros m r Hr. destruct (synced_route _ _ _ Hs Hr) as (u & t & Hu & Hid & _ & Ho & -> & ->). rewrite Ho. split; [done|].
    exists u. split; [|apply toolUpstream_prefixed]. apply find_key; [apply (sy_uids _ Hs)|done]. }
  split.
  - intros (t & -> & (r & Hr & <-)%synced_listed & Ha & Hc); [|done].
    destruct (Hroute _ _ Hr) as (_ & u & Hu & Hn). exists r, u. rewrite <- Hn. done.
  - intros (r & u & Ha & Hr & Hu & Hc). destruct (Hroute _ _ Hr) as (Hn & u' & Hu' & Htu).
    exists (Tool r). rewrite Hn, Htu. split_and!; [done| |done|congruence].
    apply synced_listed; [done|]. exists r. by rewrite Hn.
Qed.

(** The pending connections of a listing are one per provider, and exactly
    the providers without which tools that the caller may use stay hidden. *)
Theorem pending_exact ctx h c :
  CallerFromContext ctx = Some c → connectionChecker h = true →
  NoDup (pc_provider <$> (filteredToolsWithPending ctx h).2) ∧
  ∀ p url, MkPending p url ∈ (filteredToolsWithPending ctx h).2 ↔
    url = ConnectURL (CallerName c) p (oauth h) ∧ p ≠ "" ∧
    ∃ t, t ∈ ListTools (router h) ∧ CanAccessTool c (ToolName t) = true ∧ t ∉ FilteredTools ctx h ∧
      (IsConnected (CallerName c) (toolUpstream t) (oauth h)).2 = p.
Proof.
  intros Hctx Hck. setoid_rewrite elem_of_FilteredTools. unfold access_ok, connection_ok. rewrite Hctx.
  unfold filteredToolsWithPending. rewrite Hctx, Hck.
  set (tools := filter _ _). pose proof (connected_tools_spec (oauth h) (CallerName c) tools [] ∅) as [_ Hp].
  destruct (connected_tools _ _ _ _ _) as [connected pend]. simpl in *. split.
  - rewrite <- list_fmap_compose. apply go_range_NoDup.
  - intros p url. rewrite list_elem_of_fmap. setoid_rewrite lookup_empty in Hp. specialize (Hp p url). split.
    + intros ([p' url'] & [= <- <-] & Hin%elem_of_go_range). apply Hp in Hin as [|(_ & -> & Hne & t & Ht & Htu & Hc)]; [done|].
      apply list_elem_of_filter in Ht as [Hacc Hl]. split_and!; [done|done|]. exists t. rewrite Hc. split_and!; try done.
      intros (_ & _ & Hx). by destruct (Hx eq_refl).
    + intros (-> & Hne & t & Hl & Hacc & Hn & Hc). exists (p, ConnectURL (CallerName c) p (oauth h)). split; [done|].
      apply elem_of_go_range, Hp. right. split_and!; [done|done|]. split; [done|]. exists t.
      destruct (IsConnected (CallerName c) (toolUpstream t) (oauth h)) as [b p'] eqn:Ec. simpl in *. subst p'.
      split_and!; [by apply list_elem_of_filter|intros Heq; apply Hn; naive_solver|].
      destruct b; [|done]. destruct Hn. naive_solver.
Qed.
End listing.

(** ** Concrete calls *)

#[local] Existing Instance scripted.
#[local] Existing Instance Float64.amd64.

(** A limiter that denies all calls or none, and an OAuth component for which
    every upstream but "svc" lacks a connection to "idp". *)
#[local] Instance switch_limiter : RateLimiter unit bool := {|
  AllowRequest _ _ _ _ _ s := (s : bool, Some (MkRLResult (if s then None else Some ToolLevel) 5 0 0 2500000000));
|}.
#[local] Instance toy_oauth : UpstreamAuth nat := {|
  ResolveToken caller up n := (S n, if bool_decide (up = "svc") then Ok "tok" else Err "not connected");
  IsConnected caller up n := (bool_decide (up = "svc"), "idp");
  ConnectURL caller p n := "/oauth/connect/" +:+ p;
|}.

Definition sample_env : ProxyEnv (RLEnv:=unit) := MkProxyEnv tt 0 1500000 false.

(** Two upstreams, the first without a prefix. *)
Definition raw_upstream : UpstreamConfig :=
  HTTPUpstream (MkHTTPUpstream "svc" "http://x" None None [] (Some "") None 1 None None).

Definition call_transports : gmap string script :=
  <["svc" := [reply JNull; reply JNull; reply (offer ["read"; "secret"]); reply (JBool true)]]>
    {["b" := [reply JNull; reply JNull; reply (offer ["x"]); reply (JBool false)]]}.

Definition call_configs : list UpstreamConfig := [raw_upstream; sample_upstream "b"].
Definition call_table : RouteTable script := New call_transports call_configs 0.

Definition sample_handler (allow : bool) : Handler script bool nat :=
  MkHandler call_table (Some allow) (Some []) (Some []) 0%nat true true.

Definition reader : Caller := MkCaller "ann" ["dev"] [λ t, bool_decide (t = "read")].
Definition user : Caller := MkCaller "bob" ["dev"] [λ t, true].
Definition as_caller (c : Caller) : Context := ContextWithCaller Background c.
Definition call_of (l : list (string * json)) : Request := MkRequest Version "tools/call" (Some (JObj l)) (Some (IntID 7)).

(** The tool that the access check looks at need not be the one that the
    upstream is asked for. The name is read into a struct field, which takes the
    last member that matches up to case, but an upstream without a prefix is sent
    the parameters as received. A caller who may use only "read" is let through
    with a request whose member "name" is "secret". *)
Theorem case_variant_evades_acl :
  let req := call_of [("name", JStr "secret"); ("NAME", JStr "read")] in
  CanAccessTool reader "secret" = false ∧
  (∃ route u, forwarded sample_env (as_caller reader) req (sample_handler true) "read" route u
      (ContextWithUpstreamToken (as_caller reader) "tok") ∧
    outbound req "read" route = req ∧ ((Params req ≫= as_map) ≫= λ m : gmap string json, m !! "name") = Some (JStr "secret") ∧
    w_body (HandleToolsCall sample_env (as_caller reader) req new_writer (sample_handler true)).2 =
      JSONBody (Response_MarshalJSON (MkResponse Version (Some (JBool true)) None None))) ∧
  w_body (HandleToolsCall sample_env (as_caller reader) (call_of [("name", JStr "secret")]) new_writer (sample_handler true)).2 =
    JSONBody (Response_MarshalJSON (NewErrorResponse (Some (IntID 7)) (-32000) "access denied")).
Proof.
  split; [done|]. split; [|vm_compute; reflexivity].
  exists (MkRoute (prefixedTool "svc" "" (MkTool "read" "" None ∅)) 0 "read").
  exists (default (MkUp 0 "" [] [] [] "" false 0) (head (rt_upstreams call_table))).
  split_and!; [|vm_compute; reflexivity..]. split; [split|..]; vm_compute; reflexivity.
Qed.

Lemma call_audited_once_witness :
  ∃ status, audited sample_env (as_caller user) (call_of [("name", JStr "read")]) "read" status (sample_handler true)
    (HandleToolsCall sample_env (as_caller user) (call_of [("name", JStr "read")]) new_writer (sample_handler true)).1 ∧
    (status = "ok" ∨ status = "error").
Proof.
  destruct (call_audited_once sample_env (as_caller user) (call_of [("name", JStr "read")]) new_writer (sample_handler true)
    "read" eq_refl) as (status & Ha & Hs & _). exists status. split; assumption.
Defined.



Lemma call_table_reachable : reachable call_transports call_configs call_table.
Proof. apply Refresh_steps. Qed.

Definition b_x_route : Route := MkRoute (prefixedTool "b" "b" (MkTool "x" "" None ∅)) 1 "x".

Lemma outbound_names_tool_witness :
  ∃ u t, u ∈ rt_upstreams call_table ∧ uid u = 1%nat ∧ t ∈ up_tools u ∧ "b__x" = applyPrefix (Prefix u) (ToolName t).
Proof.
  destruct (outbound_names_tool call_transports call_configs call_table (call_of [("name", JStr "b__x")]) "b__x" b_x_route
    call_table_reachable eq_refl ltac:(vm_compute; reflexivity)) as (u & t & Hu & Hid & Ht & Hn & _).
  exists u, t. split_and!; assumption.
Defined.

Lemma listing_matches_calls_witness :
  "secret" ∈ ToolName <$> FilteredTools (as_caller user) (sample_handler true) ↔
    ∃ route u, access_ok (as_caller user) "secret" = true ∧ Resolve call_table "secret" = Some route ∧
      find_upstream (RouteUpstream route) call_table = Some u ∧ connection_ok (as_caller user) (sample_handler true) (up_name u).
Proof. apply (listing_matches_calls call_transports call_configs). apply call_table_reachable. Defined.

Lemma pending_exact_witness :
  NoDup (pc_provider <$> (filteredToolsWithPending (as_caller user) (sample_handler true)).2) ∧
  (filteredToolsWithPending (as_caller user) (sample_handler true)).2 = [MkPending "idp" "/oauth/connect/idp"].
Proof.
  split; [apply (pending_exact (as_caller user) (sample_handler true) user eq_refl eq_refl)|vm_compute; reflexivity].
Defined.
