(* ===== verification/AuditStore.v ===== *)
(** * The audit log ([internal/audit/audit.go], [postgres.go])

    [Log] appends a row; [queryDB] builds the text of a query with numbered or
    positional placeholders and the list of its arguments, in step. The database
    runs such a query ([exec]): it resolves the placeholders, filters, orders and
    cuts. How it orders rows of equal time is not specified ([SQLOrder]). *)

From stdpp Require Import sorting.
From S2P Require Import Prelude GoLib Json JsonRpc Transport RateLimit Router Proxy ConfigData.

(** ** Entries and rows *)

(** [audit.Entry]. Parameters are raw JSON, [None] if there are none. *)
Record Entry := MkEntry {
  e_id : Z;
  e_timestamp : Z;
  e_caller : string;
  e_method : string;
  e_tool : string;
  e_upstream : string;
  e_params : option json;
  e_status : string;
  e_latency : Z;
  e_traceID : string;
  e_keyLabel : string;
}.

(** The columns; those that may be NULL are options. *)
Record row := MkRow {
  r_id : Z;
  r_timestamp : Z;
  r_caller : string;
  r_method : string;
  r_tool : option string;
  r_upstream : option string;
  r_params : option json;
  r_status : string;
  r_latency : Z;
  r_trace_id : option string;
  r_key_label : option string;
}.

Record audit_log := MkLog { rows : list row; next_id : Z }.

(** [QueryFilter]; [None] is the zero time. *)
Record QueryFilter := MkFilter {
  f_caller : string;
  f_tool : string;
  f_upstream : string;
  f_status : string;
  f_start : option Z;
  f_end : option Z;
  f_limit : Z;
  f_offset : Z;
}.

Definition text_or_null (s : string) : option string := if bool_decide (s = "") then None else Some s.

(** [SQLiteStore.Log] and [PostgresStore.Log] *)
Definition Log (fault : bool) (e : Entry) (db : audit_log) : audit_log * result string unit :=
  if fault then (db, Err "audit: insert") else
  let r := MkRow (next_id db) (e_timestamp e) (e_caller e) (e_method e) (Some (e_tool e)) (Some (e_upstream e))
             (e_params e) (e_status e) (e_latency e) (text_or_null (e_traceID e)) (text_or_null (e_keyLabel e)) in
  (MkLog (rows db ++ [r]) (next_id db + 1), Ok tt).

(** The Postgres store has the same statement, with positional placeholders. *)
Definition Postgres_Log := Log.

(** ** Building a query *)

Inductive column := ColCaller | ColTool | ColUpstream | ColStatus | ColTimestamp.
Inductive operator := OpEq | OpGe | OpLe.
Inductive value := VText (s : string) | VTime (t : Z) | VInt (n : Z).
Inductive placeholder := Question | Dollar (n : nat).

(** The driver's style of placeholders: [?] or [$1], [$2], ... *)
Inductive style := SQLiteStyle | PostgresStyle.

Record query := MkQuery {
  q_where : list (column * operator * placeholder);
  q_limit : placeholder;
  q_offset : option placeholder;
}.

(** The closure [ph], called when the counter is [idx]. *)
Definition ph (st : style) (idx : nat) : placeholder :=
  match st with SQLiteStyle => Question | PostgresStyle => Dollar (S idx) end.

Definition text_arg (s : string) : option value := VText <$> text_or_null s.
Definition time_arg (t : option Z) : option value := VTime <$> t.

(** The optional conditions, in the order of the source. *)
Definition conditions (f : QueryFilter) : list (column * operator * option value) :=
  [(ColCaller, OpEq, text_arg (f_caller f)); (ColTool, OpEq, text_arg (f_tool f));
   (ColUpstream, OpEq, text_arg (f_upstream f)); (ColStatus, OpEq, text_arg (f_status f));
   (ColTimestamp, OpGe, time_arg (f_start f)); (ColTimestamp, OpLe, time_arg (f_end f))].

(** The conditions whose filter is set, each with a fresh placeholder, and
    their arguments. *)
Fixpoint build_where (st : style) (idx : nat) (cs : list (column * operator * option value)) :
    list (column * operator * placeholder) * list value :=
  match cs with
  | [] => ([], [])
  | (c, op, None) :: cs => build_where st idx cs
  | (c, op, Some v) :: cs =>
      let '(w, args) := build_where st (S idx) cs in ((c, op, ph st idx) :: w, v :: args)
  end.

Definition limit_of (f : QueryFilter) : Z := if f_limit f <=? 0 then 50 else f_limit f.

Definition build_query (st : style) (f : QueryFilter) : query * list value :=
  let '(w, args) := build_where st 0 (conditions f) in
  let idx := length args in
  if 0 <? f_offset f
  then (MkQuery w (ph st idx) (Some (ph st (S idx))), args ++ [VInt (limit_of f); VInt (f_offset f)])
  else (MkQuery w (ph st idx) None, args ++ [VInt (limit_of f)]).

(** ** Running a query *)

Definition newer (a b : row) : Prop := r_timestamp b ≤ r_timestamp a.
#[global] Instance newer_dec a b : Decision (newer a b) := decide (r_timestamp b ≤ r_timestamp a).
#[global] Instance newer_total : Total newer.
Proof. intros a b. unfold newer. lia. Qed.
#[global] Instance newer_trans : Transitive newer.
Proof. intros a b c. unfold newer. lia. Qed.

(** [ORDER BY timestamp DESC]: some order of the rows that is sorted. *)
Class SQLOrder := {
  order_by : list row → list row;
  order_by_perm l : order_by l ≡ₚ l;
  order_by_sorted l : Sorted newer (order_by l);
}.

Definition placeholders (q : query) : list placeholder :=
  (q_where q).*2 ++ [q_limit q] ++ match q_offset q with Some p => [p] | None => [] end.

(** The argument of the [k]-th placeholder of the text. *)
Definition resolve (args : list value) (k : nat) (p : placeholder) : option value :=
  match p with
  | Question => args !! k
  | Dollar O => None
  | Dollar (S n) => args !! n
  end.

(** The arguments in the order of the placeholders; the driver refuses a
    query whose arguments are not as many as its placeholders. *)
Definition bind_args (q : query) (args : list value) : option (list value) :=
  if bool_decide (length (placeholders q) = length args)
  then mapM (λ kp, resolve args kp.1 kp.2) (zip (seq 0 (length args)) (placeholders q))
  else None.

Definition column_text (c : column) (r : row) : option string :=
  match c with
  | ColCaller => Some (r_caller r)
  | ColTool => r_tool r
  | ColUpstream => r_upstream r
  | ColStatus => Some (r_status r)
  | ColTimestamp => None
  end.

(** A comparison with NULL does not hold. *)
Definition holds (c : column) (op : operator) (v : value) (r : row) : bool :=
  match c, op, v with
  | ColTimestamp, OpGe, VTime t => t <=? r_timestamp r
  | ColTimestamp, OpLe, VTime t => r_timestamp r <=? t
  | c, OpEq, VText s => bool_decide (column_text c r = Some s)
  | _, _, _ => false
  end.

Fixpoint holds_all (w : list (column * operator * placeholder)) (vs : list value) (r : row) : bool :=
  match w, vs with
  | [], _ => true
  | (c, op, _) :: w, v :: vs => holds c op v r && holds_all w vs r
  | _, [] => false
  end.

Definition int_value (v : value) : option nat := match v with VInt n => Some (Z.to_nat n) | _ => None end.

Section exec.
Context `{SQLOrder}.

Definition exec (q : query) (args : list value) (db : list row) : option (list row) :=
  vs ← bind_args q args;
  limit ← vs !! length (q_where q) ≫= int_value;
  offset ← match q_offset q with
           | None => Some O
           | Some _ => vs !! S (length (q_where q)) ≫= int_value
           end;
  Some (take limit (drop offset (order_by (filter (λ r, holds_all (q_where q) vs r = true) db)))).

(** The scan of a row; NULL is the zero value. *)
Definition read_row (r : row) : Entry :=
  MkEntry (r_id r) (r_timestamp r) (r_caller r) (r_method r) (default "" (r_tool r)) (default "" (r_upstream r))
    (r_params r) (r_status r) (r_latency r) (default "" (r_trace_id r)) (default "" (r_key_label r)).

(** [queryDB] *)
Definition queryDB (fault : bool) (st : style) (f : QueryFilter) (db : audit_log) : result string (list Entry) :=
  let '(q, args) := build_query st f in
  if fault then Err "audit: query" else
  match exec q args (rows db) with
  | None => Err "audit: query"
  | Some rs => Ok (read_row <$> rs)
  end.

(** [SQLiteStore.Query], [PostgresStore.Query] *)
Definition SQLite_Query (fault : bool) := queryDB fault SQLiteStyle.
Definition Postgres_Query (fault : bool) := queryDB fault PostgresStyle.
End exec.

(** [OpenStore]: the back end of a driver. *)
Definition OpenStore (driver : string) : result string style :=
  if bool_decide (driver = "sqlite") || bool_decide (driver = "") then Ok SQLiteStyle
  else if bool_decide (driver = "postgres") then Ok PostgresStyle
  else Err ("audit: unsupported database driver " +:+ driver).

(** The entry of the proxy, as it is logged. *)
Definition entry_of (traceID : string) (a : AuditEntry) : Entry :=
  MkEntry 0 (ae_timestamp a) (ae_caller a) (ae_method a) (ae_tool a) (ae_upstream a) (ae_params a) (ae_status a)
    (ae_latencyMS a) traceID (ae_keyLabel a).

(** ** What a query means *)

Definition matches (f : QueryFilter) (r : row) : bool :=
  (bool_decide (f_caller f = "") || bool_decide (r_caller r = f_caller f))
  && (bool_decide (f_tool f = "") || bool_decide (r_tool r = Some (f_tool f)))
  && (bool_decide (f_upstream f = "") || bool_decide (r_upstream r = Some (f_upstream f)))
  && (bool_decide (f_status f = "") || bool_decide (r_status r = f_status f))
  && match f_start f with Some t => t <=? r_timestamp r | None => true end
  && match f_end f with Some t => r_timestamp r <=? t | None => true end.

(** The rows that match, newest first. *)
Definition selection `{SQLOrder} (f : QueryFilter) (db : audit_log) : list row :=
  order_by (filter (λ r, matches f r = true) (rows db)).

Definition condition_holds (r : row) (c : column * operator * option value) : bool :=
  match c.2 with None => true | Some v => holds c.1.1 c.1.2 v r end.

Lemma build_where_spec st cs idx :
  let '(w, args) := build_where st idx cs in
  w.*2 = ph st <$> seq idx (length args) ∧ length w = length args ∧
  ∀ r rest, holds_all w (args ++ rest) r = forallb (condition_holds r) cs.
Proof.
  revert idx. induction cs as [|[[c op] [v|]] cs IH]; intros idx; simpl; [done| |].
  - specialize (IH (S idx)). destruct (build_where st (S idx) cs) as [w args]. destruct IH as (H1 & H2 & H3).
    split_and!; [exact (f_equal (cons _) H1)|simpl; by rewrite H2|]. intros r rest. simpl. by rewrite H3.
  - specialize (IH idx). destruct (build_where st idx cs) as [w args]. destruct IH as (H1 & H2 & H3). done.
Qed.

Lemma condition_text c s r : c ≠ ColTimestamp →
  condition_holds r (c, OpEq, text_arg s) = bool_decide (s = "") || bool_decide (column_text c r = Some s).
Proof.
  intros Hc. unfold condition_holds, text_arg, text_or_null. simpl.
  case_bool_decide; [done|]. by destruct c.
Qed.

Lemma conditions_match f r : forallb (condition_holds r) (conditions f) = matches f r.
Proof.
  unfold conditions, matches. cbn [forallb]. rewrite !condition_text by done. simpl.
  replace (bool_decide (Some (r_caller r) = Some (f_caller f))) with (bool_decide (r_caller r = f_caller f))
    by (apply bool_decide_ext; split; congruence).
  replace (bool_decide (Some (r_status r) = Some (f_status f))) with (bool_decide (r_status r = f_status f))
    by (apply bool_decide_ext; split; congruence).
  destruct (f_start f), (f_end f); simpl; rewrite ?andb_true_r, ?andb_assoc; done.
Qed.

Lemma resolve_all st args m k : (k + m = length args)%nat →
  mapM (λ kp, resolve args kp.1 kp.2) (zip (seq k m) (ph st <$> seq k m)) = Some (drop k args).
Proof.
  revert k. induction m as [|m IH]; intros k Hk; simpl.
  { rewrite drop_ge by lia. done. }
  assert (is_Some (args !! k)) as [v Hv] by (apply lookup_lt_is_Some; lia).
  assert (resolve args k (ph st k) = Some v) as -> by (by destruct st). simpl.
  rewrite IH by lia. simpl. by rewrite <- (drop_S _ _ _ Hv).
Qed.

Lemma bind_args_ph st q args :
  placeholders q = ph st <$> seq 0 (length args) → bind_args q args = Some args.
Proof.
  intros Hq. unfold bind_args. rewrite Hq, length_fmap, length_seq, bool_decide_eq_true_2 by done.
  rewrite resolve_all by lia. by rewrite drop_0.
Qed.

Section spec.
Context `{SQLOrder}.

Lemma exec_build st f db : let '(q, args) := build_query st f in
  exec q args (rows db) = Some (take (Z.to_nat (limit_of f)) (drop (Z.to_nat (f_offset f)) (selection f db))).
Proof.
  unfold build_query. pose proof (build_where_spec st (conditions f) 0) as Hw.
  destruct (build_where st 0 (conditions f)) as [w args]. destruct Hw as (Hph & Hlen & Hh).
  assert (∀ rest, filter (λ r, holds_all w (args ++ rest) r = true) (rows db)
                  = filter (λ r, matches f r = true) (rows db)) as Hf.
  { intros rest. apply list_filter_iff. intros r. by rewrite Hh, conditions_match. }
  destruct (Z.ltb_spec 0 (f_offset f)) as [Ho|Ho]; unfold exec.
  - rewrite (bind_args_ph st).
    2:{ unfold placeholders. simpl. rewrite Hph, length_app, seq_app, fmap_app. done. }
    cbn [mbind option_bind q_where q_offset]. rewrite Hlen, Hf.
    rewrite !lookup_app_r, Nat.sub_diag by lia. replace (S (length args) - length args)%nat with 1%nat by lia. done.
  - rewrite (bind_args_ph st).
    2:{ unfold placeholders. simpl. rewrite Hph, length_app, seq_app, fmap_app. done. }
    cbn [mbind option_bind q_where q_offset]. rewrite Hlen, Hf.
    rewrite lookup_app_r, Nat.sub_diag by lia. cbn.
    replace (Z.to_nat (f_offset f)) with O by lia. done.
Qed.


Lemma queryDB_ok st f db :
  queryDB false st f db = Ok (read_row <$> take (Z.to_nat (limit_of f)) (drop (Z.to_nat (f_offset f)) (selection f db))).
Proof. unfold queryDB. pose proof (exec_build st f db) as E. destruct (build_query st f) as [q args]. by rewrite E. Qed.

Definition page (f : QueryFilter) (n i : Z) : QueryFilter :=
  MkFilter (f_caller f) (f_tool f) (f_upstream f) (f_status f) (f_start f) (f_end f) n (i * n).

Lemma join_map {A B C} (g : B → C) (h : A → list B) l : mjoin ((λ a, g <$> h a) <$> l) = g <$> mjoin (h <$> l).
Proof. induction l as [|a l IH]; [done|]. simpl. rewrite fmap_app. f_equal. exact IH. Qed.

Lemma pages_concat {A} (l : list A) n k :
  mjoin ((λ i, take n (drop (i * n) l)) <$> seq 0 k) = take (k * n) l.
Proof.
  induction k as [|k IH]; [by rewrite take_0|].
  rewrite seq_S, fmap_app, join_app, IH. simpl. rewrite app_nil_r.
  rewrite (Nat.add_comm n (k * n)), <- take_take_drop. done.
Qed.

(** The pages of a query, one after the other, are all matching entries, each
    once: none is skipped or repeated as long as nothing is logged meanwhile. *)
Theorem pages_partition st f n k db :
  0 < n → (length (selection f db) ≤ k * Z.to_nat n)%nat →
  ∃ pages, Forall2 (λ i es, queryDB false st (page f n (Z.of_nat i)) db = Ok es) (seq 0 k) pages ∧
    mjoin pages = read_row <$> selection f db.
Proof.
  intros Hn Hk. exists ((λ i, read_row <$> take (Z.to_nat n) (drop (i * Z.to_nat n) (selection f db))) <$> seq 0 k).
  split.
  - apply Forall2_fmap_r, Forall_Forall2_diag, Forall_forall. intros i _. rewrite queryDB_ok.
    assert (selection (page f n (Z.of_nat i)) db = selection f db) as -> by done.
    unfold limit_of, page. simpl. destruct (Z.leb_spec n 0); [lia|]. do 4 f_equal. lia.
  - rewrite join_map, pages_concat. by rewrite take_ge.
Qed.
End spec.

(** An entry that is logged is read back as it was written, with the next id,
    by every query that it matches and that has room for it; the row is appended
    and no other is touched. *)
Theorem logged_entry_found `{SQLOrder} st e f db :
  let '(db', r) := Log false e db in
  let stored := MkEntry (next_id db) (e_timestamp e) (e_caller e) (e_method e) (e_tool e) (e_upstream e) (e_params e)
                  (e_status e) (e_latency e) (e_traceID e) (e_keyLabel e) in
  r = Ok tt ∧ (∃ row, rows db' = rows db ++ [row] ∧ read_row row = stored ∧
    (matches f row = true → f_offset f ≤ 0 → Z.of_nat (length (selection f db')) ≤ limit_of f →
      ∃ es, queryDB false st f db' = Ok es ∧ stored ∈ es)).
Proof.
  simpl. split; [done|]. eexists. split; [done|].
  assert (∀ s, default "" (text_or_null s) = s) as Hd by (intros s; unfold text_or_null; by case_bool_decide).
  assert (∀ a b c d, read_row (MkRow (next_id db) (e_timestamp e) (e_caller e) (e_method e) (Some a) (Some b) (e_params e)
    (e_status e) (e_latency e) (text_or_null c) (text_or_null d)) = MkEntry (next_id db) (e_timestamp e) (e_caller e)
    (e_method e) a b (e_params e) (e_status e) (e_latency e) c d) as Hr.
  { intros. unfold read_row. simpl. by rewrite !Hd. }
  split; [apply Hr|]. intros Hm Ho Hl. eexists. split; [apply queryDB_ok|].
  replace (Z.to_nat (f_offset f)) with O by lia. rewrite drop_0, take_ge by lia.
  rewrite <- Hr. apply list_elem_of_fmap_2. unfold selection. rewrite order_by_perm, list_elem_of_filter. simpl.
  split; [done|]. apply elem_of_app. right. by apply list_elem_of_singleton.
Qed.

(** ** Runs *)

(** One order: equal times in the order of the table. *)
#[global] Instance stable_order : SQLOrder.
Proof.
  refine {| order_by := merge_sort newer |}; [apply merge_sort_Permutation|apply Sorted_merge_sort; apply _].
Defined.

Definition sample_entry (t : Z) (caller : string) : Entry :=
  MkEntry 0 t caller "tools/call" "search" "web" None "ok" 5 "" "laptop".
Definition sample_log : audit_log :=
  (Log false (sample_entry 30 "bob") (Log false (sample_entry 20 "ann") (Log false (sample_entry 10 "ann") (MkLog [] 1)).1).1).1.
Definition any_entry : QueryFilter := MkFilter "" "" "" "" None None 0 0.

Example query_by_caller :
  match queryDB false PostgresStyle (MkFilter "ann" "" "" "ok" (Some 15) None 10 0) sample_log with
  | Ok es => e_id <$> es = [2]
  | Err _ => False
  end.
Proof. by vm_compute. Qed.

Lemma pages_partition_witness :
  ∃ pages, Forall2 (λ i es, queryDB false SQLiteStyle (page any_entry 2 (Z.of_nat i)) sample_log = Ok es) (seq 0 2) pages ∧
    mjoin pages = read_row <$> selection any_entry sample_log.
Proof. apply (pages_partition SQLiteStyle any_entry 2 2 sample_log); [done|]. vm_compute. lia. Defined.
