(* ===== verification/OAuth.v ===== *)
(** * OAuth connections ([internal/auth/tokenstore.go], [oauth_refresh.go],
    [oauth_resolver.go], [oauth_handler.go], [connection_checker.go])

    The table of user tokens, the refresher, the resolver, and the handler of the
    authorization code flow with its two signed values: the connect token of a
    link, and the state parameter. The MAC, the hash, the token endpoints (class
    [TokenEndpoint]) and the JWT library (class [JWT], with the law it documents)
    are parameters. The resolver and the handler implement the interface
    [UpstreamAuth] of the proxy. Times are nanoseconds since the epoch. *)

From stdpp Require Import sorting.
From S2P Require Import Prelude GoLib Json JsonRpc JsonText Transport Http ConfigData AuthStore Auth RateLimit Router Proxy.
Import GoStr.

(** ** Token store *)

Record OAuthToken := MkOAuthToken {
  AccessToken : string;
  RefreshToken : string;
  TokenType : string;
  Expiry : option Z;        (* [None] is the zero time *)
  Scopes : string;
}.

Definition Expired (now : Z) (t : OAuthToken) : bool :=
  match Expiry t with
  | None => false
  | Some e => e - 30 * Duration.Second <? now
  end.

(** The table [user_oauth_tokens], by its primary key. *)
Abbreviation TokenTable := (gmap (string * string) OAuthToken).

(** [fault] is a failure of the statement. *)
Definition StoreToken (fault : bool) (user provider : string) (token : OAuthToken) (db : TokenTable) :
    TokenTable * result store_error unit :=
  if fault then (db, Err ErrDB) else (<[(user, provider) := token]> db, Ok tt).

Definition GetToken (fault : bool) (user provider : string) (db : TokenTable) : result store_error OAuthToken :=
  if fault then Err ErrDB
  else match db !! (user, provider) with None => Err ErrNotFound | Some t => Ok t end.

Definition DeleteToken (fault : bool) (user provider : string) (db : TokenTable) : TokenTable * result store_error unit :=
  if fault then (db, Err ErrDB)
  else match db !! (user, provider) with
       | None => (db, Err ErrNotFound)
       | Some _ => (delete (user, provider) db, Ok tt)
       end.

Definition name_le (a b : string) : Prop := String.leb a b = true.
#[global] Instance name_le_dec a b : Decision (name_le a b) := decide (String.leb a b = true).

(** [SELECT provider ... WHERE user_name = ? ORDER BY provider] *)
Definition ListProviders (fault : bool) (user : string) (db : TokenTable) : result store_error (list string) :=
  if fault then Err ErrDB
  else Ok (merge_sort name_le ((λ kv, kv.1.2) <$> filter (λ kv, kv.1.1 = user) (map_to_list db))).

(** ** Token endpoints *)

(** A POST of a form, by an HTTP client with state [N]. *)
Class TokenEndpoint (N : Type) := PostForm : string → gmap string string → N → N * result string HTTPResponse.

Record tokenResponse := MkTokenResponse {
  access_token : string;
  token_type : string;
  expires_in : Z;
  refresh_token : string;
  scope : string;
}.

(** [json.Unmarshal]; [None] is an error. *)
Definition decode_tokenResponse (j : json) : option tokenResponse :=
  match j with
  | JNull => Some (MkTokenResponse "" "" 0 "" "")
  | JObj l =>
      a ← decode_all as_string "" (field_values "access_token" l);
      t ← decode_all as_string "" (field_values "token_type" l);
      e ← decode_all as_int 0 (field_values "expires_in" l);
      r ← decode_all as_string "" (field_values "refresh_token" l);
      s ← decode_all as_string "" (field_values "scope" l);
      Some (MkTokenResponse a t e r s)
  | _ => None
  end.

(** The token of a response that arrives at [now]. The lifetime is multiplied
    in 64 bits. *)
Definition make_token (now : Z) (r : tokenResponse) : OAuthToken :=
  MkOAuthToken (access_token r) (refresh_token r)
    (if bool_decide (token_type r = "") then "Bearer" else token_type r)
    (if 0 <? expires_in r then Some (now + Strconv.wrap64 (expires_in r * Duration.Second)) else None)
    (scope r).

Section endpoint.
Context {N : Type} `{TokenEndpoint N}.

(** The exchange that the two grants share. *)
Definition post_grant (url : string) (form : gmap string string) (n : N) : N * result string tokenResponse :=
  match PostForm url form n with
  | (n, Err e) => (n, Err ("request failed: " +:+ e))
  | (n, Ok resp) =>
      (n, match OIDC.limited_body (respBody resp) with
          | None => Err "read response"
          | Some body =>
              if negb (StatusCode resp =? 200) then Err ("status " +:+ Strconv.FormatInt (StatusCode resp) +:+ ": " +:+ body)
              else match parse body ≫= decode_tokenResponse with
                   | None => Err "parse response"
                   | Some r => Ok r
                   end
          end)
  end.

(** ** Refreshing ([oauth_refresh.go]) *)

Record TokenRefresher := MkRefresher {
  rf_providers : gmap string OAuthProviderConfig;
  rf_secrets : gmap string (string * string);    (* client id, client secret *)
}.

Definition resolveOAuthSecrets (getenv : string → string) (p : OAuthProviderConfig) : string * string :=
  (if bool_decide (clientIDEnv p = "") then "" else getenv (clientIDEnv p),
   if bool_decide (clientSecretEnv p = "") then "" else getenv (clientSecretEnv p)).

Definition NewTokenRefresher (getenv : string → string) (providers : list OAuthProviderConfig) : TokenRefresher :=
  MkRefresher (foldl (λ m p, <[op_name p := p]> m) ∅ providers)
    (foldl (λ m p, <[op_name p := resolveOAuthSecrets getenv p]> m) ∅ providers).

Definition refresh_form (refreshToken clientID clientSecret : string) : gmap string string :=
  list_to_map [("grant_type", "refresh_token"); ("refresh_token", refreshToken);
               ("client_id", clientID); ("client_secret", clientSecret)].

Definition Refresher_Refresh (now : Z) (r : TokenRefresher) (providerName refreshToken : string) (n : N) :
    N * result string OAuthToken :=
  match rf_providers r !! providerName with
  | None => (n, Err ("oauth: unknown provider " +:+ providerName))
  | Some provider =>
      let '(clientID, clientSecret) := default ("", "") (rf_secrets r !! providerName) in
      if bool_decide (clientID = "") || bool_decide (clientSecret = "")
      then (n, Err ("oauth: missing credentials for provider " +:+ providerName))
      else if bool_decide (refreshToken = "") then (n, Err ("oauth: no refresh token available for provider " +:+ providerName))
      else
        match post_grant (tokenURL provider) (refresh_form refreshToken clientID clientSecret) n with
        | (n, Err e) => (n, Err e)
        | (n, Ok resp) =>
            let token := make_token now resp in
            (n, Ok (if bool_decide (RefreshToken token = "")
                    then MkOAuthToken (AccessToken token) refreshToken (TokenType token) (Expiry token) (Scopes token)
                    else token))
        end
  end.

(** ** Resolving ([oauth_resolver.go]) *)

(** What one call reads from outside: the clock (when the expiry is checked, and
    when a new token arrives) and failures of the store's statements. *)
Record OAuthEnv := MkOAuthEnv { check_now : Z; arrival_now : Z; get_fault : bool; store_fault : bool }.

Definition NewOAuthResolver (upstreams : list UpstreamConfig) : gmap string string :=
  foldl (λ m u, match u with
                | HTTPUpstream h =>
                    match h_auth h with
                    | Some a => if bool_decide (authType a = "oauth") then <[h_name h := provider a]> m else m
                    | None => m
                    end
                | _ => m
                end) ∅ upstreams.

Record OAuthResolver := MkResolver {
  tokens : TokenTable;
  refresher : TokenRefresher;
  upstreamProvider : gmap string string;
  network : N;
}.

Definition set_tokens (r : OAuthResolver) (db : TokenTable) (n : N) : OAuthResolver :=
  MkResolver db (refresher r) (upstreamProvider r) n.

Definition Resolver_IsConnected (env : OAuthEnv) (callerName upstreamName : string) (r : OAuthResolver) : bool * string :=
  match upstreamProvider r !! upstreamName with
  | None => (true, "")
  | Some providerName =>
      match GetToken (get_fault env) callerName providerName (tokens r) with
      | Err _ => (false, providerName)
      | Ok _ => (true, "")
      end
  end.

Definition Resolver_ResolveToken (env : OAuthEnv) (callerName upstreamName : string) (r : OAuthResolver) :
    OAuthResolver * result string string :=
  match upstreamProvider r !! upstreamName with
  | None => (r, Ok "")
  | Some p =>
      match GetToken (get_fault env) callerName p (tokens r) with
      | Err _ => (r, Err ("user has not connected " +:+ p +:+ " — visit /oauth/connect/" +:+ p +:+ " to authorize"))
      | Ok token =>
          if Expired (check_now env) token && negb (bool_decide (RefreshToken token = "")) then
            match Refresher_Refresh (arrival_now env) (refresher r) p (RefreshToken token) (network r) with
            | (n, Err e) =>
                (set_tokens r (tokens r) n,
                 if bool_decide (AccessToken token = "")
                 then Err ("oauth token for " +:+ p +:+ " has expired and refresh failed: " +:+ e)
                 else Ok (AccessToken token))
            | (n, Ok newToken) =>
                (set_tokens r (StoreToken (store_fault env) callerName p newToken (tokens r)).1 n, Ok (AccessToken newToken))
            end
          else (r, Ok (AccessToken token))
      end
  end.
End endpoint.
Arguments OAuthResolver : clear implicits. Arguments MkResolver {N}. Arguments tokens {N}. Arguments refresher {N}.
Arguments upstreamProvider {N}. Arguments network {N}. Arguments set_tokens {N}.

(** ** Authorization URLs *)

(** [strings.TrimRight(s, "/")] *)
Fixpoint TrimRight_slash (s : string) : string :=
  match s with
  | EmptyString => ""
  | String c s =>
      match TrimRight_slash s with
      | EmptyString => if bool_decide (c = "/"%char) then "" else String c ""
      | t => String c t
      end
  end.

(** ** The authorization code flow ([oauth_handler.go]) *)

Record stateClaims := MkStateClaims {
  Subject : string;
  ExpiresAt : option Z;      (* seconds *)
  IssuedAt : option Z;
  ClaimProvider : string;
  CodeVerifier : string;
}.

(** The claims travel as JSON, whose encoder writes U+FFFD for a byte that is not
    UTF-8. *)
Definition survive (c : stateClaims) : stateClaims :=
  MkStateClaims (to_valid (Subject c)) (ExpiresAt c) (IssuedAt c) (to_valid (ClaimProvider c)) (to_valid (CodeVerifier c)).

(** golang-jwt with HS256: a claims set that was signed with a key is what
    parsing with that key yields before it expires, as far as its strings are
    UTF-8; a token is never empty. *)
Class JWT := {
  SignedString : string → stateClaims → string;
  ParseWithClaims : string → Z → string → option stateClaims;   (* key, now, token *)
  jwt_law : ∀ key now claims,
    (∀ e, ExpiresAt claims = Some e → now < e * Duration.Second) →
    ParseWithClaims key now (SignedString key claims) = Some (survive claims);
  jwt_not_empty : ∀ key claims, SignedString key claims ≠ "";
}.

Definition connectTokenTTL : Z := 5 * Duration.Minute.
Definition stateExpiry : Z := 10 * Duration.Minute.

Record providerInfo := MkProviderInfo { pi_config : OAuthProviderConfig; pi_clientID : string; pi_clientSecret : string }.

Record OAuthHandler := MkOAuthHandler {
  providers : gmap string providerInfo;
  baseURL : string;
  signingKey : string;
}.

(** [Time.Unix] *)
Definition Unix (t : Z) : Z := t / Duration.Second.

(** [NewOAuthHandler]; [random] is the key that is generated if none is set. *)
Definition NewOAuthHandler (getenv : string → string) (ps : list OAuthProviderConfig) (base : string) (key random : string) :
    OAuthHandler :=
  let base := if bool_decide (base = "") then getenv "STILE_BASE_URL" else base in
  MkOAuthHandler
    (foldl (λ m p, <[op_name p := MkProviderInfo p (getenv (clientIDEnv p)) (getenv (clientSecretEnv p))]> m) ∅ ps)
    (TrimRight_slash base) (if bool_decide (key = "") then random else key).

Section handler.
Context {N : Type} `{TokenEndpoint N} `{JWT}.
Variables (hmac : string → string → string) (sha256 : string → string).
Implicit Types h : OAuthHandler.

(** *** Connect tokens *)

Definition connect_signature (key payload : string) : string := Encoding.EncodeToString (hmac key payload).

Definition signConnectToken (now : Z) (callerName : string) h : string :=
  let expiry := Unix (now + connectTokenTTL) in
  let payload := callerName +:+ "|" +:+ Strconv.FormatInt expiry in
  let raw := payload +:+ "|" +:+ connect_signature (signingKey h) payload in
  Encoding.EncodeToString raw.

Definition verifyConnectToken (now : Z) (tok : string) h : result string string :=
  match Encoding.DecodeString tok with
  | None => Err "decode token"
  | Some raw =>
      match SplitN raw "|" 3 with
      | [callerName; expiryStr; sig] =>
          let payload := callerName +:+ "|" +:+ expiryStr in
          if negb (bool_decide (sig = connect_signature (signingKey h) payload)) then Err "invalid signature"
          else match Strconv.ParseInt expiryStr with
               | None => Err "invalid expiry"
               | Some expiry => if expiry <? Unix now then Err "token expired" else Ok callerName
               end
      | _ => Err "malformed token"
      end
  end.

Definition GenerateConnectURL (now : Z) (callerName provider : string) h : string :=
  baseURL h +:+ "/oauth/connect/" +:+ PathEscape provider +:+ "?tok=" +:+ QueryEscape (signConnectToken now callerName h).

(** *** State parameters *)

(** [jwt.NewNumericDate] keeps whole seconds. *)
Definition signState (now : Z) (callerName provider codeVerifier : string) h : string :=
  SignedString (signingKey h)
    (MkStateClaims callerName (Some (Unix (now + stateExpiry))) (Some (Unix now)) provider codeVerifier).

Definition verifyState (now : Z) (tokenStr : string) h : result string stateClaims :=
  match ParseWithClaims (signingKey h) now tokenStr with
  | None => Err "invalid token"
  | Some claims =>
      if bool_decide (Subject claims = "") || bool_decide (ClaimProvider claims = "") || bool_decide (CodeVerifier claims = "")
      then Err "incomplete state claims"
      else Ok claims
  end.

(** *** Endpoints *)

(** What a handler sends: a page or error with its status, or a redirect with
    its query parameters. *)
Inductive HTTPReply :=
| Page (status : Z) (body : string)
| RedirectTo (url : string) (params : gmap string string).

(** 32 random bytes, or a failure of the generator. *)
Definition generateCodeVerifier (rand : option string) : option string := Encoding.EncodeToString <$> rand.

Definition computeCodeChallenge (verifier : string) : string := Encoding.EncodeToString (sha256 verifier).

Definition redirectURI h : string := baseURL h +:+ "/oauth/callback".

Definition base_params (pi : providerInfo) (state challenge : string) h : gmap string string :=
  list_to_map [("client_id", pi_clientID pi); ("response_type", "code"); ("redirect_uri", redirectURI h);
               ("state", state); ("code_challenge", challenge); ("code_challenge_method", "S256")].

Definition auth_params (pi : providerInfo) (state challenge : string) h : gmap string string :=
  let params := base_params pi state challenge h in
  if bool_decide (scopes (pi_config pi) = []) then params else <["scope" := Join (scopes (pi_config pi)) " "]> params.

(** The caller of a connect request: from the context, else from the token. *)
Definition connect_caller (now : Z) (ctx : Context) (tok : string) h : result Z string :=
  let callerName := match CallerFromContext ctx with Some c => CallerName c | None => "" end in
  if negb (bool_decide (callerName = "")) then Ok callerName
  else if bool_decide (tok = "") then Ok ""
  else match verifyConnectToken now tok h with
       | Err _ => Err 401
       | Ok name => Ok name
       end.

Definition handleConnect (now : Z) (rand : option string) (ctx : Context) (providerName tok : string) h : HTTPReply :=
  match connect_caller now ctx tok h with
  | Err status => Page status "invalid or expired connect token"
  | Ok callerName =>
      if bool_decide (callerName = "") then Page 401 "authentication required"
      else match providers h !! providerName with
      | None => Page 404 "unknown provider"
      | Some pi =>
          if bool_decide (pi_clientID pi = "") then Page 500 "OAuth not configured for provider"
          else match generateCodeVerifier rand with
          | None => Page 500 "internal error generating PKCE verifier"
          | Some verifier =>
              RedirectTo (authURL (pi_config pi))
                (auth_params pi (signState now callerName providerName verifier h) (computeCodeChallenge verifier) h)
          end
      end
  end.

Definition code_form (pi : providerInfo) (code codeVerifier : string) h : gmap string string :=
  list_to_map [("grant_type", "authorization_code"); ("code", code); ("redirect_uri", redirectURI h);
               ("client_id", pi_clientID pi); ("client_secret", pi_clientSecret pi); ("code_verifier", codeVerifier)].

Definition exchangeCode (now : Z) (pi : providerInfo) (code codeVerifier : string) h (n : N) : N * result string OAuthToken :=
  match post_grant (tokenURL (pi_config pi)) (code_form pi code codeVerifier h) n with
  | (n, Err e) => (n, Err e)
  | (n, Ok resp) =>
      (n, if bool_decide (access_token resp = "") then Err "token response missing access_token"
          else Ok (make_token now resp))
  end.

(** The callback; [q] is [r.URL.Query().Get]. *)
Definition handleCallback (env : OAuthEnv) (q : string → string) h (db : TokenTable) (n : N) : TokenTable * N * HTTPReply :=
  if negb (bool_decide (q "error" = "")) then
    (db, n, Page 400 ("<html><body><h2>Authorization Failed</h2><p>" +:+ q "error" +:+ ": " +:+ q "error_description" +:+
                      "</p></body></html>"))
  else if bool_decide (q "state" = "") || bool_decide (q "code" = "") then (db, n, Page 400 "missing state or code parameter")
  else match verifyState (check_now env) (q "state") h with
  | Err _ => (db, n, Page 400 "invalid or expired state parameter")
  | Ok claims =>
      match providers h !! ClaimProvider claims with
      | None => (db, n, Page 500 "provider configuration missing")
      | Some pi =>
          match exchangeCode (arrival_now env) pi (q "code") (CodeVerifier claims) h n with
          | (n, Err e) => (db, n, Page 502 ("<html><body><h2>Token Exchange Failed</h2><p>" +:+ e +:+ "</p></body></html>"))
          | (n, Ok token) =>
              match StoreToken (store_fault env) (Subject claims) (ClaimProvider claims) token db with
              | (db, Err _) => (db, n, Page 500 "failed to store token")
              | (db, Ok _) => (db, n, Page 200 ("Connected: " +:+ ClaimProvider claims))
              end
          end
      end
  end.

Definition ProviderNames `{GoRange} h : list string := (go_range (providers h)).*1.

(** ** The interface of the proxy ([connection_checker.go]) *)

(** The resolver and the handler, with what their next calls read from
    outside. *)
Record Connections := MkConnections {
  resolver : OAuthResolver N;
  oauth_handler : OAuthHandler;
  readings : nat → OAuthEnv;
}.

#[global] Instance Connections_UpstreamAuth : UpstreamAuth Connections := {|
  ResolveToken callerName upstreamName c :=
    let '(r, res) := Resolver_ResolveToken (readings c 0%nat) callerName upstreamName (resolver c) in
    (MkConnections r (oauth_handler c) (λ i, readings c (S i)), res);
  IsConnected callerName upstreamName c := Resolver_IsConnected (readings c 0%nat) callerName upstreamName (resolver c);
  ConnectURL callerName provider c := GenerateConnectURL (check_now (readings c 0%nat)) callerName provider (oauth_handler c);
|}.
End handler.

(** ** Properties of connect tokens *)

Section tokens.
Context `{JWT}.
Variable hmac : string → string → string.
Implicit Types h : OAuthHandler.

(** A connect token that the handler signed, once decoded. *)
Lemma decode_signed now c h :
  Encoding.DecodeString (signConnectToken hmac now c h) =
    let payload := c +:+ "|" +:+ Strconv.FormatInt (Unix (now + connectTokenTTL)) in
    Some (payload +:+ "|" +:+ connect_signature hmac (signingKey h) payload).
Proof. apply Encoding.Decode_Encode. Qed.

Lemma split_three a b c :
  no_byte "|" a = true → no_byte "|" b = true → SplitN (a +:+ "|" +:+ b +:+ "|" +:+ c) "|" 3 = [a; b; c].
Proof.
  intros Ha Hb. cbn [SplitN].
  change (a +:+ "|" +:+ b +:+ "|" +:+ c) with (a +:+ String "|" (b +:+ String "|" c)).
  by rewrite Cut_app, Cut_app.
Qed.

Lemma FormatInt_no_pipe z : no_byte "|" (Strconv.FormatInt z) = true.
Proof. by apply Strconv.FormatInt_no_byte. Qed.

(** A connect link works for the caller it was made for, and as long as it
    says: the token that is signed for a caller verifies as that caller until the
    expiry that was signed into it, and is refused from then on. The name must not
    contain the separator. *)
Theorem connect_token_roundtrip now now' c h :
  no_byte "|" c = true → Strconv.in_int64 (Unix (now + connectTokenTTL)) = true →
  verifyConnectToken hmac now' (signConnectToken hmac now c h) h =
    if Unix (now + connectTokenTTL) <? Unix now' then Err "token expired" else Ok c.
Proof.
  intros Hc He. unfold verifyConnectToken. rewrite decode_signed. cbv zeta.
  rewrite !str_app_assoc, split_three by (done || apply FormatInt_no_pipe).
  rewrite bool_decide_eq_true_2 by done. simpl. by rewrite Strconv.ParseInt_FormatInt.
Qed.

Lemma no_byte_app c s t : no_byte c (s +:+ t) = no_byte c s && no_byte c t.
Proof. apply all_bytes_app. Qed.

Lemma Cut_byte c s : no_byte c s = false → ∃ a b, Cut c s = Some (a, b).
Proof.
  unfold no_byte. induction s as [|d s IH]; simpl; [done|]. case_bool_decide; simpl.
  - intros _. rewrite decide_True by done. eauto.
  - intros (a & b & Hs)%IH. rewrite decide_False by done. rewrite Hs. eauto.
Qed.

(** A caller whose name contains the separator can never use a connect link:
    whatever the MAC is, the token that is signed for it does not verify. *)
Theorem piped_caller_locked_out now now' c h :
  no_byte "|" c = false →
  verifyConnectToken hmac now' (signConnectToken hmac now c h) h = Err "invalid signature".
Proof.
  intros (a & b & Hcut)%Cut_byte. unfold verifyConnectToken. rewrite decode_signed. cbv zeta.
  set (sig := connect_signature _ _ _). set (e := Strconv.FormatInt _).
  apply Cut_Some in Hcut as [Hc Ha].
  assert (∃ x y, SplitN ((c +:+ "|" +:+ e) +:+ "|" +:+ sig) "|" 3 = [a; x; y] ∧ no_byte "|" y = false) as (x & y & -> & Hy).
  { rewrite Hc. rewrite !str_app_assoc. cbn [SplitN].
    replace (String "|" b +:+ "|" +:+ e +:+ "|" +:+ sig) with (String "|" (b +:+ "|" +:+ e +:+ "|" +:+ sig)) by done.
    rewrite Cut_app by done. destruct (Cut "|" b) as [[b1 b2]|] eqn:Eb.
    - apply Cut_Some in Eb as [-> Hb1]. rewrite !str_app_assoc.
      replace (String "|" b2 +:+ "|" +:+ e +:+ "|" +:+ sig) with (String "|" (b2 +:+ "|" +:+ e +:+ "|" +:+ sig)) by done.
      rewrite Cut_app by done. do 2 eexists. split; [done|]. rewrite !no_byte_app. simpl. by rewrite !andb_false_r.
    - assert (no_byte "|" b = true) as Hb.
      { destruct (no_byte "|" b) eqn:Enb; [done|]. apply Cut_byte in Enb as (? & ? & ?). congruence. }
      change ("|" +:+ e +:+ "|" +:+ sig) with (String "|" (e +:+ "|" +:+ sig)). rewrite Cut_app by done.
      do 2 eexists. split; [done|]. rewrite !no_byte_app. simpl. by rewrite andb_false_r. }
  rewrite bool_decide_eq_false_2; [done|]. intros ->. unfold connect_signature in Hy.
  by rewrite (proj1 (Encoding.Encode_no_sep _)) in Hy.
Qed.
End tokens.

(** ** Properties of the flow *)

Section flow.
Context {N : Type} `{TokenEndpoint N} `{JWT}.
Variables (hmac : string → string → string) (sha256 : string → string).
Implicit Types (h : OAuthHandler) (db : TokenTable) (n : N).

Lemma exchange_not_empty now pi code v h n n' token :
  exchangeCode now pi code v h n = (n', Ok token) → AccessToken token ≠ "".
Proof.
  unfold exchangeCode. destruct (post_grant _ _ _) as [n1 [r|e]]; [|done].
  case_bool_decide; [done|]. by intros [= _ <-].
Qed.

(** C21: the callback, which anybody can call, changes the token table only for a
    state parameter that verifies under the handler's key, and then only the row of
    the caller and provider that were signed into it, with a non-empty access token
    that the provider's endpoint gave for the code and the signed verifier. *)
Theorem callback_stores_signed_only env q h db n :
  let '(db', n', _) := handleCallback env q h db n in
  db' ≠ db →
  ∃ claims pi token, ParseWithClaims (signingKey h) (check_now env) (q "state") = Some claims ∧
    Subject claims ≠ "" ∧ providers h !! ClaimProvider claims = Some pi ∧
    exchangeCode (arrival_now env) pi (q "code") (CodeVerifier claims) h n = (n', Ok token) ∧ AccessToken token ≠ "" ∧
    db' = <[(Subject claims, ClaimProvider claims) := token]> db.
Proof.
  unfold handleCallback. destruct (negb _); [done|]. destruct (_ || _); [done|].
  unfold verifyState. destruct (ParseWithClaims _ _ _) as [claims|] eqn:Ep; [|done].
  destruct (bool_decide (Subject claims = "")) eqn:Es; [cbn; done|]. apply bool_decide_eq_false in Es. simpl.
  destruct (_ || _); [done|].
  destruct (providers h !! ClaimProvider claims) as [pi|] eqn:Epi; [|done].
  destruct (exchangeCode _ _ _ _ _ _) as [n1 [token|e]] eqn:Ex; [|done].
  unfold StoreToken. destruct (store_fault env); simpl; [done|]. intros _.
  exists claims, pi, token. split_and!; try done. by eapply exchange_not_empty.
Qed.

Lemma auth_params_lookup pi st ch h k : k ≠ "scope" → auth_params pi st ch h !! k = base_params pi st ch h !! k.
Proof. intros Hk. unfold auth_params. case_bool_decide; [done|]. by rewrite lookup_insert_ne. Qed.

(** Where a connect request is redirected to. *)
Lemma connect_redirect now rnd ctx p tok h url params c :
  handleConnect hmac sha256 now (Some rnd) ctx p tok h = RedirectTo url params → connect_caller hmac now ctx tok h = Ok c →
  let v := Encoding.EncodeToString rnd in
  c ≠ "" ∧ ∃ pi, providers h !! p = Some pi ∧ pi_clientID pi ≠ "" ∧ url = authURL (pi_config pi) ∧
    params = auth_params pi (signState now c p v h) (computeCodeChallenge sha256 v) h.
Proof.
  intros Hc Hcaller. unfold handleConnect in Hc. rewrite Hcaller in Hc.
  case_bool_decide as Hce; [done|]. destruct (providers h !! p) as [pi|] eqn:Epi; [|done].
  case_bool_decide as Hid; [done|]. simpl in Hc. injection Hc as <- <-. split; [done|]. by exists pi.
Qed.

Lemma encode_not_empty rnd : rnd ≠ "" → Encoding.EncodeToString rnd ≠ "".
Proof.
  intros Hr Hv. destruct rnd as [|ch rnd]; [done|]. apply (f_equal Encoding.DecodeString) in Hv.
  by rewrite Encoding.Decode_Encode in Hv.
Qed.

Lemma verifier_valid rnd : valid_utf8 (Encoding.EncodeToString rnd) = true.
Proof.
  apply ascii_valid. unfold Encoding.EncodeToString. generalize (Encoding.string_bits rnd). intros l.
  assert (∀ a b c d e f, between 0 127 (Encoding.b64_char [a; b; c; d; e; f]) = true) as Hb by (intros [] [] [] [] [] []; done).
  induction l as [l IH] using (induction_ltof1 _ (@length bool)); unfold ltof in IH.
  destruct l as [|a [|b [|c [|d [|e [|f l]]]]]]; cbn [Encoding.encode_bits all_bytes]; rewrite ?Hb; try done.
  apply IH. simpl. lia.
Qed.

(** The callback with a state that the handler signed and that has not expired. *)
Lemma callback_signed now c p v h env query pi db n :
  query "error" = "" → query "code" ≠ "" → query "state" = signState now c p v h →
  check_now env < Unix (now + stateExpiry) * Duration.Second →
  c ≠ "" → p ≠ "" → v ≠ "" → valid_utf8 c = true → valid_utf8 p = true → valid_utf8 v = true → providers h !! p = Some pi →
  handleCallback env query h db n =
    match exchangeCode (arrival_now env) pi (query "code") v h n with
    | (n, Err e) => (db, n, Page 502 ("<html><body><h2>Token Exchange Failed</h2><p>" +:+ e +:+ "</p></body></html>"))
    | (n, Ok token) =>
        match StoreToken (store_fault env) c p token db with
        | (db, Err _) => (db, n, Page 500 "failed to store token")
        | (db, Ok _) => (db, n, Page 200 ("Connected: " +:+ p))
        end
    end.
Proof.
  intros Herr Hcode Hq Htime Hc Hp Hv Uc Up Uv Epi. unfold handleCallback. rewrite bool_decide_eq_true_2 by done. simpl.
  rewrite (bool_decide_eq_false_2 (query "state" = "")) by (rewrite Hq; apply jwt_not_empty).
  rewrite (bool_decide_eq_false_2 (query "code" = "")) by done. simpl.
  unfold verifyState. rewrite Hq. unfold signState. rewrite jwt_law by (simpl; by intros e [= <-]). unfold survive. simpl.
  rewrite !to_valid_id by done. rewrite !bool_decide_eq_false_2 by done. simpl. by rewrite Epi.
Qed.

(** The whole flow: where a connect request of a caller is redirected to a
    provider, the callback with the state of that redirect, within ten minutes and
    at any instance with the same key and providers, exchanges the code at that
    provider's token endpoint with the verifier whose challenge the redirect
    carried, and stores what it gets for exactly that caller and provider. Their
    names are UTF-8. *)
Theorem connect_flow now rnd ctx p tok h url params c env q db n :
  handleConnect hmac sha256 now (Some rnd) ctx p tok h = RedirectTo url params →
  connect_caller hmac now ctx tok h = Ok c → valid_utf8 c = true → valid_utf8 p = true →
  rnd ≠ "" → p ≠ "" → q "error" = "" → q "code" ≠ "" → q "state" = default "" (params !! "state") →
  check_now env < Unix (now + stateExpiry) * Duration.Second →
  ∃ pi, providers h !! p = Some pi ∧ url = authURL (pi_config pi) ∧
    params !! "code_challenge" = Some (computeCodeChallenge sha256 (Encoding.EncodeToString rnd)) ∧
    let '(db', n', _) := handleCallback env q h db n in
    let '(n1, res) := exchangeCode (arrival_now env) pi (q "code") (Encoding.EncodeToString rnd) h n in
    n' = n1 ∧
    db' = match res with
          | Ok token => if store_fault env then db else <[(c, p) := token]> db
          | Err _ => db
          end.
Proof.
  intros Hc Hcaller Uc Up Hrnd Hp Herr Hcode Hstate Htime.
  destruct (connect_redirect _ _ _ _ _ _ _ _ _ Hc Hcaller) as (Hce & pi & Epi & Hid & -> & ->). exists pi.
  split_and!; [done|done|by rewrite auth_params_lookup|]. rewrite auth_params_lookup in Hstate by done.
  rewrite (callback_signed now c p (Encoding.EncodeToString rnd) h env q pi) by (done || apply verifier_valid || by apply encode_not_empty).
  destruct (exchangeCode _ _ _ _ _ _) as [n1 [token|e]]; [|done].
  unfold StoreToken. by destruct (store_fault env).
Qed.
End flow.

(** ** Properties of the resolver *)

Section resolver_props.
Context {N : Type} `{TokenEndpoint N}.
Implicit Types r : OAuthResolver N.

(** C18: tokens are kept apart. For an upstream without OAuth no token is used.
    Otherwise the token that is used is the stored one of that very caller for the
    upstream's provider, or, if that one has expired, one that the provider gave for
    the caller's own refresh token, which is then stored in its place; no row of
    another caller or provider is read or changed, and without a stored token the
    call fails. *)
Theorem tokens_kept_apart env c u r :
  let '(r', res) := Resolver_ResolveToken env c u r in
  (∀ user p, upstreamProvider r !! u ≠ Some p ∨ user ≠ c → tokens r' !! (user, p) = tokens r !! (user, p)) ∧
  match upstreamProvider r !! u with
  | None => r' = r ∧ res = Ok ""
  | Some p =>
      match tokens r !! (c, p) with
      | None => r' = r ∧ is_ok res = false
      | Some t =>
          ∀ tok, res = Ok tok →
            tok = AccessToken t ∧ tokens r' = tokens r ∨
            Expired (check_now env) t = true ∧ ∃ n new,
              Refresher_Refresh (arrival_now env) (refresher r) p (RefreshToken t) (network r) = (n, Ok new) ∧
              tok = AccessToken new ∧ tokens r' = if store_fault env then tokens r else <[(c, p) := new]> (tokens r)
      end
  end.
Proof.
  unfold Resolver_ResolveToken. destruct (upstreamProvider r !! u) as [p|] eqn:Eu; [|done].
  unfold GetToken. destruct (get_fault env); simpl; [split; [done|]; by destruct (tokens r !! (c, p))|].
  destruct (tokens r !! (c, p)) as [t|] eqn:Et; [|done].
  destruct (Expired (check_now env) t) eqn:Ee; simpl; [|split; [done|]; intros tok [= <-]; by left].
  destruct (negb _); [|split; [done|]; intros tok [= <-]; by left].
  destruct (Refresher_Refresh _ _ _ _ _) as [n [new|e]] eqn:Er; simpl.
  - unfold StoreToken. destruct (store_fault env); simpl.
    + split; [done|]. intros tok [= <-]. right. split; [done|]. by exists n, new.
    + split; [|intros tok [= <-]; right; split; [done|]; by exists n, new].
      intros user p' Hne. rewrite lookup_insert_ne; [done|]. intros [= -> ->]. naive_solver.
  - split; [done|]. case_bool_decide; [done|]. intros tok [= <-]. by left.
Qed.

(** A caller that counts as connected gets a token, as long as what is stored for
    it has an access token. *)
Theorem connected_resolves env c u r p t :
  upstreamProvider r !! u = Some p → tokens r !! (c, p) = Some t → AccessToken t ≠ "" →
  (Resolver_IsConnected env c u r).1 = true ↔ ∃ tok, (Resolver_ResolveToken env c u r).2 = Ok tok.
Proof.
  intros Hu Ht Ha. unfold Resolver_IsConnected, Resolver_ResolveToken. rewrite Hu. unfold GetToken.
  destruct (get_fault env); simpl; [split; [done|by intros []]|]. rewrite Ht. simpl. split; [intros _|done].
  destruct (_ && _); [|by eexists]. destruct (Refresher_Refresh _ _ _ _ _) as [n [new|e]]; simpl; [by eexists|].
  rewrite bool_decide_eq_false_2 by done. by eexists.
Qed.
End resolver_props.

(** ** Concrete runs *)

(** A stand-in for the JWT library: the token is the key and the claims, in
    binary. *)
Fixpoint bits_of_pos (p : positive) : string :=
  match p with xH => "" | xO p => String "0" (bits_of_pos p) | xI p => String "1" (bits_of_pos p) end.
Fixpoint pos_of_bits (s : string) : positive :=
  match s with
  | EmptyString => xH
  | String c s => if bool_decide (c = "0"%char) then xO (pos_of_bits s) else xI (pos_of_bits s)
  end.

Lemma pos_of_bits_of_pos p : pos_of_bits (bits_of_pos p) = p.
Proof. induction p as [p IH|p IH|]; simpl; by rewrite ?IH. Qed.

Definition claims_tuple (c : stateClaims) : string * option Z * option Z * string * string :=
  (Subject c, ExpiresAt c, IssuedAt c, ClaimProvider c, CodeVerifier c).

Definition plain_sign (key : string) (c : stateClaims) : string :=
  "j" +:+ bits_of_pos (countable.encode (key, claims_tuple (survive c))).

Definition plain_parse (key : string) (now : Z) (tok : string) : option stateClaims :=
  match CutPrefix "j" tok ≫= λ s, countable.decode (A := string * (string * option Z * option Z * string * string)) (pos_of_bits s) with
  | Some (k, (sub, e, i, p, v)) =>
      if bool_decide (k = key) && match e with Some e => now <? e * Duration.Second | None => true end
      then Some (MkStateClaims sub e i p v) else None
  | None => None
  end.

#[refine] Definition plain_jwt : JWT := {| SignedString := plain_sign; ParseWithClaims := plain_parse |}.
Proof.
  - intros key now [sub e i p v] Hnow. unfold plain_parse, plain_sign. rewrite CutPrefix_app. simpl.
    rewrite pos_of_bits_of_pos, decode_encode. simpl. rewrite bool_decide_eq_true_2 by done.
    destruct e as [e|]; [|done]. by rewrite (proj2 (Z.ltb_lt _ _) (Hnow e eq_refl)).
  - done.
Defined.

#[local] Existing Instance plain_jwt.

(** A token endpoint that answers with a document. *)
#[local] Instance fixed_endpoint : TokenEndpoint string :=
  λ _ _ doc, (doc, Ok (MkHTTPResponse 200 ∅ (MkStream doc None))).

Definition toy_mac (k m : string) : string := k +:+ m.

Definition sample_provider : OAuthProviderConfig :=
  MkOAuthProvider "idp" "https://idp/auth" "https://idp/token" "ID" "SECRET" ["read"].
Definition sample_oauth_handler : OAuthHandler :=
  NewOAuthHandler (λ v, v) [sample_provider] "https://gw/" "key" "".
Definition token_doc : string := "{" +:+ quoted "access_token" +:+ ":" +:+ quoted "at" +:+ "}".
Definition sample_query (k : string) : string :=
  if bool_decide (k = "code") then "abc"
  else if bool_decide (k = "state") then signState 0 "ann" "idp" (Encoding.EncodeToString "r") sample_oauth_handler
  else "".
Definition calm_env : OAuthEnv := MkOAuthEnv 0 0 false false.

Lemma connect_token_roundtrip_witness :
  verifyConnectToken toy_mac (299 * Duration.Second) (signConnectToken toy_mac 0 "ann" sample_oauth_handler) sample_oauth_handler =
    Ok "ann".
Proof.
  rewrite (connect_token_roundtrip toy_mac 0 (299 * Duration.Second) "ann" sample_oauth_handler).
  - vm_compute. reflexivity.
  - vm_compute. reflexivity.
  - vm_compute. reflexivity.
Defined.

Lemma piped_caller_locked_out_witness :
  verifyConnectToken toy_mac 0 (signConnectToken toy_mac 0 "auth0|ann" sample_oauth_handler) sample_oauth_handler =
    Err "invalid signature".
Proof. apply (piped_caller_locked_out toy_mac 0 0 "auth0|ann" sample_oauth_handler). reflexivity. Defined.

Lemma callback_stores_signed_only_witness :
  ∃ claims pi token, ParseWithClaims "key" 0 (sample_query "state") = Some claims ∧
    Subject claims ≠ "" ∧ providers sample_oauth_handler !! ClaimProvider claims = Some pi ∧
    exchangeCode 0 pi "abc" (CodeVerifier claims) sample_oauth_handler token_doc = (token_doc, Ok token) ∧ AccessToken token ≠ "" ∧
    (handleCallback calm_env sample_query sample_oauth_handler ∅ token_doc).1.1 =
      <[(Subject claims, ClaimProvider claims) := token]> ∅.
Proof.
  pose proof (callback_stores_signed_only calm_env sample_query sample_oauth_handler ∅ token_doc) as Hs.
  assert ((handleCallback calm_env sample_query sample_oauth_handler ∅ token_doc).1.1 !! ("ann", "idp") ≠ None) as Hne
    by (vm_compute; discriminate).
  assert ((handleCallback calm_env sample_query sample_oauth_handler ∅ token_doc).1.2 = token_doc) as Hn
    by (vm_compute; reflexivity).
  destruct (handleCallback calm_env sample_query sample_oauth_handler ∅ token_doc) as [[db' n'] w].
  simpl in Hne, Hn. subst n'. apply Hs. intros Heq. apply Hne. rewrite Heq. apply lookup_empty.
Defined.

Lemma connect_flow_witness :
  ∃ pi, providers sample_oauth_handler !! "idp" = Some pi ∧
    "https://idp/auth" = authURL (pi_config pi).
Proof.
  destruct (connect_flow toy_mac id 0 "r" (as_caller reader) "idp" "" sample_oauth_handler "https://idp/auth"
    (auth_params (MkProviderInfo sample_provider "ID" "SECRET")
      (signState 0 "ann" "idp" (Encoding.EncodeToString "r") sample_oauth_handler)
      (computeCodeChallenge id (Encoding.EncodeToString "r")) sample_oauth_handler)
    "ann" calm_env sample_query ∅ token_doc) as (pi & Hp & Hu & _).
  - vm_compute. reflexivity.
  - reflexivity.
  - vm_compute. reflexivity.
  - vm_compute. reflexivity.
  - discriminate.
  - discriminate.
  - reflexivity.
  - discriminate.
  - vm_compute. reflexivity.
  - vm_compute. reflexivity.
  - exists pi. split; assumption.
Defined.

(** A refresh is not checked for an access token, unlike the exchange of a code:
    an answer without one replaces the stored token by an empty one, and the caller
    is then treated like one of an upstream without OAuth: the request goes out
    without a token. *)
Example refresh_accepts_empty_token :
  let r := MkResolver {[("ann", "idp") := MkOAuthToken "at" "rt" "Bearer" (Some 0) ""]}
             (NewTokenRefresher (λ v, v) [sample_provider]) {["svc" := "idp"]} "{}" in
  let '(r', res) := Resolver_ResolveToken (MkOAuthEnv 1 1 false false) "ann" "svc" r in
  res = Ok "" ∧ AccessToken <$> tokens r' !! ("ann", "idp") = Some "".
Proof. vm_compute. split; reflexivity. Qed.
