(* ===== verification/Mocks.v ===== *)
(** * The stand-in servers ([scripts/])

    The servers that the end-to-end scripts put around a gateway, as written: the
    OAuth provider of [mock-oauth-provider.go], and the MCP servers of
    [mock-oauth-upstream.go] (which answers with the header it received),
    [fake-upstream.go] and [mock-sse-server.go]. The provider is an instance of the
    token endpoint of [OAuth], the servers are HTTP clients' networks of
    [Transport]: so that what the scripts try on one input is proved of the
    gateway's definitions for all of them. Floating-point numbers (class
    [Float64]) are a parameter, with the laws on small integers. *)

From Stdlib Require Import SpecFloat.
From S2P Require Import Prelude GoLib Json JsonRpc JsonText Transport Http ConfigData AuthStore Auth Proxy OAuth.
Import GoStr.

(** Literals are written with single quotes for double ones. *)
Fixpoint dq (s : string) : string :=
  match s with EmptyString => "" | String c s => String (if bool_decide (c = "'"%char) then q else c) (dq s) end.

(** [http.Error]: the message and a newline. *)
Definition http_error (status : Z) (msg : string) : HTTPResponse :=
  MkHTTPResponse status {["Content-Type" := "text/plain; charset=utf-8"]} (MkStream (msg +:+ newline) None).

(** [json.NewEncoder(w).Encode] *)
Definition json_body (status : Z) (j : json) : HTTPResponse :=
  MkHTTPResponse status {["Content-Type" := "application/json"]} (MkStream (encode j +:+ newline) None).

(** ** The OAuth provider ([mock-oauth-provider.go]) *)

Module Provider.

Record pendingCode := MkPending {
  pc_code : string;
  pc_redirectURI : string;
  pc_codeVerifier : string;
  pc_user : string;
  pc_createdAt : Z;
}.

Abbreviation Codes := (gmap string pendingCode).

Inductive authorize_reply :=
| BadRequest (msg : string)
| Found (url : string)
| Consent (user callbackURL : string).     (* the page that goes to the URL *)

Definition mock_user : string := "alice@example.com".

(** [query] is [r.URL.Query().Get], [random] the 16 bytes. *)
Definition handleAuthorize (now : Z) (random : string) (query : string → string) (codes : Codes) : Codes * authorize_reply :=
  let clientID := query "client_id" in
  let redirectURI := query "redirect_uri" in
  let state := query "state" in
  let codeChallenge := query "code_challenge" in
  let codeChallengeMethod := query "code_challenge_method" in
  if bool_decide (clientID = "") || bool_decide (redirectURI = "") || bool_decide (state = "")
  then (codes, BadRequest "missing required parameters (client_id, redirect_uri, state)")
  else if negb (bool_decide (codeChallenge = "")) && negb (bool_decide (codeChallengeMethod = "S256"))
  then (codes, BadRequest "only S256 code challenge method is supported")
  else
    let code := Encoding.hex_EncodeToString random in
    let codes := <[code := MkPending code redirectURI codeChallenge mock_user now]> codes in
    let callbackURL := redirectURI +:+ "?code=" +:+ code +:+ "&state=" +:+ state in
    (codes, if bool_decide (query "auto" = "true") then Found callbackURL else Consent mock_user callbackURL).

Definition token_error (error description : string) : HTTPResponse :=
  json_body 400 (marshal_map (list_to_map [("error", JStr error); ("error_description", JStr description)])).

Definition token_answer (accessToken refreshToken : string) : HTTPResponse :=
  json_body 200 (marshal_map (list_to_map
    [("access_token", JStr accessToken); ("token_type", JStr "Bearer"); ("expires_in", jint 3600);
     ("refresh_token", JStr refreshToken); ("scope", JStr "read write")])).

Section token.
Variable sha256 : string → string.
(** [fmt.Sprintf("%q")] *)
Variable Quote : string → string.

(** [form] is [r.FormValue]. *)
Definition handleAuthCodeExchange (now : Z) (form : string → string) (codes : Codes) : Codes * HTTPResponse :=
  let code := form "code" in
  let codeVerifier := form "code_verifier" in
  match codes !! code with
  | None => (codes, token_error "invalid_grant" "authorization code not found or already used")
  | Some pc =>
      (delete code codes,
       if 5 * Duration.Minute <? now - pc_createdAt pc then token_error "invalid_grant" "authorization code expired"
       else if negb (bool_decide (pc_codeVerifier pc = "")) && negb (bool_decide (codeVerifier = "")) &&
               negb (bool_decide (Encoding.EncodeToString (sha256 codeVerifier) = pc_codeVerifier pc))
       then token_error "invalid_grant" "PKCE code_verifier does not match code_challenge"
       else token_answer ("mock-token-" +:+ pc_user pc) ("mock-refresh-" +:+ pc_user pc))
  end.

Definition refresh_prefix : string := "mock-refresh-".

Definition handleRefreshToken (form : string → string) : HTTPResponse :=
  let refreshToken := form "refresh_token" in
  if bool_decide (refreshToken = "") then token_error "invalid_request" "refresh_token is required"
  else
    let user := if (String.length refresh_prefix <? String.length refreshToken)%nat
                then str_drop (String.length refresh_prefix) refreshToken else "unknown" in
    token_answer ("mock-token-" +:+ user) refreshToken.

Definition handleToken (now : Z) (method : string) (form : string → string) (codes : Codes) : Codes * HTTPResponse :=
  if negb (bool_decide (method = "POST")) then (codes, http_error 405 "method not allowed")
  else
    let grantType := form "grant_type" in
    if bool_decide (grantType = "authorization_code") then handleAuthCodeExchange now form codes
    else if bool_decide (grantType = "refresh_token") then (codes, handleRefreshToken form)
    else (codes, token_error "unsupported_grant_type" ("grant_type " +:+ Quote grantType +:+ " is not supported")).

(** The provider as the token endpoint of a gateway: its codes, and the time at
    which the next request arrives. *)
Record mock := MkMock { codes : Codes; clock : Z }.

#[global] Instance mock_endpoint : TokenEndpoint mock := λ _ form m,
  let '(cs, resp) := handleToken (clock m) "POST" (λ k, default "" (form !! k)) (codes m) in
  (MkMock cs (clock m), Ok resp).

(** ** What a browser does with the answer *)

(** Both answers lead to the callback URL. *)
Definition leads_to (a : authorize_reply) : option string :=
  match a with BadRequest _ => None | Found url | Consent _ url => Some url end.

Lemma QueryUnescape_plain s : all_bytes unreserved s = true → QueryUnescape s = Some s.
Proof.
  unfold QueryUnescape. induction s as [|c s IH]; [done|]. cbn [all_bytes]. intros [Hc Hs]%andb_true_iff.
  apply unreserved_plain in Hc as [H1 H2]. cbn [unescape]. rewrite bool_decide_eq_false_2, IH by done. simpl. by rewrite bool_decide_eq_false_2.
Qed.

Lemma unreserved_no c s : unreserved c = false → all_bytes unreserved s = true → no_byte c s = true.
Proof.
  intros Hc Hs. unfold no_byte. eapply all_bytes_impl; [|exact Hs]. intros d Hd. rewrite bool_decide_eq_false_2; [done|]. intros ->. congruence.
Qed.

Lemma hex_unreserved s : all_bytes unreserved (Encoding.hex_EncodeToString s) = true.
Proof.
  induction s as [|[b0 b1 b2 b3 b4 b5 b6 b7] s IH]; [done|].
  cbn [Encoding.hex_EncodeToString all_bytes]. rewrite IH. by destruct b0, b1, b2, b3, b4, b5, b6, b7.
Qed.

Lemma pair_no c k v : unreserved c = false → c ≠ "="%char → all_bytes unreserved k = true → all_bytes unreserved v = true →
  no_byte c (k +:+ String "=" v) = true.
Proof.
  intros Hc Hne Hk Hv. rewrite no_byte_app, (unreserved_no c k) by done. apply no_byte_cons. split; [done|by apply unreserved_no].
Qed.

(** The query of the callback URL, as the gateway reads it. *)
Lemma callback_query code state : all_bytes unreserved code = true → all_bytes unreserved state = true →
  query_pairs ("code=" +:+ code +:+ "&state=" +:+ state) = [("code", code); ("state", state)].
Proof.
  intros Hc Hs.
  assert (∀ k v, k ≠ "" → all_bytes unreserved k = true → all_bytes unreserved v = true →
    no_byte "&" (k +:+ String "=" v) = true ∧ query_pair (k +:+ String "=" v) = Some (k, v)) as Hpair.
  { intros k v Hne Hk Hv. split; [by apply pair_no|].
    unfold query_pair. rewrite bool_decide_eq_false_2 by (by destruct k).
    rewrite (pair_no ";" k v) by done. unfold cut_at. rewrite Cut_app by (by apply unreserved_no). simpl. by rewrite !QueryUnescape_plain. }
  destruct (Hpair "code" code) as [H1 H2]; [done..|]. destruct (Hpair "state" state) as [H3 H4]; [done..|].
  unfold query_pairs. replace ("code=" +:+ code +:+ "&state=" +:+ state) with (("code" +:+ String "=" code) +:+ String "&" ("state" +:+ String "=" state))
    by (by rewrite str_app_assoc).
  rewrite split_byte_app, split_byte_plain by done. cbn [omap list_omap]. by rewrite H2, H4.
Qed.

Lemma callback_values code state : all_bytes unreserved code = true → all_bytes unreserved state = true →
  let raw := "code=" +:+ code +:+ "&state=" +:+ state in Get raw "error" = "" ∧ Get raw "code" = code ∧ Get raw "state" = state.
Proof.
  intros Hc Hs raw. pose proof (callback_query code state Hc Hs) as Hraw. fold raw in Hraw. unfold Get. rewrite Hraw. clear. by vm_compute.
Qed.

(** ** The gateway against this provider *)

Definition answer_json (accessToken refreshToken : string) : json :=
  JObj [("access_token", JStr accessToken); ("expires_in", JNum "3600"); ("refresh_token", JStr refreshToken);
        ("scope", JStr "read write"); ("token_type", JStr "Bearer")].

Lemma token_answer_text a r : token_answer a r = json_body 200 (answer_json a r).
Proof. unfold token_answer, answer_json. do 3 f_equal. Qed.

Lemma parse_line j : document j → parse (encode j +:+ newline) = Some j.
Proof. intros Hj. unfold parse. by rewrite read_encoded. Qed.

(** The gateway reads a token answer as it was meant. *)
Lemma post_grant_answer url form m m' a r :
  mock_endpoint url form m = (m', Ok (token_answer a r)) →
  valid_utf8 a = true → valid_utf8 r = true → (N.of_nat (String.length (encode (answer_json a r) +:+ newline)) < 1048576)%N →
  post_grant url form m = (m', Ok (MkTokenResponse a "Bearer" 3600 r "read write")).
Proof.
  intros Hp Ha Hr Hl. unfold post_grant, PostForm. rewrite Hp, token_answer_text. cbn [json_body respBody StatusCode].
  unfold OIDC.limited_body. cbn [stream_data stream_err]. rewrite (proj2 (N.leb_gt _ _) Hl). cbn [Z.eqb Pos.eqb negb].
  rewrite parse_line; [done|]. unfold document, answer_json. cbn [numbers_ok strings_ok forallb snd fst nesting foldr]. rewrite Ha, Hr.
  by split_and!; vm_compute.
Qed.

(** The token of the mock's user. *)
Definition mock_token (arrival : Z) : OAuthToken :=
  MkOAuthToken ("mock-token-" +:+ mock_user) (refresh_prefix +:+ mock_user) "Bearer" (Some (arrival + 3600 * Duration.Second)) "read write".

Lemma exchange_mock now pi code v h (m : mock) pc :
  codes m !! code = Some pc → clock m - pc_createdAt pc ≤ 5 * Duration.Minute →
  pc_codeVerifier pc = computeCodeChallenge sha256 v → pc_user pc = mock_user →
  exchangeCode now pi code v h m = (MkMock (delete code (codes m)) (clock m), Ok (mock_token now)).
Proof.
  intros Hc Ht Hv Hu. unfold exchangeCode.
  rewrite (post_grant_answer _ _ _ (MkMock (delete code (codes m)) (clock m)) ("mock-token-" +:+ mock_user) (refresh_prefix +:+ mock_user)).
  - done.
  - unfold mock_endpoint. set (f := λ k, default "" (code_form pi code v h !! k)).
    change (handleToken (clock m) "POST" f (codes m)) with (handleAuthCodeExchange (clock m) f (codes m)).
    unfold handleAuthCodeExchange. change (f "code") with code. change (f "code_verifier") with v. cbv zeta. rewrite Hc, Hu, (proj2 (Z.ltb_ge _ _) Ht), Hv.
    rewrite (bool_decide_eq_true_2 (Encoding.EncodeToString (sha256 v) = computeCodeChallenge sha256 v)) by reflexivity. cbn [negb]. by rewrite andb_false_r.
  - by vm_compute.
  - by vm_compute.
  - by vm_compute.
Qed.

(** A code that is not there: nothing changes, and the exchange fails. *)
Lemma exchange_used now pi code v h (m : mock) : codes m !! code = None → ∃ e, exchangeCode now pi code v h m = (m, Err e).
Proof.
  intros Hc. unfold exchangeCode, post_grant, PostForm.
  assert (mock_endpoint (tokenURL (pi_config pi)) (code_form pi code v h) m =
    (m, Ok (token_error "invalid_grant" "authorization code not found or already used"))) as ->.
  { unfold mock_endpoint. set (f := λ k, default "" (code_form pi code v h !! k)).
    change (handleToken (clock m) "POST" f (codes m)) with (handleAuthCodeExchange (clock m) f (codes m)).
    unfold handleAuthCodeExchange. change (f "code") with code. rewrite Hc. by destruct m. }
  destruct (OIDC.limited_body _); by eexists.
Qed.

(** What the provider does with the redirect of the gateway. *)
Lemma authorize_redirect now random query pi st ch h cs :
  (∀ k, k ≠ "auto" → query k = default "" (auth_params pi st ch h !! k)) → pi_clientID pi ≠ "" → st ≠ "" →
  let code := Encoding.hex_EncodeToString random in
  (handleAuthorize now random query cs).1 = <[code := MkPending code (redirectURI h) ch mock_user now]> cs ∧
  leads_to (handleAuthorize now random query cs).2 = Some (redirectURI h +:+ "?code=" +:+ code +:+ "&state=" +:+ st).
Proof.
  intros Hq Hid Hst code. unfold handleAuthorize.
  assert (∀ k, k ≠ "auto" → k ≠ "scope" → query k = default "" (base_params pi st ch h !! k)) as Hb.
  { intros k Ha Hs. rewrite Hq by done. by rewrite auth_params_lookup. }
  rewrite (Hb "client_id"), (Hb "redirect_uri"), (Hb "state"), (Hb "code_challenge"), (Hb "code_challenge_method") by done. change (base_params pi st ch h !! "client_id") with (Some (pi_clientID pi)).
  change (base_params pi st ch h !! "redirect_uri") with (Some (redirectURI h)). change (base_params pi st ch h !! "state") with (Some st).
  change (base_params pi st ch h !! "code_challenge") with (Some ch). change (base_params pi st ch h !! "code_challenge_method") with (Some "S256").
  cbn [default from_option id]. rewrite (bool_decide_eq_false_2 (pi_clientID pi = "")), (bool_decide_eq_false_2 (redirectURI h = "")),
    (bool_decide_eq_false_2 (st = "")), (bool_decide_eq_true_2 ("S256" = "S256")) by (done || by unfold redirectURI; destruct (baseURL h)).
  cbn [orb negb]. rewrite andb_false_r. cbv zeta. split; [done|]. by destruct (bool_decide _).
Qed.
End token.

(** The connection flow against this provider: a caller that the gateway redirects
    to it comes back with a code, and the callback stores the tokens of the
    provider's user; the code is then used up. *)
Lemma mock_connect_flow `{JWT} hmac sha256 Quote now rnd ctx p tok h url params c query random t1 cs env db t2 :
  let _ := mock_endpoint sha256 Quote in
  handleConnect hmac sha256 now (Some rnd) ctx p tok h = RedirectTo url params → connect_caller hmac now ctx tok h = Ok c →
  valid_utf8 c = true → valid_utf8 p = true → rnd ≠ "" → random ≠ "" → p ≠ "" → all_bytes unreserved (default "" (params !! "state")) = true →
  (∀ k, k ≠ "auto" → query k = default "" (params !! k)) →
  check_now env < Unix (now + stateExpiry) * Duration.Second → t2 - t1 ≤ 5 * Duration.Minute → store_fault env = false →
  let '(cs1, reply) := handleAuthorize t1 random query cs in
  ∃ raw, leads_to reply = Some (redirectURI h +:+ "?" +:+ raw) ∧
    let '(db', m, page) := handleCallback env (Get raw) h db (MkMock cs1 t2) in
    db' = <[(c, p) := mock_token (arrival_now env)]> db ∧ page = Page 200 ("Connected: " +:+ p) ∧
    ∃ m' e, handleCallback env (Get raw) h db' m = (db', m', Page 502 e).
Proof.
  intros mock_net Hc Hcaller Uc Up Hrnd Hran Hp Hsafe Hq Ht1 Ht2 Hf. subst mock_net.
  destruct (connect_redirect _ _ _ _ _ _ _ _ _ _ _ Hc Hcaller) as (Hce & pi & Epi & Hid & -> & ->).
  set (v := Encoding.EncodeToString rnd) in *. set (st := signState now c p v h) in *.
  rewrite auth_params_lookup in Hsafe by done. change (all_bytes unreserved st = true) in Hsafe.
  destruct (authorize_redirect t1 random query pi st (computeCodeChallenge sha256 v) h cs Hq Hid (jwt_not_empty _ _)) as [Hcs Hl].
  destruct (handleAuthorize t1 random query cs) as [cs1 reply]. cbn [fst snd] in Hcs, Hl. set (code := Encoding.hex_EncodeToString random) in *.
  exists ("code=" +:+ code +:+ "&state=" +:+ st). split; [by rewrite Hl|].
  set (raw := "code=" +:+ code +:+ "&state=" +:+ st).
  destruct (callback_values code st (hex_unreserved random) Hsafe) as (Ge & Gc & Gs). fold raw in Ge, Gc, Gs.
  assert (code ≠ "") as Hcode by (by destruct random as [|[]]).
  pose proof (encode_not_empty rnd Hrnd) as Hv. pose proof (verifier_valid rnd) as Uv.
  rewrite (callback_signed now c p v h env (Get raw) pi) by (rewrite ?Gc, ?Gs; done). rewrite Gc.
  rewrite (exchange_mock sha256 Quote _ _ _ _ _ _ (MkPending code (redirectURI h) (computeCodeChallenge sha256 v) mock_user t1))
    by (rewrite ?Hcs; done || apply lookup_insert_eq).
  unfold StoreToken. rewrite Hf. split_and!; [done|done|].
  rewrite (callback_signed now c p v h env (Get raw) pi) by (rewrite ?Gc, ?Gs; done). rewrite Gc.
  destruct (exchange_used sha256 Quote (arrival_now env) pi code v h (MkMock (delete code cs1) t2)) as [e He]; [apply lookup_delete_eq|].
  cbn [codes clock]. rewrite He. eauto.
Qed.

(** The tokens of the provider are given for a pending code of at most five
    minutes, once, and, where a verifier is sent, for the verifier of the
    challenge. *)
Theorem code_exchange_guarded sha256 now form cs :
  let '(cs', resp) := handleAuthCodeExchange sha256 now form cs in
  cs' !! form "code" = None ∧
  (StatusCode resp = 200 ↔ ∃ pc, cs !! form "code" = Some pc ∧ now - pc_createdAt pc ≤ 5 * Duration.Minute ∧
    (pc_codeVerifier pc = "" ∨ form "code_verifier" = "" ∨ computeCodeChallenge sha256 (form "code_verifier") = pc_codeVerifier pc)).
Proof.
  unfold handleAuthCodeExchange, computeCodeChallenge. destruct (cs !! form "code") as [pc|] eqn:Hc; [|split; [done|]; naive_solver].
  split; [apply lookup_delete_eq|]. destruct (Z.ltb_spec (5 * Duration.Minute) (now - pc_createdAt pc)).
  - split; [done|]. intros (pc' & [= <-] & Ht & _). lia.
  - repeat case_bool_decide; cbn [andb negb]; (split; [intros _; exists pc; by auto|naive_solver]) || (split; [done|naive_solver]).
Qed.

(** An exchange without a verifier is not refused, although the code was asked
    for with a challenge. *)
Theorem pkce_skipped sha256 now form cs pc :
  cs !! form "code" = Some pc → pc_codeVerifier pc ≠ "" → now - pc_createdAt pc ≤ 5 * Duration.Minute → form "code_verifier" = "" →
  (handleAuthCodeExchange sha256 now form cs).2 = token_answer ("mock-token-" +:+ pc_user pc) ("mock-refresh-" +:+ pc_user pc).
Proof.
  intros Hc Hv Ht Hf. unfold handleAuthCodeExchange. rewrite Hc, Hf, (proj2 (Z.ltb_ge _ _) Ht). cbn [snd].
  rewrite (bool_decide_eq_true_2 ("" = "")) by done. cbn [negb]. by rewrite andb_false_r.
Qed.

(** The refresh of a token of this provider, by the gateway: the access token of
    the same user, and the same refresh token. *)
Theorem mock_refresh sha256 Quote now r p pr user cid secret m :
  let _ := mock_endpoint sha256 Quote in
  rf_providers r !! p = Some pr → rf_secrets r !! p = Some (cid, secret) → cid ≠ "" → secret ≠ "" → user ≠ "" → valid_utf8 user = true →
  (N.of_nat (String.length (encode (answer_json ("mock-token-" +:+ user) (refresh_prefix +:+ user)) +:+ newline)) < 1048576)%N →
  Refresher_Refresh now r p (refresh_prefix +:+ user) m =
    (m, Ok (MkOAuthToken ("mock-token-" +:+ user) (refresh_prefix +:+ user) "Bearer" (Some (now + 3600 * Duration.Second)) "read write")).
Proof.
  intros mock_net Hp Hs Hc Hse Hu Hval Hl. subst mock_net. unfold Refresher_Refresh. rewrite Hp, Hs. cbn [default from_option id].
  rewrite !bool_decide_eq_false_2 by done. cbn [orb].
  rewrite (post_grant_answer sha256 Quote _ _ _ m ("mock-token-" +:+ user) (refresh_prefix +:+ user)); [done|..|done].
  - unfold mock_endpoint. set (f := λ k, default "" (refresh_form (refresh_prefix +:+ user) cid secret !! k)).
    change (handleToken sha256 Quote (clock m) "POST" f (codes m)) with (codes m, handleRefreshToken f).
    unfold handleRefreshToken. change (f "refresh_token") with (refresh_prefix +:+ user). rewrite bool_decide_eq_false_2 by done.
    destruct user as [|x user]; [done|]. by destruct m.
  - by rewrite valid_app.
  - by rewrite valid_app.
Qed.
End Provider.

(** ** The MCP servers *)

Module Upstream.
Section upstream.
(** How [encoding/json] and [%g] write a [float64]. *)
Variables FormatJSON FormatG : spec_float → string.

(** A value that is read into an [any] and written again: numbers become
    [float64], objects become maps. [None]: a number is out of range. *)
Fixpoint any_json (j : json) : option json :=
  match j with
  | JNum n => f ← Float64.ParseFloat n; Some (JNum (FormatJSON f))
  | JArr l =>
      JArr <$> (fix go (l : list json) := match l with [] => Some [] | j :: l => j ← any_json j; l ← go l; Some (j :: l) end) l
  | JObj l =>
      l ← (fix go (l : list (string * json)) :=
             match l with [] => Some [] | (k, j) :: l => j ← any_json j; l ← go l; Some ((k, j) :: l) end) l;
      Some (marshal_map (obj_map l))
  | j => Some j
  end.

(** The struct that the servers read a message into. *)
Record message := MkMessage { msg_method : string; msg_params : option json; msg_id : json }.

(** With the first error reported. *)
Definition read_message (j : json) : option message :=
  match j with
  | JNull => Some (MkMessage "" None JNull)
  | JObj l =>
      _ ← decode_all as_string "" (field_values "jsonrpc" l);
      m ← decode_all as_string "" (field_values "method" l);
      id ← decode_all (λ _, any_json) JNull (field_values "id" l);
      Some (MkMessage m (last (field_values "params" l)) id)
  | _ => None
  end.

(** With the error ignored: what cannot be read into a field is skipped. *)
Definition skip_errors {A} (f : A → json → option A) (old : A) (l : list json) : A := foldl (λ a j, default a (f a j)) old l.

Definition read_message_anyway (j : option json) : message :=
  match j with
  | Some (JObj l) =>
      MkMessage (skip_errors as_string "" (field_values "method" l)) (last (field_values "params" l))
        (skip_errors (λ _, any_json) JNull (field_values "id" l))
  | _ => MkMessage "" None JNull
  end.

(** A field of a struct that is read with the error ignored. *)
Definition field_anyway {A} (f : A → json → option A) (old : A) (name : string) (j : option json) : A :=
  match j with Some (JObj l) => skip_errors f old (field_values name l) | _ => old end.

Definition ok_json (text : string) : HTTPResponse :=
  MkHTTPResponse 200 {["Content-Type" := "application/json"]} (MkStream text None).

Definition marshal (v : json) : string := encode v.

(** *** [mock-oauth-upstream.go] *)

(** [auth] is the Authorization header, [body] the bytes ([None]: they cannot be
    read). *)
Definition oauth_upstream (auth : string) (body : option string) : HTTPResponse :=
  match body with
  | None => http_error 400 "bad request"
  | Some body =>
      match parse body ≫= read_message with
      | None => http_error 400 "bad json"
      | Some msg =>
          if bool_decide (msg_method msg = "initialize") then
            ok_json (dq "{'jsonrpc':'2.0','result':{'protocolVersion':'2025-11-25','capabilities':{'tools':{}},'serverInfo':{'name':'mock-oauth-upstream','version':'0.1.0'}},'id':" +:+ marshal (msg_id msg) +:+ "}")
          else if bool_decide (msg_method msg = "tools/list") then
            ok_json (dq "{'jsonrpc':'2.0','result':{'tools':[{'name':'whoami','description':'Returns the Authorization header received by the upstream','inputSchema':{'type':'object','properties':{}}}]},'id':" +:+ marshal (msg_id msg) +:+ "}")
          else if bool_decide (msg_method msg = "tools/call") then
            let name := field_anyway as_string "" "name" (msg_params msg) in
            if bool_decide (name = "whoami") then
              let text := if bool_decide (auth = "") then "(no Authorization header)" else auth in
              ok_json (dq "{'jsonrpc':'2.0','result':{'content':[{'type':'text','text':" +:+ quote text +:+ dq "}]},'id':" +:+ marshal (msg_id msg) +:+ "}")
            else
              ok_json (dq "{'jsonrpc':'2.0','error':{'code':-32602,'message':'unknown tool: " +:+ name +:+ dq "'},'id':" +:+ marshal (msg_id msg) +:+ "}")
          else
            ok_json (dq "{'jsonrpc':'2.0','error':{'code':-32601,'message':'method not found'},'id':" +:+ marshal (msg_id msg) +:+ "}")
      end
  end.

(** *** [fake-upstream.go] *)

Definition as_float (old : spec_float) (j : json) : option spec_float :=
  match j with JNum n => Float64.ParseFloat n | JNull => Some old | _ => None end.

Definition fake_call (name : string) (arguments : option json) (id : json) : HTTPResponse :=
  if bool_decide (name = "echo") then
    ok_json (dq "{'jsonrpc':'2.0','result':{'content':[{'type':'text','text':'Echo: " +:+ field_anyway as_string "" "message" arguments +:+ dq "'}]},'id':" +:+ marshal id +:+ "}")
  else if bool_decide (name = "add") then
    let sum := Float64.add (field_anyway as_float Float64.zero "a" arguments) (field_anyway as_float Float64.zero "b" arguments) in
    ok_json (dq "{'jsonrpc':'2.0','result':{'content':[{'type':'text','text':'Result: " +:+ FormatG sum +:+ dq "'}]},'id':" +:+ marshal id +:+ "}")
  else
    ok_json (dq "{'jsonrpc':'2.0','error':{'code':-32602,'message':'unknown tool: " +:+ name +:+ dq "'},'id':" +:+ marshal id +:+ "}").

Definition fake_upstream (body : option string) : HTTPResponse :=
  match body with
  | None => http_error 400 "bad request"
  | Some body =>
      match parse body ≫= read_message with
      | None => http_error 400 "bad json"
      | Some msg =>
          if bool_decide (msg_method msg = "initialize") then
            ok_json (dq "{'jsonrpc':'2.0','result':{'protocolVersion':'2025-11-25','capabilities':{'tools':{}},'serverInfo':{'name':'fake-upstream','version':'0.1.0'}},'id':" +:+ marshal (msg_id msg) +:+ "}")
          else if bool_decide (msg_method msg = "tools/list") then
            ok_json (dq "{'jsonrpc':'2.0','result':{'tools':[{'name':'echo','description':'Echoes back the input','inputSchema':{'type':'object','properties':{'message':{'type':'string'}},'required':['message']}},{'name':'add','description':'Adds two numbers','inputSchema':{'type':'object','properties':{'a':{'type':'number'},'b':{'type':'number'}},'required':['a','b']}}]},'id':" +:+ marshal (msg_id msg) +:+ "}")
          else if bool_decide (msg_method msg = "tools/call") then
            fake_call (field_anyway as_string "" "name" (msg_params msg))
              (match msg_params msg with Some (JObj l) => last (field_values "arguments" l) | _ => None end) (msg_id msg)
          else
            ok_json (dq "{'jsonrpc':'2.0','error':{'code':-32601,'message':'method not found'},'id':" +:+ marshal (msg_id msg) +:+ "}")
      end
  end.

(** *** [mock-sse-server.go] *)

Definition loremSentences : list string :=
  ["Lorem ipsum dolor sit amet, consectetur adipiscing elit.";
   "Sed do eiusmod tempor incididunt ut labore et dolore magna aliqua.";
   "Ut enim ad minim veniam, quis nostrud exercitation ullamco laboris.";
   "Duis aute irure dolor in reprehenderit in voluptate velit esse cillum.";
   "Excepteur sint occaecat cupidatat non proident, sunt in culpa qui officia.";
   "Nemo enim ipsam voluptatem quia voluptas sit aspernatur aut odit aut fugit.";
   "Neque porro quisquam est, qui dolorem ipsum quia dolor sit amet.";
   "Ut enim ad minima veniam, quis nostrum exercitationem ullam corporis."].

Definition any_map (l : list (string * json)) : json := marshal_map (list_to_map l).

Definition sse_writeJSON (id result : json) : HTTPResponse :=
  json_body 200 (any_map [("jsonrpc", JStr "2.0"); ("result", result); ("id", id)]).

(** One event, as it is written: [event: message], the data, an empty line. *)
Definition sse_event (j : json) : string := "event: message" +:+ newline +:+ "data: " +:+ encode j +:+ newline +:+ newline.

Definition progress_json (i : nat) (sentence : string) : json :=
  any_map [("jsonrpc", JStr "2.0"); ("method", JStr "notifications/progress");
           ("params", any_map [("progress", jint (Z.of_nat i + 1)); ("total", jint (Z.of_nat (length loremSentences)));
                               ("message", JStr sentence)])].

Definition final_json (id : json) (fullText : string) : json :=
  any_map [("jsonrpc", JStr "2.0"); ("result", any_map [("content", JArr [any_map [("type", JStr "text"); ("text", JStr fullText)]])]);
           ("id", id)].

(** The bytes of the whole stream; [flusher]: the writer can flush. *)
Definition streamSSE (flusher : bool) (id : json) : HTTPResponse :=
  if negb flusher then http_error 500 "streaming not supported"
  else
    let events := imap (λ i sentence, sse_event (progress_json i sentence)) loremSentences in
    MkHTTPResponse 200 (list_to_map [("Content-Type", "text/event-stream"); ("Cache-Control", "no-cache"); ("Connection", "keep-alive")])
      (MkStream (concat_map (λ e, e) events +:+ sse_event (final_json id (Join loremSentences " "))) None).

Definition handleMCP (flusher : bool) (body : string) : HTTPResponse :=
  let req := read_message_anyway (parse body) in
  if bool_decide (msg_method req = "initialize") then
    sse_writeJSON (msg_id req) (any_map [("protocolVersion", JStr "2025-11-25"); ("capabilities", any_map [("tools", any_map [])]);
      ("serverInfo", any_map [("name", JStr "mock-sse"); ("version", JStr "0.1.0")])])
  else if bool_decide (msg_method req = "tools/list") then
    sse_writeJSON (msg_id req) (any_map [("tools", JArr [any_map
      [("name", JStr "lorem_stream"); ("description", JStr "Streams lorem ipsum text slowly via SSE");
       ("inputSchema", any_map [("type", JStr "object"); ("properties", any_map [])])]])])
  else if bool_decide (msg_method req = "tools/call") then streamSSE flusher (msg_id req)
  else sse_writeJSON (msg_id req) (any_map []).

(** *** The gateway's HTTP transport in front of a server *)

(** An identifier that comes back as it was sent: no number that a [float64]
    changes. *)
Definition id_kept (r : Request) : Prop := any_json (marshalID (RequestID r)) = Some (marshalID (RequestID r)).

Lemma request_fields v m p i :
  let l := [("jsonrpc", v); ("method", m)] ++ member "params" p ++ member "id" i in
  field_values "jsonrpc" l = [v] ∧ field_values "method" l = [m] ∧
  field_values "params" l = option_list p ∧ field_values "id" l = option_list i.
Proof. destruct p, i; vm_compute; by split_and!. Qed.

Lemma read_request r : wire_ok r → id_kept r →
  parse (encode (marshalRequest r)) = Some (marshalRequest r) ∧
  read_message (marshalRequest r) = Some (MkMessage (Method r) (Params r) (marshalID (RequestID r))) ∧
  read_message_anyway (Some (marshalRequest r)) = MkMessage (Method r) (Params r) (marshalID (RequestID r)).
Proof.
  intros Hw Hid. destruct (wire_document r Hw) as (H1 & H2 & H3).
  split; [apply parse_encode; split_and!; [done|done|lia]|].
  unfold read_message, read_message_anyway, marshalRequest.
  destruct (request_fields (JStr (JSONRPC r)) (JStr (Method r)) (Params r) match RequestID r with None => None | id => Some (marshalID id) end)
    as (-> & -> & -> & ->).
  unfold id_kept in Hid. destruct (RequestID r), (Params r); unfold skip_errors, decode_all; simpl; by rewrite ?Hid.
Qed.

#[local] Instance oauth_network : HTTPClient unit := {|
  request_error _ := None;
  Do req n := (n, Ok (oauth_upstream (default "" (reqHeaders req !! "Authorization")) (Some (encode (reqBody req)))));
|}.
#[local] Instance sse_network : HTTPClient bool := {|
  request_error _ := None;
  Do req n := (n, Ok (handleMCP n (encode (reqBody req))));
|}.

Definition text_result (text : string) : json := JObj [("content", JArr [JObj [("type", JStr "text"); ("text", JStr text)]])].

(** The document of a result that a server writes around a text. *)
Lemma text_result_document text id : valid_utf8 text = true → document id → (nesting id + 1 ≤ maxNestingDepth)%N →
  document (JObj [("jsonrpc", JStr "2.0"); ("result", text_result text); ("id", id)]).
Proof.
  intros Ht (H1 & H2 & _) Hd. unfold document, text_result. cbn [numbers_ok strings_ok forallb fst snd nesting foldr]. rewrite Ht, H1, H2.
  split_and!; [done|done|]. unfold maxNestingDepth in *. lia.
Qed.

Lemma id_document r : wire_ok r → document (marshalID (RequestID r)) ∧ (nesting (marshalID (RequestID r)) = 0)%N.
Proof.
  intros (_ & _ & Hid & _). unfold document. destruct (RequestID r) as [[x|n|]|]; unfold marshalID; cbn [numbers_ok strings_ok nesting]; [|..|done|done].
  - by rewrite Hid.
  - rewrite (bool_decide_eq_true_2 _ (FormatInt_number _)). done.
Qed.

Lemma whoami_text text id :
  dq "{'jsonrpc':'2.0','result':{'content':[{'type':'text','text':" +:+ quote text +:+ dq "}]},'id':" +:+ marshal id +:+ "}" =
  encode (JObj [("jsonrpc", JStr "2.0"); ("result", text_result text); ("id", id)]).
Proof.
  unfold text_result, marshal. cbn [encode map Join fst snd]. rewrite !str_app_assoc. reflexivity.
Qed.

Lemma unmarshal_result result id :
  Response_UnmarshalJSON (JObj [("jsonrpc", JStr "2.0"); ("result", result); ("id", id)]) =
    i ← parseID id; Some (MkResponse "2.0" (Some result) None (Some i)).
Proof.
  unfold Response_UnmarshalJSON. cbn [as_map mbind option_bind]. set (m := obj_map _).
  change (m !! "jsonrpc") with (Some (JStr "2.0")). change (m !! "error") with (None : option json). change (m !! "id") with (Some id).
  change (m !! "result") with (Some result). cbn. by destruct (parseID id).
Qed.

(** What the gateway's transport makes of a text result for its own request. *)
Lemma read_text_result r text : wire_ok r → valid_utf8 text = true →
  let body := encode (JObj [("jsonrpc", JStr "2.0"); ("result", text_result text); ("id", marshalID (RequestID r))]) in
  Z.of_nat (String.length body) ≤ maxResponseBody →
  readJSONBody (MkStream body None) = Ok (JSONResult (with_id (MkResponse Version (Some (text_result text)) None (RequestID r)))).
Proof.
  intros Hw Ht body Hl. destruct (id_document r Hw) as [Hd Hn]. unfold readJSONBody. cbn [stream_data stream_err].
  rewrite (proj2 (Z.ltb_ge _ _) Hl). unfold body.
  rewrite parse_encode by (apply text_result_document; [done|done|rewrite Hn; done]). cbn [mbind option_bind].
  rewrite unmarshal_result, parseID_marshal_with_id by apply Hw. done.
Qed.

Lemma whoami_answer r auth p : wire_ok r → id_kept r → Method r = "tools/call" → Params r = Some p →
  field_anyway as_string "" "name" (Some p) = "whoami" → auth ≠ "" →
  oauth_upstream auth (Some (encode (marshalRequest r))) =
    ok_json (encode (JObj [("jsonrpc", JStr "2.0"); ("result", text_result auth); ("id", marshalID (RequestID r))])).
Proof.
  intros Hw Hid Hm Hp Hn Ha. destruct (read_request r Hw Hid) as (Hparse & Hread & _).
  unfold oauth_upstream. rewrite Hparse. cbn [mbind option_bind]. rewrite Hread. cbn [msg_method msg_params msg_id]. rewrite Hm, Hp, Hn.
  rewrite (bool_decide_eq_false_2 (auth = "")) by done. rewrite whoami_text. reflexivity.
Qed.

(** The Authorization header that reaches an upstream is the token of the
    request's context: the server that echoes it shows exactly that token, on the
    identifier of the request. *)
Lemma whoami_roundtrip ctx r p (t : HTTPTransport unit) : UpstreamTokenFromContext ctx ≠ "" → valid_utf8 (UpstreamTokenFromContext ctx) = true →
  wire_ok r → id_kept r → Method r = "tools/call" → Params r = Some p → field_anyway as_string "" "name" (Some p) = "whoami" →
  let text := "Bearer " +:+ UpstreamTokenFromContext ctx in
  Z.of_nat (String.length (encode (JObj [("jsonrpc", JStr "2.0"); ("result", text_result text); ("id", marshalID (RequestID r))])))
    ≤ maxResponseBody →
  Send ctx t r = (recordSuccess t, Ok (with_id (MkResponse Version (Some (text_result text)) None (RequestID r)))).
Proof.
  intros Hne Hv Hw Hid Hm Hp Hn text Hl. unfold Send. cbn [RoundTrip HTTPTransport_Transport]. unfold HTTP_RoundTrip, request_error, Do, oauth_network.
  assert (outboundHeaders ctx t !! "Authorization" = Some text) as Hh
    by (unfold outboundHeaders; rewrite bool_decide_eq_false_2 by done; apply lookup_insert_eq).
  cbn [reqHeaders reqBody]. rewrite Hh. change (default "" (Some text)) with text. rewrite (whoami_answer r text p) by done.
  cbn [ok_json StatusCode respHeaders respBody]. rewrite lookup_singleton_eq. change (default "" (Some "application/json")) with "application/json".
  rewrite read_text_result by (done || by unfold text; rewrite valid_app). by destruct t.
Qed.

(** *** The stream of [mock-sse-server.go] through the gateway's reader *)

Definition lorem_result : json := any_map [("content", JArr [any_map [("type", JStr "text"); ("text", JStr (Join loremSentences " "))]])].

Definition source_of (j : json) : event_source := Source (Some "message") (encode j) [].

Definition stream_documents (i : json) : list json := imap progress_json loremSentences ++ [final_json i (Join loremSentences " ")].

Lemma unlines_events js : unlines (mjoin (source_lines <$> (source_of <$> js))) = concat_map sse_event js.
Proof.
  induction js as [|j js IH]; [done|]. rewrite !fmap_cons. cbn [concat_map foldr]. fold (concat_map sse_event js). rewrite <- IH.
  change (mjoin (source_lines (source_of j) :: ?l)) with (source_lines (source_of j) ++ mjoin l). unfold sse_event. by rewrite !str_app_assoc.
Qed.

Lemma concat_map_app {A} (f : A → string) l k : concat_map f (l ++ k) = concat_map f l +:+ concat_map f k.
Proof. induction l as [|x l IH]; [done|]. cbn [concat_map foldr app]. fold (concat_map f (l ++ k)) (concat_map f l). by rewrite IH, str_app_assoc. Qed.

Lemma concat_map_fmap {A} (f : A → string) l : concat_map (λ e, e) (f <$> l) = concat_map f l.
Proof. induction l as [|x l IH]; [done|]. rewrite fmap_cons. cbn [concat_map foldr]. by f_equal. Qed.

Lemma streamSSE_body i : respBody (streamSSE true i) = MkStream (unlines (mjoin (source_lines <$> (source_of <$> stream_documents i)))) None.
Proof.
  rewrite unlines_events. unfold streamSSE, stream_documents. cbn [negb respBody]. rewrite concat_map_app, <- (concat_map_fmap sse_event (imap _ _)), fmap_imap.
  cbn [concat_map foldr]. by rewrite str_app_nil_r.
Qed.

Lemma final_text i text : final_json i text =
  JObj [("id", i); ("jsonrpc", JStr "2.0"); ("result", JObj [("content", JArr [JObj [("text", JStr text); ("type", JStr "text")]])])].
Proof. by vm_compute. Qed.

Lemma id_graphic i : all_bytes graphic (encode (marshalID i)) = true.
Proof.
  destruct i as [[x|n|]|]; unfold marshalID; cbn [encode]; [apply quote_graphic| |done|done].
  eapply all_bytes_impl; [|apply Strconv.FormatInt_bytes]. intros [[] [] [] [] [] [] [] []]; by vm_compute.
Qed.

Lemma graphic_plain s : all_bytes graphic s = true → plain_line s = true.
Proof.
  intros Hs. unfold plain_line, no_byte. apply andb_true_iff. split; (eapply all_bytes_impl; [|exact Hs]);
    intros c Hc; rewrite bool_decide_eq_false_2; [done|by intros ->|done|by intros ->].
Qed.

Definition good_line (l : string) : Prop := plain_line l = true ∧ short_line l = true.

Lemma final_lines r : Z.of_nat (String.length (encode (marshalID (RequestID r)))) ≤ 1000000 →
  Forall good_line (source_lines (source_of (final_json (marshalID (RequestID r)) (Join loremSentences " ")))).
Proof.
  intros Hl. unfold source_lines, format_event, source_of. cbn [src_name src_data src_more fmap list_fmap app].
  apply Forall_cons. split; [by vm_compute|]. apply Forall_cons. split; [|apply Forall_cons; split; [by vm_compute|constructor]].
  set (i := marshalID (RequestID r)) in *. rewrite final_text.
  set (rest := dq ",'jsonrpc':'2.0','result':{'content':[{'text':'" +:+ Join loremSentences " " +:+ dq "','type':'text'}]}}").
  assert ("data: " +:+ encode (JObj [("id", i); ("jsonrpc", JStr "2.0"); ("result", JObj [("content", JArr [JObj [("text", JStr (Join loremSentences " ")); ("type", JStr "text")]])])])
    = dq "data: {'id':" +:+ encode i +:+ rest) as ->.
  { cbn [encode map Join fst snd]. rewrite !str_app_assoc. reflexivity. }
  split.
  - apply graphic_plain. rewrite !all_bytes_app. unfold i. rewrite id_graphic. by vm_compute.
  - unfold short_line. apply Z.ltb_lt. rewrite !str_length_app.
    assert (String.length rest ≤ 1000)%nat as Hrest by (apply (bool_decide_unpack _); by vm_compute). change (String.length (dq "data: {'id':")) with 12%nat. unfold max_line. lia.
Qed.

Lemma progress_lines : Forall good_line (mjoin (source_lines <$> (source_of <$> imap progress_json loremSentences))).
Proof. apply (bool_decide_unpack _). by vm_compute. Qed.

Lemma final_response r : wire_ok r →
  event_response (source_event (source_of (final_json (marshalID (RequestID r)) (Join loremSentences " ")))) =
    Some (with_id (MkResponse Version (Some lorem_result) None (RequestID r))).
Proof.
  intros Hw. unfold event_response, source_event, source_of. cbn [Event EventData src_name src_data src_more foldl default from_option id].
  rewrite bool_decide_eq_true_2 by done. cbn [orb].
  destruct (id_document r Hw) as [(H1 & H2 & _) Hn]. rewrite parse_encode.
  - rewrite final_text. unfold Response_UnmarshalJSON. cbn [as_map mbind option_bind]. set (m := obj_map _).
    change (m !! "jsonrpc") with (Some (JStr "2.0")). change (m !! "error") with (None : option json).
    change (m !! "id") with (Some (marshalID (RequestID r))). change (m !! "result") with (Some lorem_result).
    cbn -[parseID lorem_result]. rewrite parseID_marshal_with_id by apply Hw. done.
  - rewrite final_text. unfold document. cbn [numbers_ok strings_ok forallb nesting foldr fst snd]. rewrite H1, H2, Hn. by vm_compute.
Qed.

(** An upstream that streams: the mock server's notifications and its final
    answer go through the gateway's HTTP transport and event reader, and the
    result of the call is the server's last event, the whole text, under the
    identifier of the request. *)
Theorem sse_server_resolved ctx (t : HTTPTransport bool) r :
  client t = true → wire_ok r → id_kept r → Method r = "tools/call" →
  Z.of_nat (String.length (encode (marshalID (RequestID r)))) ≤ 1000000 →
  Send ctx t r = (recordSuccess t, Ok (with_id (MkResponse Version (Some lorem_result) None (RequestID r)))).
Proof.
  intros Ht Hw Hid Hm Hl. destruct (read_request r Hw Hid) as (Hparse & _ & Hread).
  assert (handleMCP true (encode (marshalRequest r)) = streamSSE true (marshalID (RequestID r))) as Hmcp.
  { unfold handleMCP. rewrite Hparse, Hread. cbn [msg_method msg_id]. by rewrite Hm. }
  unfold Send. cbn [RoundTrip HTTPTransport_Transport]. unfold HTTP_RoundTrip, request_error, Do, sse_network. cbn [reqBody]. rewrite Ht, Hmcp.
  change (StatusCode (streamSSE true ?i)) with 200. change (respHeaders (streamSSE true ?i) !! "Content-Type") with (Some "text/event-stream").
  cbn -[Resolve streamSSE recordSuccess set_client]. f_equal; [by destruct t; cbn in *; subst|].
  rewrite streamSSE_body, stream_resolves_to_last.
  - unfold stream_documents. rewrite !fmap_app, omap_app. cbn [fmap list_fmap omap list_omap]. by rewrite final_response, last_snoc.
  - apply Forall_fmap, Forall_forall. intros j Hj. split; [|constructor].
    apply elem_of_app in Hj as [Hj|Hj]; [apply elem_of_lookup_imap in Hj as (k & x & -> & _)|apply list_elem_of_singleton in Hj as ->]; done.
  - unfold stream_documents. rewrite !fmap_app, join_app. apply Forall_app. split; [apply progress_lines|].
    cbn [fmap list_fmap mjoin list_join]. rewrite app_nil_r. by apply final_lines.
Qed.

(** *** [fake-upstream.go] *)

(** A byte that the encoder leaves as it is. *)
Definition verbatim (c : ascii) : bool := between 0 127 c && bool_decide (escape_byte c = String c "").

Lemma quote_verbatim s : all_bytes verbatim s = true → quote s = quoted s.
Proof.
  intros Hs. unfold quote, quoted. do 2 f_equal. induction s as [|c s IH]; [done|]. cbn [all_bytes] in Hs.
  apply andb_true_iff in Hs as [[Hc He%bool_decide_eq_true]%andb_true_iff Hs].
  cbn [String.length runes utf8_len]. rewrite Hc. cbn [str_drop concat_map foldr String.substring]. fold (concat_map escape_rune (runes (String.length s) s)).
  rewrite IH by done. destruct s; cbn [String.substring escape_rune]; by rewrite He.
Qed.

(** A message without special characters comes back as the text that the server
    means to send. *)
Theorem fake_echo l m i : field_anyway as_string "" "message" (Some (JObj l)) = m → all_bytes verbatim m = true →
  document i → (nesting i + 1 ≤ maxNestingDepth)%N →
  parse (stream_data (respBody (fake_call "echo" (Some (JObj l)) i))) =
    Some (JObj [("jsonrpc", JStr "2.0"); ("result", text_result ("Echo: " +:+ m)); ("id", i)]).
Proof.
  intros Hm Hv Hd Hn. assert (all_bytes verbatim ("Echo: " +:+ m) = true) as Hv'.
  { rewrite all_bytes_app. apply andb_true_iff. split; [by vm_compute|done]. }
  rewrite <- (parse_encode (JObj [("jsonrpc", JStr "2.0"); ("result", text_result ("Echo: " +:+ m)); ("id", i)])).
  - f_equal. rewrite <- whoami_text, (quote_verbatim _ Hv'). unfold fake_call. rewrite Hm. unfold quoted. cbn [ok_json respBody stream_data].
    rewrite bool_decide_eq_true_2 by done. cbn [respBody stream_data ok_json]. by rewrite !str_app_cons, !str_app_assoc.
  - apply text_result_document; [|done|done]. apply ascii_valid. eapply all_bytes_impl; [|exact Hv']. by intros c [? _]%andb_true_iff.
Qed.

(** The message is put between the quotes as it is: with a quote in it, what is
    sent is not JSON. *)
Theorem fake_echo_not_json :
  parse (stream_data (respBody (fake_call "echo" (Some (JObj [("message", JStr (dq "say 'hi'"))])) (JNum "1")))) = None.
Proof. by vm_compute. Qed.
End upstream.
End Upstream.

(** C19: the OAuth flow of the end-to-end tests, from the connect link to the
    upstream: a caller that the gateway redirects to the provider comes back with a
    code; the callback, within five minutes, stores the provider's tokens for
    exactly this caller; calling it a second time changes nothing and is answered
    with an error. From then on, until 30 seconds before the hour is over, the
    gateway resolves that token for this caller, and the upstream that echoes its
    Authorization header shows exactly it, under the identifier of the request;
    another caller who has not connected is refused. The names of the caller and of
    the provider are UTF-8. *)
Theorem oauth_end_to_end `{JWT} hmac sha256 Quote FormatJSON
    now rnd ctx p tok h url params c query random t1 cs env db t2 rf up u env2 req pr (t : HTTPTransport unit) ctx2 :
  let _ := Provider.mock_endpoint sha256 Quote in let _ := Upstream.oauth_network FormatJSON in
  handleConnect hmac sha256 now (Some rnd) ctx p tok h = RedirectTo url params → connect_caller hmac now ctx tok h = Ok c →
  valid_utf8 c = true → valid_utf8 p = true → rnd ≠ "" → random ≠ "" → p ≠ "" → all_bytes unreserved (default "" (params !! "state")) = true →
  (∀ k, k ≠ "auto" → query k = default "" (params !! k)) →
  check_now env < Unix (now + stateExpiry) * Duration.Second → t2 - t1 ≤ 5 * Duration.Minute → store_fault env = false →
  up !! u = Some p → get_fault env2 = false → check_now env2 ≤ arrival_now env + 3570 * Duration.Second →
  wire_ok req → Upstream.id_kept FormatJSON req → Method req = "tools/call" → Params req = Some pr →
  Upstream.field_anyway as_string "" "name" (Some pr) = "whoami" → Z.of_nat (String.length (encode (marshalID (RequestID req)))) ≤ 1048576 →
  let '(cs1, reply) := Provider.handleAuthorize t1 random query cs in
  ∃ raw, Provider.leads_to reply = Some (redirectURI h +:+ "?" +:+ raw) ∧
    let '(db', m, page) := handleCallback env (Get raw) h db (Provider.MkMock cs1 t2) in
    page = Page 200 ("Connected: " +:+ p) ∧ (∀ k, k ≠ (c, p) → db' !! k = db !! k) ∧
    (∃ m' e, handleCallback env (Get raw) h db' m = (db', m', Page 502 e)) ∧
    let r := MkResolver db' rf up m in
    (∃ access, Resolver_ResolveToken env2 c u r = (r, Ok access) ∧
      Send (ContextWithUpstreamToken ctx2 access) t req =
        (recordSuccess t, Ok (with_id (MkResponse Version (Some (Upstream.text_result ("Bearer mock-token-" +:+ Provider.mock_user))) None (RequestID req))))) ∧
    ∀ c', c' ≠ c → db !! (c', p) = None → is_ok (Resolver_ResolveToken env2 c' u r).2 = false.
Proof.
  intros n1 n2 Hc Hcaller Uc Up Hrnd Hran Hp Hsafe Hq Ht1 Ht2 Hf Hu Hg He Hw Hid Hm Hpr Hn Hl. subst n1 n2.
  pose proof (Provider.mock_connect_flow hmac sha256 Quote now rnd ctx p tok h url params c query random t1 cs env db t2
    Hc Hcaller Uc Up Hrnd Hran Hp Hsafe Hq Ht1 Ht2 Hf) as Hflow.
  destruct (Provider.handleAuthorize t1 random query cs) as [cs1 reply]. destruct Hflow as (raw & Hl1 & Hflow). exists raw. split; [done|].
  destruct (handleCallback _ _ _ _ _) as [[db' m] page]. destruct Hflow as (-> & -> & Hused).
  split_and!; [done|intros k Hk; by rewrite lookup_insert_ne|done|intros r; split].
  - exists (AccessToken (Provider.mock_token (arrival_now env))). split.
    + unfold Resolver_ResolveToken, r. cbn [upstreamProvider tokens]. rewrite Hu. unfold GetToken. rewrite Hg, lookup_insert_eq.
      replace (Expired _ _) with false; [done|]. symmetry. apply Z.ltb_ge. cbn. unfold Duration.Second in *. lia.
    + apply (Upstream.whoami_roundtrip FormatJSON (ContextWithUpstreamToken ctx2 (AccessToken (Provider.mock_token (arrival_now env)))) req pr);
        [done|done|done|done|done|done|done|].
      rewrite <- Upstream.whoami_text, !str_length_app. unfold Upstream.marshal, maxResponseBody.
      repeat match goal with |- context [String.length (?f ?x)] =>
        lazymatch f with dq => idtac | quote => idtac end; let n := eval vm_compute in (String.length (f x)) in change (String.length (f x)) with n end.
      cbn [String.length]. lia.
  - intros c' Hne Hnone. unfold Resolver_ResolveToken, r. cbn [upstreamProvider tokens]. rewrite Hu. unfold GetToken. rewrite Hg, lookup_insert_ne by congruence.
    by rewrite Hnone.
Qed.

(** ** Runs *)

#[local] Existing Instance plain_jwt.

(** Integers, written exactly. *)
Definition integer_text (f : spec_float) : string := Strconv.FormatInt (default 0 (Float64.trunc f)).

Definition whoami_request : Request :=
  MkRequest "2.0" "tools/call" (Some (JObj [("name", JStr "whoami")])) (Some (IntID 1)).

Definition browser_query (k : string) : string :=
  default "" (auth_params (MkProviderInfo sample_provider "ID" "SECRET")
    (signState 0 "ann" "idp" (Encoding.EncodeToString "r") sample_oauth_handler)
    (computeCodeChallenge id (Encoding.EncodeToString "r")) sample_oauth_handler !! k).

Lemma oauth_end_to_end_witness :
  let _ := Upstream.oauth_network integer_text in
  ∃ access, Send (ContextWithUpstreamToken Background access) (MkHTTP "" "" tt 0 3 true) whoami_request =
    (MkHTTP "" "" tt 0 3 true, Ok (MkResponse Version (Some (Upstream.text_result "Bearer mock-token-alice@example.com")) None (Some (IntID 1)))).
Proof.
  pose proof (oauth_end_to_end toy_mac id id integer_text 0 "r" (as_caller reader) "idp" "" sample_oauth_handler "https://idp/auth"
    (auth_params (MkProviderInfo sample_provider "ID" "SECRET")
      (signState 0 "ann" "idp" (Encoding.EncodeToString "r") sample_oauth_handler)
      (computeCodeChallenge id (Encoding.EncodeToString "r")) sample_oauth_handler)
    "ann" browser_query "0123456789abcdef" 0 ∅ calm_env ∅ 0 (NewTokenRefresher id [sample_provider]) {["svc" := "idp"]} "svc" calm_env
    whoami_request (JObj [("name", JStr "whoami")]) (MkHTTP "" "" tt 0 3 true) Background) as Hflow.
  destruct (Provider.handleAuthorize 0 "0123456789abcdef" browser_query ∅) as [cs reply].
  destruct Hflow as (raw & _ & Hflow).
  - vm_compute. reflexivity.
  - reflexivity.
  - vm_compute. reflexivity.
  - vm_compute. reflexivity.
  - discriminate.
  - discriminate.
  - discriminate.
  - vm_compute. reflexivity.
  - intros k _. reflexivity.
  - vm_compute. reflexivity.
  - vm_compute. discriminate.
  - reflexivity.
  - reflexivity.
  - reflexivity.
  - vm_compute. discriminate.
  - repeat split; vm_compute; discriminate.
  - vm_compute. reflexivity.
  - reflexivity.
  - reflexivity.
  - vm_compute. reflexivity.
  - vm_compute. discriminate.
  - destruct (handleCallback calm_env (Get raw) sample_oauth_handler ∅ (Provider.MkMock cs 0)) as [[db' m] page].
    destruct Hflow as (_ & _ & _ & (access & _ & Hs) & _). exists access. exact Hs.
Defined.

Lemma sse_server_resolved_witness :
  let _ := Upstream.sse_network integer_text in
  Send Background (MkHTTP "" "" true 2 3 true) whoami_request =
    (MkHTTP "" "" true 0 3 true, Ok (MkResponse Version (Some Upstream.lorem_result) None (Some (IntID 1)))).
Proof.
  apply (Upstream.sse_server_resolved integer_text Background (MkHTTP "" "" true 2 3 true) whoami_request).
  - reflexivity.
  - repeat split; vm_compute; done || discriminate.
  - vm_compute. reflexivity.
  - reflexivity.
  - vm_compute. discriminate.
Defined.

Lemma fake_echo_witness :
  parse (stream_data (respBody (Upstream.fake_call integer_text "echo" (Some (JObj [("message", JStr "hi")])) (JNum "1")))) =
    Some (JObj [("jsonrpc", JStr "2.0"); ("result", Upstream.text_result "Echo: hi"); ("id", JNum "1")]).
Proof.
  apply (Upstream.fake_echo integer_text [("message", JStr "hi")] "hi" (JNum "1")); try (vm_compute; done || discriminate).
Defined.

(** Adding is in floating point. *)
Example fake_add :
  parse (stream_data (respBody (Upstream.fake_call integer_text "add" (Some (JObj [("a", JNum "2"); ("b", JNum "3e1")])) (JNum "1")))) =
    Some (JObj [("jsonrpc", JStr "2.0"); ("result", Upstream.text_result "Result: 32"); ("id", JNum "1")]).
Proof. vm_compute. reflexivity. Qed.
