(* ===== verification/Databases.v ===== *)
(** * Opening the databases ([internal/auth/store.go], [postgres.go],
    [tokenstore.go], [internal/audit/audit.go], [postgres.go])

    The constructors of the stores, on a catalog of tables with their columns and
    rows: the schemas, the destructive migration of the caller database, the added
    columns of the audit log, and on Postgres the advisory locks, which belong to a
    connection of the pool. Then the token stores of both back ends, which refine
    the map of [OAuth]. *)

From stdpp Require Import sorting.
From S2P Require Import Prelude GoLib ConfigData AuthStore OAuth AuditStore.
Import GoStr.

(** ** Catalogs *)

Module Catalog.

Record table := MkTable { t_columns : list string; t_rows : list (gmap string string) }.
Abbreviation catalog := (gmap string table).

(** A statement of a schema; an index changes no table. *)
Inductive ddl := CreateTable (name : string) (columns : list string) | CreateIndex (name : string).

(** [... IF NOT EXISTS] *)
Definition run_ddl (s : ddl) (cat : catalog) : catalog :=
  match s with
  | CreateTable name columns => match cat !! name with Some _ => cat | None => <[name := MkTable columns []]> cat end
  | CreateIndex _ => cat
  end.

(** [ALTER TABLE name ADD COLUMN col]: an error if it is there. *)
Definition with_column (col : string) (t : table) : table :=
  if bool_decide (col ∈ t_columns t) then t else MkTable (t_columns t ++ [col]) (t_rows t).
Definition add_column (name col : string) (cat : catalog) : catalog :=
  match cat !! name with Some t => <[name := with_column col t]> cat | None => cat end.

(** SQLite commits each statement of a script; [fault i] is a failure of the
    statement [i]. *)
Fixpoint run_script (fault : nat → bool) (i : nat) (l : list ddl) (cat : catalog) : catalog * bool :=
  match l with
  | [] => (cat, true)
  | s :: l => if fault i then (cat, false) else run_script fault (S i) l (run_ddl s cat)
  end.

(** ** SQLite *)

Definition schema : list ddl :=
  [CreateTable "callers" ["id"; "name"; "created_at"];
   CreateTable "api_keys" ["id"; "caller_id"; "key_hash"; "label"; "created_at"];
   CreateTable "caller_roles" ["caller_id"; "role"];
   CreateIndex "idx_api_keys_hash"].

(** An error of a query counts as no migration. *)
Definition needsFullMigration (fault : nat → bool) (cat : catalog) : bool :=
  if fault 0%nat || bool_decide (cat !! "api_keys" = None) then false
  else if fault 1%nat then false
  else bool_decide (cat !! "caller_roles" = None).

(** The loop that drops the old tables. *)
Fixpoint drop_tables (fault : nat → bool) (i : nat) (names : list string) (cat : catalog) : catalog * option string :=
  match names with
  | [] => (cat, None)
  | n :: names => if fault i then (cat, Some ("auth: drop old " +:+ n)) else drop_tables fault (S i) names (delete n cat)
  end.

Definition NewSQLiteStore (fault : nat → bool) (cat : catalog) : catalog * result string unit :=
  let '(cat, dropped) :=
    if needsFullMigration fault cat then drop_tables fault 2 ["api_keys"; "caller_roles"; "callers"] cat else (cat, None) in
  match dropped with
  | Some e => (cat, Err e)
  | None =>
      let '(cat, ok) := run_script fault 5 schema cat in
      (cat, if ok then Ok tt else Err "auth: run migrations")
  end.

Definition audit_schema : list ddl :=
  [CreateTable "audit_log" ["id"; "timestamp"; "caller"; "method"; "tool"; "upstream"; "params"; "status"; "latency_ms"; "trace_id"; "key_label"];
   CreateIndex "idx_audit_log_timestamp"; CreateIndex "idx_audit_log_caller"].

(** The errors of the two migrations are ignored. *)
Definition NewAuditSQLiteStore (fault : nat → bool) (cat : catalog) : catalog * result string unit :=
  let '(cat, ok) := run_script fault 0 audit_schema cat in
  if ok then
    let cat := if fault 3%nat then cat else add_column "audit_log" "trace_id" cat in
    (if fault 4%nat then cat else add_column "audit_log" "key_label" cat, Ok tt)
  else (cat, Err "run schema").

Definition tokenSchema : list ddl :=
  [CreateTable "user_oauth_tokens"
     ["user_name"; "provider"; "access_token"; "refresh_token"; "token_type"; "expiry"; "scopes"; "created_at"; "updated_at"]].

Definition NewSQLiteTokenStore (fault : nat → bool) (cat : catalog) : catalog * result string unit :=
  let '(cat, ok) := run_script fault 0 tokenSchema cat in (cat, if ok then Ok tt else Err "tokenstore: run migrations").

(** ** Postgres *)

(** The database of a server: its tables, and for each advisory lock the session
    that holds it, with how often. *)
Record server := MkDBServer { sv_catalog : catalog; sv_locks : gmap Z (nat * nat) }.

(** [Blocked]: the constructor waits for a lock that another session holds. *)
Inductive outcome := Opened | Failed (e : string) | Blocked.

(** Closing a pool ends its sessions, and releases their locks. *)
Definition end_sessions (sessions : list nat) (s : server) : server :=
  MkDBServer (sv_catalog s) (filter (λ kv, kv.2.1 ∉ sessions) (sv_locks s)).

(** [pg_advisory_lock]; [None]: it waits. *)
Definition advisory_lock (k : Z) (session : nat) (s : server) : option server :=
  match sv_locks s !! k with
  | None => Some (MkDBServer (sv_catalog s) (<[k := (session, 1%nat)]> (sv_locks s)))
  | Some (h, n) =>
      if decide (h = session) then Some (MkDBServer (sv_catalog s) (<[k := (session, S n)]> (sv_locks s))) else None
  end.

(** [pg_advisory_unlock] releases only a lock of its own session. *)
Definition advisory_unlock (k : Z) (session : nat) (s : server) : server :=
  MkDBServer (sv_catalog s)
    (match sv_locks s !! k with
     | Some (h, n) =>
         if decide (h = session) then
           match n with S (S n) => <[k := (session, S n)]> (sv_locks s) | _ => delete k (sv_locks s) end
         else sv_locks s
     | None => sv_locks s
     end).

(** The constructors of the three Postgres stores: the lock, the migration, the
    release. [conn i] is the connection that the pool hands to the statement [i].
    A script without arguments is one transaction. *)
Definition open_postgres (prefix : string) (lock : Z) (migrate : catalog → catalog) (conn : nat → nat) (fault : nat → bool)
    (s : server) : server * outcome :=
  let sessions := [conn 0; conn 1; conn 2; conn 3]%nat in
  if fault 0%nat then (end_sessions sessions s, Failed (prefix +:+ "ping postgres"))
  else if fault 1%nat then (end_sessions sessions s, Failed (prefix +:+ "acquire migration lock"))
  else match advisory_lock lock (conn 1%nat) s with
  | None => (s, Blocked)
  | Some s =>
      let s := if fault 2%nat then s else MkDBServer (migrate (sv_catalog s)) (sv_locks s) in
      let s := if fault 3%nat then s else advisory_unlock lock (conn 3%nat) s in
      if fault 2%nat then (end_sessions sessions s, Failed (prefix +:+ "run migrations")) else (s, Opened)
  end.

Definition run_all (l : list ddl) (cat : catalog) : catalog := foldl (flip run_ddl) cat l.

Definition NewPostgresStore := open_postgres "auth: " 42 (run_all schema).
Definition NewPostgresTokenStore := open_postgres "tokenstore: " 43 (run_all tokenSchema).

(** The errors of the two added columns are ignored. *)
Definition NewAuditPostgresStore (conn : nat → nat) (fault : nat → bool) : server → server * outcome :=
  open_postgres "audit: " 43
    (λ cat, let cat := run_all audit_schema cat in
            let cat := if fault 4%nat then cat else add_column "audit_log" "trace_id" cat in
            if fault 5%nat then cat else add_column "audit_log" "key_label" cat) conn fault.

(** On a pool that is there: no ping, and it is not closed after a failure. *)
Definition NewPostgresTokenStoreFromDB (conn : nat → nat) (fault : nat → bool) (s : server) : server * outcome :=
  if fault 1%nat then (s, Failed "tokenstore: acquire migration lock")
  else match advisory_lock 43 (conn 1%nat) s with
  | None => (s, Blocked)
  | Some s =>
      let s := if fault 2%nat then s else MkDBServer (run_all tokenSchema (sv_catalog s)) (sv_locks s) in
      let s := if fault 3%nat then s else advisory_unlock 43 (conn 3%nat) s in
      (s, if fault 2%nat then Failed "tokenstore: run migrations" else Opened)
  end.

(** ** Opening is safe to repeat *)

Definition auth_tables : list (string * list string) :=
  [("callers", ["id"; "name"; "created_at"]); ("api_keys", ["id"; "caller_id"; "key_hash"; "label"; "created_at"]);
   ("caller_roles", ["caller_id"; "role"])].

(** A database of before the roles got a table of their own. *)
Definition legacy (cat : catalog) : bool := bool_decide (is_Some (cat !! "api_keys")) && bool_decide (cat !! "caller_roles" = None).

Lemma needs_legacy cat : needsFullMigration (λ _, false) cat = legacy cat.
Proof.
  unfold needsFullMigration, legacy. simpl. by destruct (cat !! "api_keys").
Qed.

Lemma script_ok i l cat : run_script (λ _, false) i l cat = (run_all l cat, true).
Proof. revert i cat. induction l as [|s l IH]; intros i cat; [done|]. apply IH. Qed.

Definition empty_table (columns : list string) : table := MkTable columns [].

(** What is there stays, what is missing is made, and no other table is
    touched. *)
Lemma run_schema_lookup cat n :
  run_all schema cat !! n = match list_to_map (M := gmap string (list string)) auth_tables !! n with
    | Some cols => Some (default (empty_table cols) (cat !! n))
    | None => cat !! n
    end.
Proof.
  unfold run_all, schema. cbn [foldl flip run_ddl].
  assert (∀ m cols (c : catalog), match c !! m with Some _ => c | None => <[m := MkTable cols []]> c end !! n =
    if decide (m = n) then Some (default (empty_table cols) (c !! n)) else c !! n) as Hc.
  { intros m cols c. destruct (decide (m = n)) as [->|Hne]; [destruct (c !! n) eqn:E; [done|by rewrite lookup_insert_eq]|].
    destruct (c !! m); [done|by rewrite lookup_insert_ne]. }
  rewrite !Hc. unfold auth_tables. cbn [list_to_map foldr]. clear Hc.
  destruct (decide ("callers" = n)) as [<-|]; [reflexivity|].
  destruct (decide ("api_keys" = n)) as [<-|]; [reflexivity|].
  destruct (decide ("caller_roles" = n)) as [<-|]; [reflexivity|].
  simpl. by rewrite !lookup_insert_ne, lookup_empty by done.
Qed.

Lemma run_schema_fixed cat : (∀ n, n ∈ auth_tables.*1 → is_Some (cat !! n)) → run_all schema cat = cat.
Proof.
  intros Ht. unfold run_all, schema. cbn [foldl flip run_ddl].
  destruct (Ht "callers") as [t1 H1]; [set_solver|]. destruct (Ht "api_keys") as [t2 H2]; [set_solver|].
  destruct (Ht "caller_roles") as [t3 H3]; [set_solver|]. by rewrite H1, H2, H3.
Qed.

Lemma caller_database_opened_lemma cat :
  let '(cat', r) := NewSQLiteStore (λ _, false) cat in
  r = Ok tt ∧
  (∀ n cols, (n, cols) ∈ auth_tables →
    cat' !! n = Some (if legacy cat then empty_table cols else default (empty_table cols) (cat !! n))) ∧
  (∀ n, n ∉ auth_tables.*1 → cat' !! n = cat !! n) ∧
  NewSQLiteStore (λ _, false) cat' = (cat', Ok tt).
Proof.
  unfold NewSQLiteStore. rewrite needs_legacy.
  set (base := if legacy cat then delete "callers" (delete "caller_roles" (delete "api_keys" cat)) else cat).
  assert ((if legacy cat then drop_tables (λ _, false) 2 ["api_keys"; "caller_roles"; "callers"] cat else (cat, None)) = (base, None)) as ->
    by (unfold base; by destruct (legacy cat)).
  rewrite script_ok. split; [done|].
  assert (∀ n cols, (n, cols) ∈ auth_tables → run_all schema base !! n = Some (default (empty_table cols) (base !! n))) as Htab.
  { intros n cols Hin. rewrite run_schema_lookup.
    rewrite (elem_of_list_to_map_1 auth_tables n cols); [done|apply (bool_decide_unpack _); vm_compute; exact I|done]. }
  split_and!.
  - intros n cols Hin. rewrite (Htab n cols Hin). unfold base. destruct (legacy cat); [|done].
    unfold auth_tables in Hin. rewrite !elem_of_cons in Hin. destruct Hin as [[= -> ->]|[[= -> ->]|[[= -> ->]|[]%elem_of_nil]]].
    + by rewrite lookup_delete_eq.
    + rewrite !lookup_delete_ne by done. by rewrite lookup_delete_eq.
    + rewrite lookup_delete_ne by done. by rewrite lookup_delete_eq.
  - intros n Hn. rewrite run_schema_lookup. rewrite (not_elem_of_list_to_map_1 auth_tables n Hn). unfold base.
    destruct (legacy cat); [|done]. unfold auth_tables in Hn. csimpl in Hn. rewrite !lookup_delete_ne; [done|set_solver..].
  - assert (∀ n, n ∈ auth_tables.*1 → is_Some (run_all schema base !! n)) as Hall.
    { intros n ([m cols] & -> & Hin)%list_elem_of_fmap. exists (default (empty_table cols) (base !! m)). by apply Htab. }
    assert (legacy (run_all schema base) = false) as Hleg.
    { unfold legacy. destruct (Hall "caller_roles") as [t Ht]; [set_solver|]. rewrite Ht. by rewrite andb_false_r. }
    rewrite needs_legacy, Hleg. rewrite script_ok. by rewrite run_schema_fixed.
Qed.

(** What a script and the dropping of tables leave alone when they fail. *)
Lemma run_script_keeps f i l cat n t : cat !! n = Some t → (run_script f i l cat).1 !! n = Some t.
Proof.
  revert i cat. induction l as [|[m cols|x] l IH]; intros i cat Ht; simpl; [done|..]; destruct (f i); try done; apply IH; [|done].
  simpl. destruct (cat !! m) eqn:E; [done|]. rewrite lookup_insert_ne; congruence.
Qed.
Lemma run_script_done f i l cat : (run_script f i l cat).2 = true → (run_script f i l cat).1 = run_all l cat.
Proof. revert i cat. induction l as [|d l IH]; intros i cat; simpl; [done|]. destruct (f i); [done|]. apply IH. Qed.
Lemma run_script_other f i cat n : n ∉ auth_tables.*1 → (run_script f i schema cat).1 !! n = cat !! n.
Proof.
  unfold auth_tables, schema. csimpl. intros Hn. cbn [run_script run_ddl].
  assert (∀ m cols (c : catalog), m ≠ n → match c !! m with Some _ => c | None => <[m := MkTable cols []]> c end !! n = c !! n) as Hc.
  { intros m cols c Hm. destruct (c !! m); [done|by rewrite lookup_insert_ne]. }
  repeat (destruct (f _); [simpl; rewrite ?Hc by set_solver; done|]). simpl. by rewrite !Hc by set_solver.
Qed.
Lemma drop_tables_other f i names cat n : n ∉ names → (drop_tables f i names cat).1 !! n = cat !! n.
Proof.
  revert i cat. induction names as [|m names IH]; intros i cat Hn; simpl; [done|]. destruct (f i); [done|].
  rewrite IH by set_solver. rewrite lookup_delete_ne; [done|set_solver].
Qed.
Lemma needs_is_legacy f cat : legacy cat = false → needsFullMigration f cat = false.
Proof.
  unfold legacy, needsFullMigration. destruct (f 0%nat); [done|]. destruct (cat !! "api_keys"); simpl; [|done].
  intros ->. by destruct (f 1%nat).
Qed.

(** C28: opening the caller database of SQLite. Whatever statement fails, it leaves
    every table alone that is not of the schema, and unless the file has the older
    schema (which is recognised by a table of keys without a table of roles) it keeps
    every table as it is; if it succeeds, the three tables are there. If no statement
    fails, it succeeds: tables that are there keep their columns and all their rows,
    those of a file that is recognised as older are replaced by empty ones, and
    opening again changes nothing. (A file with an old table of callers but no keys,
    as a migration that failed leaves it, is not recognised: [half_migration_kept].) *)
Theorem caller_database_opened f cat :
  let '(cat', r) := NewSQLiteStore f cat in
  (∀ n, n ∉ auth_tables.*1 → cat' !! n = cat !! n) ∧
  (legacy cat = false → ∀ n t, cat !! n = Some t → cat' !! n = Some t) ∧
  (r = Ok tt → ∀ n, n ∈ auth_tables.*1 → is_Some (cat' !! n)) ∧
  let '(cat', r) := NewSQLiteStore (λ _, false) cat in
  r = Ok tt ∧
  (∀ n cols, (n, cols) ∈ auth_tables →
    cat' !! n = Some (if legacy cat then empty_table cols else default (empty_table cols) (cat !! n))) ∧
  NewSQLiteStore (λ _, false) cat' = (cat', Ok tt).
Proof.
  destruct (NewSQLiteStore f cat) as [cat1 r1] eqn:En. pose proof (caller_database_opened_lemma cat) as Ho.
  destruct (NewSQLiteStore (λ _, false) cat) as [cat2 r2]. destruct Ho as (Hr & Htab & _ & Hagain).
  split_and!; [..|done|done|done]; clear Hr Htab Hagain; revert En; unfold NewSQLiteStore.
  - set (names := ["api_keys"; "caller_roles"; "callers"]). intros En n Hn.
    assert ((if needsFullMigration f cat then drop_tables f 2 names cat else (cat, None)).1 !! n = cat !! n) as Hd.
    { destruct (needsFullMigration f cat); [|done]. apply drop_tables_other. unfold names, auth_tables in *. set_solver. }
    destruct (if needsFullMigration f cat then _ else _) as [c [e|]]; simpl in Hd; [by simplify_eq|].
    pose proof (run_script_other f 5 c n Hn) as Hs. destruct (run_script f 5 schema c) as [c' ok]. simplify_eq. simpl in Hs. congruence.
  - intros En Hl n t Ht. rewrite (needs_is_legacy f cat Hl) in En.
    pose proof (run_script_keeps f 5 schema cat n t Ht) as Hs. destruct (run_script f 5 schema cat). by simplify_eq.
  - destruct (if needsFullMigration f cat then _ else _) as [c [e|]]; [intros [= _ <-]; done|].
    pose proof (run_script_done f 5 schema c) as Hs. destruct (run_script f 5 schema c) as [c' []]; intros [= <- <-]; [|done].
    cbn [fst snd] in Hs. specialize (Hs eq_refl). subst c'. intros _ n ([m cols] & -> & Hin)%list_elem_of_fmap. rewrite run_schema_lookup.
    rewrite (elem_of_list_to_map_1 auth_tables m cols); [by eauto|apply (bool_decide_unpack _); vm_compute; exact I|done].
Qed.

(** The migration is not one transaction. If it fails after the old keys are
    dropped, the old table of callers stays: the next start sees no keys, takes the
    file for a fresh one, opens it, and keeps the old table with its old columns,
    which no later start migrates. *)
Theorem half_migration_kept f cat t :
  legacy cat = true → cat !! "callers" = Some t → (∀ i, (i < 4)%nat → f i = false) → f 4%nat = true →
  is_ok (NewSQLiteStore f cat).2 = false ∧
  let '(cat', r) := NewSQLiteStore (λ _, false) (NewSQLiteStore f cat).1 in
  r = Ok tt ∧ cat' !! "callers" = Some t ∧ NewSQLiteStore (λ _, false) cat' = (cat', Ok tt).
Proof.
  intros Hl Ht Hf H4. assert (needsFullMigration f cat = true) as Hn.
  { unfold needsFullMigration. rewrite !Hf by lia. unfold legacy in Hl. apply andb_true_iff in Hl as [[k Hk]%bool_decide_eq_true Hr].
    rewrite Hk. exact Hr. }
  assert (NewSQLiteStore f cat = (delete "caller_roles" (delete "api_keys" cat), Err "auth: drop old callers")) as ->.
  { unfold NewSQLiteStore. rewrite Hn. cbn [drop_tables]. rewrite !Hf by lia. by rewrite H4. }
  cbn [fst snd]. split; [done|].
  pose proof (caller_database_opened_lemma (delete "caller_roles" (delete "api_keys" cat))) as Ho.
  assert (legacy (delete "caller_roles" (delete "api_keys" cat)) = false) as Hlf.
  { unfold legacy. rewrite (lookup_delete_ne _ "caller_roles" "api_keys") by done. by rewrite lookup_delete_eq. }
  destruct (NewSQLiteStore _ _) as [cat' r]. destruct Ho as (-> & Htab & _ & Hagain). split_and!; [done| |done].
  rewrite (Htab "callers" ["id"; "name"; "created_at"]) by (unfold auth_tables; set_solver).
  rewrite Hlf, !lookup_delete_ne by done. by rewrite Ht.
Qed.

Lemma add_column_lookup name col cat n :
  add_column name col cat !! n = (if decide (name = n) then with_column col else id) <$> cat !! n.
Proof.
  unfold add_column. destruct (decide (name = n)) as [<-|Hne].
  - destruct (cat !! name) as [t|] eqn:E; simpl; [by rewrite lookup_insert_eq|by rewrite E].
  - rewrite option_fmap_id. destruct (cat !! name); [by rewrite lookup_insert_ne|done].
Qed.

(** [t'] is [t] with columns that it did not have. *)
Definition widened (t t' : table) : Prop :=
  t_rows t' = t_rows t ∧ ∃ extra, t_columns t' = t_columns t ++ extra ∧ ∀ c, c ∈ extra → c ∉ t_columns t.

Lemma widened_refl t : widened t t.
Proof. split; [done|]. exists []. split; [by rewrite app_nil_r|]. by intros c ?%elem_of_nil. Qed.

Lemma with_column_widened col t t' : widened t t' → widened t (with_column col t') ∧ col ∈ t_columns (with_column col t').
Proof.
  intros (Hr & extra & Hc & Hn). unfold with_column. case_bool_decide as Hin; [by split; [split; [|exists extra]|]|]. simpl. split.
  - split; [done|]. exists (extra ++ [col]). simpl. rewrite Hc, app_assoc. split; [done|].
    intros c [Hx|Hx]%elem_of_app; [by apply Hn|]. apply list_elem_of_singleton in Hx as ->.
    intros Hx. apply Hin. rewrite Hc. apply elem_of_app. by left.
  - apply elem_of_app. right. by apply list_elem_of_singleton.
Qed.

Lemma with_column_keeps col c t : c ∈ t_columns t → c ∈ t_columns (with_column col t).
Proof. intros Hc. unfold with_column. case_bool_decide; [done|]. simpl. apply elem_of_app. by left. Qed.

(** The audit log of an older version gets the columns that are missing and
    keeps its rows, on either back end; what every entry is logged with is then
    there, and no other table is touched. *)
Theorem audit_log_migrated cat :
  let cat1 := (NewAuditSQLiteStore (λ _, false) cat).1 in
  let cat2 := add_column "audit_log" "key_label" (add_column "audit_log" "trace_id" (run_all audit_schema cat)) in
  cat1 = cat2 ∧
  (∀ n, n ≠ "audit_log" → cat1 !! n = cat !! n) ∧
  ∃ t, cat1 !! "audit_log" = Some t ∧ "trace_id" ∈ t_columns t ∧ "key_label" ∈ t_columns t ∧
    ∀ old, cat !! "audit_log" = Some old → widened old t.
Proof.
  cbv zeta. unfold NewAuditSQLiteStore. rewrite script_ok. cbn [fst]. split; [done|].
  set (base := run_all audit_schema cat).
  assert (∀ n, n ≠ "audit_log" → base !! n = cat !! n) as Hother.
  { intros n Hn. unfold base, run_all. cbn [foldl flip run_ddl audit_schema]. destruct (cat !! "audit_log"); [done|].
    by rewrite lookup_insert_ne. }
  assert (∃ b, base !! "audit_log" = Some b ∧ ∀ old, cat !! "audit_log" = Some old → b = old) as (b & Hb & Hold).
  { unfold base, run_all. cbn [foldl flip run_ddl audit_schema]. destruct (cat !! "audit_log") as [t|] eqn:E.
    - exists t. rewrite E. split; [done|]. by intros old [= ->].
    - eexists. rewrite lookup_insert_eq. by split. }
  split.
  - intros n Hn. rewrite !add_column_lookup, !decide_False, Hother by done. by rewrite !option_fmap_id.
  - rewrite !add_column_lookup, !decide_True, Hb by done. cbn [fmap option_fmap option_map]. eexists. split; [done|].
    destruct (with_column_widened "trace_id" b b (widened_refl b)) as [Hw1 Hc1].
    destruct (with_column_widened "key_label" b _ Hw1) as [Hw2 Hc2].
    split_and!; [by apply with_column_keeps|done|]. by intros old <-%Hold.
Qed.

(** ** Advisory locks *)

(** If the pool hands the same connection to the lock and to its release, the
    constructor leaves every lock as it found it, whether or not the migration
    succeeds. *)
Theorem migration_lock_released prefix lock migrate conn fault s :
  sv_locks s !! lock = None → conn 3%nat = conn 1%nat → fault 3%nat = false → fault 0%nat = false → fault 1%nat = false →
  (∀ k h, sv_locks s !! k = Some h → h.1 ∉ [conn 0; conn 1; conn 2; conn 3]%nat) →
  let '(s', o) := open_postgres prefix lock migrate conn fault s in
  sv_locks s' = sv_locks s ∧ o ≠ Blocked ∧
  sv_catalog s' = if fault 2%nat then sv_catalog s else migrate (sv_catalog s).
Proof.
  intros Hl Hc H3 H0 H1 Hown. unfold open_postgres. rewrite H0, H1, H3. unfold advisory_lock. rewrite Hl, Hc.
  assert (∀ cat, advisory_unlock lock (conn 1%nat) (MkDBServer cat (<[lock := (conn 1%nat, 1%nat)]> (sv_locks s))) = MkDBServer cat (sv_locks s)) as Hu.
  { intros cat. unfold advisory_unlock. simpl. rewrite lookup_insert_eq, decide_True by done. by rewrite delete_insert_id. }
  destruct (fault 2%nat); cbn [sv_catalog sv_locks]; rewrite Hu; [|done]. split_and!; [|done|done]. simpl.
  apply map_eq. intros k. apply option_eq. intros h. rewrite map_lookup_filter_Some. split; [tauto|]. intros Hk. split; [done|].
  rewrite Hc in Hown. by eapply Hown.
Qed.

(** If the pool hands them different connections, the release is refused and the
    lock stays with an idle connection: every other session that opens a store
    under the same lock waits. The audit store and the token store of one gateway
    have the same lock, so that the gateway waits for itself. *)
Theorem migration_lock_kept conn fault s s' conn' fault' :
  (∀ k, sv_locks s !! k = None) → conn 3%nat ≠ conn 1%nat → (∀ i, fault i = false) → (∀ i, fault' i = false) →
  NewAuditPostgresStore conn fault s = (s', Opened) → conn' 1%nat ≠ conn 1%nat →
  NewPostgresTokenStore conn' fault' s' = (s', Blocked).
Proof.
  intros Hl Hc Hf Hf' Ho Hne. unfold NewAuditPostgresStore, open_postgres, advisory_lock in Ho. rewrite !Hf, Hl in Ho.
  unfold advisory_unlock in Ho. simpl in Ho. rewrite lookup_insert_eq, decide_False in Ho by done. injection Ho as <-.
  unfold NewPostgresTokenStore, open_postgres, advisory_lock. rewrite !Hf'. simpl. rewrite lookup_insert_eq, decide_False by done. done.
Qed.

(** Both constructors of the Postgres token store do the same while nothing fails. *)
Lemma token_store_from_db conn fault s : fault 0%nat = false → fault 1%nat = false → fault 2%nat = false →
  NewPostgresTokenStoreFromDB conn fault s = NewPostgresTokenStore conn fault s.
Proof.
  intros H0 H1 H2. unfold NewPostgresTokenStoreFromDB, NewPostgresTokenStore, open_postgres. rewrite H0, H1, H2. by destruct (advisory_lock _ _ _).
Qed.
End Catalog.

(** ** Token stores *)

Module TokenStores.

(** The interface [TokenStore]. [now] is CURRENT_TIMESTAMP, [fault] a failure of
    the statement. *)
Class TokenStore (D : Type) := {
  store_token : bool → Z → string → string → OAuthToken → D → D * result store_error unit;
  get_token : bool → string → string → D → result store_error OAuthToken;
  delete_token : bool → string → string → D → D * result store_error unit;
  list_providers : bool → string → D → result store_error (list string);
}.

(** The map that the rest of the development works with. *)
#[global] Instance map_store : TokenStore TokenTable := {|
  store_token f _ := StoreToken f; get_token := GetToken; delete_token := DeleteToken; list_providers := ListProviders;
|}.

(** A row of [user_oauth_tokens]; the primary key is the user with the
    provider. *)
Record token_row := MkTokenRow {
  tr_user : string;
  tr_provider : string;
  tr_access : string;
  tr_refresh : string;
  tr_type : string;
  tr_expiry : option Z;
  tr_scopes : string;
  tr_created : Z;
  tr_updated : Z;
}.

Definition tr_key (r : token_row) : string * string := (tr_user r, tr_provider r).
Definition has_key (user provider : string) (r : token_row) : bool := bool_decide (tr_key r = (user, provider)).

(** The row that is inserted, or that replaces [old] on a conflict: the time of
    its creation is kept. *)
Definition row_of (now : Z) (user provider : string) (t : OAuthToken) (old : option token_row) : token_row :=
  MkTokenRow user provider (AccessToken t) (RefreshToken t) (TokenType t) (Expiry t) (Scopes t)
    (match old with Some r => tr_created r | None => now end) now.

(** [INSERT ... ON CONFLICT DO UPDATE] *)
Fixpoint upsert (now : Z) (user provider : string) (t : OAuthToken) (rows : list token_row) : list token_row :=
  match rows with
  | [] => [row_of now user provider t None]
  | r :: rows =>
      if has_key user provider r then row_of now user provider t (Some r) :: rows
      else r :: upsert now user provider t rows
  end.

(** [Scan] *)
Definition token_of (r : token_row) : OAuthToken :=
  MkOAuthToken (tr_access r) (tr_refresh r) (tr_type r) (tr_expiry r) (tr_scopes r).

Section rows.
(** How a back end stores a time and orders text: [at_rest] is what is left of a
    time, [sort] orders by the collation. *)
Variables (at_rest : Z → Z) (sort : list string → list string).

Definition rest_token (t : OAuthToken) : OAuthToken :=
  MkOAuthToken (AccessToken t) (RefreshToken t) (TokenType t) (at_rest <$> Expiry t) (Scopes t).

Definition rows_StoreToken (fault : bool) (now : Z) (user provider : string) (t : OAuthToken) (rows : list token_row) :
    list token_row * result store_error unit :=
  if fault then (rows, Err ErrDB) else (upsert now user provider (rest_token t) rows, Ok tt).

Definition rows_GetToken (fault : bool) (user provider : string) (rows : list token_row) : result store_error OAuthToken :=
  if fault then Err ErrDB
  else match List.find (has_key user provider) rows with Some r => Ok (token_of r) | None => Err ErrNotFound end.

Definition rows_DeleteToken (fault : bool) (user provider : string) (rows : list token_row) :
    list token_row * result store_error unit :=
  if fault then (rows, Err ErrDB)
  else
    let rest := filter (λ r, has_key user provider r = false) rows in
    (rest, if bool_decide (length rest = length rows) then Err ErrNotFound else Ok tt).

Definition rows_ListProviders (fault : bool) (user : string) (rows : list token_row) : result store_error (list string) :=
  if fault then Err ErrDB else Ok (sort (tr_provider <$> filter (λ r, tr_user r = user) rows)).

Definition rows_store : TokenStore (list token_row) := {|
  store_token := rows_StoreToken; get_token := rows_GetToken; delete_token := rows_DeleteToken; list_providers := rows_ListProviders;
|}.
End rows.

(** SQLite keeps a time as it is written and orders by the bytes. Postgres keeps
    microseconds, and orders by the collation of the database. *)
Class PGText := {
  pg_time : Z → Z;
  pg_sort : list string → list string;
  pg_time_law : ∀ t, t - 1000 < pg_time t ≤ t;
  pg_sort_law : ∀ l, pg_sort l ≡ₚ l;
}.

Definition SQLiteTokenStore : TokenStore (list token_row) := rows_store (λ t, t) (merge_sort name_le).
Definition PostgresTokenStore `{PGText} : TokenStore (list token_row) := rows_store pg_time pg_sort.

(** [OpenTokenStore] *)
Inductive token_backend := SQLiteTokens | PostgresTokens.
Definition OpenTokenStore (cfg : DatabaseConfig) : result string token_backend :=
  if bool_decide (driver cfg = "sqlite") || bool_decide (driver cfg = "") then Ok SQLiteTokens
  else if bool_decide (driver cfg = "postgres") then Ok PostgresTokens
  else Err ("tokenstore: unsupported database driver " +:+ driver cfg).

(** ** The rows refine the map *)

Definition wf_rows (rows : list token_row) : Prop := NoDup (tr_key <$> rows).
Definition table_of (rows : list token_row) : TokenTable := list_to_map ((λ r, (tr_key r, token_of r)) <$> rows).

Lemma table_keys rows : (λ r, (tr_key r, token_of r)) <$> rows = zip (tr_key <$> rows) (token_of <$> rows).
Proof. induction rows as [|r rows IH]; [done|]. csimpl. by rewrite IH. Qed.

Lemma table_of_Some rows k t : wf_rows rows → table_of rows !! k = Some t ↔ ∃ r, r ∈ rows ∧ tr_key r = k ∧ token_of r = t.
Proof.
  intros Hw. unfold table_of. rewrite <- elem_of_list_to_map.
  - rewrite list_elem_of_fmap. split; [intros (r & [= -> ->] & Hr); eauto|intros (r & Hr & <- & <-); eauto].
  - rewrite <- list_fmap_compose. exact Hw.
Qed.

Lemma upsert_keys now user provider t rows : ∀ k, k ∈ tr_key <$> upsert now user provider t rows ↔ k = (user, provider) ∨ k ∈ tr_key <$> rows.
Proof.
  intros k. induction rows as [|r rows IH]; csimpl; [set_solver|]. unfold has_key. case_bool_decide as Hk; csimpl.
  - rewrite !elem_of_cons, Hk. unfold tr_key at 1. simpl. tauto.
  - rewrite !elem_of_cons, IH. tauto.
Qed.

Lemma upsert_wf now user provider t rows : wf_rows rows → wf_rows (upsert now user provider t rows).
Proof.
  unfold wf_rows. induction rows as [|r rows IH]; intros Hw; csimpl in *; [apply NoDup_singleton|]. inv Hw.
  unfold has_key. case_bool_decide as Hk; csimpl.
  - constructor; [|done]. unfold tr_key at 1. simpl. by rewrite <- Hk.
  - constructor; [|by apply IH]. rewrite upsert_keys. by intros [|].
Qed.

Lemma upsert_table now user provider t rows : table_of (upsert now user provider t rows) = <[(user, provider) := t]> (table_of rows).
Proof.
  assert (token_of (row_of now user provider t None) = t) as Ht by (by destruct t).
  induction rows as [|r rows IH]; cbn [upsert].
  - unfold table_of. simpl. by rewrite Ht.
  - unfold has_key. case_bool_decide as Hk; unfold table_of in *; csimpl.
    + unfold tr_key at 1. simpl. rewrite Hk. rewrite insert_insert_eq. f_equal. by destruct t.
    + rewrite IH. by rewrite insert_insert_ne.
Qed.

Lemma find_table user provider rows : wf_rows rows →
  table_of rows !! (user, provider) = token_of <$> List.find (has_key user provider) rows.
Proof.
  intros Hw. apply option_eq. intros t. rewrite (table_of_Some rows _ t Hw), fmap_Some. unfold has_key. split.
  - intros (r & Hr & Hk & <-). exists r. split; [|done]. apply (find_key tr_key rows (user, provider) r); [exact Hw|done].
  - intros (r & Hf & ->). apply (find_key tr_key rows (user, provider) r Hw) in Hf as [Hr Hk]. eauto.
Qed.

Lemma delete_table user provider rows : wf_rows rows →
  let rest := filter (λ r, has_key user provider r = false) rows in
  wf_rows rest ∧ table_of rest = delete (user, provider) (table_of rows) ∧
  (length rest = length rows ↔ table_of rows !! (user, provider) = None).
Proof.
  intros Hw. cbv zeta. assert (wf_rows (filter (λ r, has_key user provider r = false) rows)) as Hw' by by apply NoDup_fmap_filter.
  split_and!; [done|..].
  - apply map_eq. intros k. apply option_eq. intros t. rewrite lookup_delete_Some, !table_of_Some by done.
    setoid_rewrite list_elem_of_filter. unfold has_key. setoid_rewrite bool_decide_eq_false. naive_solver.
  - rewrite find_table by done. unfold has_key. split.
    + intros Hl. destruct (List.find _ rows) as [r|] eqn:Ef; [|done]. exfalso.
      apply (find_key tr_key rows (user, provider) r Hw) in Ef as [Hr Hk].
      apply (length_filter_lt (λ r, bool_decide (tr_key r = (user, provider)) = false) rows r) in Hr; [lia|].
      by rewrite bool_decide_eq_true_2.
    + destruct (List.find _ rows) as [r|] eqn:Ef; [done|]. intros _. apply find_key_None in Ef. f_equal.
      apply filter_all. intros r Hr. apply bool_decide_eq_false. intros Hk. apply Ef. rewrite <- Hk. by apply list_elem_of_fmap_2.
Qed.

(** [impl] behaves as the map does, where [f] is what is left of a token that is
    stored; the providers of a user come in an order of its own. *)
Record simulates (impl : TokenStore (list token_row)) (f : OAuthToken → OAuthToken) : Prop := {
  si_store : ∀ fault now u p t rows, wf_rows rows →
    let '(rows', r) := store_token fault now u p t rows in
    wf_rows rows' ∧ (table_of rows', r) = StoreToken fault u p (f t) (table_of rows);
  si_get : ∀ fault u p rows, wf_rows rows → get_token fault u p rows = GetToken fault u p (table_of rows);
  si_delete : ∀ fault u p rows, wf_rows rows →
    let '(rows', r) := delete_token fault u p rows in wf_rows rows' ∧ (table_of rows', r) = DeleteToken fault u p (table_of rows);
  si_list : ∀ fault u rows, wf_rows rows →
    match list_providers fault u rows with
    | Err e => ListProviders fault u (table_of rows) = Err e
    | Ok l => fault = false ∧ NoDup l ∧ ∀ p, p ∈ l ↔ is_Some (table_of rows !! (u, p))
    end;
}.

Lemma rows_simulate at_rest sort : (∀ l, sort l ≡ₚ l) → simulates (rows_store at_rest sort) (rest_token at_rest).
Proof.
  intros Hsort. split; simpl.
  - intros fault now u p t rows Hw. unfold rows_StoreToken, StoreToken. destruct fault; [done|].
    split; [by apply upsert_wf|]. by rewrite upsert_table.
  - intros fault u p rows Hw. unfold rows_GetToken, GetToken. destruct fault; [done|]. rewrite find_table by done.
    by destruct (List.find _ rows).
  - intros fault u p rows Hw. unfold rows_DeleteToken, DeleteToken. destruct fault; [done|].
    destruct (delete_table u p rows Hw) as (Hw' & Ht & Hl). split; [done|]. rewrite Ht.
    destruct (table_of rows !! (u, p)) eqn:E; [rewrite bool_decide_eq_false_2 by (rewrite Hl; done); done|].
    rewrite bool_decide_eq_true_2 by (by apply Hl). by rewrite delete_id.
  - intros fault u rows Hw. unfold rows_ListProviders, ListProviders. destruct fault; [done|]. split; [done|]. split.
    + rewrite Hsort. assert (∀ rs, NoDup (tr_key <$> rs) → (∀ r, r ∈ rs → tr_user r = u) → NoDup (tr_provider <$> rs)) as Hnd.
      { clear. induction rs as [|r rs IH]; csimpl; intros Hn Hu; [constructor|]. inv Hn. constructor; [|apply IH; set_solver].
        intros (r' & Heq & Hr')%list_elem_of_fmap. match goal with Hx : tr_key r ∉ _ |- _ => apply Hx end.
        apply list_elem_of_fmap. exists r'. split; [|done]. unfold tr_key. rewrite Heq, !Hu; [done|set_solver..]. }
      apply Hnd; [by apply NoDup_fmap_filter|]. by intros r [? _]%list_elem_of_filter.
    + intros p. rewrite Hsort, list_elem_of_fmap. setoid_rewrite list_elem_of_filter. split.
      * intros (r & -> & <- & Hr). exists (token_of r). by apply table_of_Some; [|exists r].
      * intros [t (r & Hr & Hk & _)%table_of_Some]; [|done]. injection Hk as <- <-. eauto.
Qed.

(** C20: both token stores implement the map of tokens by user and provider that
    the resolver, the OAuth handler and the admin API are verified against: every
    operation, with or without a fault, keeps the primary key and does on the rows
    what the map does. SQLite gives back exactly the token that was stored; with
    Postgres its expiry is at most a microsecond earlier, so that a token is never
    used longer than it is valid. *)
Theorem token_stores_refine `{PGText} :
  simulates SQLiteTokenStore (λ t, t) ∧ simulates PostgresTokenStore (rest_token pg_time) ∧
  ∀ now t, Expired now t = true → Expired now (rest_token pg_time t) = true.
Proof.
  split_and!.
  - assert (∀ t, rest_token (λ t, t) t = t) as Hid by (intros []; unfold rest_token; simpl; by rewrite option_fmap_id).
    destruct (rows_simulate (λ t, t) (merge_sort name_le)) as [Hs Hg Hd Hl]; [intros l; apply merge_sort_Permutation|].
    split; try done. intros fault now u p t rows Hw. pose proof (Hs fault now u p t rows Hw) as Hx. rewrite Hid in Hx. exact Hx.
  - apply rows_simulate, pg_sort_law.
  - intros now t. unfold Expired. simpl. destruct (Expiry t) as [e|]; [|done]. simpl. rewrite !Z.ltb_lt.
    pose proof (pg_time_law e). lia.
Qed.
End TokenStores.

(** ** Runs *)

Import Catalog TokenStores.

(** A database of the first version, whose callers have their tools in a column. *)
Definition old_callers : table := MkTable ["id"; "name"; "allowed_tools"; "created_at"] [{["name" := "ann"]}].
Definition old_file : catalog :=
  list_to_map [("callers", old_callers); ("api_keys", MkTable ["id"; "caller_id"; "key_hash"; "auth_env"; "label"; "created_at"] []);
               ("user_oauth_tokens", MkTable ["user_name"; "provider"] [{["user_name" := "ann"]}])].

Lemma half_migration_kept_witness :
  (NewSQLiteStore (λ _, false) (NewSQLiteStore (λ i, bool_decide (i = 4%nat)) old_file).1).1 !! "callers" = Some old_callers.
Proof.
  destruct (half_migration_kept (λ i, bool_decide (i = 4%nat)) old_file old_callers) as [_ Hk].
  - vm_compute. reflexivity.
  - vm_compute. reflexivity.
  - intros i Hi. apply bool_decide_eq_false. lia.
  - reflexivity.
  - destruct (NewSQLiteStore _ _) as [cat' r]. apply Hk.
Defined.

Definition empty_server : server := MkDBServer ∅ ∅.

Lemma migration_lock_released_witness :
  sv_locks (NewPostgresStore (λ _, 7%nat) (λ _, false) empty_server).1 = ∅.
Proof.
  pose proof (migration_lock_released "auth: " 42 (run_all schema) (λ _, 7%nat) (λ _, false) empty_server eq_refl eq_refl eq_refl eq_refl eq_refl) as Hr.
  unfold NewPostgresStore. destruct (open_postgres _ _ _ _ _ _) as [s' o]. destruct Hr as (Hl & _ & _); [|exact Hl].
  intros k h Hk. discriminate Hk.
Defined.

(** The pool of the audit store hands out connection 1 for the lock and 2 for the
    release; the token store has a pool of its own. *)
Lemma migration_lock_kept_witness :
  let s' := (NewAuditPostgresStore (λ i, i) (λ _, false) empty_server).1 in
  NewPostgresTokenStore (λ i, 10 + i)%nat (λ _, false) s' = (s', Blocked).
Proof.
  apply (migration_lock_kept (λ i, i) (λ _, false) empty_server); try done.
Defined.

#[local] Instance micros : PGText.
Proof.
  refine {| pg_time t := t / 1000 * 1000; pg_sort l := l |}; [|done].
  intros t. pose proof (Z.div_mod t 1000 ltac:(done)). pose proof (Z.mod_pos_bound t 1000 ltac:(done)). lia.
Defined.

Lemma token_stores_refine_witness :
  let rows := (store_token (TokenStore:=PostgresTokenStore) false 5 "ann" "idp" (MkOAuthToken "at" "rt" "Bearer" (Some 1234567) "") []).1 in
  get_token (TokenStore:=PostgresTokenStore) false "ann" "idp" rows = Ok (MkOAuthToken "at" "rt" "Bearer" (Some 1234000) "").
Proof.
  intros rows. destruct token_stores_refine as (_ & [_ Hg _ _] & _). rewrite (Hg false "ann" "idp" rows).
  - vm_compute. reflexivity.
  - apply (bool_decide_unpack _). vm_compute. exact I.
Defined.
