(* ===== verification/Health.v ===== *)
(** * Health checks ([internal/health/health.go], [store.go])

    [Checker] keeps the health of the upstreams: polled in-process (passively, or
    by a ping), or read from a store that an external agent writes. The stores are
    instances of the class [StatusStore]; an operation gets the deadline of its
    context and the time at which it runs. The transports are shared with the
    handlers: what those do to a transport between two checks is an argument of
    the second one. The ticker that repeats [check] and the logging are not
    modelled. *)

From S2P Require Import Prelude GoLib Json JsonRpc Transport Proxy.
Import GoStr.

(** ** Stores *)

Record Status := MkHealthStatus { StatusHealthy : bool; CheckedAt : Z }.

(** [ErrNotFound], or any other failure. *)
Inductive status_error := StatusNotFound | StatusFailed (msg : string).

(** The interface [StatusStore]: deadline, time of the call, upstream. *)
Class StatusStore (St : Type) := {
  StatusGet : Z → Z → string → St → result status_error Status;
  StatusSet : Z → Z → string → Status → Z → St → St * option status_error;
}.

(** [LocalStore] ignores the context and the TTL. *)
Record LocalStore := MkLocalStore { local_status : gmap string Status }.

Definition Local_Get (deadline now : Z) (upstream : string) (s : LocalStore) : result status_error Status :=
  match local_status s !! upstream with Some st => Ok st | None => Err StatusNotFound end.

Definition Local_Set (deadline now : Z) (upstream : string) (st : Status) (ttl : Z) (s : LocalStore) :
    LocalStore * option status_error :=
  (MkLocalStore (<[upstream := st]> (local_status s)), None).

#[global] Instance LocalStore_StatusStore : StatusStore LocalStore := {| StatusGet := Local_Get; StatusSet := Local_Set |}.

(** [RedisStore]: keys with an expiry at a server that may be down; a command
    whose context has expired fails. The documents are kept as the values that
    they encode. *)
Record RedisStore := MkRedisStore { rs_prefix : string; rs_up : bool; rs_keys : gmap string (Status * Z) }.

Definition health_key (s : RedisStore) (upstream : string) : string := rs_prefix s +:+ "health:" +:+ upstream.

Definition Redis_Get (deadline now : Z) (upstream : string) (s : RedisStore) : result status_error Status :=
  if (deadline <=? now) || negb (rs_up s) then Err (StatusFailed "context deadline exceeded")
  else match rs_keys s !! health_key s upstream with
       | Some (st, expires) => if expires <=? now then Err StatusNotFound else Ok st
       | None => Err StatusNotFound
       end.

Definition Redis_Set (deadline now : Z) (upstream : string) (st : Status) (ttl : Z) (s : RedisStore) :
    RedisStore * option status_error :=
  if (deadline <=? now) || negb (rs_up s) then (s, Some (StatusFailed "context deadline exceeded"))
  else (MkRedisStore (rs_prefix s) (rs_up s) (<[health_key s upstream := (st, now + ttl)]> (rs_keys s)), None).

#[global] Instance RedisStore_StatusStore : StatusStore RedisStore := {| StatusGet := Redis_Get; StatusSet := Redis_Set |}.

(** ** The checker *)

(** What a check meets: the time at which it starts, the time at which it accesses
    the store for the [i]-th upstream, and what the other users of the [i]-th
    upstream's transport have done to it since the checker last read it. *)
Record CheckEnv (T : Type) := MkCheckEnv { started : Z; at_store : nat → Z; meanwhile : nat → T → T }.
Arguments MkCheckEnv {T}. Arguments started {T}. Arguments at_store {T}. Arguments meanwhile {T}.

(** The transport is shared: the checker holds it as it last read it, and the next
    check reads it as the others left it. *)
Record UpstreamInfo (T : Type) := MkInfo {
  ui_name : string;
  ui_transport : T;
  ui_tools : nat;
  ui_stale : bool;
  Local : bool;
}.
Arguments MkInfo {T}. Arguments ui_name {T}. Arguments ui_transport {T}. Arguments ui_tools {T}. Arguments ui_stale {T}.
Arguments Local {T}.

Record UpstreamHealth := MkUpstreamHealth { uh_healthy : bool; uh_tools : nat; uh_stale : bool }.

Record Checker (T St : Type) := MkChecker {
  monitored : list (UpstreamInfo T);
  health : gmap string bool;
  health_metrics : option (list (string * bool));
  discoveryDone : bool;
  checkInterval : Z;
  checkThreshold : Z;
  consecutiveFails : gmap string Z;
  store : option St;
  readFromStore : bool;
  missingStatus : bool;
  storeTTL : Z;
  activeProbe : bool;
}.
Arguments MkChecker {T St}. Arguments monitored {T St}. Arguments health {T St}. Arguments health_metrics {T St}.
Arguments discoveryDone {T St}. Arguments checkInterval {T St}. Arguments checkThreshold {T St}.
Arguments consecutiveFails {T St}. Arguments store {T St}. Arguments readFromStore {T St}. Arguments missingStatus {T St}.
Arguments storeTTL {T St}. Arguments activeProbe {T St}.

(** The options of [NewChecker]; a zero interval or TTL is one that is not set. *)
Record CheckerOptions (St : Type) := MkCheckerOptions {
  opt_store : option St;
  opt_read : bool;
  opt_missing : bool;
  opt_interval : Z;
  opt_ttl : Z;
  opt_probe : bool;
}.
Arguments MkCheckerOptions {St}. Arguments opt_store {St}. Arguments opt_read {St}. Arguments opt_missing {St}.
Arguments opt_interval {St}. Arguments opt_ttl {St}. Arguments opt_probe {St}.

Section checker.
Context {T St : Type} `{Transport T} `{StatusStore St}.
Implicit Types (c : Checker T St) (u : UpstreamInfo T).

Definition NewChecker (us : list (UpstreamInfo T)) (m : option (list (string * bool))) (o : CheckerOptions St) : Checker T St :=
  let interval := if opt_interval o =? 0 then 30 * Duration.Second else opt_interval o in
  MkChecker us (foldl (λ h u, <[ui_name u := Healthy (ui_transport u)]> h) ∅ us) m true interval 3
    (foldl (λ f u, <[ui_name u := 0]> f) ∅ us)
    (opt_store o) (opt_read o) (opt_missing o) (if opt_ttl o =? 0 then 2 * interval else opt_ttl o) (opt_probe o).

Definition set_health (name : string) (b : bool) c : Checker T St :=
  MkChecker (monitored c) (<[name := b]> (health c)) (health_metrics c) (discoveryDone c) (checkInterval c) (checkThreshold c)
    (consecutiveFails c) (store c) (readFromStore c) (missingStatus c) (storeTTL c) (activeProbe c).
Definition set_fails (name : string) (n : Z) c : Checker T St :=
  MkChecker (monitored c) (health c) (health_metrics c) (discoveryDone c) (checkInterval c) (checkThreshold c)
    (<[name := n]> (consecutiveFails c)) (store c) (readFromStore c) (missingStatus c) (storeTTL c) (activeProbe c).
Definition set_store (s : option St) c : Checker T St :=
  MkChecker (monitored c) (health c) (health_metrics c) (discoveryDone c) (checkInterval c) (checkThreshold c)
    (consecutiveFails c) s (readFromStore c) (missingStatus c) (storeTTL c) (activeProbe c).
Definition set_monitored (us : list (UpstreamInfo T)) c : Checker T St :=
  MkChecker us (health c) (health_metrics c) (discoveryDone c) (checkInterval c) (checkThreshold c)
    (consecutiveFails c) (store c) (readFromStore c) (missingStatus c) (storeTTL c) (activeProbe c).
Definition emit_health (name : string) c : Checker T St :=
  MkChecker (monitored c) (health c) ((λ l, l ++ [(name, default false (health c !! name))]) <$> health_metrics c)
    (discoveryDone c) (checkInterval c) (checkThreshold c)
    (consecutiveFails c) (store c) (readFromStore c) (missingStatus c) (storeTTL c) (activeProbe c).

(** [c.health[name]] *)
Definition healthy_of (name : string) c : bool := default false (health c !! name).

Definition probeReq : Request := MkRequest "2.0" "ping" None (Some (IntID 0)).

(** [probe]: only a failed round trip counts against the upstream. *)
Definition probe (t : T) : T * bool :=
  let '(t, r) := RoundTrip Background probeReq t in (t, is_ok r).


(** [context.WithTimeout(context.Background(), 2*time.Second)], made before the
    loop. *)
Definition store_deadline (env : CheckEnv T) : Z := started env + 2 * Duration.Second.

Definition useStore c u : bool := negb (Local u) && match store c with Some _ => readFromStore c | None => false end.

Definition read_status (env : CheckEnv T) (i : nat) u (s : St) c : Checker T St :=
  match StatusGet (store_deadline env) (at_store env i) (ui_name u) s with
  | Err _ => set_health (ui_name u) (missingStatus c) c
  | Ok st => set_health (ui_name u) (StatusHealthy st) c
  end.

Definition record_outcome (name : string) (ok : bool) c : Checker T St :=
  if ok then set_health name true (set_fails name 0 c)
  else
    let n := default 0 (consecutiveFails c !! name) + 1 in
    let c := set_fails name n c in
    if checkThreshold c <=? n then set_health name false c else c.

(** A failed write is logged. *)
Definition write_status (env : CheckEnv T) (i : nat) u c : Checker T St :=
  match store c with
  | Some s =>
      if Local u then c
      else set_store (Some (StatusSet (store_deadline env) (at_store env i) (ui_name u)
             (MkHealthStatus (healthy_of (ui_name u) c) (at_store env i)) (storeTTL c) s).1) c
  | None => c
  end.

(** One iteration: the upstream, with its transport as the others left it and
    after a probe, and the checker. *)
Definition check_one (env : CheckEnv T) (i : nat) u c : UpstreamInfo T * Checker T St :=
  let '(u, c) :=
    match (if useStore c u then store c else None) with
    | Some s => (u, read_status env i u s c)
    | None =>
        let t := meanwhile env i (ui_transport u) in
        let '(t, ok) := if activeProbe c then probe t else (t, Healthy t) in
        let u := MkInfo (ui_name u) t (ui_tools u) (ui_stale u) (Local u) in
        (u, write_status env i u (record_outcome (ui_name u) ok c))
    end in
  (u, emit_health (ui_name u) c).

Fixpoint check_loop (env : CheckEnv T) (i : nat) (us : list (UpstreamInfo T)) c : list (UpstreamInfo T) * Checker T St :=
  match us with
  | [] => ([], c)
  | u :: us =>
      let '(u, c) := check_one env i u c in
      let '(us, c) := check_loop env (S i) us c in (u :: us, c)
  end.

Definition check (env : CheckEnv T) c : Checker T St :=
  let '(us, c) := check_loop env 0 (monitored c) c in set_monitored us c.

Definition UpdateUpstreams (us : list (UpstreamInfo T)) c : Checker T St :=
  let names : gset string := list_to_set (ui_name <$> us) in
  let c := foldl (λ c u, match health c !! ui_name u with
                         | Some _ => c
                         | None => set_fails (ui_name u) 0 (set_health (ui_name u) (Healthy (ui_transport u)) c)
                         end) c us in
  MkChecker us (filter (λ kv, kv.1 ∈ names) (health c)) (health_metrics c) (discoveryDone c) (checkInterval c)
    (checkThreshold c)
    (* entries are deleted for the names found in [health] *)
    (filter (λ kv, kv.1 ∈ names ∨ health c !! kv.1 = None) (consecutiveFails c))
    (store c) (readFromStore c) (missingStatus c) (storeTTL c) (activeProbe c).

Definition MarkDiscoveryDone c : Checker T St :=
  MkChecker (monitored c) (health c) (health_metrics c) true (checkInterval c) (checkThreshold c)
    (consecutiveFails c) (store c) (readFromStore c) (missingStatus c) (storeTTL c) (activeProbe c).

Definition IsReady c : bool :=
  if negb (discoveryDone c) then false else existsb snd (map_to_list (health c)).

Definition UpstreamStatuses c : gmap string UpstreamHealth :=
  foldl (λ m u, <[ui_name u := MkUpstreamHealth (healthy_of (ui_name u) c) (ui_tools u) (ui_stale u)]> m) ∅ (monitored c).

Definition marshal_health (h : UpstreamHealth) : json :=
  JObj [("healthy", JBool (uh_healthy h)); ("tools", JNum (Strconv.FormatInt (Z.of_nat (uh_tools h)))); ("stale", JBool (uh_stale h))].

(** The probes of the orchestrator: status and body. *)
Definition HandleLiveness c : Z * json := (200, JObj [("status", JStr "ok")]).

Definition HandleReadiness c : Z * json :=
  let ready := IsReady c in
  (if ready then 200 else 503,
   JObj [("status", JStr (if ready then "ready" else "not_ready"));
         ("upstreams", marshal_map (marshal_health <$> UpstreamStatuses c))]).
End checker.

(** ** Properties *)

Section props.
Context {T St : Type} `{Transport T} `{StatusStore St}.
Implicit Types (c : Checker T St) (u : UpstreamInfo T) (us : list (UpstreamInfo T)).

(** What a check does not change. *)
Definition settings c := (checkThreshold c, readFromStore c, missingStatus c, activeProbe c, bool_decide (is_Some (store c)), discoveryDone c).

(** [c'] differs from [c] in the entries of [name] at most, and has at least
    those of [c]. *)
Record touches (name : string) c c' : Prop := {
  to_settings : settings c' = settings c;
  to_monitored : monitored c' = monitored c;
  to_other : ∀ name', name' ≠ name →
    health c' !! name' = health c !! name' ∧ consecutiveFails c' !! name' = consecutiveFails c !! name';
  to_grows : ∀ name', is_Some (health c !! name') → is_Some (health c' !! name');
}.

Lemma touches_set_health name b c : touches name c (set_health name b c).
Proof.
  split; [done|done| |]; simpl; intros name' Hn.
  - by rewrite lookup_insert_ne.
  - destruct (decide (name' = name)) as [->|]; [by rewrite lookup_insert_eq|by rewrite lookup_insert_ne].
Qed.

Lemma touches_set_fails name n c : touches name c (set_fails name n c).
Proof. split; [done|done| |done]; simpl; intros name' Hn. by rewrite lookup_insert_ne. Qed.

Lemma touches_trans name c1 c2 c3 : touches name c1 c2 → touches name c2 c3 → touches name c1 c3.
Proof.
  intros [S1 M1 O1 G1] [S2 M2 O2 G2]. split; [congruence|congruence| |auto].
  intros name' Hn. destruct (O1 _ Hn), (O2 _ Hn). split; congruence.
Qed.

Lemma touches_write env i u c : touches (ui_name u) c (write_status env i u c).
Proof.
  unfold write_status. destruct (store c) as [s|] eqn:Es; [|done]. destruct (Local u); [done|].
  split; try done. unfold settings. simpl. by rewrite Es.
Qed.

Lemma touches_outcome name ok c : touches name c (record_outcome name ok c).
Proof.
  unfold record_outcome. destruct ok.
  - eapply touches_trans; [apply touches_set_fails|apply touches_set_health].
  - cbv zeta. destruct (_ <=? _); [eapply touches_trans; [apply touches_set_fails|apply touches_set_health]|apply touches_set_fails].
Qed.

(** One step, seen from another upstream, and from the checker's fixed part. *)
Lemma check_one_frame env i u c :
  let '(u', c') := check_one env i u c in
  ui_name u' = ui_name u ∧ Local u' = Local u ∧ touches (ui_name u) c c'.
Proof.
  assert (∀ c', touches (ui_name u) c c' → touches (ui_name u) c (emit_health (ui_name u) c')) as Hemit
    by (intros c' []; by split).
  unfold check_one. destruct (if useStore c u then store c else None) as [s|].
  - split_and!; [done|done|]. apply Hemit. unfold read_status. destruct (StatusGet _ _ _ _); apply touches_set_health.
  - cbv zeta. destruct (if activeProbe c then _ else _) as [t ok]. split_and!; [done|done|]. apply Hemit.
    eapply touches_trans; [apply touches_outcome|]. apply (touches_write env i (MkInfo (ui_name u) t (ui_tools u) (ui_stale u) (Local u))).
Qed.

(** The loop leaves the entries of other names alone. *)
Lemma check_loop_frame env i us c :
  let '(us', c') := check_loop env i us c in
  ui_name <$> us' = ui_name <$> us ∧ settings c' = settings c ∧ monitored c' = monitored c ∧
  (∀ name, name ∉ ui_name <$> us → health c' !! name = health c !! name ∧ consecutiveFails c' !! name = consecutiveFails c !! name) ∧
  (∀ name, is_Some (health c !! name) → is_Some (health c' !! name)).
Proof.
  revert i c. induction us as [|u us IH]; intros i c; [done|]. cbn [check_loop].
  pose proof (check_one_frame env i u c) as Hone. destruct (check_one env i u c) as [u1 c1].
  specialize (IH (S i) c1). destruct (check_loop env (S i) us c1) as [us2 c2].
  destruct Hone as (Hn1 & _ & [Hs1 Hm1 Ho1 Hd1]). destruct IH as (Hn2 & Hs2 & Hm2 & Ho2 & Hd2).
  csimpl. split_and!; try congruence.
  - intros name Hnot. destruct (Ho2 name ltac:(set_solver)) as [-> ->]. apply Ho1. set_solver.
  - intros name Hsome. by apply Hd2, Hd1.
Qed.

(** The health map has an entry for every monitored upstream, and no other. *)
Definition tracks c : Prop := ∀ name, is_Some (health c !! name) ↔ name ∈ ui_name <$> monitored c.

Lemma check_tracks env c : tracks c → tracks (check env c).
Proof.
  intros Ht name. unfold check. pose proof (check_loop_frame env 0 (monitored c) c) as Hl.
  destruct (check_loop env 0 (monitored c) c) as [us c']. destruct Hl as (Hn & _ & _ & Ho & Hd). simpl. rewrite Hn. split.
  - intros Hs. destruct (decide (name ∈ ui_name <$> monitored c)) as [|Hnot]; [done|].
    destruct (Ho name Hnot) as [Heq _]. apply Ht. by rewrite <- Heq.
  - intros Hin. apply Hd, Ht, Hin.
Qed.

Lemma foldl_health us (f : UpstreamInfo T → bool) (m : gmap string bool) name :
  is_Some (foldl (λ h u, <[ui_name u := f u]> h) m us !! name) ↔ name ∈ ui_name <$> us ∨ is_Some (m !! name).
Proof.
  revert m. induction us as [|u us IH]; intros m; simpl; [set_solver|]. rewrite IH. csimpl.
  destruct (decide (name = ui_name u)) as [->|Hne].
  - rewrite lookup_insert_eq. set_solver.
  - rewrite lookup_insert_ne by done. set_solver.
Qed.

Lemma NewChecker_tracks us m o : tracks (NewChecker us m o).
Proof. intros name. simpl. rewrite foldl_health, lookup_empty. split; [intros [?|[]%is_Some_None]; done|by left]. Qed.

Lemma UpdateUpstreams_tracks us c : tracks (UpdateUpstreams us c).
Proof.
  intros name. unfold UpdateUpstreams. cbn [health monitored].
  set (c1 := foldl _ c us).
  assert (name ∈ ui_name <$> us → is_Some (health c1 !! name)) as Hin.
  { unfold c1. clear. revert c. induction us as [|u us IH]; intros c; csimpl; [set_solver|].
    intros [->|Hn]%elem_of_cons; [|by apply IH]. clear IH.
    assert (∀ us c, is_Some (health c !! ui_name u) → is_Some (health (foldl (λ c u, match health c !! ui_name u with
      | Some _ => c | None => set_fails (ui_name u) 0 (set_health (ui_name u) (Healthy (ui_transport u)) c) end) c us) !! ui_name u)) as Hk.
    { clear. intros us. induction us as [|u' us IH]; intros c Hc; simpl; [done|]. apply IH. destruct (health c !! ui_name u'); [done|].
      simpl. destruct (decide (ui_name u = ui_name u')) as [->|]; [by rewrite lookup_insert_eq|by rewrite lookup_insert_ne]. }
    apply Hk. destruct (health c !! ui_name u) eqn:E; [by rewrite E|]. simpl. by rewrite lookup_insert_eq. }
  split.
  - intros [b [Hb Hn]%map_lookup_filter_Some]. set_solver.
  - intros Hn. destruct (Hin Hn) as [b Hb]. exists b. apply map_lookup_filter_Some. split; [done|]. set_solver.
Qed.

(** The operations on a checker. *)
Inductive step : Checker T St → Checker T St → Prop :=
| step_check env c : step c (check env c)
| step_update us c : step c (UpdateUpstreams us c)
| step_done c : step c (MarkDiscoveryDone c).

Lemma steps_ready c c' : rtc (A:=Checker T St) step c c' → tracks c ∧ discoveryDone c = true → tracks c' ∧ discoveryDone c' = true.
Proof.
  induction 1 as [|c1 c2 c3 Hs _ IH]; [done|]. intros [Ht Hd]. apply IH. destruct Hs as [env c|us c|c].
  - split; [by apply check_tracks|]. unfold check. pose proof (check_loop_frame env 0 (monitored c) c) as Hl.
    destruct (check_loop env 0 (monitored c) c) as [us c']. destruct Hl as (_ & Hset & _). simpl.
    unfold settings in Hset. congruence.
  - split; [apply UpdateUpstreams_tracks|]. simpl. clear -Hd. revert c Hd. induction us as [|u us IH]; intros c Hd; simpl; [done|].
    apply IH. by destruct (health c !! ui_name u).
  - done.
Qed.

(** Whatever checks and changes of the upstreams were made, the readiness
    probe answers 200 exactly if some upstream that is monitored now is healthy,
    and 503 otherwise: upstreams that are gone do not count. *)
Theorem ready_iff_some_healthy us m o c :
  rtc step (NewChecker us m o) c →
  ((HandleReadiness c).1 = 200 ↔ ∃ u, u ∈ monitored c ∧ healthy_of (ui_name u) c = true) ∧
  ((HandleReadiness c).1 = 200 ∨ (HandleReadiness c).1 = 503).
Proof.
  intros [Ht Hd]%steps_ready; [|split; [apply NewChecker_tracks|done]].
  unfold HandleReadiness. simpl.
  assert (IsReady c = true ↔ ∃ u, u ∈ monitored c ∧ healthy_of (ui_name u) c = true) as <-;
    [|destruct (IsReady c); split; [done|by left|done|by right]].
  unfold IsReady. rewrite Hd. simpl. rewrite existsb_exists. split.
  - intros ([name b] & Hin & Hb). simpl in Hb. subst b. apply list_elem_of_In, elem_of_map_to_list in Hin.
    pose proof (proj1 (Ht name) (mk_is_Some _ _ Hin)) as (u & -> & Hu)%list_elem_of_fmap.
    exists u. split; [done|]. unfold healthy_of. by rewrite Hin.
  - intros (u & Hu & Hh). unfold healthy_of in Hh. destruct (health c !! ui_name u) as [b|] eqn:Eb; [|done]. simpl in Hh. subst b.
    exists (ui_name u, true). split; [|done]. by apply list_elem_of_In, elem_of_map_to_list.
Qed.

(** *** Polled upstreams *)

(** One poll, and the outcomes of successive polls of the [i]-th upstream, oldest
    first: each finds the transport as its other users have left it. *)
Definition poll (active : bool) (t : T) : T * bool := if active then probe t else (t, Healthy t).

Fixpoint poll_outcomes (active : bool) (i : nat) (envs : list (CheckEnv T)) (t : T) : list bool :=
  match envs with
  | [] => []
  | env :: envs => let '(t, ok) := poll active (meanwhile env i t) in ok :: poll_outcomes active i envs t
  end.

(** The failures since the last success. *)
Definition trailing_failures (outs : list bool) : Z :=
  foldl (λ n (ok : bool), if ok then 0 else n + 1) 0 outs.

(** The entries of one upstream, after the outcomes of its polls. *)
Record polled (i : nat) (name : string) (h0 : bool) (active : bool) (outs : list bool) (t : T) c : Prop := {
  po_at : ∃ u, monitored c !! i = Some u ∧ ui_name u = name ∧ ui_transport u = t ∧ useStore c u = false;
  po_nodup : NoDup (ui_name <$> monitored c);
  po_threshold : checkThreshold c = 3;
  po_active : activeProbe c = active;
  po_fails : consecutiveFails c !! name = Some (trailing_failures outs);
  po_health : healthy_of name c = if 3 <=? trailing_failures outs then false else existsb id outs || h0;
}.

Lemma check_loop_at env i us c j u :
  NoDup (ui_name <$> us) → us !! j = Some u → useStore c u = false →
  let '(t, ok) := poll (activeProbe c) (meanwhile env (i + j) (ui_transport u)) in
  let '(us', c') := check_loop env i us c in
  us' !! j = Some (MkInfo (ui_name u) t (ui_tools u) (ui_stale u) (Local u)) ∧
  ∃ c1, settings c1 = settings c ∧ health c1 !! ui_name u = health c !! ui_name u ∧
    consecutiveFails c1 !! ui_name u = consecutiveFails c !! ui_name u ∧
    health c' !! ui_name u = health (record_outcome (ui_name u) ok c1) !! ui_name u ∧
    consecutiveFails c' !! ui_name u = consecutiveFails (record_outcome (ui_name u) ok c1) !! ui_name u.
Proof.
  revert i c j. induction us as [|u0 us IH]; intros i c j Hnd Hj Hus; [done|]. csimpl in Hnd. inv Hnd.
  cbn [check_loop]. destruct j as [|j]; simpl in Hj.
  - injection Hj as ->. unfold check_one. rewrite Hus, Nat.add_0_r. unfold poll. cbv zeta.
    destruct (if activeProbe c then _ else _) as [t ok]. set (u' := MkInfo (ui_name u) t _ _ _).
    pose proof (touches_write env i u' (record_outcome (ui_name u) ok c)) as Hw.
    assert (∀ c0 name, health (emit_health name c0) = health c0 ∧ consecutiveFails (emit_health name c0) = consecutiveFails c0) as He by done.
    set (c1 := emit_health _ _). pose proof (check_loop_frame env (S i) us c1) as Hl.
    destruct (check_loop env (S i) us c1) as [us2 c2]. destruct Hl as (_ & _ & _ & Ho & _).
    destruct (Ho (ui_name u) ltac:(done)) as [-> ->]. split; [done|]. exists c. split_and!; try done.
    all: unfold c1, write_status; simpl; destruct (store _), (Local u); done.
  - assert (ui_name u0 ≠ ui_name u) as Hne.
    { intros Heq. apply list_elem_of_lookup_2, (list_elem_of_fmap_2 ui_name) in Hj. congruence. }
    pose proof (check_one_frame env i u0 c) as Hone. destruct (check_one env i u0 c) as [u1 c1].
    destruct Hone as (_ & _ & [Hset Hmon Hoth _]). destruct (Hoth (ui_name u) ltac:(done)) as [Hh Hf].
    assert (useStore c1 u = useStore c u ∧ activeProbe c1 = activeProbe c) as [Hus1 Hap].
    { unfold settings in Hset. injection Hset as _ Hr _ Ha Hsome _. unfold useStore.
      destruct (store c1), (store c); rewrite ?Hr; done. }
    specialize (IH (S i) c1 j ltac:(done) Hj ltac:(congruence)). rewrite Hap, Nat.add_succ_comm in IH.
    destruct (poll (activeProbe c) (meanwhile env (i + S j) (ui_transport u))) as [t ok].
    destruct (check_loop env (S i) us c1) as [us2 c2]. destruct IH as (Hat & c3 & Hs3 & Hh3 & Hf3 & Hres).
    split; [done|]. exists c3. split_and!; try congruence; apply Hres.
Qed.

Lemma record_outcome_entries name ok c :
  consecutiveFails (record_outcome name ok c) !! name = Some (if ok then 0 else default 0 (consecutiveFails c !! name) + 1) ∧
  default false (health (record_outcome name ok c) !! name) =
    if ok then true else if checkThreshold c <=? default 0 (consecutiveFails c !! name) + 1 then false else healthy_of name c.
Proof.
  unfold record_outcome, healthy_of. destruct ok; simpl; [by rewrite !lookup_insert_eq|].
  destruct (_ <=? _); simpl; by rewrite ?lookup_insert_eq.
Qed.

Lemma trailing_snoc outs ok : trailing_failures (outs ++ [ok]) = if ok then 0 else trailing_failures outs + 1.
Proof. unfold trailing_failures. by rewrite foldl_app. Qed.

Lemma existsb_snoc outs ok : existsb id (outs ++ [ok]) = existsb id outs || ok.
Proof. rewrite existsb_app. simpl. by rewrite orb_false_r. Qed.

Lemma check_polled env i name h0 active outs t c :
  polled i name h0 active outs t c →
  polled i name h0 active (outs ++ [(poll active (meanwhile env i t)).2]) (poll active (meanwhile env i t)).1 (check env c).
Proof.
  intros [(u & Hat & <- & <- & Hus) Hnd Hth Hact Hf Hh]. unfold check.
  pose proof (check_loop_at env 0 (monitored c) c i u Hnd Hat Hus) as Hl.
  pose proof (check_loop_frame env 0 (monitored c) c) as Hfr. rewrite Hact in Hl. simpl in Hl.
  destruct (poll active (meanwhile env i (ui_transport u))) as [t ok]. simpl.
  destruct (check_loop env 0 (monitored c) c) as [us' c']. destruct Hl as (Hat' & c1 & Hs1 & Hh1 & Hf1 & Hh' & Hf').
  destruct Hfr as (Hn' & Hs' & _). destruct (record_outcome_entries (ui_name u) ok c1) as [Rf Rh].
  assert (checkThreshold c1 = 3) as Hth1 by (unfold settings in Hs1; congruence).
  unfold healthy_of in Hh. rewrite Hf1, Hf in Rf, Rh. simpl in Rf, Rh. unfold healthy_of in Rh. rewrite Hh1, Hh, Hth1 in Rh.
  split; simpl.
  - eexists. split; [done|]. split_and!; [done|done|]. unfold settings in Hs'. injection Hs' as _ Hr _ _ Hsome _.
    revert Hus. unfold useStore. simpl. destruct (store c'), (store c); rewrite ?Hr; done.
  - by rewrite Hn'.
  - unfold settings in Hs'. congruence.
  - unfold settings in Hs'. congruence.
  - rewrite Hf', Rf, trailing_snoc. by destruct ok.
  - unfold healthy_of. simpl. rewrite Hh', Rh, trailing_snoc, existsb_snoc. destruct ok; [by rewrite orb_true_r|].
    rewrite orb_false_r. destruct (Z.leb_spec 3 (trailing_failures outs + 1)); [done|].
    destruct (Z.leb_spec 3 (trailing_failures outs)); [lia|done].
Qed.

(** C38: take an upstream that is polled in-process (there is no store, or the
    checker does not read it, or the upstream is local), among upstreams of
    distinct names, and any sequence of checks between which the other users of
    the transports change them in any way. It is reported unhealthy exactly if its
    last three polls failed (or, before any poll has succeeded, if its transport
    was unhealthy at the start): one or two failures in a row change nothing, and
    one success makes it healthy, whatever happens to the other upstreams. A poll
    of an active checker is a round trip on the transport as it is then; a poll of
    a passive one is [Healthy] of the transport as it is then. *)
Theorem polled_health us m o envs i u :
  NoDup (ui_name <$> us) → us !! i = Some u → opt_store o = None ∨ opt_read o = false ∨ Local u = true →
  let outs := poll_outcomes (opt_probe o) i envs (ui_transport u) in
  healthy_of (ui_name u) (foldl (λ c env, check env c) (NewChecker us m o) envs) =
    if 3 <=? trailing_failures outs then false else existsb id outs || Healthy (ui_transport u).
Proof.
  intros Hnd Hi Hst. cbv zeta.
  assert (polled i (ui_name u) (Healthy (ui_transport u)) (opt_probe o) [] (ui_transport u) (NewChecker us m o)) as Hstart.
  { assert (∀ {A} (f : UpstreamInfo T → A), foldl (λ m u, <[ui_name u := f u]> m) (∅ : gmap string A) us !! ui_name u = Some (f u)) as Hl.
    { intros A f. clear -Hnd Hi. generalize (∅ : gmap string A). revert i Hi. induction us as [|u' us IH]; intros i Hi m; [done|].
      csimpl in Hnd. inv Hnd. simpl. destruct i as [|i]; simpl in Hi; [|by eapply IH]. injection Hi as ->.
      rename select (ui_name u ∉ _) into Hn. clear -Hn. assert (<[ui_name u := f u]> m !! ui_name u = Some (f u)) as Hm by apply lookup_insert_eq.
      revert Hm. generalize (<[ui_name u := f u]> m). induction us as [|u' us IH]; intros m' Hm; simpl; [done|].
      csimpl in Hn. apply IH; [set_solver|]. rewrite lookup_insert_ne; [done|set_solver]. }
    split; simpl; try done.
    - exists u. split_and!; try done. unfold useStore. simpl. destruct Hst as [->|[->| ->]]; [by rewrite andb_false_r| |done].
      destruct (opt_store o); by rewrite andb_false_r.
    - unfold healthy_of. simpl. by rewrite (Hl bool (λ u, Healthy (ui_transport u))). }
  assert (∀ outs t c, polled i (ui_name u) (Healthy (ui_transport u)) (opt_probe o) outs t c → ∃ t',
    polled i (ui_name u) (Healthy (ui_transport u)) (opt_probe o) (outs ++ poll_outcomes (opt_probe o) i envs t) t'
      (foldl (λ c env, check env c) c envs)) as Hgen.
  { clear. induction envs as [|env envs IH]; intros outs t c Hp; simpl; [rewrite app_nil_r; eauto|].
    apply (check_polled env) in Hp. apply IH in Hp as [t' Hp]. exists t'.
    destruct (poll (opt_probe o) (meanwhile env i t)) as [t1 ok]. simpl in *. by rewrite <- app_assoc in Hp. }
  destruct (Hgen _ _ _ Hstart) as [t' Hp]. apply (po_health _ _ _ _ _ _ _ Hp).
Qed.
End props.

(** ** Concrete checks *)

#[local] Existing Instance scripted.

Definition lost : result error TransportResult := Err (ConnectError "down").
Definition flaky : UpstreamInfo script := MkInfo "a" [lost; lost; lost; reply JNull] 1 false false.
Definition steady : UpstreamInfo script := MkInfo "b" [] 2 false true.
Definition agent_options : CheckerOptions RedisStore :=
  MkCheckerOptions (Some (MkRedisStore "stile:" true ∅)) false true 0 0 true.
Definition quick {T} (t : Z) : CheckEnv T := MkCheckEnv t (λ _, t) (λ _ x, x).

(** A transport that is up or down, as the handlers find it, and a passive checker
    as the gateway has it. *)
#[local] Instance up_or_down : Transport bool := {|
  RoundTrip _ _ (up : bool) := (up, if up then reply JNull else lost);
  CloseTransport up := up;
  Healthy (up : bool) := up;
|}.

Definition found (up : bool) : CheckEnv bool := MkCheckEnv 0 (λ _, 0) (λ _ _, up).
Definition passive_options : CheckerOptions RedisStore := MkCheckerOptions None false true 0 0 false.

(** Two failures in a row are forgiven and the third is not, for an active checker
    and for a passive one. *)
Lemma polled_health_witness :
  healthy_of "a" (foldl (λ c env, check env c) (NewChecker [flaky; steady] None agent_options) [quick 0; quick 30; quick 60]) = false ∧
  (let passive downs := foldl (λ c env, check env c) (NewChecker [MkInfo "a" true 1 false false] None passive_options)
                          (replicate downs (found false)) in
   healthy_of "a" (passive 2%nat) = true ∧ healthy_of "a" (passive 3%nat) = false).
Proof.
  cbv zeta. split; [|split].
  - rewrite (polled_health [flaky; steady] None agent_options [quick 0; quick 30; quick 60] 0 flaky);
      [vm_compute; reflexivity|apply (bool_decide_unpack _); vm_compute; exact I|reflexivity|right; left; reflexivity].
  - rewrite (polled_health [MkInfo "a" true 1 false false] None passive_options (replicate 2 (found false)) 0 (MkInfo "a" true 1 false false));
      [vm_compute; reflexivity|apply (bool_decide_unpack _); vm_compute; exact I|reflexivity|left; reflexivity].
  - rewrite (polled_health [MkInfo "a" true 1 false false] None passive_options (replicate 3 (found false)) 0 (MkInfo "a" true 1 false false));
      [vm_compute; reflexivity|apply (bool_decide_unpack _); vm_compute; exact I|reflexivity|left; reflexivity].
Defined.

Lemma ready_iff_some_healthy_witness :
  let c := check (quick 0) (NewChecker [flaky; steady] None agent_options) in
  ((HandleReadiness c).1 = 200 ↔ ∃ u, u ∈ monitored c ∧ healthy_of (ui_name u) c = true).
Proof.
  apply (ready_iff_some_healthy [flaky; steady] None agent_options). apply rtc_once, step_check.
Defined.

(** The context of the store is made before the upstreams are probed, for two
    seconds, but a probe may take five: the status of an upstream whose probes time
    out is never written. The agent finds it unhealthy, and a gateway that reads
    the store falls back to the default, by which it is healthy. *)
Definition slow (t : Z) : CheckEnv script := MkCheckEnv t (λ _, t + 5 * Duration.Second) (λ _ x, x).

Definition reads_from (s : RedisStore) : CheckerOptions RedisStore := MkCheckerOptions (Some s) true true 0 0 false.

Theorem slow_probe_never_reported :
  let agent := foldl (λ c env, check env c) (NewChecker [flaky] None agent_options)
                 [slow 0; slow (30 * Duration.Second); slow (60 * Duration.Second)] in
  let gateway := NewChecker [MkInfo "a" [] 1 false false] None (reads_from (default (MkRedisStore "" true ∅) (store agent))) in
  healthy_of "a" agent = false ∧ healthy_of "a" (check (quick (66 * Duration.Second)) gateway) = true.
Proof. split; vm_compute; reflexivity. Qed.
