(* ===== verification/Server.v ===== *)
(** * The inbound MCP server ([internal/server/server.go])

    [serveMCP] is the handler of POST /mcp: the authentication that [New] wraps
    around it, then [handleMCP] with its size limits, the parser, and the
    dispatch of single requests and batches. The handler of tools/call is that of
    [Proxy]. Of the TLS setup only [parseTLSVersion] is here: the
    rest is in [Tls], and the mux with its routes in [Gateway]. *)

From stdpp Require Import sorting.
From S2P Require Import Prelude GoLib Json JsonRpc Transport ConfigData Config RateLimit Router AuthStore Auth Proxy.
Import GoStr.

Definition supportedProtocolVersion : string := "2025-11-25".
Definition maxRequestBody : Z := 10 * 2 ^ 20.
Definition maxBatchSize : nat := 100.

Definition truncate (s : string) (n : nat) : string :=
  if bool_decide (String.length s ≤ n)%nat then s else String.substring 0 n s +:+ "...".

(** The numbers of [crypto/tls]. *)
Definition parseTLSVersion (v : string) : Z :=
  if bool_decide (v = "1.0") then 769
  else if bool_decide (v = "1.1") then 770
  else if bool_decide (v = "1.3") then 772
  else 771.

Definition writeError (id : option ID) (code : Z) (message : string) (w : ResponseWriter) : ResponseWriter :=
  writeJSONResponse (NewErrorResponse id code message) w.

Definition write_json (j : json) (w : ResponseWriter) : ResponseWriter :=
  let w := set_header "Content-Type" "application/json" w in MkWriter (w_status w) (w_headers w) (JSONBody j).

(** [w.WriteHeader(http.StatusAccepted)] *)
Definition accepted_status (w : ResponseWriter) : ResponseWriter := MkWriter 202 (w_headers w) NoBody.

Section server.
Context `{Float64.GoPlatform} `{GoRange} {T R X RLEnv E S : Type} `{Transport T} `{RateLimiter RLEnv R}
  `{UpstreamAuth X} `{Store E S}.
Variable sha256 : string → string.
Implicit Types (h : Handler T R X) (env : ProxyEnv (RLEnv:=RLEnv)).

(** A failed decoding leaves what was decoded before the failure: the value of
    the last member that is a string. *)
Definition protocolVersion_of (req : Request) : string :=
  match Params req with
  | Some (JObj l) => foldl (λ acc v, default acc (as_string acc v)) "" (field_values "protocolVersion" l)
  | _ => ""
  end.

Definition initialize_result (ctx : Context) h : json :=
  JObj [("capabilities", JObj [("tools", JObj [("listChanged", JBool true)])]);
        ("protocolVersion", JStr supportedProtocolVersion);
        ("serverInfo", JObj [("name", JStr "stile"); ("version", JStr "0.1.0")]);
        ("tools", marshalTools (tools_nil ctx h) (FilteredTools ctx h))].

Definition handleInitialize (ctx : Context) (req : Request) h : Response :=
  let v := protocolVersion_of req in
  if negb (bool_decide (v = "")) && negb (bool_decide (v = supportedProtocolVersion))
  then NewErrorResponse (RequestID req) CodeInvalidParams ("unsupported protocol version: " +:+ v)
  else default (NewErrorResponse (RequestID req) CodeInternalError "failed to build initialize response")
         (NewResponse (RequestID req) (Some (initialize_result ctx h))).

Definition handlePing (req : Request) : Response :=
  default (NewErrorResponse (RequestID req) CodeInternalError "failed to build ping response")
    (NewResponse (RequestID req) (Some (JObj []))).

Definition handleToolsList (ctx : Context) (req : Request) h : Response :=
  default (NewErrorResponse (RequestID req) CodeInternalError "") (HandleToolsList ctx (RequestID req) h).

Definition dispatch (ctx : Context) (req : Request) h : Response :=
  if bool_decide (Method req = "initialize") then handleInitialize ctx req h
  else if bool_decide (Method req = "ping") then handlePing req
  else if bool_decide (Method req = "tools/list") then handleToolsList ctx req h
  else if bool_decide (Method req = "tools/call")
  then NewErrorResponse (RequestID req) CodeInternalError "tools/call in batch not supported"
  else NewErrorResponse (RequestID req) CodeMethodNotFound "method not found".

Definition handleSingle env (ctx : Context) (req : Request) (w : ResponseWriter) h : Handler T R X * ResponseWriter :=
  if IsNotification req then (h, accepted_status w)
  else if bool_decide (Method req = "tools/call") then HandleToolsCall env ctx req w h
  else (h, writeJSONResponse (dispatch ctx req h) w).

(** The loop over a batch; notifications are dropped. *)
Fixpoint batch_responses (ctx : Context) (requests : list Request) h : list Response :=
  match requests with
  | [] => []
  | req :: requests =>
      if IsNotification req then batch_responses ctx requests h
      else dispatch ctx req h :: batch_responses ctx requests h
  end.

Definition handleBatch (ctx : Context) (requests : list Request) (w : ResponseWriter) h : ResponseWriter :=
  match batch_responses ctx requests h with
  | [] => accepted_status w
  | responses => write_json (JArr (Response_MarshalJSON <$> responses)) w
  end.

(** [io.ReadAll] of the limited body: an error counts only if it is met before
    the limit. *)
Definition read_body (body : Stream) : option string :=
  let limit := maxRequestBody + 1 in
  if limit <=? Z.of_nat (String.length (stream_data body))
  then Some (String.substring 0 (Z.to_nat limit) (stream_data body))
  else match stream_err body with Some _ => None | None => Some (stream_data body) end.

Definition handleMCP env (ctx : Context) (body : Stream) (w : ResponseWriter) h : Handler T R X * ResponseWriter :=
  match read_body body with
  | None => (h, writeError None CodeParseError "failed to read request body" w)
  | Some data =>
      if maxRequestBody <? Z.of_nat (String.length data)
      then (h, writeError None CodeInvalidRequest "request body too large" w)
      else match ParseMessage data with
      | (Err err, _) => (h, writeError None CodeParseError (Error_string err) w)
      | (Ok requests, isBatch) =>
          if (maxBatchSize <? length requests)%nat
          then (h, writeError None CodeInvalidRequest "batch too large" w)
          else match isBatch, requests with
          | false, [req] => handleSingle env ctx req w h
          | _, _ => (h, handleBatch ctx requests w h)
          end
      end
  end.

(** The server: what the requests share. *)
Record Server := MkServer {
  proxy : Handler T R X;
  authenticator : option Authenticator;
  callers : S;
}.

(** The context that the wrapper in [New] makes. *)
Definition mcp_context (ctx : Context) (caller : Caller) (keyLabel : string) : Context :=
  let ctx := ContextWithCaller ctx caller in
  if bool_decide (keyLabel = "") then ctx else ContextWithKeyLabel ctx keyLabel.

Definition serveMCP (aenv : AuthEnv) env (header : string) (body : Stream) (srv : Server) : Server * ResponseWriter :=
  match authenticator srv with
  | None =>
      let '(h, w) := handleMCP env Background body new_writer (proxy srv) in
      (MkServer h None (callers srv), w)
  | Some a =>
      match Authenticate sha256 aenv header a (callers srv) with
      | (a, s, Err _) =>
          (MkServer (proxy srv) (Some a) s, writeJSONResponse (NewErrorResponse None (-32000) "unauthorized") new_writer)
      | (a, s, Ok (caller, keyLabel)) =>
          let '(h, w) := handleMCP env (mcp_context Background caller keyLabel) body new_writer (proxy srv) in
          (MkServer h (Some a) s, w)
      end
  end.

Definition set_proxy (srv : Server) h : Server := MkServer h (authenticator srv) (callers srv).

(** [handleRefresh], the admin route without an admin handler. *)
Definition marshal_refresh (r : RefreshResult) : json :=
  JObj [("upstreams", marshal_map ((λ st, JObj [("tools", JNum (Strconv.FormatInt (Z.of_nat (status_tools st))));
                                               ("stale", JBool (status_stale st))]) <$> RefreshUpstreams r));
        ("total_tools", JNum (Strconv.FormatInt (Z.of_nat (TotalTools r))))].

Definition handleRefresh (ctx : Context) (now : Z) (w : ResponseWriter) h : Handler T R X * ResponseWriter :=
  let '(rt, res) := Refresh ctx now (router h) in (set_router h rt, write_json (marshal_refresh res) w).
End server.
Arguments MkServer {T R X S}. Arguments proxy {T R X S}. Arguments authenticator {T R X S}. Arguments callers {T R X S}.

(** ** Properties *)

Section props.
Context `{Float64.GoPlatform} `{GoRange} {T R X RLEnv : Type} `{Transport T} `{RateLimiter RLEnv R} `{UpstreamAuth X}.
Implicit Types (h : Handler T R X) (env : ProxyEnv (RLEnv:=RLEnv)).

(** A JSON-RPC response to a request: same id, a result or an error. *)
Definition answers (req : Request) (resp : Response) : Prop :=
  RJSONRPC resp = Version ∧ ResponseID resp = RequestID req ∧ (RError resp = None ↔ is_Some (Result resp)).

Definition known_methods : list string := ["initialize"; "ping"; "tools/list"; "tools/call"].

Lemma dispatch_spec ctx req h :
  answers req (dispatch ctx req h) ∧
  (Code <$> RError (dispatch ctx req h) = Some CodeMethodNotFound ↔ Method req ∉ known_methods).
Proof.
  assert (∀ resp : Response, (RJSONRPC resp = Version ∧ ResponseID resp = RequestID req) →
    (is_Some (Result resp) ∧ RError resp = None ∨ Result resp = None ∧ is_Some (RError resp)) → answers req resp) as Hans.
  { intros resp [? ?] [[? ?]|[Hr [e He]]]; split_and!; try done; rewrite ?Hr, ?He; split; try done; by intros []. }
  unfold dispatch, known_methods.
  case_bool_decide as Hm1; [|case_bool_decide as Hm2; [|case_bool_decide as Hm3; [|case_bool_decide as Hm4]]].
  - split; [unfold handleInitialize; destruct (_ && _); apply Hans; simpl; eauto|].
    rewrite Hm1. split; [|set_solver]. unfold handleInitialize. by destruct (_ && _).
  - split; [apply Hans; simpl; eauto|]. rewrite Hm2. split; [done|set_solver].
  - assert (∃ j, handleToolsList ctx req h = MkResponse Version (Some j) None (RequestID req)) as [j ->].
    { unfold handleToolsList, HandleToolsList. destruct (filteredToolsWithPending ctx h). simpl. eauto. }
    split; [apply Hans; simpl; eauto|]. rewrite Hm3. split; [done|set_solver].
  - split; [apply Hans; simpl; eauto|]. rewrite Hm4. split; [done|set_solver].
  - split; [apply Hans; simpl; eauto|]. split; [set_solver|done].
Qed.

(** What is read of a body within the limit. *)
Lemma read_body_within body :
  stream_err body = None → Z.of_nat (String.length (stream_data body)) ≤ maxRequestBody →
  read_body body = Some (stream_data body).
Proof.
  intros He Hl. unfold read_body. rewrite He.
  destruct (Z.leb_spec (maxRequestBody + 1) (Z.of_nat (String.length (stream_data body)))); [lia|done].
Qed.

Lemma batch_responses_spec ctx requests h :
  Forall2 answers (filter (λ r, IsNotification r = false) requests) (batch_responses ctx requests h).
Proof.
  induction requests as [|req requests IH]; simpl; [constructor|]. rewrite filter_cons.
  destruct (IsNotification req); simpl; [done|]. constructor; [apply dispatch_spec|done].
Qed.

(** A batch within the limits is answered completely and changes nothing:
    one response for every request that is not a notification, in order and with
    the request's id, each with a result or an error; a batch of notifications
    only gets status 202 and no body. *)
Theorem batch_answered env ctx body w h requests :
  stream_err body = None → Z.of_nat (String.length (stream_data body)) ≤ maxRequestBody →
  ParseMessage (stream_data body) = (Ok requests, true) → (length requests ≤ maxBatchSize)%nat →
  let '(h', w') := handleMCP env ctx body w h in
  h' = h ∧
  match filter (λ r, IsNotification r = false) requests with
  | [] => w_status w' = 202 ∧ w_body w' = NoBody
  | calls => ∃ resps, w_body w' = JSONBody (JArr (Response_MarshalJSON <$> resps)) ∧ Forall2 answers calls resps
  end.
Proof.
  intros He Hl Hp Hb. unfold handleMCP. rewrite read_body_within by done.
  rewrite (proj2 (Z.ltb_ge _ _)) by done. rewrite Hp. rewrite (proj2 (Nat.ltb_ge _ _)) by done.
  split; [done|]. unfold handleBatch. pose proof (batch_responses_spec ctx requests h) as Hf.
  destruct Hf as [|req resp calls resps Ha Hf]; [done|].
  exists (resp :: resps). split; [done|]. by constructor.
Qed.

(** The limits come before any work: a body of more than 10 MB and a batch of
    more than 100 entries are refused as invalid requests, and no upstream,
    limiter, token or audit log is touched. *)
Theorem limits_enforced env ctx body w h requests b :
  (maxRequestBody < Z.of_nat (String.length (stream_data body)) →
    handleMCP env ctx body w h = (h, writeError None CodeInvalidRequest "request body too large" w)) ∧
  (stream_err body = None → Z.of_nat (String.length (stream_data body)) ≤ maxRequestBody →
    ParseMessage (stream_data body) = (Ok requests, b) → (maxBatchSize < length requests)%nat →
    handleMCP env ctx body w h = (h, writeError None CodeInvalidRequest "batch too large" w)).
Proof.
  split.
  - intros Hl. unfold handleMCP, read_body. assert (0 ≤ maxRequestBody) as Hpos by done.
    rewrite (proj2 (Z.leb_le _ _)) by lia.
    assert (∀ n s, (n ≤ String.length s)%nat → String.length (String.substring 0 n s) = n) as Hsub.
    { clear. intros n s. revert n. induction s as [|c s IH]; intros [|n] Hn; simpl in *; try lia.
      rewrite IH by lia. lia. }
    generalize dependent maxRequestBody. intros limit Hl Hpos. rewrite Hsub by lia.
    rewrite (proj2 (Z.ltb_lt _ _)) by lia. reflexivity.
  - intros He Hl Hp Hb. unfold handleMCP. rewrite read_body_within by done.
    rewrite (proj2 (Z.ltb_ge _ _)) by done. rewrite Hp. by rewrite (proj2 (Nat.ltb_lt _ _)).
Qed.

(** A single request other than tools/call changes nothing and is answered
    with a result or an error under its own id, method-not-found exactly if the
    method is not one of the four known ones; a notification, known or not, gets
    status 202 and no body. *)
Theorem single_answered env ctx req w h :
  IsNotification req = true ∨ Method req ≠ "tools/call" →
  let '(h', w') := handleSingle env ctx req w h in
  h' = h ∧
  if IsNotification req then w_status w' = 202 ∧ w_body w' = NoBody
  else ∃ resp, w_body w' = JSONBody (Response_MarshalJSON resp) ∧ answers req resp ∧
         (Code <$> RError resp = Some CodeMethodNotFound ↔ Method req ∉ known_methods).
Proof.
  intros Hm. unfold handleSingle. destruct (IsNotification req); [done|].
  rewrite bool_decide_eq_false_2 by naive_solver. split; [done|]. eexists. split; [done|]. apply dispatch_spec.
Qed.

(** The proxy changes in one place only. *)
Lemma handleMCP_changes env ctx body w h :
  (handleMCP env ctx body w h).1 = h ∨
  ∃ data req, read_body body = Some data ∧ ParseMessage data = (Ok [req], false) ∧ Method req = "tools/call" ∧
    handleMCP env ctx body w h = HandleToolsCall env ctx req w h.
Proof.
  unfold handleMCP. destruct (read_body body) as [data|]; [|by left].
  destruct (_ <? _); [by left|]. destruct (ParseMessage data) as [[requests|err] []] eqn:Ep; try by left.
  - destruct (_ <? _)%nat; by left.
  - destruct (_ <? _)%nat; [by left|]. destruct requests as [|req [|? ?]]; try by left.
    unfold handleSingle. destruct (IsNotification req); [by left|]. case_bool_decide; [|by left].
    right. by exists data, req.
Qed.
End props.

Section end_to_end.
Context `{Float64.GoPlatform} `{GoRange} {T R X RLEnv E S : Type} `{Transport T} `{RateLimiter RLEnv R}
  `{UpstreamAuth X} `{StoreLaws E S}.
Variables (sha256 : string → string) (glob_compile : string → option Glob).
Implicit Types (srv : Server (T:=T) (R:=R) (X:=X) (S:=S)) (env : ProxyEnv (RLEnv:=RLEnv)).

(** C1: end to end, with authentication configured, an upstream is contacted
    only on behalf of an authenticated caller who may use the tool: if serving
    a request to /mcp changes any upstream at all, then its bearer token is a key
    (or OIDC token) of a caller, its body is a single tools/call, that call passed
    every guard of the proxy, the named tool matches a pattern of a configured
    role that the store assigns to the caller, and what changed is the transport
    of the one upstream the tool is routed to. *)
Theorem mcp_access_end_to_end aenv env header body srv a roles :
  authenticator srv = Some a → NoDup (role_name <$> roles) → configured glob_compile roles a →
  let '(srv', _) := serveMCP sha256 aenv env header body srv in
  rt_upstreams (router (proxy srv')) ≠ rt_upstreams (router (proxy srv)) →
  ∃ c l data req tool route u rtCtx,
    credential sha256 aenv a (callers srv') header (CallerName c) l ∧
    read_body body = Some data ∧ ParseMessage data = (Ok [req], false) ∧ Method req = "tools/call" ∧
    forwarded env (mcp_context Background c l) req (proxy srv) tool route u rtCtx ∧
    may_use glob_compile roles (roles_of (callers srv') (CallerName c)) tool ∧
    rt_upstreams (router (proxy srv')) =
      set_transport (uid u) (RoundTrip rtCtx (outbound req tool route) (up_transport u)).1
        (rt_upstreams (router (proxy srv))).
Proof.
  intros Ha Hnd Hcf. unfold serveMCP. rewrite Ha.
  destruct (Authenticate sha256 aenv header a (callers srv)) as [[a' s'] [[c l]|e]] eqn:Eauth; [|done].
  destruct (Authenticate_sound sha256 glob_compile aenv header roles a (callers srv) a' s' c l Hnd Hcf Eauth) as (Hcred & _ & Huse).
  set (ctx := mcp_context Background c l).
  destruct (handleMCP_changes env ctx body new_writer (proxy srv)) as [Hsame|(data & req & Hd & Hp & Hm & Heq)].
  { destruct (handleMCP _ _ _ _ _) as [h' w']. simpl in *. by subst h'. }
  rewrite Heq. destruct (forwarded_dec env ctx req (proxy srv)) as [(tool & route & u & rtCtx & Hf)|Hn].
  - pose proof (HandleToolsCall_forwarded env ctx req new_writer (proxy srv) _ _ _ _ Hf) as Hr.
    destruct (RoundTrip _ _ _) as [t res] eqn:Ert. destruct (HandleToolsCall _ _ _ _ _) as [h' w'].
    destruct Hr as (_ & Hu & _ & _). simpl in *. intros _. exists c, l, data, req, tool, route, u, rtCtx.
    split_and!; try done; [|by rewrite Ert]. apply Huse.
    pose proof (ro_access _ _ _ _ _ _ (fw_routed _ _ _ _ _ _ _ _ Hf)) as Hacc. unfold access_ok, ctx, mcp_context in Hacc.
    by destruct (bool_decide (l = "")).
  - pose proof (HandleToolsCall_not_forwarded env ctx req new_writer (proxy srv) Hn) as (Hr & _).
    destruct (HandleToolsCall _ _ _ _ _) as [h' w']. simpl in *. by rewrite Hr.
Qed.

(** A request to /mcp that does not authenticate has no effect on the proxy
    and is answered with the JSON-RPC error -32000; its HTTP status is 200. *)
Theorem unauthenticated_refused aenv env header body srv a e :
  authenticator srv = Some a → (Authenticate sha256 aenv header a (callers srv)).2 = Err e →
  let '(srv', w) := serveMCP sha256 aenv env header body srv in
  proxy srv' = proxy srv ∧ w_status w = 200 ∧
  w_body w = JSONBody (Response_MarshalJSON (NewErrorResponse None (-32000) "unauthorized")).
Proof.
  intros Ha He. unfold serveMCP. rewrite Ha.
  destruct (Authenticate sha256 aenv header a (callers srv)) as [[a' s'] r]. simpl in He. by subst r.
Qed.
End end_to_end.

(** ** Concrete requests *)

#[local] Existing Instance scripted.
#[local] Existing Instance Float64.amd64.
#[local] Existing Instance switch_limiter.
#[local] Existing Instance toy_oauth.

Definition body_of (s : string) : Stream := MkStream s None.

(** A request document: members as pairs of a name and a literal. *)
Definition doc (l : list (string * string)) : string :=
  "{" +:+ String.concat "," ((λ kv, quoted kv.1 +:+ ":" +:+ kv.2) <$> l) +:+ "}".

Definition ping_doc : string := doc [("jsonrpc", quoted "2.0"); ("method", quoted "ping"); ("id", "1")].
Definition note_doc : string := doc [("jsonrpc", quoted "2.0"); ("method", quoted "x")].
Definition call_doc (tool : string) : string :=
  doc [("jsonrpc", quoted "2.0"); ("method", quoted "tools/call"); ("id", "1"); ("params", doc [("name", quoted tool)])].

Definition ping : Request := MkRequest Version "ping" None (Some (IntID 1)).
Definition note : Request := MkRequest Version "x" None None.

Lemma batch_answered_witness :
  ∃ resps, w_body (handleMCP sample_env Background (body_of ("[" +:+ ping_doc +:+ "," +:+ note_doc +:+ "]")) new_writer
    (sample_handler true)).2 = JSONBody (JArr (Response_MarshalJSON <$> resps)) ∧ Forall2 answers [ping] resps.
Proof.
  pose proof (batch_answered sample_env Background (body_of ("[" +:+ ping_doc +:+ "," +:+ note_doc +:+ "]")) new_writer
    (sample_handler true) [ping; note] eq_refl ltac:(apply (bool_decide_unpack _); vm_compute; exact I)
    ltac:(vm_compute; reflexivity) ltac:(apply (bool_decide_unpack _); vm_compute; exact I)) as H.
  destruct (handleMCP _ _ _ _ _) as [h' w']. destruct H as [_ H]. exact H.
Defined.

Lemma limits_enforced_witness :
  handleMCP sample_env Background (body_of ("[" +:+ String.concat "," (repeat note_doc 101) +:+ "]")) new_writer (sample_handler true) =
    (sample_handler true, writeError None CodeInvalidRequest "batch too large" new_writer).
Proof.
  apply (limits_enforced sample_env Background (body_of ("[" +:+ String.concat "," (repeat note_doc 101) +:+ "]")) new_writer
    (sample_handler true) (repeat note 101) true).
  - reflexivity.
  - apply (bool_decide_unpack _). vm_compute. exact I.
  - vm_compute. reflexivity.
  - apply (bool_decide_unpack _). vm_compute. exact I.
Defined.

Lemma single_answered_witness :
  ∃ resp, w_body (handleSingle sample_env Background ping new_writer (sample_handler true)).2 = JSONBody (Response_MarshalJSON resp) ∧
    answers ping resp.
Proof.
  pose proof (single_answered sample_env Background ping new_writer (sample_handler true)
    ltac:(right; apply (bool_decide_unpack _); vm_compute; exact I)) as H.
  destruct (handleSingle _ _ _ _ _) as [h' w']. destruct H as (_ & resp & Hb & Ha & _). exists resp. split; assumption.
Defined.

(** The code of a refusal is -32700, parse error, also for a body that is
    valid JSON and that the parser refuses with the code -32600 of an invalid
    request; that code ends up inside the message. *)
Theorem invalid_request_code :
  (∃ m, (ParseMessage (doc [("jsonrpc", quoted "2.0")])).1 = Err (MkError CodeInvalidRequest m None)) ∧
  handleMCP sample_env Background (body_of (doc [("jsonrpc", quoted "2.0")])) new_writer (sample_handler true) =
    (sample_handler true, writeError None CodeParseError "jsonrpc: code -32600: missing method field" new_writer).
Proof. split; [eexists|]; vm_compute; reflexivity. Qed.

Definition sample_authenticator : Authenticator := NewAuthenticator plain_glob sample_getenv sample_roles None.

(** The server in front of an upstream with the tool "search", which ann may
    use. *)
Definition search_table : RouteTable script :=
  New {["svc" := [reply JNull; reply JNull; reply (offer ["search"; "drop"]); reply (JBool true)]]} [raw_upstream] 0.

Definition sample_server : Server (T:=script) (R:=bool) (X:=nat) (S:=DB) :=
  MkServer (MkHandler search_table (Some true) None None 0%nat true true) (Some sample_authenticator) sample_db.

Lemma mcp_access_end_to_end_witness :
  ∃ c l tool, credential (H0:=SQLiteStore_laws) id sample_auth_env sample_authenticator sample_db "Bearer h1" (CallerName c) l ∧
    may_use plain_glob sample_roles (roles_of_db sample_db (CallerName c)) tool.
Proof.
  pose proof (mcp_access_end_to_end (H5:=SQLiteStore_laws) id plain_glob sample_auth_env sample_env "Bearer h1"
    (body_of (call_doc "search")) sample_server sample_authenticator sample_roles eq_refl
    ltac:(apply (bool_decide_unpack _); vm_compute; exact I) ltac:(split; reflexivity)) as H.
  destruct (serveMCP _ _ _ _ _ _) as [srv' w] eqn:Es.
  assert (callers srv' = sample_db) as Hdb by (change srv' with ((srv', w).1); rewrite <- Es; vm_compute; reflexivity).
  destruct H as (c & l & data & req & tool & route & u & rtCtx & Hc & _ & _ & _ & _ & Hu & _).
  - change srv' with ((srv', w).1). rewrite <- Es. intros Heq.
    apply (f_equal (λ us, length <$> (up_transport <$> head us))) in Heq. vm_compute in Heq. discriminate Heq.
  - rewrite Hdb in Hc, Hu. exists c, l, tool. split; [exact Hc|exact Hu].
Defined.

Lemma unauthenticated_refused_witness :
  let '(srv', w) := serveMCP id sample_auth_env sample_env "Bearer nope" (body_of (call_doc "search")) sample_server in
  proxy srv' = proxy sample_server ∧ w_status w = 200.
Proof.
  pose proof (unauthenticated_refused (H4:=SQLiteStore) id sample_auth_env sample_env "Bearer nope" (body_of (call_doc "search")) sample_server
    sample_authenticator "unauthorized" eq_refl ltac:(vm_compute; reflexivity)) as H.
  destruct (serveMCP _ _ _ _ _ _) as [srv' w]. destruct H as (H1 & H2 & _). split; assumption.
Defined.
