(* ===== verification/Tls.v ===== *)
(** * TLS setup ([internal/server/server.go], [internal/transport/http.go])

    The TLS configurations that the server and the HTTP transports build from
    their files, and what [crypto/tls] documents of a handshake with them. The
    files, the PEM decoder and the verification of a certificate chain are
    parameters. *)

From S2P Require Import Prelude GoLib Json JsonRpc Transport ConfigData Server.
Import GoStr.

(** A certificate, by its encoding. *)
Record certificate := MkCertificate { der : string }.
#[global] Instance certificate_eq_dec : EqDecision certificate.
Proof. solve_decision. Defined.

(** The files: their bytes, the pair of a certificate and its key, the
    certificates in a PEM text. *)
Record TLSFiles := MkFiles {
  ReadFile : string → option string;
  LoadX509KeyPair : string → string → option certificate;
  pem_certificates : string → list certificate;
}.

Inductive ClientAuthType := NoClientCert | RequireAndVerifyClientCert.

(** The fields of [tls.Config] in use; [None] is a nil pool. *)
Record tls_config := MkTLS {
  tc_MinVersion : Z;
  tc_Certificates : list certificate;
  tc_ClientCAs : option (list certificate);
  tc_ClientAuth : ClientAuthType;
  tc_RootCAs : option (list certificate);
  tc_InsecureSkipVerify : bool;
}.

Section build.
Variable fs : TLSFiles.

(** [AppendCertsFromPEM] on a new pool: at least one certificate is needed. *)
Definition pool_of_file (file : string) (unread unparsed : string) : result string (list certificate) :=
  match ReadFile fs file with
  | None => Err unread
  | Some pem => match pem_certificates fs pem with [] => Err (unparsed +:+ file) | pool => Ok pool end
  end.

Definition buildServerTLSConfig (cfg : ServerTLSConfig) : result string tls_config :=
  match LoadX509KeyPair fs (certFile cfg) (keyFile cfg) with
  | None => Err "load server certificate"
  | Some cert =>
      let tc := MkTLS (parseTLSVersion (minVersion cfg)) [cert] None NoClientCert None false in
      if bool_decide (clientCAFile cfg = "") then Ok tc
      else
        pool ← pool_of_file (clientCAFile cfg) "read client CA file" "failed to parse client CA certificate from ";
        Ok (MkTLS (tc_MinVersion tc) (tc_Certificates tc) (Some pool) RequireAndVerifyClientCert None false)
  end.

Definition buildUpstreamTLSConfig (cfg : UpstreamTLSConfig) : result string tls_config :=
  roots ← (if bool_decide (u_caFile cfg = "") then Ok None
           else Some <$> pool_of_file (u_caFile cfg) "read CA file" "failed to parse CA certificate from ");
  certs ← (if negb (bool_decide (u_certFile cfg = "")) && negb (bool_decide (u_keyFile cfg = "")) then
             match LoadX509KeyPair fs (u_certFile cfg) (u_keyFile cfg) with None => Err "load client certificate" | Some c => Ok [c] end
           else Ok []);
  Ok (MkTLS 0 certs None NoClientCert roots (insecureSkipVerify cfg)).

(** ** The server's listener *)

Inductive listener := PlainHTTP | HTTPS (tc : tls_config).

(** The end of [server.New], and [ListenAndServe]; an error ends the process. *)
Definition server_listener (cfg : ServerConfig) : result string listener :=
  match server_tls cfg with
  | None => Ok PlainHTTP
  | Some t => match buildServerTLSConfig t with Err _ => Err "build server TLS config failed" | Ok tc => Ok (HTTPS tc) end
  end.

Definition TLSEnabled (l : listener) : bool := match l with PlainHTTP => false | HTTPS _ => true end.

(** ** The client of an HTTP upstream *)

Record http_client := MkClient { ResponseHeaderTimeout : Z; TLSClientConfig : option tls_config }.

Definition upstream_client (h : HTTPUpstreamConfig) : result string http_client :=
  let timeout := if h_timeout h <=? 0 then 60 * Duration.Second else h_timeout h in
  match h_tls h with
  | None => Ok (MkClient timeout None)
  | Some t =>
      match buildUpstreamTLSConfig t with
      | Err e => Err ("transport/http: build TLS config for " +:+ h_name h +:+ ": " +:+ e)
      | Ok tc => Ok (MkClient timeout (Some tc))
      end
  end.

(** [NewHTTPTransport]; [net] is the network behind a client. *)
Definition new_http_transport {N} (getenv : string → string) (net : http_client → N) (h : HTTPUpstreamConfig) : result string (HTTPTransport N) :=
  c ← upstream_client h;
  Ok (NewHTTPTransport getenv (h_url h) (tokenEnv <$> h_auth h) (net c)).

(** ** Handshakes *)

Variable chains : list certificate → certificate → bool.   (* [Certificate.Verify] against a pool *)
Variable system_roots : list certificate.

Definition verified (pool : option (list certificate)) (c : certificate) : bool := chains (default system_roots pool) c.

(** Whether the server goes on with a client that offers [version] at most and
    shows [peer]. A server without a certificate completes no handshake. *)
Definition server_accepts (tc : tls_config) (version : Z) (peer : option certificate) : bool :=
  negb (bool_decide (tc_Certificates tc = [])) && (tc_MinVersion tc <=? version) &&
  match tc_ClientAuth tc with
  | NoClientCert => true
  | RequireAndVerifyClientCert => match peer with Some c => verified (tc_ClientCAs tc) c | None => false end
  end.

(** A connection: without TLS, or a handshake. *)
Inductive connection := Unencrypted | Handshake (version : Z) (peer : option certificate).

Definition lets_in (l : listener) (c : connection) : bool :=
  match l, c with
  | PlainHTTP, Unencrypted => true
  | HTTPS tc, Handshake version peer => server_accepts tc version peer
  | _, _ => false
  end.

(** The certificates that a listener shows to its clients. *)
Definition presented (l : listener) : list certificate :=
  match l with PlainHTTP => [] | HTTPS tc => tc_Certificates tc end.

(** Whether a transport trusts the certificate of its upstream; without a
    configuration [net/http] verifies against the system's roots. *)
Definition upstream_trusted (c : http_client) (cert : certificate) : bool :=
  match TLSClientConfig c with
  | None => verified None cert
  | Some tc => tc_InsecureSkipVerify tc || verified (tc_RootCAs tc) cert
  end.

(** ** Properties *)

Lemma pool_of_file_Ok file e1 e2 pool : pool_of_file file e1 e2 = Ok pool →
  ∃ pem, ReadFile fs file = Some pem ∧ pem_certificates fs pem = pool ∧ pool ≠ [].
Proof.
  unfold pool_of_file. destruct (ReadFile fs file) as [pem|]; [|done].
  destruct (pem_certificates fs pem) as [|c l] eqn:Ep; [done|]. intros [= <-]. exists pem. by rewrite Ep.
Qed.

(** The files of a server with TLS can be used: a certificate with its key, and for
    a client CA a file with certificates. *)
Definition usable (t : ServerTLSConfig) : Prop :=
  is_Some (LoadX509KeyPair fs (certFile t) (keyFile t)) ∧
  (clientCAFile t ≠ "" → ∃ pem, ReadFile fs (clientCAFile t) = Some pem ∧ pem_certificates fs pem ≠ []).

Lemma pool_of_file_usable file e1 e2 : is_ok (pool_of_file file e1 e2) = true ↔
  ∃ pem, ReadFile fs file = Some pem ∧ pem_certificates fs pem ≠ [].
Proof.
  unfold pool_of_file. destruct (ReadFile fs file) as [pem|]; [|naive_solver].
  destruct (pem_certificates fs pem) as [|c l] eqn:Ep; simpl; [split; [done|naive_solver]|]. split; [|done].
  intros _. exists pem. by rewrite Ep.
Qed.

Lemma buildServerTLSConfig_usable t : is_ok (buildServerTLSConfig t) = true ↔ usable t.
Proof.
  unfold buildServerTLSConfig, usable. destruct (LoadX509KeyPair fs _ _) as [cert|]; [|simpl; split; [done|by intros [[? ?] _]]].
  case_bool_decide as Hca; [simpl; naive_solver|].
  pose proof (pool_of_file_usable (clientCAFile t) "read client CA file" "failed to parse client CA certificate from ") as Hp.
  destruct (pool_of_file _ _ _) as [pool|e]; simpl in *; naive_solver.
Qed.

(** C29: a server with TLS never falls back. It starts exactly if its files can be
    used: the certificate with its key, and the client CA if there is one. Once
    started it shows the configured certificate, and it admits no plain connection, no
    version below the configured one, and, with a client CA, no client without a
    certificate that verifies against the certificates of that file; otherwise every
    client of a sufficient version. Without TLS it takes plain connections only. *)
Theorem tls_enforced cfg :
  (is_ok (server_listener cfg) = true ↔ ∀ t, server_tls cfg = Some t → usable t) ∧
  ∀ l c, server_listener cfg = Ok l →
    TLSEnabled l = bool_decide (is_Some (server_tls cfg)) ∧
    (∀ t, server_tls cfg = Some t → option_list (LoadX509KeyPair fs (certFile t) (keyFile t)) = presented l ∧ presented l ≠ []) ∧
    (lets_in l c = true ↔
      match server_tls cfg with
      | None => c = Unencrypted
      | Some t => ∃ version peer, c = Handshake version peer ∧ parseTLSVersion (minVersion t) ≤ version ∧
          (clientCAFile t ≠ "" → ∃ cert pem, peer = Some cert ∧ ReadFile fs (clientCAFile t) = Some pem ∧
             pem_certificates fs pem ≠ [] ∧ chains (pem_certificates fs pem) cert = true)
      end).
Proof.
  split.
  { unfold server_listener. destruct (server_tls cfg) as [t|]; [|done]. pose proof (buildServerTLSConfig_usable t) as Hu.
    destruct (buildServerTLSConfig t); simpl in *; naive_solver. }
  intros l c. unfold server_listener. destruct (server_tls cfg) as [t|]; [|intros [= <-]; split_and!; [done..|]; by destruct c].
  unfold buildServerTLSConfig. destruct (LoadX509KeyPair fs _ _) as [cert|] eqn:El; [|done].
  case_bool_decide as Hca; [intros [= <-]|].
  - split_and!; [done|intros t' [= <-]; by rewrite El|]. destruct c as [|v peer]; [split; [done|naive_solver]|].
    cbn. unfold server_accepts. cbn. rewrite andb_true_r, Z.leb_le. naive_solver.
  - destruct (pool_of_file _ _ _) as [pool|] eqn:Ep; [|done]. cbn [mbind result_bind]. intros [= <-].
    apply pool_of_file_Ok in Ep as (pem & Hr & <- & Hne). split_and!; [done|intros t' [= <-]; by rewrite El|].
    destruct c as [|v peer]; [split; [done|naive_solver]|].
    cbn. unfold server_accepts, verified. cbn. rewrite andb_true_iff, Z.leb_le. split.
    + intros [Hv Hp]. destruct peer as [cert'|]; [|done]. exists v, (Some cert'). split_and!; [done..|]. intros _. by exists cert', pem.
    + intros (v' & peer' & [= <- <-] & Hv & Hpeer). split; [done|]. destruct (Hpeer Hca) as (cert' & pem' & -> & Hr' & _ & Hc). congruence.
Qed.

(** A transport to an upstream verifies its certificate, against the file of the
    configuration if there is one, unless that is switched off; it shows a client
    certificate exactly if one is configured with its key; a response header has
    always a deadline. *)
Theorem upstream_tls h c cert :
  upstream_client h = Ok c →
  0 < ResponseHeaderTimeout c ∧
  (upstream_trusted c cert = true ↔
    match h_tls h with
    | None => chains system_roots cert = true
    | Some t => insecureSkipVerify t = true ∨
        if bool_decide (u_caFile t = "") then chains system_roots cert = true
        else ∃ pem, ReadFile fs (u_caFile t) = Some pem ∧ chains (pem_certificates fs pem) cert = true
    end) ∧
  (from_option tc_Certificates [] (TLSClientConfig c) ≠ [] ↔ ∃ t, h_tls h = Some t ∧ u_certFile t ≠ "" ∧ u_keyFile t ≠ "").
Proof.
  unfold upstream_client. set (timeout := if h_timeout h <=? 0 then _ else _).
  assert (0 < timeout) as Ht by (unfold timeout; destruct (Z.leb_spec (h_timeout h) 0); [done|lia]).
  destruct (h_tls h) as [t|]; [|intros [= <-]; split_and!; [done|done|]; split; [done|naive_solver]].
  unfold buildUpstreamTLSConfig.
  destruct (if bool_decide (u_caFile t = "") then _ else _) as [roots|] eqn:Er; [|done]. cbn [mbind result_bind].
  destruct (if negb (bool_decide (u_certFile t = "")) && _ then _ else _) as [certs|] eqn:Ec; [|done]. intros [= <-].
  split_and!; [done|..]; cbn [TLSClientConfig from_option tc_Certificates].
  - unfold upstream_trusted, verified. cbn [TLSClientConfig tc_InsecureSkipVerify tc_RootCAs]. rewrite orb_true_iff. apply or_iff_compat_l.
    destruct (bool_decide (u_caFile t = "")); [by injection Er as <-|]. destruct (pool_of_file _ _ _) as [pool|] eqn:Ep; [|done]. injection Er as <-.
    apply pool_of_file_Ok in Ep as (pem & Hr & <- & _). cbn [default from_option id]. split; [eauto|]. intros (pem' & Hr' & Hc). congruence.
  - destruct (bool_decide_reflect (u_certFile t = "")), (bool_decide_reflect (u_keyFile t = "")); cbn [negb andb] in Ec;
      [injection Ec as <-; naive_solver..|]. destruct (LoadX509KeyPair fs _ _); [|done]. injection Ec as <-. split; [eauto|done].
Qed.
End build.

(** ** A run *)

Definition sample_files : TLSFiles :=
  MkFiles (λ f, if bool_decide (f = "ca.pem") then Some "ca" else None)
    (λ c k, if bool_decide (c = "srv.pem") && bool_decide (k = "srv.key") then Some (MkCertificate "srv") else None)
    (λ pem, [MkCertificate pem]).

Definition sample_chains (pool : list certificate) (c : certificate) : bool :=
  existsb (λ ca, bool_decide (der c = der ca +:+ "/leaf")) pool.

Definition mtls_server : ServerConfig :=
  ConfigData.MkServer ":8443" 0 "" (MkDatabase "" "") 0 (Some (MkServerTLS "srv.pem" "srv.key" "1.2" "ca.pem")) 0.

(** A client without a certificate is refused, one of the CA is lets_in. *)
Lemma tls_enforced_witness :
  ∃ l, server_listener sample_files mtls_server = Ok l ∧
    lets_in sample_chains [] l (Handshake 772 (Some (MkCertificate "ca/leaf"))) = true ∧
    lets_in sample_chains [] l (Handshake 772 None) = false ∧ TLSEnabled l = true.
Proof.
  eexists. split; [reflexivity|].
  match goal with |- lets_in _ _ ?l ?c = true ∧ _ =>
    destruct (proj2 (tls_enforced sample_files sample_chains [] mtls_server) l c eq_refl) as (He & _ & Ha) end.
  split; [|split; [reflexivity|exact He]]. apply Ha. exists 772, (Some (MkCertificate "ca/leaf")). split; [reflexivity|].
  split; [vm_compute; discriminate|]. intros _. exists (MkCertificate "ca/leaf"), "ca". split_and!; [reflexivity..|discriminate|reflexivity].
Defined.
