(* ===== verification/Admin.v ===== *)
(** * The admin API ([internal/admin/handler.go], [session.go])

    Session cookies ([Session]) and the JSON handlers of callers, keys, roles,
    the cache, audit entries and OAuth connections, over the class [Store]. A
    handler takes the readings of its request from outside ([AdminEnv]), the
    request and the state that the handlers share. Routing, the pages and the
    authentication around them are in [AdminUI]. *)

From Stdlib Require Import SpecFloat.
From S2P Require Import Prelude GoLib Json JsonRpc JsonText Transport RateLimit Router Proxy Server Http ConfigData ConfigView.
From S2P Require Import AuthStore CachedStore Auth OAuth Health AuditStore.
Import GoStr.

(** ** Sessions *)

Module Session.
Section session.
(** [hmac key message] is HMAC-SHA256. *)
Variable hmac : string → string → string.

Definition sessionCookieName : string := "stile_session".
Definition sessionTTL : Z := 24 * Duration.Hour.

(** [Time.Unix] *)
Definition unix (t : Z) : Z := t / Duration.Second.

Definition signSession (now : Z) (adminKeyHash : string) : string :=
  let payload := Strconv.FormatInt (unix (now + sessionTTL)) in
  payload +:+ "." +:+ Encoding.hex_EncodeToString (hmac adminKeyHash payload).

Definition verifySession (now : Z) (value adminKeyHash : string) : bool :=
  match SplitN value "." 2 with
  | [payload; sigHex] =>
      match Strconv.ParseInt payload with
      | None => false
      | Some exp =>
          if exp <? unix now then false
          else match Encoding.hex_DecodeString sigHex with
               | None => false
               | Some sig => bool_decide (hmac adminKeyHash payload = sig)
               end
      end
  | _ => false
  end.

Definition setSessionCookie (value : string) : Cookie :=
  MkCookie sessionCookieName value "/admin/" (sessionTTL / Duration.Second).
Definition clearSessionCookie : Cookie := MkCookie sessionCookieName "" "/admin/" (-1).

(** [Handler.SessionCheck] *)
Definition SessionCheck (now : Z) (adminKeyHash : string) (r : HttpRequest) : bool :=
  match cookie_of r sessionCookieName with
  | None => false
  | Some v => verifySession now v adminKeyHash
  end.

Lemma SplitN_dot p s : no_byte "." p = true → SplitN (p +:+ "." +:+ s) "." 2 = [p; s].
Proof.
  intros Hp. change (p +:+ "." +:+ s) with (p +:+ String "." s). unfold SplitN. by rewrite Cut_app.
Qed.

Lemma SplitN_two v p s : SplitN v "." 2 = [p; s] → v = p +:+ "." +:+ s.
Proof.
  cbn [SplitN]. destruct (Cut "." v) as [[a b]|] eqn:E; [|done]. apply Cut_Some in E as [-> _].
  intros [= <- <-]. done.
Qed.

Lemma session_verifies now later key :
  Strconv.in_int64 (unix (now + sessionTTL)) = true →
  verifySession later (signSession now key) key = (unix later <=? unix (now + sessionTTL)).
Proof.
  intros Hr. unfold verifySession, signSession. rewrite SplitN_dot by (by apply Strconv.FormatInt_no_byte).
  rewrite Strconv.ParseInt_FormatInt by done. rewrite Encoding.hex_Decode_Encode, bool_decide_eq_true_2 by done.
  destruct (Z.ltb_spec (unix (now + sessionTTL)) (unix later)), (Z.leb_spec (unix later) (unix (now + sessionTTL))); done || lia.
Qed.

(** A session cookie verifies under the key it was signed with until its
    expiry of 24 hours, and not after. *)
Theorem session_roundtrip now later key :
  Strconv.in_int64 (unix (now + sessionTTL)) = true →
  verifySession later (signSession now key) key = (unix later <=? unix (now + sessionTTL)).
Proof. apply session_verifies. Qed.

(** A cookie that verifies carries the MAC of an expiry that is not past: only
    who can compute it under the key hash can make one. *)
Theorem session_sound now value key :
  verifySession now value key = true →
  ∃ payload sigHex exp, value = payload +:+ "." +:+ sigHex ∧ Strconv.ParseInt payload = Some exp ∧ unix now ≤ exp ∧
    Encoding.hex_DecodeString sigHex = Some (hmac key payload).
Proof.
  unfold verifySession. destruct (SplitN value "." 2) as [|p [|s [|]]] eqn:E; try done.
  apply SplitN_two in E. destruct (Strconv.ParseInt p) as [exp|] eqn:Ep; [|done].
  destruct (Z.ltb_spec exp (unix now)); [done|]. destruct (Encoding.hex_DecodeString s) eqn:Es; [|done].
  rewrite bool_decide_eq_true. intros <-. eauto 10.
Qed.
End session.
End Session.

(** ** The state that the handlers share *)

(** [auth.Cacheable]: the statistics and the flush of a store that caches. *)
Class Cacheable (S : Type) := cache_ops : option ((S → nat * nat * CacheStats) * (S → S)).

#[global] Instance DB_Cacheable : Cacheable DB := None.
#[global] Instance CachedStore_Cacheable {S} : Cacheable (CachedStore.CachedStore S) :=
  Some (CachedStore.Stats, CachedStore.Flush).

Record AdminHandler (S T St : Type) := MkAdmin {
  a_store : S;
  a_router : RouteTable T;
  a_healthChecker : option (Checker T St);
  a_configView : json;
  a_roleNames : list string;              (* the roles of the configuration view *)
  a_startTime : Z;
  a_auditReader : option (style * audit_log);
  a_adminKeyHash : string;
  a_tokenStore : option TokenTable;
  a_oauthProviders : list string;
}.
Arguments MkAdmin {S T St}. Arguments a_store {S T St}. Arguments a_router {S T St}. Arguments a_healthChecker {S T St}.
Arguments a_configView {S T St}. Arguments a_roleNames {S T St}. Arguments a_startTime {S T St}. Arguments a_auditReader {S T St}.
Arguments a_adminKeyHash {S T St}. Arguments a_tokenStore {S T St}. Arguments a_oauthProviders {S T St}.

(** What a request reads from outside: the environments of the store's calls
    it makes, the clock, sixteen random bytes, and faults. *)
Record AdminEnv (E : Type) := MkAdminEnv {
  ae_first : E;
  ae_second : E;
  ae_now : Z;
  ae_random : option string;
  ae_tokenFault : string → bool;    (* by provider *)
  ae_auditFault : bool;
}.
Arguments MkAdminEnv {E}. Arguments ae_first {E}. Arguments ae_second {E}. Arguments ae_now {E}.
Arguments ae_random {E}. Arguments ae_tokenFault {E}. Arguments ae_auditFault {E}.

Section handlers.
Context {E S T St P : Type} `{Store E S} `{Cacheable S} `{Transport T} `{StatusStore St} `{TimeText} `{SQLOrder} `{GoRange}.
Variable sha256 : string → string.
Implicit Types (h : AdminHandler S T St) (env : AdminEnv E) (r : HttpRequest).

Definition set_store h (s : S) : AdminHandler S T St :=
  MkAdmin s (a_router h) (a_healthChecker h) (a_configView h) (a_roleNames h) (a_startTime h) (a_auditReader h)
    (a_adminKeyHash h) (a_tokenStore h) (a_oauthProviders h).
Definition set_router h (rt : RouteTable T) : AdminHandler S T St :=
  MkAdmin (a_store h) rt (a_healthChecker h) (a_configView h) (a_roleNames h) (a_startTime h) (a_auditReader h)
    (a_adminKeyHash h) (a_tokenStore h) (a_oauthProviders h).
Definition set_tokens h (ts : TokenTable) : AdminHandler S T St :=
  MkAdmin (a_store h) (a_router h) (a_healthChecker h) (a_configView h) (a_roleNames h) (a_startTime h) (a_auditReader h)
    (a_adminKeyHash h) (Some ts) (a_oauthProviders h).

(** The options of [NewHandler]. *)
Definition Option : Type := AdminHandler S T St → AdminHandler S T St.

Definition WithHealthChecker (hc : Checker T St) : Option := λ h,
  MkAdmin (a_store h) (a_router h) (Some hc) (a_configView h) (a_roleNames h) (a_startTime h) (a_auditReader h)
    (a_adminKeyHash h) (a_tokenStore h) (a_oauthProviders h).
Definition WithConfig (two_digits json_float : spec_float → string) (cfg : Config) : Option := λ h,
  MkAdmin (a_store h) (a_router h) (a_healthChecker h) (marshal_view json_float (NewConfigView two_digits cfg)) (role_name <$> roles cfg)
    (a_startTime h) (a_auditReader h) (a_adminKeyHash h) (a_tokenStore h) (a_oauthProviders h).
Definition WithStartTime (t : Z) : Option := λ h,
  MkAdmin (a_store h) (a_router h) (a_healthChecker h) (a_configView h) (a_roleNames h) t (a_auditReader h)
    (a_adminKeyHash h) (a_tokenStore h) (a_oauthProviders h).
Definition WithAuditReader (st : style) (db : audit_log) : Option := λ h,
  MkAdmin (a_store h) (a_router h) (a_healthChecker h) (a_configView h) (a_roleNames h) (a_startTime h) (Some (st, db))
    (a_adminKeyHash h) (a_tokenStore h) (a_oauthProviders h).
Definition WithAdminKeyHash (hash : string) : Option := λ h,
  MkAdmin (a_store h) (a_router h) (a_healthChecker h) (a_configView h) (a_roleNames h) (a_startTime h) (a_auditReader h)
    hash (a_tokenStore h) (a_oauthProviders h).
Definition WithTokenStore (ts : TokenTable) : Option := λ h, set_tokens h ts.
Definition WithOAuthProviders (names : list string) : Option := λ h,
  MkAdmin (a_store h) (a_router h) (a_healthChecker h) (a_configView h) (a_roleNames h) (a_startTime h) (a_auditReader h)
    (a_adminKeyHash h) (a_tokenStore h) names.

(** [view] is the view of no configuration. *)
Definition NewHandler (view : json) (now : Z) (s : S) (rt : RouteTable T) (opts : list Option) : AdminHandler S T St :=
  foldl (λ h o, o h) (MkAdmin s rt None view [] now None zeroHash None []) opts.

(** A handler without the mux around it. *)
Definition handler : Type := AdminEnv E → HttpRequest → AdminHandler S T St → AdminHandler S T St * Reply P.

(** *** Response types *)

Definition jtime (t : Z) : json := JStr (time_text t).

Definition callerSummary (d : CallerDetail) : json :=
  JObj [("name", JStr (cd_name d)); ("created_at", jtime (cd_created d))].

Definition callerListItem (c : CallerInfo) : json :=
  JObj [("name", JStr (ci_name c)); ("key_count", jint (Z.of_nat (ci_keys c))); ("roles", jstrings (ci_roles c));
        ("created_at", jtime (ci_created c))].

Definition keyItem (k : KeyInfo) : json :=
  JObj [("id", jint (ki_id k)); ("label", JStr (ki_label k)); ("created_at", jtime (ki_created k))].

Definition callerDetailResp (d : CallerDetail) (roles : list string) : json :=
  JObj [("name", JStr (cd_name d)); ("keys", JArr (keyItem <$> cd_keys d)); ("roles", jstrings roles);
        ("created_at", jtime (cd_created d))].

Definition createKeyResp (rawKey label : string) (created : Z) : json :=
  JObj [("key", JStr rawKey); ("label", JStr label); ("created_at", jtime created)].

(** *** Callers *)

Definition createCaller : handler := λ env r h,
  match decode_body (rq_body r) ≫= struct_string "name" with
  | None => (h, fail_with 400 "invalid JSON")
  | Some name =>
      if bool_decide (name = "") then (h, fail_with 400 "name is required")
      else match AddCaller (ae_first env) name (a_store h) with
      | (s, Err e) => (set_store h s, if bool_decide (e = ErrDuplicate) then fail_with 409 "caller already exists"
                                      else fail_with 500 "internal error")
      | (s, Ok _) =>
          match GetCaller (ae_second env) name s with
          | (s, Err _) => (set_store h s, fail_with 500 "internal error")
          | (s, Ok detail) => (set_store h s, writeJSON 201 (callerSummary detail))
          end
      end
  end.

Definition listCallers : handler := λ env r h,
  match ListCallers (ae_first env) (a_store h) with
  | (s, Err _) => (set_store h s, fail_with 500 "internal error")
  | (s, Ok callers) => (set_store h s, writeJSON 200 (JObj [("callers", JArr (callerListItem <$> callers))]))
  end.

Definition getCaller (name : string) : handler := λ env r h,
  match GetCaller (ae_first env) name (a_store h) with
  | (s, Err _) => (set_store h s, fail_with 404 "caller not found")
  | (s, Ok detail) =>
      match RolesForCaller (ae_second env) name s with
      | (s, Err _) => (set_store h s, fail_with 500 "internal error")
      | (s, Ok roles) => (set_store h s, writeJSON 200 (callerDetailResp detail roles))
      end
  end.

(** Any error of the store is reported as a missing caller. *)
Definition deleteCaller (name : string) : handler := λ env r h,
  match DeleteCaller (ae_first env) name (a_store h) with
  | (s, Err _) => (set_store h s, fail_with 404 "caller not found")
  | (s, Ok _) => (set_store h s, no_content)
  end.

(** *** Keys *)

(** The label of the request; a body is read only if it has a length. *)
Definition key_label r : option string :=
  if 0 <? rq_length r then decode_body (rq_body r) ≫= struct_string "label" else Some "".

Definition createKey (callerName : string) : handler := λ env r h,
  match GetCaller (ae_first env) callerName (a_store h) with
  | (s, Err _) => (set_store h s, fail_with 404 "caller not found")
  | (s, Ok _) =>
      match key_label r with
      | None => (set_store h s, fail_with 400 "invalid JSON")
      | Some label =>
          match ae_random env with
          | None => (set_store h s, fail_with 500 "internal error")
          | Some rand =>
              let rawKey := GenerateAPIKey rand in
              match AddKey (ae_second env) callerName (sha256 rawKey) label s with
              | (s, Err _) => (set_store h s, fail_with 500 "internal error")
              | (s, Ok _) => (set_store h s, writeJSON 201 (createKeyResp rawKey label (ae_now env)))
              end
          end
      end
  end.

Definition listKeys (callerName : string) : handler := λ env r h,
  match GetCaller (ae_first env) callerName (a_store h) with
  | (s, Err _) => (set_store h s, fail_with 404 "caller not found")
  | (s, Ok _) =>
      match ListKeys (ae_second env) callerName s with
      | (s, Err _) => (set_store h s, fail_with 500 "internal error")
      | (s, Ok keys) => (set_store h s, writeJSON 200 (JObj [("keys", JArr (keyItem <$> keys))]))
      end
  end.

Definition deleteKey (callerName idStr : string) : handler := λ env r h,
  match Strconv.ParseInt idStr with
  | None => (h, fail_with 400 "invalid key ID")
  | Some id =>
      match DeleteKey (ae_first env) callerName id (a_store h) with
      | (s, Err _) => (set_store h s, fail_with 404 "key not found")
      | (s, Ok _) => (set_store h s, no_content)
      end
  end.

(** *** Roles *)

Definition assignRole (callerName : string) : handler := λ env r h,
  match decode_body (rq_body r) ≫= struct_string "role" with
  | None => (h, fail_with 400 "invalid JSON")
  | Some role =>
      if bool_decide (role = "") then (h, fail_with 400 "role is required")
      else match AssignRole (ae_first env) callerName role (a_store h) with
      | (s, Err e) => (set_store h s, if bool_decide (e = ErrNotFound) then fail_with 404 "caller not found"
                                      else fail_with 500 "internal error")
      | (s, Ok _) =>
          match RolesForCaller (ae_second env) callerName s with
          | (s, Err _) => (set_store h s, fail_with 500 "internal error")
          | (s, Ok roles) => (set_store h s, writeJSON 200 (JObj [("name", JStr callerName); ("roles", jstrings roles)]))
          end
      end
  end.

Definition listRoles (callerName : string) : handler := λ env r h,
  match GetCaller (ae_first env) callerName (a_store h) with
  | (s, Err _) => (set_store h s, fail_with 404 "caller not found")
  | (s, Ok _) =>
      match RolesForCaller (ae_second env) callerName s with
      | (s, Err _) => (set_store h s, fail_with 500 "internal error")
      | (s, Ok roles) => (set_store h s, writeJSON 200 (JObj [("roles", jstrings roles)]))
      end
  end.

Definition deleteRole (callerName role : string) : handler := λ env r h,
  match UnassignRole (ae_first env) callerName role (a_store h) with
  | (s, Err _) => (set_store h s, fail_with 404 "role not found")
  | (s, Ok _) => (set_store h s, no_content)
  end.

(** *** The route table, the cache, the configuration *)

Definition refresh : handler := λ env r h,
  let '(rt, res) := Router.Refresh Background (ae_now env) (a_router h) in
  (set_router h rt, writeJSON 200 (marshal_refresh res)).

Definition marshal_stats (st : nat * nat * CacheStats) : json :=
  let '(keys, roles, c) := st in
  JObj [("key_entries", jint (Z.of_nat keys)); ("role_entries", jint (Z.of_nat roles)); ("key_hits", jint (keyHits c));
        ("key_misses", jint (keyMisses c)); ("role_hits", jint (roleHits c)); ("role_misses", jint (roleMisses c));
        ("evictions", jint (evictions c))].

Definition not_cached : json := JObj [("status", JStr "cache not enabled")].

Definition cacheStats : handler := λ env r h,
  match cache_ops with
  | Some (stats, _) => (h, writeJSON 200 (marshal_stats (stats (a_store h))))
  | None => (h, writeJSON 200 not_cached)
  end.

Definition cacheFlush : handler := λ env r h,
  match cache_ops with
  | Some (_, flush) => (set_store h (flush (a_store h)), no_content)
  | None => (h, writeJSON 200 not_cached)
  end.

Definition getConfig : handler := λ env r h, (h, writeJSON 200 (a_configView h)).

(** *** Status *)

Record upstreamStatusItem := MkStatusItem {
  us_name : string;
  us_healthy : bool;
  us_tools : nat;
  us_stale : bool;
}.

(** [us_upstreams] is [None] without a health checker: a nil slice. *)
Record statusResponse := MkStatusResponse {
  us_upstreams : option (list upstreamStatusItem);
  us_callers : nat;
  us_uptime : Z;
}.

Definition uptime env h : Z := Duration.Sub (ae_now env) (a_startTime h).

(** [buildStatus]; the readings of the clock are one. *)
Definition buildStatus env h : AdminHandler S T St * statusResponse :=
  let ups := match a_healthChecker h with
    | None => None
    | Some hc => Some ((λ '(name, u), MkStatusItem name (uh_healthy u) (uh_tools u) (uh_stale u))
                        <$> go_range (UpstreamStatuses hc))
    end in
  let '(s, r) := ListCallers (ae_first env) (a_store h) in
  (set_store h s,
   MkStatusResponse ups (match r with Ok callers => length callers | Err _ => O end)
     (default 0 (Float64.trunc (seconds (uptime env h))))).

Definition marshal_status (st : statusResponse) : json :=
  JObj [("upstreams", match us_upstreams st with
          | None => JNull
          | Some l => JArr ((λ u, JObj [("name", JStr (us_name u)); ("healthy", JBool (us_healthy u));
                                        ("tools_cached", jint (Z.of_nat (us_tools u))); ("stale", JBool (us_stale u))]) <$> l)
          end);
        ("callers_count", jint (Z.of_nat (us_callers st))); ("uptime_seconds", jint (us_uptime st))].

Definition getStatus : handler := λ env r h,
  let '(h, st) := buildStatus env h in (h, writeJSON 200 (marshal_status st)).

(** *** The audit log *)

Definition query_of r : string → string := Get (rq_query r).

(** A positive number, or else [d]; [lo] is the least that counts. *)
Definition int_param (v : string) (lo d : Z) : Z :=
  if bool_decide (v = "") then d
  else match Strconv.ParseInt v with Some n => if lo <=? n then n else d | None => d end.

Definition time_param (v : string) : option Z := if bool_decide (v = "") then None else parse_time v.

Definition audit_filter r : QueryFilter :=
  let q := query_of r in
  MkFilter (q "caller") (q "tool") (q "upstream") (q "status") (time_param (q "start")) (time_param (q "end"))
    (int_param (q "limit") 1 0) (int_param (q "offset") 0 0).

Definition opt_member (k s : string) : list (string * json) := if bool_decide (s = "") then [] else [(k, JStr s)].

Definition auditEntryItem (e : Entry) : json :=
  JObj ([("id", jint (e_id e)); ("timestamp", jtime (e_timestamp e)); ("caller", JStr (e_caller e));
         ("method", JStr (e_method e))] ++ opt_member "tool" (e_tool e) ++ opt_member "upstream" (e_upstream e)
        ++ member "params" (e_params e)
        ++ [("status", JStr (e_status e)); ("latency_ms", jint (e_latency e))]
        ++ opt_member "trace_id" (e_traceID e) ++ opt_member "key_label" (e_keyLabel e)).

Definition queryAudit : handler := λ env r h,
  match a_auditReader h with
  | None => (h, writeJSON 200 (JObj [("entries", JArr []); ("message", JStr "audit not enabled")]))
  | Some (st, db) =>
      match queryDB (ae_auditFault env) st (audit_filter r) db with
      | Err _ => (h, fail_with 500 "audit query failed")
      | Ok entries => (h, writeJSON 200 (JObj [("entries", JArr (auditEntryItem <$> entries))]))
      end
  end.

(** *** OAuth connections *)

Record connectionItem := MkConnection {
  cn_provider : string;
  cn_connected : bool;
  cn_expiry : option Z;
  cn_scopes : string;
  cn_expired : bool;
}.

(** The state of one provider for a caller. *)
Definition connection_item env (ts : TokenTable) (caller prov : string) : connectionItem :=
  let absent := MkConnection prov false None "" false in
  if bool_decide (caller = "") then absent
  else match GetToken (ae_tokenFault env prov) caller prov ts with
       | Err _ => absent
       | Ok tok =>
           MkConnection prov true (Expiry tok) (Scopes tok)
             (match Expiry tok with None => false | Some _ => Expired (ae_now env) tok end)
       end.

Definition marshal_connection (c : connectionItem) : json :=
  JObj ([("provider", JStr (cn_provider c)); ("connected", JBool (cn_connected c))]
        ++ member "expiry" (jtime <$> cn_expiry c) ++ opt_member "scopes" (cn_scopes c)
        ++ (if cn_expired c then [("expired", JBool true)] else [])).

(** The caller of the query, under either of its names. *)
Definition connection_caller r : string :=
  let c := query_of r "caller" in if bool_decide (c = "") then query_of r "user" else c.

Definition listConnections : handler := λ env r h,
  match a_tokenStore h with
  | None => (h, writeJSON 200 (JObj [("connections", JArr []); ("message", JStr "OAuth not configured")]))
  | Some ts =>
      (h, writeJSON 200 (JObj [("connections",
            JArr ((λ p, marshal_connection (connection_item env ts (connection_caller r) p)) <$> a_oauthProviders h))]))
  end.

Definition deleteConnection (provider : string) : handler := λ env r h,
  match a_tokenStore h with
  | None => (h, fail_with 404 "OAuth not configured")
  | Some ts =>
      let caller := connection_caller r in
      if bool_decide (caller = "") then (h, fail_with 400 "caller query parameter is required")
      else match DeleteToken (ae_tokenFault env provider) caller provider ts with
           | (ts, Err e) => (set_tokens h ts, if bool_decide (e = ErrNotFound) then fail_with 404 "connection not found"
                                              else fail_with 500 "internal error")
           | (ts, Ok _) => (set_tokens h ts, no_content)
           end
  end.

Definition putConnection (provider : string) : handler := λ env r h,
  match a_tokenStore h with
  | None => (h, fail_with 404 "OAuth not configured")
  | Some ts =>
      match (j ← decode_body (rq_body r); c ← struct_string "caller" j; a ← struct_string "access_token" j;
             f ← struct_string "refresh_token" j; Some (c, a, f)) with
      | None => (h, fail_with 400 "invalid JSON")
      | Some (caller, access, refreshToken) =>
          if bool_decide (caller = "") then (h, fail_with 400 "caller is required")
          else if bool_decide (access = "") then (h, fail_with 400 "access_token is required")
          else match StoreToken (ae_tokenFault env provider) caller provider
                       (MkOAuthToken access refreshToken "Bearer" None "") ts with
               | (ts, Err _) => (set_tokens h ts, fail_with 500 "internal error")
               | (ts, Ok _) =>
                   (set_tokens h ts, writeJSON 200 (JObj [("caller", JStr caller); ("provider", JStr provider);
                                                          ("status", JStr "ok")]))
               end
      end
  end.

(** ** Routes *)

(** [Register]: the API handler of a request, by method and segments. A
    wildcard stands for one segment that is not empty. *)
Definition api_route r : option handler :=
  let m := rq_method r in
  let on (x : string) (k : handler) : option handler := if bool_decide (m = x) then Some k else None in
  let on_get (k : handler) : option handler := if bool_decide (m = "GET") || bool_decide (m = "HEAD") then Some k else None in
  let some (s : string) (k : option handler) : option handler := if bool_decide (s = "") then None else k in
  let orelse (a b : option handler) : option handler := match a with Some k => Some k | None => b end in
  match rq_segments r with
  | [a; x] =>
      if negb (bool_decide (a = "admin")) then None
      else if bool_decide (x = "callers") then orelse (on "POST" createCaller) (on_get listCallers)
      else if bool_decide (x = "refresh") then on "POST" refresh
      else if bool_decide (x = "cache") then orelse (on_get cacheStats) (on "DELETE" cacheFlush)
      else if bool_decide (x = "config") then on_get getConfig
      else if bool_decide (x = "status") then on_get getStatus
      else if bool_decide (x = "audit") then on_get queryAudit
      else if bool_decide (x = "connections") then on_get listConnections
      else None
  | [a; x; name] =>
      if negb (bool_decide (a = "admin")) then None
      else if bool_decide (x = "callers") then
        some name (orelse (on_get (getCaller name)) (on "DELETE" (deleteCaller name)))
      else if bool_decide (x = "connections") then
        some name (orelse (on "DELETE" (deleteConnection name)) (on "PUT" (putConnection name)))
      else None
  | [a; x; name; y] =>
      if negb (bool_decide (a = "admin") && bool_decide (x = "callers")) then None
      else if bool_decide (y = "keys") then some name (orelse (on "POST" (createKey name)) (on_get (listKeys name)))
      else if bool_decide (y = "roles") then some name (orelse (on "POST" (assignRole name)) (on_get (listRoles name)))
      else None
  | [a; x; name; y; z] =>
      if negb (bool_decide (a = "admin") && bool_decide (x = "callers")) then None
      else if bool_decide (y = "keys") then some name (some z (on "DELETE" (deleteKey name z)))
      else if bool_decide (y = "roles") then some name (some z (on "DELETE" (deleteRole name z)))
      else None
  | _ => None
  end.
End handlers.

(** ** What the API gives out *)

Lemma hex_no_dots s : Count (Encoding.hex_EncodeToString s) "." = O.
Proof.
  induction s as [|[b0 b1 b2 b3 b4 b5 b6 b7] s IH]; [done|]. cbn [Encoding.hex_EncodeToString Count]. rewrite IH.
  by destruct b0, b1, b2, b3, b4, b5, b6, b7.
Qed.

(** A generated key is never handed to the OIDC validator. *)
Lemma generated_key_no_oidc c rand : shouldTry c (GenerateAPIKey rand) = false.
Proof.
  unfold shouldTry. case_bool_decide; [|by case_bool_decide].
  unfold isJWT, GenerateAPIKey. change (Count ("sk-" +:+ ?x) ?d) with (Count x d). by rewrite hex_no_dots.
Qed.

Lemma issued_key_is_found sha256 (env : AuthEnv (E:=DBEnv)) rand a db name label :
  lookup_key db (sha256 (GenerateAPIKey rand)) = Some (MkLookup name label) →
  fault (env_lookup env) 0 = false → fault (env_roles env) 0 = false →
  Authenticate sha256 env ("Bearer " +:+ GenerateAPIKey rand) a db
    = (a, db, Ok (with_roles a name (roles_of_db db name), label)).
Proof.
  intros Hl Hf1 Hf2. unfold Authenticate. rewrite bool_decide_eq_false_2 by done.
  rewrite (proj2 (HasPrefix_true _ _)) by eauto. cbn [negb]. rewrite TrimPrefix_app.
  assert (authenticateKey sha256 env (GenerateAPIKey rand) a db
            = (a, db, Ok (with_roles a name (roles_of_db db name), label))) as ->.
  { unfold authenticateKey. simpl. unfold SQL_LookupByKey, SQL_RolesForCaller. by rewrite Hf1, Hl, Hf2. }
  destruct (auth_oidc a) as [v|]; [|done]. by rewrite generated_key_no_oidc.
Qed.

Section issue.
Context {T St P : Type} `{Transport T} `{StatusStore St} `{TimeText} `{SQLOrder} `{GoRange}.
Variable sha256 : string → string.

(** C24: the key in the response to a request for a new key authenticates its
    caller, with the roles the caller has and the label that was asked for, under
    every configuration of OIDC. *)
Theorem issued_key_authenticates name env r (h h' : AdminHandler DB T St) (rep : Reply P) aenv a :
  wf (a_store h) → createKey sha256 name env r h = (h', rep) → rp_status rep = 201 →
  fault (env_lookup aenv) 0 = false → fault (env_roles aenv) 0 = false →
  ∃ key label created, rp_body rep = JSONReply (createKeyResp key label created) ∧ key_label r = Some label ∧
    Authenticate sha256 aenv ("Bearer " +:+ key) a (a_store h')
      = (a, a_store h', Ok (with_roles a name (roles_of_db (a_store h') name), label)).
Proof.
  intros Hwf Hc Hs Hf1 Hf2. unfold createKey in Hc. simpl in Hc. unfold SQL_GetCaller in Hc.
  destruct (fault (ae_first env) 0); [by simplify_eq|]. destruct (caller_by_name _ name); [|by simplify_eq].
  destruct (fault (ae_first env) 1); [by simplify_eq|]. destruct (key_label r) as [label|]; [|by simplify_eq].
  destruct (ae_random env) as [rand|]; [|by simplify_eq].
  destruct (SQL_AddKey _ _ _ _ _) as [db [[]|e]] eqn:Ea; [|by simplify_eq]. injection Hc as <- <-.
  apply (add_key_lookup _ _ _ _ _ _ "") in Ea as [Hl _]; [|done]. do 3 eexists. split_and!; [done..|].
  by apply issued_key_is_found.
Qed.
End issue.

(** ** Runs *)

Module AdminRun.
(** Instants as the decimal text of their nanoseconds. *)
#[export] Instance decimal_time : TimeText :=
  {| time_text := Strconv.FormatInt; parse_time := Strconv.ParseInt; time_ok := Strconv.in_int64;
     parse_time_text := Strconv.ParseInt_FormatInt; time_text_utf8 t _ := FormatInt_valid t |}.
#[export] Existing Instance scripted.

Definition handler_state : AdminHandler DB script LocalStore :=
  MkAdmin sample_db (MkTable ∅ [] 0 []) None JNull ["dev"; "ops"] 0 (Some (SQLiteStyle, sample_log)) "admin-key" None [].
Definition call_env : AdminEnv DBEnv := MkAdminEnv no_faults no_faults 0 (Some "0123456789abcdef") (λ _, false) false.
Definition request (method : string) (segments : list string) (query body : string) : HttpRequest :=
  MkHttpRequest method segments query "Bearer admin-key" [] body (Z.of_nat (String.length body)).
(** A MAC that hides nothing. *)
Definition toy_mac (key msg : string) : string := key +:+ msg.
End AdminRun.
Import AdminRun.

Lemma issued_key_authenticates_witness :
  ∃ key, (Authenticate id sample_auth_env ("Bearer " +:+ key) (NewAuthenticator plain_glob sample_getenv sample_roles None)
     (a_store (createKey (P:=unit) id "ann" call_env (request "POST" ["admin"; "callers"; "ann"; "keys"] "" "") handler_state).1)).2
   = Ok (ann, "").
Proof.
  set (r := request "POST" ["admin"; "callers"; "ann"; "keys"] "" "").
  destruct (issued_key_authenticates (P:=unit) id "ann" call_env r handler_state
    (createKey (P:=unit) id "ann" call_env r handler_state).1 (createKey (P:=unit) id "ann" call_env r handler_state).2 sample_auth_env
    (NewAuthenticator plain_glob sample_getenv sample_roles None)) as (key & label & created & _ & Hl & Ha).
  - apply sample_db_wf.
  - by destruct (createKey _ _ _ _ _).
  - vm_compute. reflexivity.
  - done.
  - done.
  - exists key. rewrite Ha. vm_compute in Hl. injection Hl as <-. vm_compute. reflexivity.
Defined.

Lemma session_roundtrip_witness :
  Session.verifySession toy_mac (10 * Duration.Hour) (Session.signSession toy_mac 0 "k") "k" = true ∧
  Session.verifySession toy_mac (25 * Duration.Hour) (Session.signSession toy_mac 0 "k") "k" = false.
Proof. split; rewrite (Session.session_roundtrip toy_mac); vm_compute; reflexivity. Defined.

Lemma session_sound_witness :
  ∃ payload sigHex exp, Session.signSession toy_mac 0 "k" = payload +:+ "." +:+ sigHex ∧
    Strconv.ParseInt payload = Some exp ∧ 0 ≤ exp ∧
    Encoding.hex_DecodeString sigHex = Some (toy_mac "k" payload).
Proof.
  destruct (Session.session_sound toy_mac 0 (Session.signSession toy_mac 0 "k") "k") as (p & s & e & H1 & H2 & H3 & H4).
  { vm_compute. reflexivity. }
  exists p, s, e. split_and!; [exact H1|exact H2|exact H3|exact H4].
Defined.
