(* ===== verification/AdminUI.v ===== *)
(** * The admin pages and the admin server ([internal/admin/ui.go], [Register] of
    [handler.go], the admin routes of [internal/server/server.go])

    The handlers of the browser UI: login and logout, the pages with the data that
    their templates get, the forms, and the flash cookie that carries a message
    over a redirect. [serve_admin] is the mux of all admin routes, and
    [admin_server] the same behind the admin middleware. *)

From Stdlib Require Import SpecFloat.
From S2P Require Import Prelude GoLib Json JsonRpc Transport RateLimit Router Proxy Server Http ConfigData ConfigView.
From S2P Require Import AuthStore CachedStore Auth OAuth Health AuditStore Admin.
Import GoStr.

(** ** Query strings *)

(** [Values.Encode] of pairs in the order of their keys. *)
Definition encode_pair (kv : string * string) : string := QueryEscape kv.1 +:+ "=" +:+ QueryEscape kv.2.
Definition encode_values (kvs : list (string * string)) : string := Join (encode_pair <$> kvs) "&".

(** ** Flash messages *)

Definition flashCookieName : string := "stile_flash".

Definition setFlash (msg : string) : Cookie := MkCookie flashCookieName (QueryEscape msg) "/admin/ui/" 10.

Definition consumeFlash (r : HttpRequest) : string * list Cookie :=
  match cookie_of r flashCookieName with
  | None => ("", [])
  | Some v => (default "" (QueryUnescape v), [MkCookie flashCookieName "" "/admin/ui/" (-1)])
  end.

(** ** Pages *)

Record auditPage := MkAuditPage {
  ap_entries : list Entry;
  ap_filter : QueryFilter;
  ap_hasFilters : bool;
  ap_enabled : bool;
  ap_hasMore : bool;
  ap_offset : Z;
  ap_limit : Z;
  ap_prevQuery : string;
  ap_nextQuery : string;
}.

(** A template and the data it is executed with. *)
Inductive page :=
| LoginPage (error : string)
| DashboardPage (status : statusResponse) (uptime : string)
| CallersPage (callers : list CallerInfo) (flash : string)
| CallerDetailPage (detail : CallerDetail) (roles availableRoles : list string) (newKey : string)
| ConnectionsPage (providers : list string) (connections : list connectionItem) (caller flash : string)
| ConfigPage (config : json)
| AuditLogPage (data : auditPage).

Definition show (cookies : list Cookie) (p : page) : Reply page := MkReply 200 cookies "" (PageReply p).

(** [d.Hours()] and [d.Minutes()] *)
Definition in_units (unit d : Z) : spec_float :=
  Float64.add (Float64.of_Z (Z.quot d unit)) (Float64.div (Float64.of_Z (Z.rem d unit)) (Float64.of_Z unit)).
Definition whole (f : spec_float) : Z := default 0 (Float64.trunc f).

Definition formatUptime (d : Z) : string :=
  let hs := whole (in_units Duration.Hour d) in
  let days := Z.quot hs 24 in
  let hours := Z.rem hs 24 in
  let mins := Z.rem (whole (in_units Duration.Minute d)) 60 in
  if 0 <? days then Strconv.Itoa days +:+ "d " +:+ Strconv.Itoa hours +:+ "h"
  else if 0 <? hours then Strconv.Itoa hours +:+ "h " +:+ Strconv.Itoa mins +:+ "m"
  else Strconv.Itoa mins +:+ "m".

Section ui.
Context {E S T St : Type} `{Store E S} `{Cacheable S} `{Transport T} `{StatusStore St} `{TimeText} `{SQLOrder} `{GoRange}.
Variable sha256 : string → string.
Variable hmac : string → string → string.
Variable error_text : store_error → string.
Implicit Types (h : AdminHandler S T St) (env : AdminEnv E) (r : HttpRequest).

Definition ui_handler : Type := AdminEnv E → HttpRequest → AdminHandler S T St → AdminHandler S T St * Reply page.

Definition uiLoginPage : ui_handler := λ env r h, (h, show [] (LoginPage "")).

Definition uiLoginSubmit : ui_handler := λ env r h,
  if bool_decide (sha256 (FormValue r "key") = a_adminKeyHash h)
  then (h, redirect [Session.setSessionCookie (Session.signSession hmac (ae_now env) (a_adminKeyHash h))] "/admin/ui/")
  else (h, show [] (LoginPage "Invalid admin key.")).

Definition uiLogout : ui_handler := λ env r h, (h, redirect [Session.clearSessionCookie] "/admin/ui/login").

Definition uiDashboard : ui_handler := λ env r h,
  let '(h, st) := buildStatus env h in (h, show [] (DashboardPage st (formatUptime (uptime env h)))).

Definition callers_url : string := "/admin/ui/callers".
Definition caller_url (name : string) : string := "/admin/ui/callers/" +:+ name.

Definition uiCallers : ui_handler := λ env r h,
  let '(s, res) := ListCallers (ae_first env) (a_store h) in
  let '(flash, cookies) := consumeFlash r in
  (set_store h s, show cookies (CallersPage (match res with Ok cs => cs | Err _ => [] end) flash)).

Definition uiCreateCaller : ui_handler := λ env r h,
  let name := FormValue r "name" in
  if bool_decide (name = "") then (h, redirect [setFlash "Name is required"] callers_url)
  else match AddCaller (ae_first env) name (a_store h) with
       | (s, Err e) => (set_store h s, redirect [setFlash ("Could not create caller: " +:+ error_text e)] callers_url)
       | (s, Ok _) => (set_store h s, redirect [] callers_url)
       end.

Definition uiDeleteCaller (name : string) : ui_handler := λ env r h,
  (set_store h (DeleteCaller (ae_first env) name (a_store h)).1, redirect [] callers_url).

Definition uiCallerDetail (name : string) : ui_handler := λ env r h,
  match GetCaller (ae_first env) name (a_store h) with
  | (s, Err _) => (set_store h s, redirect [] callers_url)
  | (s, Ok detail) =>
      let '(s, res) := RolesForCaller (ae_second env) name s in
      let '(newKey, cookies) := consumeFlash r in
      (set_store h s,
       show cookies (CallerDetailPage detail (match res with Ok rs => rs | Err _ => [] end) (a_roleNames h) newKey))
  end.

Definition uiCreateKey (name : string) : ui_handler := λ env r h,
  match ae_random env with
  | None => (h, redirect [] (caller_url name))
  | Some rand =>
      let rawKey := GenerateAPIKey rand in
      match AddKey (ae_first env) name (sha256 rawKey) (FormValue r "label") (a_store h) with
      | (s, Err _) => (set_store h s, redirect [] (caller_url name))
      | (s, Ok _) => (set_store h s, redirect [setFlash rawKey] (caller_url name))
      end
  end.

Definition uiRevokeKey (name idStr : string) : ui_handler := λ env r h,
  (match Strconv.ParseInt idStr with
   | Some id => set_store h (DeleteKey (ae_first env) name id (a_store h)).1
   | None => h
   end, redirect [] (caller_url name)).

Definition uiAssignRole (name : string) : ui_handler := λ env r h,
  let role := FormValue r "role" in
  (if bool_decide (role = "") then h else set_store h (AssignRole (ae_first env) name role (a_store h)).1,
   redirect [] (caller_url name)).

Definition uiUnassignRole (name role : string) : ui_handler := λ env r h,
  (set_store h (UnassignRole (ae_first env) name role (a_store h)).1, redirect [] (caller_url name)).

Definition uiConnections : ui_handler := λ env r h,
  let caller := query_of r "caller" in
  let connections := match a_tokenStore h with
    | None => []
    | Some ts => (λ p, connection_item env ts caller p) <$> a_oauthProviders h
    end in
  let '(flash, cookies) := consumeFlash r in
  (h, show cookies (ConnectionsPage (a_oauthProviders h) connections caller flash)).

Definition uiDisconnect (provider : string) : ui_handler := λ env r h,
  let caller := query_of r "caller" in
  let dest := "/admin/ui/connections" +:+ (if bool_decide (caller = "") then "" else "?caller=" +:+ QueryEscape caller) in
  match a_tokenStore h with
  | Some ts =>
      if bool_decide (caller = "") then (h, redirect [] dest)
      else match DeleteToken (ae_tokenFault env provider) caller provider ts with
           | (ts, Err e) => (set_tokens h ts, redirect [setFlash ("Could not disconnect: " +:+ error_text e)] dest)
           | (ts, Ok _) => (set_tokens h ts, redirect [setFlash ("Disconnected " +:+ provider)] dest)
           end
  | None => (h, redirect [] dest)
  end.

Definition uiConfig : ui_handler := λ env r h, (h, show [] (ConfigPage (a_configView h))).

(** The query string of another page of the audit log; the keys are sorted. *)
Definition audit_query (f : QueryFilter) (offset : Z) : string :=
  encode_values
    ((if bool_decide (f_caller f = "") then [] else [("caller", f_caller f)])
     ++ (if 0 <? offset then [("offset", Strconv.Itoa offset)] else [])
     ++ (if bool_decide (f_status f = "") then [] else [("status", f_status f)])
     ++ (if bool_decide (f_tool f = "") then [] else [("tool", f_tool f)])
     ++ (if bool_decide (f_upstream f = "") then [] else [("upstream", f_upstream f)])).

(** One more entry than the page shows is asked for. *)
Definition uiAudit : ui_handler := λ env r h,
  let q := query_of r in
  let limit := int_param (q "limit") 1 50 in
  let offset := int_param (q "offset") 0 0 in
  let f := MkFilter (q "caller") (q "tool") (q "upstream") (q "status") None None (Strconv.wrap64 (limit + 1)) offset in
  let hasFilters := negb (bool_decide (f_caller f = "")) || negb (bool_decide (f_tool f = ""))
                    || negb (bool_decide (f_upstream f = "")) || negb (bool_decide (f_status f = "")) in
  let '(enabled, entries, hasMore) := match a_auditReader h with
    | None => (false, [], false)
    | Some (st, db) =>
        match queryDB (ae_auditFault env) st f db with
        | Err _ => (true, [], false)
        | Ok results =>
            if limit <? Z.of_nat (length results) then (true, take (Z.to_nat limit) results, true)
            else (true, results, false)
        end
    end in
  let prevOffset := Strconv.wrap64 (offset - limit) in
  let prevOffset := if prevOffset <? 0 then 0 else prevOffset in
  (h, show [] (AuditLogPage (MkAuditPage entries f hasFilters enabled hasMore offset limit
        (audit_query f prevOffset) (audit_query f (Strconv.wrap64 (offset + limit)))))).

(** ** Routes *)

(** [registerUI]: the pattern [GET /admin/ui/] takes every other page below it. *)
Definition ui_route r : option ui_handler :=
  let m := rq_method r in
  let get := bool_decide (m = "GET") || bool_decide (m = "HEAD") in
  let post := bool_decide (m = "POST") in
  let dashboard : option ui_handler := if get then Some uiDashboard else None in
  let some2 (a b : string) := negb (bool_decide (a = "") || bool_decide (b = "")) in
  match rq_segments r with
  | a :: u :: rest =>
      if negb (bool_decide (a = "admin") && bool_decide (u = "ui")) then None else
      match rest with
      | [] => None
      | [x] =>
          if bool_decide (x = "login") then
            if get then Some uiLoginPage else if post then Some uiLoginSubmit else None
          else if bool_decide (x = "logout") && post then Some uiLogout
          else if bool_decide (x = "callers") then
            if get then Some uiCallers else if post then Some uiCreateCaller else None
          else if bool_decide (x = "connections") && get then Some uiConnections
          else if bool_decide (x = "config") && get then Some uiConfig
          else if bool_decide (x = "audit") && get then Some uiAudit
          else dashboard
      | [x; name] =>
          if bool_decide (x = "callers") && negb (bool_decide (name = "")) && get then Some (uiCallerDetail name)
          else dashboard
      | [x; name; y] =>
          if negb (bool_decide (name = "")) && post && bool_decide (x = "callers") then
            if bool_decide (y = "delete") then Some (uiDeleteCaller name)
            else if bool_decide (y = "keys") then Some (uiCreateKey name)
            else if bool_decide (y = "roles") then Some (uiAssignRole name)
            else None
          else if negb (bool_decide (name = "")) && post && bool_decide (x = "connections") && bool_decide (y = "disconnect")
          then Some (uiDisconnect name)
          else dashboard
      | [x; name; y; id; z] =>
          if some2 name id && post && bool_decide (x = "callers") then
            if bool_decide (y = "keys") && bool_decide (z = "revoke") then Some (uiRevokeKey name id)
            else if bool_decide (y = "roles") && bool_decide (z = "unassign") then Some (uiUnassignRole name id)
            else None
          else dashboard
      | _ => dashboard
      end
  | _ => None
  end.

Definition route r : option ui_handler :=
  match ui_route r with Some k => Some k | None => api_route (P := page) sha256 r end.

Definition with_method (m : string) r : HttpRequest :=
  MkHttpRequest m (rq_segments r) (rq_query r) (rq_authorization r) (rq_cookies r) (rq_body r) (rq_length r).

(** What the mux answers when no pattern matches: 405 if one would with another
    method; [/admin/ui] is redirected to its subtree. *)
Definition unmatched r : Reply page :=
  if bool_decide (rq_segments r = ["admin"; "ui"]) && (bool_decide (rq_method r = "GET") || bool_decide (rq_method r = "HEAD"))
  then MkReply 301 [] "/admin/ui/" EmptyBody
  else if existsb (λ m, match route (with_method m r) with Some _ => true | None => false end) ["GET"; "POST"; "PUT"; "DELETE"]
  then MkReply 405 [] "" EmptyBody
  else MkReply 404 [] "" EmptyBody.

(** The mux of [Register]. *)
Definition serve_admin : ui_handler := λ env r h,
  match route r with Some k => k env r h | None => (h, unmatched r) end.

(** The admin routes as [server.New] installs them: behind the middleware, with
    the session check. *)
Definition admin_server (devMode : bool) : ui_handler := λ env r h,
  match AdminAuthMiddleware sha256 (a_adminKeyHash h) devMode
          (Some (Session.SessionCheck hmac (ae_now env) (a_adminKeyHash h) r)) (rq_path r) (rq_authorization r) Background with
  | Next _ => serve_admin env r h
  | Respond status body => (h, writeJSON status body)
  | Redirect location => (h, redirect [] location)
  end.

(** ** Who reaches the handlers *)

(** A request of an administrator: with the key, or with a session that was
    signed under it; without a key, in development mode. *)
Definition administrator (devMode : bool) env r h : Prop :=
  (a_adminKeyHash h = zeroHash ∧ devMode = true) ∨
  (a_adminKeyHash h ≠ zeroHash ∧
    ((∃ token, rq_authorization r = "Bearer " +:+ token ∧ sha256 token = a_adminKeyHash h) ∨
     ∃ v, cookie_of r Session.sessionCookieName = Some v ∧ Session.verifySession hmac (ae_now env) v (a_adminKeyHash h) = true)).

Lemma administrator_next devMode env r h :
  AdminAuthMiddleware sha256 (a_adminKeyHash h) devMode
    (Some (Session.SessionCheck hmac (ae_now env) (a_adminKeyHash h) r)) (rq_path r) (rq_authorization r) Background = Next Background →
  rq_path r = "/admin/ui/login" ∨ rq_path r = "/admin/ui/logout" ∨ administrator devMode env r h.
Proof.
  unfold AdminAuthMiddleware.
  destruct (bool_decide (rq_path r = "/admin/ui/login") || bool_decide (rq_path r = "/admin/ui/logout")) eqn:Ep.
  { apply orb_true_iff in Ep. rewrite !bool_decide_eq_true in Ep. intros _. destruct Ep; auto. }
  intros Hn. right; right. revert Hn. unfold administrator.
  destruct (bool_decide_reflect (a_adminKeyHash h = zeroHash)) as [Hk|Hk]; simpl.
  { destruct devMode; simpl; [|done]. intros _. by left. }
  intros Hn. right. split; [done|].
  destruct (HasPrefix (rq_authorization r) "Bearer ") eqn:Hp; simpl in Hn.
  - apply HasPrefix_true in Hp as [token Ht]. rewrite Ht, TrimPrefix_app in Hn.
    case_bool_decide; [left; eauto|]. right. revert Hn. unfold Session.SessionCheck.
    destruct (cookie_of r _) as [v|]; simpl; [destruct (Session.verifySession _ _ v _) eqn:Ev; [eauto|]|];
      by destruct (HasPrefix (rq_path r) _).
  - right. revert Hn. unfold Session.SessionCheck.
    destruct (cookie_of r _) as [v|]; simpl; [destruct (Session.verifySession _ _ v _) eqn:Ev; [eauto|]|];
      by destruct (HasPrefix (rq_path r) _).
Qed.

(** An exempt path is that of the page it names, however it is escaped: no
    other handler has it. *)
Lemma join_path_one w segs : no_byte "/" w = true → join_path segs = "/" +:+ w → segs = [w].
Proof.
  intros Hw. destruct segs as [|x rest]; [done|]. cbn [join_path]. intros Hj%(inj (String.append "/")).
  destruct rest as [|y rest]; cbn [join_path] in Hj; [by rewrite str_app_nil_r in Hj; subst|].
  exfalso. rewrite <- Hj in Hw. unfold no_byte in Hw. rewrite !all_bytes_app in Hw. simpl in Hw.
  by rewrite andb_false_r in Hw.
Qed.

Lemma exempt_segments r w k : no_byte "/" w = true → rq_path r = "/admin/ui/" +:+ w → route r = Some k →
  rq_segments r = ["admin"; "ui"; w].
Proof.
  intros Hw Hp Hr. unfold rq_path in Hp.
  assert (∀ rest, join_path ("admin" :: "ui" :: rest) = "/admin/ui/" +:+ w → rest = [w]) as Hui.
  { intros rest Hj. apply join_path_one; [done|]. by apply (inj (String.append "/admin/ui")). }
  unfold route in Hr. destruct (ui_route r) as [k'|] eqn:Eu.
  - clear Hr. unfold ui_route in Eu. destruct (rq_segments r) as [|a [|u rest]]; try done.
    do 2 (case_bool_decide; [|done]). subst. f_equal. f_equal. by apply Hui.
  - exfalso. clear Eu. unfold api_route in Hr.
    destruct (rq_segments r) as [|a [|x rest]]; try done.
    assert (a = "admin") as -> by (destruct rest as [|? [|? [|? [|]]]]; try done; by case_bool_decide).
    assert (∀ x rest w', join_path ("admin" :: x :: rest) = "/admin/ui/" +:+ w' → x +:+ join_path rest = "ui/" +:+ w') as Hx.
    { intros x' rest' w' Hj. by apply (inj (String.append "/admin/")). }
    apply Hx in Hp. clear Hx Hui.
    destruct rest as [|? [|? [|? [|]]]]; simpl in Hr; repeat (case_bool_decide; simpl in Hr; subst; [by cbn in Hp|]); done.
Qed.

Definition is_get r : bool := bool_decide (rq_method r = "GET") || bool_decide (rq_method r = "HEAD").

(** What anyone may be sent: no content, a refusal, the login form; and a
    session only for the key. *)
Definition public_reply r h (rep : Reply page) : Prop :=
  (rp_body rep = EmptyBody ∨ rp_body rep = JSONReply forbidden_body ∨ ∃ e, rp_body rep = PageReply (LoginPage e)) ∧
  ∀ c, c ∈ rp_cookies rep → ck_value c = "" ∨ sha256 (FormValue r "key") = a_adminKeyHash h.

Lemma unmatched_public r h : public_reply r h (unmatched r).
Proof. unfold unmatched. split; [left; by repeat case_match|]. intros c. repeat case_match; simpl; by intros ?%elem_of_nil. Qed.

Lemma login_public env r h k : rq_path r = "/admin/ui/login" → route r = Some k →
  (k env r h).1 = h ∧ public_reply r h (k env r h).2.
Proof.
  intros Hp Hr. pose proof (exempt_segments r "login" k eq_refl Hp Hr) as Hs.
  unfold route, ui_route in Hr. rewrite Hs in Hr. simpl in Hr.
  assert (k = uiLoginPage ∨ k = uiLoginSubmit) as [-> | ->].
  { destruct (bool_decide (rq_method r = "GET") || bool_decide (rq_method r = "HEAD")); [left; congruence|].
    destruct (bool_decide (rq_method r = "POST")); [right; congruence|].
    unfold api_route in Hr. by rewrite Hs in Hr. }
  - split; [done|]. split; [simpl; eauto|]. by intros c ?%elem_of_nil.
  - clear Hr. unfold uiLoginSubmit. case_bool_decide; (split; [done|]); split; simpl; eauto.
    by intros c ?%elem_of_nil.
Qed.

Lemma logout_public env r h k : rq_path r = "/admin/ui/logout" → is_get r = false → route r = Some k →
  (k env r h).1 = h ∧ public_reply r h (k env r h).2.
Proof.
  intros Hp Hg Hr. pose proof (exempt_segments r "logout" k eq_refl Hp Hr) as Hs.
  unfold route, ui_route, is_get in *. rewrite Hs in Hr. simpl in Hr. rewrite Hg in Hr.
  destruct (bool_decide (rq_method r = "POST")).
  - simplify_eq. split; [done|]. split; [by left|]. intros c ->%list_elem_of_singleton. by left.
  - unfold api_route in Hr. by rewrite Hs in Hr.
Qed.

(** C7: who is not an administrator changes nothing through the admin server and is
    sent nothing but refusals and the login form, whatever the path and however it
    is escaped, except that GET and HEAD of the exempt path /admin/ui/logout are
    served. A session is given out only for the admin key. *)
Theorem admin_requires_auth devMode env r h :
  ¬ administrator devMode env r h → (rq_path r = "/admin/ui/logout" → is_get r = false) →
  (admin_server devMode env r h).1 = h ∧ public_reply r h (admin_server devMode env r h).2.
Proof.
  intros Hadm Hlogout. unfold admin_server.
  destruct (AdminAuthMiddleware _ _ _ _ _ _ _) as [ctx|status body|loc] eqn:Em.
  - assert (ctx = Background) as ->.
    { revert Em. unfold AdminAuthMiddleware. repeat case_match; naive_solver. }
    apply administrator_next in Em. unfold serve_admin.
    destruct (route r) as [k|] eqn:Er; [|split; [done|apply unmatched_public]].
    destruct Em as [Hp|[Hp|]]; [by apply login_public|apply logout_public; auto|done].
  - split; [done|]. split; [|by intros c ?%elem_of_nil]. right; left.
    revert Em. unfold AdminAuthMiddleware. repeat case_match; intros; simplify_eq; done.
  - split; [done|]. split; [by left|by intros c ?%elem_of_nil].
Qed.

(** The exempt path of the logout form is below the subtree of the dashboard,
    whose pattern takes GET: without any credentials GET /admin/ui/logout shows
    the dashboard. *)
Theorem logout_path_shows_dashboard devMode env r h :
  rq_method r = "GET" → rq_segments r = ["admin"; "ui"; "logout"] →
  admin_server devMode env r h =
    ((buildStatus env h).1, show [] (DashboardPage (buildStatus env h).2 (formatUptime (uptime env (buildStatus env h).1)))).
Proof.
  intros Hm Hs. unfold admin_server, AdminAuthMiddleware, rq_path. rewrite Hs. simpl.
  unfold serve_admin, route, ui_route. rewrite Hm, Hs. simpl. unfold uiDashboard.
  by destruct (buildStatus env h).
Qed.

(** After a login with the admin key, every request that carries the session
    cookie it set is that of an administrator until 24 hours have passed. *)
Theorem login_opens_session devMode env env2 r r2 h c :
  a_adminKeyHash h ≠ zeroHash → sha256 (FormValue r "key") = a_adminKeyHash h →
  Strconv.in_int64 (Session.unix (ae_now env + Session.sessionTTL)) = true →
  rp_cookies (uiLoginSubmit env r h).2 = [c] → cookie_of r2 (ck_name c) = Some (ck_value c) →
  ae_now env2 ≤ ae_now env + Session.sessionTTL →
  administrator devMode env2 r2 h.
Proof.
  intros Hk Hkey Hr. unfold uiLoginSubmit. rewrite bool_decide_eq_true_2 by done. intros [= <-] Hc Hn.
  right. split; [done|]. right. eexists. split; [exact Hc|]. simpl.
  rewrite Session.session_verifies by done. apply Z.leb_le. unfold Session.unix. by apply Z.div_le_mono.
Qed.

(** *** The audit page *)

(** The filter of the page, its limit and its offset. *)
Definition page_filter r : QueryFilter :=
  let q := query_of r in MkFilter (q "caller") (q "tool") (q "upstream") (q "status") None None 0 0.
Definition page_limit r : Z := int_param (query_of r "limit") 1 50.
Definition page_offset r : Z := int_param (query_of r "offset") 0 0.

Lemma int_param_bounds v lo d : Strconv.in_int64 d = true → lo ≤ d → lo ≤ int_param v lo d ∧ Strconv.in_int64 (int_param v lo d) = true.
Proof.
  intros Hd Hlo. unfold int_param. case_bool_decide; [done|]. destruct (Strconv.ParseInt v) as [n|] eqn:En; [|done].
  destruct (Z.leb_spec lo n); [|done]. split; [done|]. by apply Strconv.ParseInt_in_int64 in En.
Qed.

(** The audit page shows exactly the entries that match its filters, from its
    offset on and as many as its limit, and links to a next page if and only if
    there are more. *)
Theorem audit_page_exact env r h st db :
  a_auditReader h = Some (st, db) → ae_auditFault env = false → page_limit r < Strconv.max_int64 →
  ∃ data, uiAudit env r h = (h, show [] (AuditLogPage data)) ∧
    ap_entries data = read_row <$> take (Z.to_nat (page_limit r)) (drop (Z.to_nat (page_offset r)) (selection (page_filter r) db)) ∧
    (ap_hasMore data = true ↔ page_offset r + page_limit r < Z.of_nat (length (selection (page_filter r) db))).
Proof.
  intros Hr Hf Hl. unfold uiAudit. fold (page_limit r) (page_offset r).
  destruct (int_param_bounds (query_of r "limit") 1 50 eq_refl ltac:(lia)) as [Hl1 _]. fold (page_limit r) in Hl1.
  destruct (int_param_bounds (query_of r "offset") 0 0 eq_refl ltac:(lia)) as [Ho1 _]. fold (page_offset r) in Ho1.
  rewrite (Strconv.wrap64_id (page_limit r + 1)) by (unfold Strconv.in_int64, Strconv.min_int64 in *; lia).
  rewrite Hr, Hf, queryDB_ok. unfold limit_of. cbn [f_limit f_offset].
  destruct (Z.leb_spec (page_limit r + 1) 0); [lia|].
  change (selection (MkFilter _ _ _ _ _ _ _ _) db) with (selection (page_filter r) db).
  set (sel := selection (page_filter r) db). set (rest := drop (Z.to_nat (page_offset r)) sel).
  assert (length rest = length sel - Z.to_nat (page_offset r))%nat as Hrest by apply length_drop.
  rewrite length_fmap, length_take.
  destruct (Z.ltb_spec (page_limit r) (Z.of_nat (Nat.min (Z.to_nat (page_limit r + 1)) (length rest)))) as [Hm|Hm];
    eexists; (split; [reflexivity|]); cbn [ap_entries ap_hasMore]; split.
  - rewrite <- fmap_take, take_take. do 2 f_equal. lia.
  - split; [|done]. lia.
  - f_equal. rewrite !take_ge by lia. done.
  - split; [done|]. lia.
Qed.

(** With the largest limit the query asks for fifty entries: the one more that
    is asked for wraps around. *)
Theorem audit_limit_wraps env r h st db :
  a_auditReader h = Some (st, db) → ae_auditFault env = false → page_limit r = Strconv.max_int64 →
  ∃ data, uiAudit env r h = (h, show [] (AuditLogPage data)) ∧ ap_hasMore data = false ∧
    ap_entries data = read_row <$> take 50 (drop (Z.to_nat (page_offset r)) (selection (page_filter r) db)).
Proof.
  intros Hr Hf Hl. unfold uiAudit. fold (page_limit r) (page_offset r).
  rewrite Hr, Hf, queryDB_ok, Hl. change (limit_of (MkFilter _ _ _ _ _ _ (Strconv.wrap64 (Strconv.max_int64 + 1)) _)) with 50.
  change (selection (MkFilter _ _ _ _ _ _ _ _) db) with (selection (page_filter r) db). cbn [f_offset].
  change (Z.to_nat 50) with 50%nat.
  rewrite length_fmap, length_take. destruct (Z.ltb_spec Strconv.max_int64 (Z.of_nat (Nat.min 50 (length (drop (Z.to_nat (page_offset r)) (selection (page_filter r) db)))))) as [Hm|Hm].
  - exfalso. unfold Strconv.max_int64 in Hm. lia.
  - eexists. split; [reflexivity|]. done.
Qed.
End ui.

(** ** Query strings are read back *)

Lemma QueryEscape_bytes s : all_bytes (λ c, unreserved c || bool_decide (c = "+"%char) || bool_decide (c = "%"%char)) (QueryEscape s) = true.
Proof.
  assert (∀ c, unreserved (hex_digit (N_of_ascii c / 16)) = true ∧ unreserved (hex_digit (N_of_ascii c mod 16)) = true) as Hhex.
  { intros [[] [] [] [] [] [] [] []]; by vm_compute. }
  induction s as [|c s IH]; [done|]. cbn [QueryEscape]. destruct (unreserved c) eqn:Hu.
  - cbn [all_bytes]. by rewrite Hu, IH.
  - case_bool_decide; [cbn [all_bytes]; by rewrite IH|]. unfold pct. cbn [all_bytes].
    destruct (Hhex c) as [-> ->]. by rewrite IH.
Qed.

Lemma QueryEscape_no_byte c s :
  unreserved c || bool_decide (c = "+"%char) || bool_decide (c = "%"%char) = false → no_byte c (QueryEscape s) = true.
Proof.
  intros Hc. eapply all_bytes_impl; [|apply QueryEscape_bytes]. intros d Hd. simpl in *.
  apply negb_true_iff, bool_decide_eq_false. intros ->. congruence.
Qed.

Lemma query_pair_encoded kv : query_pair (encode_pair kv) = Some kv.
Proof.
  destruct kv as [k v]. unfold query_pair, encode_pair. simpl.
  rewrite bool_decide_eq_false_2 by (by destruct (QueryEscape k)).
  assert (no_byte ";" (QueryEscape k +:+ "=" +:+ QueryEscape v) = true) as ->.
  { unfold no_byte. rewrite !all_bytes_app, !andb_true_iff. split_and!; [by apply QueryEscape_no_byte|done|by apply QueryEscape_no_byte]. }
  simpl. unfold cut_at. change (QueryEscape k +:+ "=" +:+ QueryEscape v) with (QueryEscape k +:+ String "=" (QueryEscape v)).
  rewrite Cut_app by (by apply QueryEscape_no_byte). by rewrite !QueryUnescape_Escape.
Qed.

Lemma query_pairs_encoded kvs : query_pairs (encode_values kvs) = kvs.
Proof.
  unfold query_pairs, encode_values. destruct kvs as [|kv kvs]; [done|].
  assert (∀ kv, no_byte "&" (encode_pair kv) = true) as Hamp.
  { intros [k v]. unfold encode_pair, no_byte. rewrite !all_bytes_app, !andb_true_iff.
    split_and!; [by apply QueryEscape_no_byte|done|by apply QueryEscape_no_byte]. }
  revert kv. induction kvs as [|kv' kvs IH]; intros kv.
  - simpl. rewrite split_byte_plain by done. simpl. by rewrite query_pair_encoded.
  - change (Join (encode_pair <$> kv :: kv' :: kvs) "&")
      with (encode_pair kv +:+ String "&" (Join (encode_pair <$> kv' :: kvs) "&")).
    rewrite split_byte_app by done. simpl. rewrite query_pair_encoded. f_equal. apply IH.
Qed.

(** The query string behind a page link of the audit log asks for the same
    filters at the new offset: every value is read back as it was set. The limit
    of the page is not in it. *)
Theorem audit_link_roundtrip f offset :
  let q := Get (audit_query f offset) in
  q "caller" = f_caller f ∧ q "tool" = f_tool f ∧ q "upstream" = f_upstream f ∧ q "status" = f_status f ∧
  q "limit" = "" ∧ (Strconv.in_int64 offset = true → int_param (q "offset") 0 0 = Z.max 0 offset).
Proof.
  simpl. unfold Get, audit_query. rewrite query_pairs_encoded.
  destruct (bool_decide_reflect (f_caller f = "")) as [Hc|Hc], (bool_decide_reflect (f_status f = "")) as [Hs|Hs],
    (bool_decide_reflect (f_tool f = "")) as [Ht|Ht], (bool_decide_reflect (f_upstream f = "")) as [Hu|Hu],
    (Z.ltb_spec 0 offset) as [Ho|Ho]; simpl; split_and!; try done.
  all: intros Hr; try (unfold int_param; simpl; lia).
  all: unfold int_param, Strconv.Itoa; rewrite bool_decide_eq_false_2 by
    (intros He; apply (f_equal Strconv.ParseInt) in He; by rewrite Strconv.ParseInt_FormatInt in He by done).
  all: rewrite Strconv.ParseInt_FormatInt by done; destruct (Z.leb_spec 0 offset); lia.
Qed.

(** ** A key that is made in the browser *)

Section browser.
Context {T St : Type} `{Transport T} `{StatusStore St} `{TimeText} `{SQLOrder} `{GoRange}.
Variable sha256 : string → string.

(** The key that a browser is given over the redirect is shown on the caller's
    page, and it authenticates the caller. *)
Theorem created_key_shown name env env2 r r2 (h h' : AdminHandler DB T St) rep c aenv a :
  wf (a_store h) → uiCreateKey sha256 name env r h = (h', rep) → rp_cookies rep = [c] →
  cookie_of r2 (ck_name c) = Some (ck_value c) → (∀ i, fault (ae_first env2) i = false) →
  fault (env_lookup aenv) 0 = false → fault (env_roles aenv) 0 = false →
  ∃ detail roles avail key, (uiCallerDetail name env2 r2 h').2
      = show [MkCookie flashCookieName "" "/admin/ui/" (-1)] (CallerDetailPage detail roles avail key) ∧
    Authenticate sha256 aenv ("Bearer " +:+ key) a (a_store h')
      = (a, a_store h', Ok (with_roles a name (roles_of_db (a_store h') name), FormValue r "label")).
Proof.
  intros Hwf Hc Hck Hr2 Hf Hf1 Hf2. unfold uiCreateKey in Hc.
  destruct (ae_random env) as [rand|]; [|by simplify_eq]. simpl in Hc.
  destruct (SQL_AddKey _ _ _ _ _) as [db [[]|e]] eqn:Ea; [|by simplify_eq]. injection Hc as <- <-.
  injection Hck as <-. cbn [setFlash ck_name ck_value] in Hr2.
  assert (is_Some (caller_by_name db name)) as [d Hd].
  { unfold SQL_AddKey, select_id in Ea. destruct (fault _ 0); [done|]. destruct (caller_by_name _ name) as [d|] eqn:Ed; [|done].
    exists d. repeat case_match; simplify_eq. exact Ed. }
  apply (add_key_lookup _ _ _ _ _ _ "") in Ea as [Hl _]; [|done].
  exists (MkDetail name (key_infos db name) (c_created d)). do 3 eexists. split.
  - unfold uiCallerDetail. simpl. unfold SQL_GetCaller. rewrite !Hf, Hd. unfold consumeFlash. rewrite Hr2.
    rewrite QueryUnescape_Escape. reflexivity.
  - by apply issued_key_is_found.
Qed.
End browser.

(** ** Runs *)

Import AdminRun.

Definition outsider (method : string) (segments : list string) : HttpRequest :=
  MkHttpRequest method segments "" "" [] "" 0.

Lemma admin_requires_auth_witness :
  (admin_server id toy_mac (λ _, "") false call_env (outsider "DELETE" ["admin"; "callers"; "ann"]) handler_state).1 = handler_state.
Proof.
  eapply (admin_requires_auth id toy_mac (λ _, "") false call_env (outsider "DELETE" ["admin"; "callers"; "ann"]) handler_state).
  - intros [[_ Hd]|[_ [(t & Ht & _)|(v & Hv & _)]]]; done.
  - done.
Defined.

Lemma login_opens_session_witness :
  let r := MkHttpRequest "POST" ["admin"; "ui"; "login"] "" "" [] "key=admin-key" 13 in
  ∃ c, rp_cookies (uiLoginSubmit id toy_mac call_env r handler_state).2 = [c] ∧
    administrator id toy_mac false call_env (MkHttpRequest "GET" ["admin"; "ui"; ""] "" "" [(ck_name c, ck_value c)] "" 0) handler_state.
Proof.
  intros r. set (c := Session.setSessionCookie (Session.signSession toy_mac 0 "admin-key")).
  exists c. split; [vm_compute; reflexivity|].
  apply (login_opens_session id toy_mac false call_env call_env r
    (MkHttpRequest "GET" ["admin"; "ui"; ""] "" "" [(ck_name c, ck_value c)] "" 0) handler_state c);
    [done|vm_compute; reflexivity|vm_compute; reflexivity|vm_compute; reflexivity|done|].
  vm_compute. discriminate.
Defined.

Lemma audit_page_exact_witness :
  ∃ data, uiAudit call_env (request "GET" ["admin"; "ui"; "audit"] "limit=2" "") handler_state
      = (handler_state, show [] (AuditLogPage data)) ∧ (e_id <$> ap_entries data = [3; 2]) ∧ ap_hasMore data = true.
Proof.
  destruct (audit_page_exact call_env (request "GET" ["admin"; "ui"; "audit"] "limit=2" "") handler_state SQLiteStyle sample_log)
    as (data & Hd & He & Hm); [done|done|vm_compute; reflexivity|].
  exists data. split_and!; [exact Hd|rewrite He; vm_compute; reflexivity|apply Hm; vm_compute; reflexivity].
Defined.
