(* ===== verification/Live.v ===== *)
(** * Caller stores behind a running gateway

    What the handlers of one gateway rely on while they share a store of callers:
    every operation keeps an invariant, a read changes no row, a write does to the
    rows what the SQL statements do, and a key that is accepted is in the rows now.
    A lookup of the cache may be under way while other requests are served: the class
    [Caching] has its parts. The class [LiveStore] says this once for the store with
    and without the cache ([NewCachedStore] decides at the start); the theorems
    about the running gateway are proved against it. *)

From S2P Require Import Prelude GoLib Json JsonRpc Transport ConfigData Http AuthStore CachedStore Auth OAuth Admin.
Import GoStr.

(** ** Writes on the rows *)

(** What a write of either backend does to the tables. *)
Definition db_write (w : write) (db db' : DB) (r : result store_error unit) : Prop :=
  ∃ e, run_write (H:=SQLiteStore) e w db = (db', r) ∨ run_write (H:=PostgresStore) e w db = (db', r).

Definition adds (w : write) : option string := match w with WAddKey _ h _ => Some h | _ => None end.

(** No key has this hash. *)
Definition unbound (h : string) (db : DB) : Prop := h ∉ k_hash <$> api_keys db.

Lemma unbound_lookup h db k : wf db → unbound h db → lookup_key db h ≠ Some k.
Proof. intros Hwf Hu (k' & c & Hk & <- & _)%lookup_key_Some; [|done]. by apply Hu, list_elem_of_fmap_2. Qed.

Lemma db_write_ok w db db' r : wf db → db_write w db db' r → write_ok w db db' r.
Proof.
  intros Hwf (e & [He|He]); [pose proof (SQL_write_ok e w db Hwf) as Hok|pose proof (PG_write_ok e w db Hwf) as Hok];
    by rewrite He in Hok.
Qed.

Lemma assign_defaults_keys sk env i n rs db : api_keys (assign_defaults sk env i n rs db).1 = api_keys db.
Proof.
  revert i db. induction rs as [|r rs IH]; intros i db; simpl; [done|]. destruct (fault env i); [done|].
  destruct (caller_by_name db n); [|by destruct sk]. rewrite IH. unfold insert_role. by case_bool_decide.
Qed.

(** A write brings no key but the one it adds. *)
Lemma db_write_brings w db db' r k : db_write w db db' r → k ∈ api_keys db' → k ∈ api_keys db ∨ adds w = Some (k_hash k).
Proof.
  intros (e & [He|He]); revert He;
    (destruct w as [n|n|n h l|n i|n l|n ro|n ro|n rs]; simpl;
     unfold PG_DeleteCaller, PG_DeleteKey, PG_RevokeKey, PG_AssignRole, PG_UnassignRole,
       SQL_AddCaller, PG_AddCaller, SQL_DeleteCaller, SQL_AddKey, PG_AddKey, SQL_DeleteKey, SQL_RevokeKey, delete_keys,
       SQL_AssignRole, SQL_UnassignRole, SQL_EnsureCaller, PG_EnsureCaller, insert_role;
     repeat case_match; intros; simplify_eq/=;
     rewrite ?elem_of_app, ?list_elem_of_filter, ?list_elem_of_singleton in *;
     try match goal with Ha : assign_defaults _ _ _ _ _ _ = (db', _) |- _ =>
       apply (f_equal (λ x, api_keys x.1)) in Ha; simpl in Ha; rewrite assign_defaults_keys in Ha; simpl in Ha; rewrite Ha end;
     naive_solver).
Qed.

Lemma db_write_unbound h w db db' r : db_write w db db' r → adds w ≠ Some h → unbound h db → unbound h db'.
Proof.
  intros Hw Ha Hu (k & -> & Hk)%list_elem_of_fmap. destruct (db_write_brings _ _ _ _ _ Hw Hk); [|done].
  by apply Hu, list_elem_of_fmap_2.
Qed.

(** The key with an identifier that was deleted is gone. *)
Lemma deleted_key_unbound n i db db' k : wf db →
  db_write (WDeleteKey n i) db db' (Ok tt) → k ∈ api_keys db → k_id k = i → unbound (k_hash k) db'.
Proof.
  intros Hwf (e & Hw) Hk Hi. assert (SQL_DeleteKey e n i db = (db', Ok tt)) as Hd by (destruct Hw; done). clear Hw.
  unfold SQL_DeleteKey, delete_keys in Hd. destruct (fault e 0); [done|].
  destruct (existsb _ _) eqn:Ex; [|done]. injection Hd as <-. apply existsb_exists in Ex as (k' & Hk'%list_elem_of_In & Hd).
  destruct (caller_by_name db n) as [c|]; [|done]. apply andb_true_iff in Hd as [Hc%bool_decide_eq_true Hi'%bool_decide_eq_true].
  assert (k' = k) as -> by (eapply (key_unique k_id); [apply Hwf|done..|congruence]).
  unfold unbound. simpl. intros (k2 & Heq & [Hn Hk2]%list_elem_of_filter)%list_elem_of_fmap.
  assert (k2 = k) as -> by (eapply (key_unique k_hash); [apply Hwf|done..|congruence]).
  by rewrite !bool_decide_eq_true_2 in Hn.
Qed.

(** The keys of a caller that was deleted are gone. *)
Lemma deleted_caller_unbound n db db' h k : wf db →
  db_write (WDeleteCaller n) db db' (Ok tt) → lookup_key db h = Some k → lk_name k = n → unbound h db'.
Proof.
  intros Hwf (e & Hw) (k' & c & Hk & Hh & Hc & Hi & ->)%lookup_key_Some Hn; [|done].
  assert (SQL_DeleteCaller e n db = (db', Ok tt)) as Hd by (destruct Hw; done). clear Hw. simpl in Hn.
  unfold SQL_DeleteCaller in Hd. destruct (fault e 0); [done|].
  rewrite (proj2 (caller_by_name_Some db n c Hwf)) in Hd by done. injection Hd as <-.
  unfold unbound. simpl. intros (k2 & Heq & [Hne Hk2]%list_elem_of_filter)%list_elem_of_fmap.
  assert (k2 = k') as -> by (eapply (key_unique k_hash); [apply Hwf|done..|congruence]). congruence.
Qed.

(** ** The interface *)

(** What a notification of the database does to a store. *)
Class Notified (S : Type) := on_notification : string → S → S.
#[global] Instance DB_Notified : Notified DB := λ _ db, db.
#[global] Instance CachedStore_Notified {S} : Notified (CachedStore S) := handleNotification.

(** The parts of a lookup that may be under way: the cache misses, the database
    answers, and the answer is stored. Without a cache there is nothing to store. *)
Class Caching (E S : Type) := {
  misses : E → lookup_answer → S → Prop;
  answered : E → lookup_answer → S → Prop;
  fills : lookup_answer → S → S;
}.
#[global] Instance DB_Caching {E} : Caching E DB := {| misses _ _ _ := False; answered _ _ _ := False; fills _ db := db |}.
#[global] Instance CachedStore_Caching {E S} `{Store E S} : Caching (CacheEnv E) (CachedStore S) :=
  {| misses := missing; answered := inner_answers; fills := fill_answer |}.

(** The invariant is about one hash: the entries of other keys may be outdated. An
    operation that only reads keeps the rows. *)
Class LiveStore (E S : Type) `{Store E S} `{Cacheable S} `{Notified S} `{Caching E S} := {
  rows : S → DB;
  live_inv : string → S → Prop;
  live_wf : ∀ h s, live_inv h s → wf (rows s);
  live_lookup : ∀ h e x s s' r, live_inv h s → LookupByKey e x s = (s', r) →
    (live_inv h s' ∧ rows s' = rows s) ∧ (x = h → ∀ k, r = Ok k → lookup_key (rows s) h = Some k);
  live_roles : ∀ h e n s s' r, live_inv h s → RolesForCaller e n s = (s', r) → live_inv h s' ∧ rows s' = rows s;
  live_list_callers : ∀ h e s s' r, live_inv h s → ListCallers e s = (s', r) → live_inv h s' ∧ rows s' = rows s;
  live_get_caller : ∀ h e n s s' r, live_inv h s → GetCaller e n s = (s', r) → live_inv h s' ∧ rows s' = rows s;
  live_list_keys : ∀ h e n s s' r, live_inv h s → ListKeys e n s = (s', r) → live_inv h s' ∧ rows s' = rows s;
  live_exists : ∀ h e n s s' r, live_inv h s → CallerExists e n s = (s', r) → live_inv h s' ∧ rows s' = rows s;
  live_write : ∀ h e w s s' r, live_inv h s → run_write e w s = (s', r) → live_inv h s' ∧ db_write w (rows s) (rows s') r;
  live_flush : ∀ h st fl s, cache_ops = Some (st, fl) → live_inv h s → live_inv h (fl s) ∧ rows (fl s) = rows s;
  live_notified : ∀ h p s, live_inv h s → live_inv h (on_notification p s) ∧ rows (on_notification p s) = rows s;
  live_fill : ∀ h a s, live_inv h s → (∀ now k, a = KeyAnswer now h k → ∃ e, answered e a s) →
    live_inv h (fills a s) ∧ rows (fills a s) = rows s;
}.

(** ** The tables themselves *)

#[refine] #[global] Instance SQLite_live : LiveStore DBEnv DB := {| rows := id; live_inv _ := wf |}.
Proof.
  - done.
  - intros h e x s s' r Hwf Hl. pose proof Hl as [-> Hk]%db_lookup_law. split; [done|]. by intros ->.
  - by intros h e n s s' r Hwf [-> _]%db_roles_law.
  - by intros h e s s' r Hwf [= <- _].
  - by intros h e n s s' r Hwf [= <- _].
  - by intros h e n s s' r Hwf [= <- _].
  - by intros h e n s s' r Hwf [= <- _].
  - intros h e w s s' r Hwf Hw. assert (db_write w s s' r) as Hd by (exists e; by left).
    split; [|done]. by eapply db_write_ok.
  - done.
  - done.
  - done.
Defined.

#[refine] Definition Postgres_live : @LiveStore DBEnv DB PostgresStore _ _ _ :=
  @Build_LiveStore DBEnv DB PostgresStore _ _ _ id (λ _, wf) _ _ _ _ _ _ _ _ _ _ _.
Proof.
  - done.
  - intros h e x s s' r Hwf Hl. pose proof Hl as [-> Hk]%db_lookup_law. split; [done|]. by intros ->.
  - by intros h e n s s' r Hwf [-> _]%db_roles_law.
  - by intros h e s s' r Hwf [= <- _].
  - by intros h e n s s' r Hwf [= <- _].
  - by intros h e n s s' r Hwf [= <- _].
  - by intros h e n s s' r Hwf [= <- _].
  - intros h e w s s' r Hwf Hw. assert (db_write w s s' r) as Hd by (exists e; by right).
    split; [|done]. by eapply db_write_ok.
  - done.
  - done.
  - done.
Defined.

(** ** The cache in front of them *)

Section cached.
Context {E S : Type} `{LiveStore E S}.
Implicit Types c : CachedStore S.

(** If the hash is in the cache, it is in the rows for the same caller, and can be
    found for eviction. This holds also after a provisioning that failed halfway, which
    may leave stale roles. *)
Record keyed (h : string) c : Prop := {
  ke_inner : live_inv h (inner c);
  ke_keys : ∀ v t, byKeyHash c !! h = Some (v, t) → lookup_key (rows (inner c)) h = Some v;
  ke_index : ∀ v t, byKeyHash c !! h = Some (v, t) → h ∈ default ∅ (reverseIndex c !! lk_name v);
}.

(** The part of a cache that this is about. *)
Lemma keyed_same h c c' :
  byKeyHash c' = byKeyHash c → reverseIndex c' = reverseIndex c → rows (inner c') = rows (inner c) → live_inv h (inner c') →
  keyed h c → keyed h c'.
Proof. intros Hb Hx Hi Hl [Hli Hky Hix]. split; rewrite ?Hb, ?Hx, ?Hi; done. Qed.

Lemma keyed_fill h now x v c : (x = h → lookup_key (rows (inner c)) h = Some v) → keyed h c → keyed h (fill_key now x v c).
Proof.
  intros Hl [Hli Hky Hix]. split; simpl; [done|..].
  - intros v' t [[-> [= <- _]]|[_ Hb]]%lookup_insert_Some; [by apply Hl|by eapply Hky].
  - intros v' t [[-> [= <- _]]|[_ Hb]]%lookup_insert_Some; [rewrite lookup_insert_eq; set_solver|].
    apply Hix in Hb. destruct (decide (lk_name v = lk_name v')) as [Heq|Hne]; [|by rewrite lookup_insert_ne].
    rewrite Heq, lookup_insert_eq. simpl. set_solver.
Qed.

(** An eviction of a caller's keys needs less than [keyed]: the entry may be a
    stale one of that caller. *)
Lemma keyed_evict h n c :
  live_inv h (inner c) →
  (∀ v t, byKeyHash c !! h = Some (v, t) → lk_name v ≠ n → lookup_key (rows (inner c)) h = Some v) →
  (∀ v t, byKeyHash c !! h = Some (v, t) → h ∈ default ∅ (reverseIndex c !! lk_name v)) →
  keyed h (evictKeysForCaller n c).
Proof.
  intros Hli Hky Hix. split; simpl; [done|..].
  - intros v t [Hb Hn]%map_lookup_filter_Some. apply (Hky v t Hb). intros <-. apply Hn. simpl. by eapply Hix.
  - intros v t [Hb Hn]%map_lookup_filter_Some. simpl in Hn. pose proof (Hix _ _ Hb) as Hin.
    rewrite lookup_delete_ne; [done|]. intros ->. done.
Qed.

Lemma keyed_write h env w c c' r : keyed h c → run_write env w c = (c', r) →
  keyed h c' ∧ db_write w (rows (inner c)) (rows (inner c')) r.
Proof.
  intros [Hli Hky Hix]. rewrite cached_write.
  destruct (run_write (inner_env env) w (inner c)) as [s' r'] eqn:Ew. apply (live_write h) in Ew as [Hi Hw]; [|done].
  pose proof (db_write_ok _ _ _ _ (live_wf _ _ Hli) Hw) as [_ Hk _ Hf].
  assert (∀ v t, byKeyHash c !! h = Some (v, t) → revokes_from w ≠ Some (lk_name v) → lookup_key (rows s') h = Some v) as Hkeep
    by (intros v t Hb Hn; by apply Hk; [eapply Hky|]).
  destruct r' as [[]|x]; intros [= <- <-].
  - split; [|by destruct w].
    assert (∀ v t, byKeyHash c !! h = Some (v, t) → revokes_from w = None → lookup_key (rows s') h = Some v) as Hplain
      by (intros v t Hb Hn; eapply Hkeep; [done|by rewrite Hn]).
    assert (revokes_from w = None → keyed h (set_inner c s')) as Hset by (intros Hn; split; [done|by intros; eapply Hplain|done]).
    assert (∀ n, revokes_from w = Some n → keyed h (evictKeysForCaller n (set_inner c s'))) as Hev.
    { intros n Hn. apply keyed_evict; [done| |done]. intros v t Hb Hne. eapply Hkeep; [done|]. rewrite Hn. congruence. }
    destruct w; cbn [after_write revokes_from] in *; try (by apply Hset).
    + by eapply keyed_same; [..|apply (Hev name eq_refl)].
    + by eapply keyed_same; [..|apply (Hev name eq_refl)].
    + by eapply keyed_same; [..|apply (Hev name eq_refl)].
    + by eapply keyed_same; [..|apply (Hset eq_refl)].
    + by eapply keyed_same; [..|apply (Hset eq_refl)].
    + by eapply keyed_same; [..|apply (Hset eq_refl)].
  - split; [|done]. destruct (is_ensure w) eqn:Ee.
    + split; [done| |done]. intros v t Hb. apply (Hkeep v t Hb). by destruct w.
    + destruct (Hf eq_refl eq_refl) as [Hsame _]. split; [done| |done]. simpl. intros v t Hb. rewrite Hsame. by eapply Hky.
Qed.

Lemma keyed_through {A} h (f : S → S * result store_error A) c c' r : keyed h c →
  (∀ s' r', f (inner c) = (s', r') → live_inv h s' ∧ rows s' = rows (inner c)) →
  through f c = (c', r) → keyed h c' ∧ rows (inner c') = rows (inner c).
Proof.
  intros Hc Hf. unfold through. destruct (f (inner c)) as [s' r'] eqn:Ef. destruct (Hf _ _ eq_refl) as [Hi Hr].
  intros [= <- _]. split; [|done]. by eapply keyed_same, Hc.
Qed.

#[refine] #[global] Instance Cached_live : LiveStore (CacheEnv E) (CachedStore S) := {| rows c := rows (inner c); live_inv := keyed |}.
Proof.
  - intros h c Hc. by apply (live_wf h), Hc.
  - intros h e x c c' r Hc. simpl. unfold Cached_LookupByKey. destruct (key_hit _ x c) as [v|] eqn:Eh.
    + intros [= <- <-]. split; [split; [|done]|].
      * eapply keyed_same, Hc; try done. apply Hc.
      * intros -> k [= <-]. revert Eh. unfold key_hit. destruct (byKeyHash c !! h) as [[v' t]|] eqn:Eb; [|done].
        destruct (expired _ _); [done|]. intros [= ->]. by eapply ke_keys.
    + destruct (LookupByKey (inner_env e) x (inner _)) as [s' [v|y]] eqn:El; apply (live_lookup h) in El as [[Hi Hr] Hk];
        try apply Hc; intros [= <- <-]; simpl in *.
      * split; [split; [|done]|intros -> k [= <-]; by apply Hk]. apply keyed_fill; [simpl; rewrite Hr; intros ->; by apply Hk|].
        by eapply keyed_same, Hc.
      * split; [split; [|done]|done]. by eapply keyed_same, Hc.
  - intros h e n c c' r Hc. simpl. unfold Cached_RolesForCaller. destruct (role_hit _ n c) as [v|].
    + intros [= <- _]. split; [|done]. eapply keyed_same, Hc; try done. apply Hc.
    + destruct (RolesForCaller (inner_env e) n (inner _)) as [s' [v|y]] eqn:El; apply (live_roles h) in El as [Hi Hr];
        try apply Hc; intros [= <- _]; simpl in *; (split; [|done]); by eapply keyed_same, Hc.
  - intros h e c c' r Hc. apply keyed_through; [done|]. intros. eapply live_list_callers; [apply Hc|done].
  - intros h e n c c' r Hc. apply keyed_through; [done|]. intros. eapply live_get_caller; [apply Hc|done].
  - intros h e n c c' r Hc. apply keyed_through; [done|]. intros. eapply live_list_keys; [apply Hc|done].
  - intros h e n c c' r Hc. apply keyed_through; [done|]. intros. eapply live_exists; [apply Hc|done].
  - intros h e w c c' r Hc. by apply keyed_write.
  - intros h st fl c [= _ <-] Hc. split; [|done]. split; simpl; try done; [apply Hc|..]; intros v t; by rewrite lookup_empty.
  - intros h p c Hc. unfold on_notification, CachedStore_Notified, handleNotification.
    assert (keyed h (flushLocal c)) as Hfl by (split; simpl; [apply Hc|..]; intros v t; by rewrite lookup_empty).
    assert (∀ n, keyed h (evictKeysForCaller n c)) as Hek by (intros n; apply keyed_evict; [apply Hc|intros; by eapply ke_keys|apply Hc]).
    assert (∀ n, keyed h (evictRoles n c)) as Her by (intros n; eapply keyed_same, Hc; try done; apply Hc).
    repeat case_match; auto.
  - intros h [now x k|now n l] c Hc Ha; simpl; (split; [|done]).
    + apply keyed_fill; [|done]. intros ->. destruct (Ha now k eq_refl) as [e He]. simpl in He.
      destruct (LookupByKey (inner_env e) h (inner c)) as [s' r] eqn:El. apply (live_lookup h) in El as [_ Hk]; [|apply Hc]. by apply Hk.
    + eapply keyed_same, Hc; try done. apply Hc.
Defined.
End cached.

Lemma keyed_new {E S} `{LiveStore E S} h s t : live_inv h s → keyed h (MkCache s t ∅ ∅ ∅ (MkStats 0 0 0 0 0) None).
Proof. intros Hs. split; simpl; try done; intros v u; by rewrite lookup_empty. Qed.

(** ** A hash that stays unbound *)

Section out.
Context {E S : Type} `{LiveStore E S}.

(** The invariant of every hash is kept, and a hash that no key has still has
    none. *)
Definition stays_out (h : string) (s s' : S) : Prop :=
  ∀ x, live_inv x s → live_inv x s' ∧ (unbound h (rows s) → unbound h (rows s')).

#[global] Instance stays_out_preorder h : PreOrder (stays_out h).
Proof.
  split; [by intros s x Hs|]. intros s1 s2 s3 H12 H23 x Hs. destruct (H12 x Hs) as [Hs2 Hu]. destruct (H23 x Hs2). split; auto.
Qed.

Lemma read_out h s s' : (∀ x, live_inv x s → live_inv x s' ∧ rows s' = rows s) → stays_out h s s'.
Proof. intros Hr x Hs. destruct (Hr x Hs) as [? ->]. done. Qed.

Lemma write_out h e w s s' r : run_write e w s = (s', r) → adds w ≠ Some h → stays_out h s s'.
Proof.
  intros Hw Ha x Hs. destruct (live_write x e w s s' r Hs Hw) as [? Hd]. split; [done|]. by eapply db_write_unbound.
Qed.

Lemma lookup_out h e x s s' r : LookupByKey e x s = (s', r) → stays_out h s s'.
Proof. intros Hl. apply read_out. intros y Hs. by apply (live_lookup y e x s s' r). Qed.
Lemma roles_out h e x s s' r : RolesForCaller e x s = (s', r) → stays_out h s s'.
Proof. intros Hl. apply read_out. intros y Hs. by eapply live_roles. Qed.
Lemma list_callers_out h e s s' r : ListCallers e s = (s', r) → stays_out h s s'.
Proof. intros Hl. apply read_out. intros y Hs. by eapply live_list_callers. Qed.
Lemma get_caller_out h e x s s' r : GetCaller e x s = (s', r) → stays_out h s s'.
Proof. intros Hl. apply read_out. intros y Hs. by eapply live_get_caller. Qed.
Lemma list_keys_out h e x s s' r : ListKeys e x s = (s', r) → stays_out h s s'.
Proof. intros Hl. apply read_out. intros y Hs. by eapply live_list_keys. Qed.
Lemma exists_out h e x s s' r : CallerExists e x s = (s', r) → stays_out h s s'.
Proof. intros Hl. apply read_out. intros y Hs. by eapply live_exists. Qed.
Lemma flush_out h st fl s : cache_ops = Some (st, fl) → stays_out h s (fl s).
Proof. intros Hf. apply read_out. intros y. by eapply live_flush. Qed.
Lemma notified_out h p s : stays_out h s (on_notification p s).
Proof. apply read_out. intros x. apply live_notified. Qed.
End out.

(** Turn the calls among the hypotheses into steps that keep a hash out, and
    chain them. *)
Ltac note_out h :=
  repeat match goal with
  | Hc : LookupByKey _ _ _ = (_, _) |- _ => apply (lookup_out h) in Hc
  | Hc : RolesForCaller _ _ _ = (_, _) |- _ => apply (roles_out h) in Hc
  | Hc : ListCallers _ _ = (_, _) |- _ => apply (list_callers_out h) in Hc
  | Hc : GetCaller _ _ _ = (_, _) |- _ => apply (get_caller_out h) in Hc
  | Hc : ListKeys _ _ _ = (_, _) |- _ => apply (list_keys_out h) in Hc
  | Hc : CallerExists _ _ _ = (_, _) |- _ => apply (exists_out h) in Hc
  | Hc : AddCaller ?e ?n ?s = (?s', ?r) |- _ => apply (write_out h e (WAddCaller n) s s' r) in Hc; [|done]
  | Hc : DeleteCaller ?e ?n ?s = (?s', ?r) |- _ => apply (write_out h e (WDeleteCaller n) s s' r) in Hc; [|done]
  | Hc : DeleteKey ?e ?n ?i ?s = (?s', ?r) |- _ => apply (write_out h e (WDeleteKey n i) s s' r) in Hc; [|done]
  | Hc : AssignRole ?e ?n ?x ?s = (?s', ?r) |- _ => apply (write_out h e (WAssignRole n x) s s' r) in Hc; [|done]
  | Hc : UnassignRole ?e ?n ?x ?s = (?s', ?r) |- _ => apply (write_out h e (WUnassignRole n x) s s' r) in Hc; [|done]
  | Hc : EnsureCaller ?e ?n ?x ?s = (?s', ?r) |- _ => apply (write_out h e (WEnsureCaller n x) s s' r) in Hc; [|done]
  end.

Ltac chain_out h := note_out h; repeat first [assumption | reflexivity | etransitivity; [eassumption|]].
