(* ===== verification/AdminClient.v ===== *)
(** * The remote client of the admin API ([internal/admin/client.go])

    [Client] with its operations, over an HTTP client ([HttpDo]) as the class
    [Remote]. [Wire] is the network with an admin server behind it: the target of
    a request is parsed, the mux's redirects are followed, the response comes back
    as bytes, and a request or a response can be lost. The theorems compare the
    client at such a server with the same operations on the store. *)

From S2P Require Import Prelude GoLib Json JsonRpc JsonText Transport RateLimit Router Proxy Server Http ConfigData ConfigView.
From S2P Require Import AuthStore CachedStore Auth OAuth Health AuditStore Admin AdminUI.
Import GoStr.

(** ** HTTP as the client sees it *)

Record HttpCall := MkCall {
  hc_method : string;
  hc_url : string;
  hc_authorization : string;
  hc_body : option string;
}.

Record HttpResponse := MkHttpResponse { hr_status : Z; hr_body : string }.

(** [http.Client.Do] *)
Class Remote (W : Type) := HttpDo : HttpCall → W → W * result string HttpResponse.

Record Client := MkClient { c_baseURL : string; c_adminKey : string }.

Definition NewClient (baseURL adminKey : string) : Client := MkClient (TrimRight_slash baseURL) adminKey.

(** ** Decoding responses *)

(** The last value of a field; the zero value when it is absent or null. *)
Definition struct_field {A} (name : string) (zero : A) (decode : json → option A) (j : json) : option A :=
  match j with
  | JObj l => match last (field_values name l) with
              | None | Some JNull => Some zero
              | Some v => decode v
              end
  | JNull => Some zero
  | _ => None
  end.

Definition struct_int (name : string) (j : json) : option Z :=
  match j with
  | JObj l => decode_all as_int 0 (field_values name l)
  | JNull => Some 0
  | _ => None
  end.

Definition decode_list {A} (decode : json → option A) (j : json) : option (list A) :=
  match j with JArr l => mapM decode l | _ => None end.

Section client.
Context {W : Type} `{Remote W} `{TimeText}.
Implicit Types (c : Client) (w : W).

(** The zero [time.Time], in nanoseconds since the epoch. *)
Definition zero_time : Z := -62135596800 * Duration.Second.

Definition decode_time (j : json) : option Z := match j with JStr s => parse_time s | _ => None end.

Definition decode_callerListItem (j : json) : option CallerInfo :=
  name ← struct_string "name" j;
  count ← struct_int "key_count" j;
  roles ← struct_field "roles" [] (decode_list (as_string "")) j;
  created ← struct_field "created_at" zero_time decode_time j;
  Some (MkCallerInfo name (Z.to_nat count) roles created).

Definition decode_keyItem (j : json) : option KeyInfo :=
  id ← struct_int "id" j;
  label ← struct_string "label" j;
  created ← struct_field "created_at" zero_time decode_time j;
  Some (MkKeyInfo id label created).

(** [json.NewDecoder(resp.Body).Decode] into a struct. *)
Definition decoded {A} (decode : json → option A) (resp : HttpResponse) : result string A :=
  match decode_body (hr_body resp) ≫= decode with
  | Some a => Ok a
  | None => Err "decode response"
  end.

(** ** Requests *)

(** [Client.do]; the base is an origin, so the path is the target. *)
Definition client_do (method path : string) (body : option json) c w : W * result string HttpResponse :=
  match parse_target path with
  | BadURL => (w, Err "create request")
  | _ =>
      match HttpDo (MkCall method (c_baseURL c +:+ path) ("Bearer " +:+ c_adminKey c) (encode <$> body)) w with
      | (w, Err e) => (w, Err ("cannot reach remote at " +:+ c_baseURL c +:+ ": " +:+ e))
      | (w, Ok resp) => (w, Ok resp)
      end
  end.

Definition readError (resp : HttpResponse) : string :=
  match parse (hr_body resp) ≫= struct_string "error" with
  | Some e => if bool_decide (e = "") then "remote error: HTTP " +:+ Strconv.Itoa (hr_status resp) else "remote error: " +:+ e
  | None => "remote error: HTTP " +:+ Strconv.Itoa (hr_status resp)
  end.

(** A request whose response must have the given status, read by [k]. *)
Definition expecting {A} (status : Z) (k : HttpResponse → result string A) (r : W * result string HttpResponse) :
    W * result string A :=
  match r with
  | (w, Err e) => (w, Err e)
  | (w, Ok resp) => (w, if bool_decide (hr_status resp = status) then k resp else Err (readError resp))
  end.

Definition done_ok (resp : HttpResponse) : result string unit := Ok tt.

Definition callers_path : string := "/admin/callers".
Definition caller_path (name : string) : string := "/admin/callers/" +:+ name.

Definition Client_AddCaller (name : string) c w : W * result string unit :=
  expecting 201 done_ok (client_do "POST" callers_path (Some (JObj [("name", JStr name)])) c w).

Definition Client_ListCallers c w : W * result string (list CallerInfo) :=
  expecting 200 (decoded (struct_field "callers" [] (decode_list decode_callerListItem))) (client_do "GET" callers_path None c w).

Definition Client_DeleteCaller (name : string) c w : W * result string unit :=
  expecting 204 done_ok (client_do "DELETE" (caller_path name) None c w).

Definition Client_CreateKey (callerName label : string) c w : W * result string string :=
  expecting 201 (decoded (struct_string "key"))
    (client_do "POST" (caller_path callerName +:+ "/keys") (Some (JObj [("label", JStr label)])) c w).

Definition Client_ListKeys (callerName : string) c w : W * result string (list KeyInfo) :=
  expecting 200 (decoded (struct_field "keys" [] (decode_list decode_keyItem)))
    (client_do "GET" (caller_path callerName +:+ "/keys") None c w).

Definition Client_KeyCountForCaller (name : string) c w : W * result string nat :=
  match Client_ListKeys name c w with
  | (w, Ok keys) => (w, Ok (length keys))
  | (w, Err e) => (w, Err e)
  end.

(** The first key of the label is deleted by its id. *)
Definition Client_RevokeKey (callerName label : string) c w : W * result string unit :=
  match Client_ListKeys callerName c w with
  | (w, Err e) => (w, Err e)
  | (w, Ok keys) =>
      match List.find (λ k, bool_decide (ki_label k = label)) keys with
      | None => (w, Err "no key with label found for caller")
      | Some k =>
          match client_do "DELETE" (caller_path callerName +:+ "/keys/" +:+ Strconv.FormatInt (ki_id k)) None c w with
          | (w, Err e) => (w, Err e)
          | (w, Ok resp) =>
              (w, if bool_decide (hr_status resp = 204) then Ok tt
                  else Err ("remote error: HTTP " +:+ Strconv.Itoa (hr_status resp)))
          end
      end
  end.

Definition Client_AssignRole (callerName role : string) c w : W * result string unit :=
  expecting 200 done_ok (client_do "POST" (caller_path callerName +:+ "/roles") (Some (JObj [("role", JStr role)])) c w).

Definition Client_UnassignRole (callerName role : string) c w : W * result string unit :=
  expecting 204 done_ok (client_do "DELETE" (caller_path callerName +:+ "/roles/" +:+ role) None c w).

(** [auth.CacheStats]: the numbers in the order of its fields. *)
Definition decode_stats (j : json) : option (list Z) :=
  mapM (λ name, struct_int name j)
    ["key_entries"; "role_entries"; "key_hits"; "key_misses"; "role_hits"; "role_misses"; "evictions"].

Definition Client_CacheStats c w : W * result string (list Z) :=
  expecting 200 (decoded decode_stats) (client_do "GET" "/admin/cache" None c w).

Definition Client_CacheFlush c w : W * result string unit :=
  expecting 204 done_ok (client_do "DELETE" "/admin/cache" None c w).
End client.

(** ** An admin server behind a network *)

(** What becomes of one request: it reaches the server and is answered, it is
    lost on the way, or its response is lost. *)
Inductive delivery (E : Type) :=
| Served (env : AdminEnv E)
| Unreachable
| ResponseLost (env : AdminEnv E).
Arguments Served {E} env. Arguments Unreachable {E}. Arguments ResponseLost {E} env.

Record Wire (E S T St : Type) := MkWire {
  deliveries : list (delivery E);       (* of the next requests *)
  admin_state : AdminHandler S T St;
}.
Arguments MkWire {E S T St}. Arguments deliveries {E S T St}. Arguments admin_state {E S T St}.

Section wire.
Context {E S T St : Type} `{Store E S} `{Cacheable S} `{Transport T} `{StatusStore St} `{TimeText} `{SQLOrder} `{GoRange}.
Variable sha256 : string → string.
Variable hmac : string → string → string.
Variable error_text : store_error → string.
(** The HTML of a page. *)
Variable render : page → string.
(** The address of the server, and whether it runs in development mode. *)
Variable origin : string.
Variable devMode : bool.

(** The bytes of a response; the encoder ends a document with a line feed. *)
Definition body_text (b : ReplyBody page) : string :=
  match b with
  | EmptyBody => ""
  | JSONReply j => encode j +:+ String "010" ""
  | PageReply p => render p
  end.

Definition serve_once (r : HttpRequest) (w : Wire E S T St) : Wire E S T St * result string (Reply page) :=
  match deliveries w with
  | [] | Unreachable :: _ => (MkWire (tail (deliveries w)) (admin_state w), Err "unreachable")
  | Served env :: ds =>
      let '(h, rep) := admin_server sha256 hmac error_text devMode env r (admin_state w) in (MkWire ds h, Ok rep)
  | ResponseLost env :: ds =>
      (MkWire ds (admin_server sha256 hmac error_text devMode env r (admin_state w)).1, Err "connection lost")
  end.

(** The request again, as a GET of another place: what [http.Client] makes of
    a redirect with status 301 or 302. *)
Definition redirected (segs : list string) (query : string) (r : HttpRequest) : HttpRequest :=
  MkHttpRequest "GET" segs query (rq_authorization r) [] "" 0.

(** At most ten requests are made for one call. *)
Fixpoint exchange (fuel : nat) (t : target) (r : HttpRequest) (w : Wire E S T St) : Wire E S T St * result string HttpResponse :=
  match fuel with
  | O => (w, Err "stopped after 10 redirects")
  | Datatypes.S fuel =>
      match t with
      | BadURL => (w, Err "bad URL")
      | Unclean segs query =>
          (* the mux answers 301 before any handler *)
          match deliveries w with
          | Served _ :: ds => exchange fuel (Clean segs query) (redirected segs query r) (MkWire ds (admin_state w))
          | ds => (MkWire (tail ds) (admin_state w), Err "unreachable")
          end
      | Clean segs query =>
          let r := MkHttpRequest (rq_method r) segs query (rq_authorization r) [] (rq_body r) (rq_length r) in
          match serve_once r w with
          | (w, Err e) => (w, Err e)
          | (w, Ok rep) =>
              if bool_decide (rp_location rep = "") then (w, Ok (MkHttpResponse (rp_status rep) (body_text (rp_body rep))))
              else exchange fuel (parse_target (rp_location rep)) (redirected segs query r) w
          end
      end
  end.

Definition Wire_Remote : Remote (Wire E S T St) := λ call w,
  match CutPrefix origin (hc_url call) with
  | None => (w, Err "unreachable")
  | Some path =>
      let body := default "" (hc_body call) in
      exchange 10 (parse_target path)
        (MkHttpRequest (hc_method call) [] "" (hc_authorization call) [] body (Z.of_nat (String.length body))) w
  end.

(** ** A call with the key, at a server that answers *)

#[local] Existing Instance Wire_Remote.
Implicit Types (h : AdminHandler S T St) (env : AdminEnv E).

Definition call_request (method : string) (segs : list string) (key : string) (body : option json) : HttpRequest :=
  let text := default "" (encode <$> body) in
  MkHttpRequest method segs "" ("Bearer " +:+ key) [] text (Z.of_nat (String.length text)).

Lemma key_passes env key r h :
  a_adminKeyHash h ≠ zeroHash → sha256 key = a_adminKeyHash h → rq_authorization r = "Bearer " +:+ key →
  admin_server sha256 hmac error_text devMode env r h = serve_admin sha256 hmac error_text env r h.
Proof.
  intros Hz Hk Hr. unfold admin_server, AdminAuthMiddleware. rewrite Hr, HasPrefix_app, TrimPrefix_app.
  rewrite (bool_decide_eq_false_2 (a_adminKeyHash h = zeroHash)), (bool_decide_eq_true_2 (sha256 key = _)) by done.
  by destruct (_ || _).
Qed.

Lemma exchange_clean n segs query r w : exchange (Datatypes.S n) (Clean segs query) r w =
  (let r := MkHttpRequest (rq_method r) segs query (rq_authorization r) [] (rq_body r) (rq_length r) in
   match serve_once r w with
   | (w, Err e) => (w, Err e)
   | (w, Ok rep) =>
       if bool_decide (rp_location rep = "") then (w, Ok (MkHttpResponse (rp_status rep) (body_text (rp_body rep))))
       else exchange n (parse_target (rp_location rep)) (redirected segs query r) w
   end).
Proof. reflexivity. Qed.

(** The path of plain segments reaches the handler that it is routed to. *)
Lemma call_answered method s segs body key env ds h k h' rep :
  Forall (λ s, plain_segment s = true) (s :: segs) → a_adminKeyHash h ≠ zeroHash → sha256 key = a_adminKeyHash h →
  route sha256 hmac error_text (call_request method (s :: segs) key body) = Some k →
  k env (call_request method (s :: segs) key body) h = (h', rep) → rp_location rep = "" →
  client_do method (join_path (s :: segs)) body (MkClient origin key) (MkWire (Served env :: ds) h)
    = (MkWire ds h', Ok (MkHttpResponse (rp_status rep) (body_text (rp_body rep)))).
Proof.
  intros Hsegs Hz Hk Hr Hrun Hloc. unfold client_do. rewrite parse_target_path by done.
  unfold HttpDo, Wire_Remote. cbn [hc_url c_baseURL]. rewrite CutPrefix_app, parse_target_path by done.
  rewrite (exchange_clean 9). cbv zeta. cbn [hc_method hc_authorization hc_body rq_method rq_authorization rq_body rq_length c_adminKey].
  unfold serve_once. cbn [deliveries admin_state]. rewrite (key_passes env key) by done.
  unfold serve_admin. fold (call_request method (s :: segs) key body). rewrite Hr, Hrun, Hloc.
  by rewrite bool_decide_eq_true_2.
Qed.
End wire.

(** ** The client at a server, against the store itself *)

(** A result of the client and one of the store: both errors, or the same. *)
Definition agrees {A} (r : result string A) (l : result store_error A) : Prop :=
  match r, l with
  | Ok a, Ok b => a = b
  | Err _, Err _ => True
  | _, _ => False
  end.

Section refinement.
Context {T St : Type} `{Transport T} `{StatusStore St} `{TimeText} `{SQLOrder} `{GoRange}.
Variable sha256 : string → string.
Variable hmac : string → string → string.
Variable error_text : store_error → string.
Variable render : page → string.
Variable origin key : string.
Variable devMode : bool.
Implicit Types (h : AdminHandler DB T St) (env : AdminEnv DBEnv).

#[local] Instance gateway_at : Remote (Wire DBEnv DB T St) :=
  Wire_Remote sha256 hmac error_text render origin devMode.
Definition client : Client := MkClient origin key.

(** The client has the key of the server. *)
Definition keyed h : Prop := a_adminKeyHash h ≠ zeroHash ∧ sha256 key = a_adminKeyHash h.

(** The calls of the store read the clock [e] and do not fail. *)
Definition calm (e : DBEnv) env : Prop := ae_first env = e ∧ ae_second env = e ∧ ∀ i, fault e i = false.

(** One call does what the operation [l] of the store does. *)
Definition simulates {A} (call : Wire DBEnv DB T St → Wire DBEnv DB T St * result string A) env ds h
    (l : DB * result store_error A) : Prop :=
  ∃ r, call (MkWire (Served env :: ds) h) = (MkWire ds (set_store h l.1), r) ∧ agrees r l.2.

Lemma set_store_same h : set_store h (a_store h) = h.
Proof. by destruct h. Qed.

Lemma path_caller name : caller_path name = join_path ["admin"; "callers"; name].
Proof. cbn [join_path]. by rewrite str_app_nil_r. Qed.

Lemma path_below name x : caller_path name +:+ "/" +:+ x = join_path ["admin"; "callers"; name; x].
Proof. unfold caller_path. cbn [join_path]. by rewrite !str_app_assoc, str_app_nil_r. Qed.

Lemma path_item name x y : caller_path name +:+ "/" +:+ x +:+ "/" +:+ y = join_path ["admin"; "callers"; name; x; y].
Proof. unfold caller_path. cbn [join_path]. by rewrite !str_app_assoc, str_app_nil_r. Qed.

Lemma plain_ne s : plain_segment s = true → s ≠ "".
Proof. intros Hs. apply plain_segment_spec in Hs. tauto. Qed.

(** A request body with one string. *)
Lemma body_read k v : valid_utf8 k = true → valid_utf8 v = true →
  decode_body (encode (JObj [(k, JStr v)])) = Some (JObj [(k, JStr v)]).
Proof.
  intros Hk Hv. unfold decode_body. pose proof (read_encoded (JObj [(k, JStr v)]) "") as Hr.
  rewrite str_app_nil_r in Hr. rewrite Hr; [done| |done]. split_and!; [done| |done].
  cbn [strings_ok forallb fst snd]. by rewrite Hk, Hv.
Qed.

Lemma own_field k v : struct_string k (JObj [(k, JStr v)]) = Some v.
Proof. unfold struct_string, field_values. rewrite filter_cons_True by (by apply bool_decide_eq_true). done. Qed.

Ltac segments := repeat apply Forall_cons_2; [done..|apply Forall_nil_2].

Ltac routed := unfold route, ui_route, api_route, call_request; cbn [rq_method rq_segments];
  repeat match goal with |- context [bool_decide (?x = "")] =>
    rewrite (bool_decide_eq_false_2 (x = "")) by (done || by apply plain_ne) end; reflexivity.

(** A call does what its handler does. *)
Lemma call_does {A} method segs body env ds h (k : ui_handler (S:=DB)) status (read : HttpResponse → result string A) l h' rep :
  Forall (λ s, plain_segment s = true) ("admin" :: segs) → keyed h →
  route sha256 hmac error_text (call_request method ("admin" :: segs) key body) = Some k →
  k env (call_request method ("admin" :: segs) key body) h = (h', rep) →
  h' = set_store h l.1 → rp_location rep = "" →
  agrees (if bool_decide (rp_status rep = status)
          then read (MkHttpResponse (rp_status rep) (body_text render (rp_body rep))) else Err "") l.2 →
  simulates (λ w, expecting status read (client_do method (join_path ("admin" :: segs)) body client w)) env ds h l.
Proof.
  intros Hs [Hz Hk] Hr Hrun -> Hloc Hag. unfold simulates, client.
  rewrite (call_answered sha256 hmac error_text render origin devMode _ _ _ _ _ _ _ _ _ _ _ Hs Hz Hk Hr Hrun Hloc).
  eexists. split; [reflexivity|]. cbn [hr_status]. by case_bool_decide.
Qed.

Lemma remote_DeleteCaller name e env ds h : plain_segment name = true → keyed h → calm e env →
  simulates (Client_DeleteCaller name client) env ds h (SQL_DeleteCaller e name (a_store h)).
Proof.
  intros Hn Hk (<- & _ & Hf). unfold Client_DeleteCaller. rewrite path_caller.
  eapply call_does; [segments|done|routed|apply surjective_pairing|..];
    unfold deleteCaller; simpl; destruct (SQL_DeleteCaller _ _ _) as [db [[]|]]; done.
Qed.

Lemma remote_UnassignRole name role e env ds h : plain_segment name = true → plain_segment role = true →
  keyed h → calm e env →
  simulates (Client_UnassignRole name role client) env ds h (SQL_UnassignRole e name role (a_store h)).
Proof.
  intros Hn Hr Hk (<- & _ & Hf). unfold Client_UnassignRole.
  change (caller_path name +:+ "/roles/" +:+ role) with (caller_path name +:+ "/" +:+ "roles" +:+ "/" +:+ role).
  rewrite path_item.
  eapply call_does; [segments|done|routed|apply surjective_pairing|..];
    unfold deleteRole; simpl; destruct (SQL_UnassignRole _ _ _ _) as [db [[]|]]; done.
Qed.

Lemma find_snoc {A} (f : A → bool) l x : List.find f l = None → f x = true → List.find f (l ++ [x]) = Some x.
Proof. induction l as [|y l IH]; simpl; [by intros _ ->|]. by destruct (f y). Qed.

Lemma remote_AddCaller name e env ds h : valid_utf8 name = true → name ≠ "" → keyed h → calm e env →
  simulates (Client_AddCaller name client) env ds h (SQL_AddCaller e name (a_store h)).
Proof.
  intros Hv Hne Hk (He1 & He2 & Hf). unfold Client_AddCaller.
  change callers_path with (join_path ["admin"; "callers"]).
  assert (∀ db, SQL_AddCaller e name (a_store h) = (db, Ok tt) → (SQL_GetCaller e name db).2 =
    Ok (MkDetail name (key_infos db name) (db_now e))) as Hget.
  { unfold SQL_AddCaller, SQL_GetCaller. rewrite Hf. destruct (caller_by_name (a_store h) name) eqn:En; [done|].
    intros db [= <-]. rewrite !Hf. unfold caller_by_name, insert_caller at 1 2. simpl.
    rewrite (find_snoc _ _ (CallerRow (next_caller (a_store h)) name (db_now e))); [done|done|by apply bool_decide_eq_true]. }
  eapply call_does; [segments|done|routed|apply surjective_pairing|..];
    unfold createCaller; cbn [rq_body call_request default from_option fmap option_fmap option_map id];
    rewrite body_read by done; cbn [mbind option_bind]; rewrite own_field;
    rewrite (bool_decide_eq_false_2 (name = "")) by done; cbn [AddCaller GetCaller SQLiteStore]; rewrite He1, He2.
  all: destruct (SQL_AddCaller e name (a_store h)) as [db [[]|err]] eqn:Ea;
    [pose proof (Hget db eq_refl) as Hg; rewrite (surjective_pairing (SQL_GetCaller e name db)), Hg|]; try done.
  all: by destruct err.
Qed.

Lemma remote_AssignRole name role e env ds h : plain_segment name = true → valid_utf8 role = true → role ≠ "" →
  keyed h → calm e env →
  simulates (Client_AssignRole name role client) env ds h (SQL_AssignRole e name role (a_store h)).
Proof.
  intros Hn Hv Hne Hk (He1 & He2 & Hf). unfold Client_AssignRole.
  change (caller_path name +:+ "/roles") with (caller_path name +:+ "/" +:+ "roles"). rewrite path_below.
  eapply call_does; [segments|done|routed|apply surjective_pairing|..];
    unfold assignRole; cbn [rq_body call_request default from_option fmap option_fmap option_map id];
    rewrite body_read by done; cbn [mbind option_bind]; rewrite own_field;
    rewrite (bool_decide_eq_false_2 (role = "")) by done; cbn [AssignRole RolesForCaller SQLiteStore]; rewrite He1, He2.
  all: destruct (SQL_AssignRole e name role (a_store h)) as [db [[]|err]] eqn:Ea; unfold SQL_RolesForCaller; rewrite ?Hf; try done.
  all: by destruct err.
Qed.

(** *** Documents of the server *)

Lemma reply_read j : document j → decode_body (body_text render (JSONReply j)) = Some j.
Proof. intros Hj. unfold decode_body, body_text. rewrite read_encoded; [done|done|]. by split_and!. Qed.

(** The text of the tables can be written as JSON. *)
Record printable (db : DB) : Prop := {
  pr_callers : ∀ c, c ∈ callers db → valid_utf8 (c_name c) = true ∧ time_ok (c_created c) = true;
  pr_keys : ∀ k, k ∈ api_keys db →
    valid_utf8 (k_label k) = true ∧ time_ok (k_created k) = true ∧ Strconv.in_int64 (k_id k) = true;
  pr_roles : ∀ r, r ∈ caller_roles db → valid_utf8 r.2 = true;
  pr_count : Strconv.in_int64 (Z.of_nat (length (api_keys db))) = true;
}.

Lemma field_values_cons name k v l :
  field_values name ((k, v) :: l) = if EqualFold k name then v :: field_values name l else field_values name l.
Proof. unfold field_values. rewrite filter_cons. cbn [fst]. destruct (EqualFold k name); by case_decide. Qed.

Ltac fields := rewrite !field_values_cons;
  repeat match goal with |- context [EqualFold ?a ?b] =>
    let v := eval vm_compute in (EqualFold a b) in change (EqualFold a b) with v end; cbv iota;
  change (field_values ?a []) with (@nil json).

Ltac read_fields :=
  cbn [decode_all foldl as_string as_int mbind option_bind last decode_list jint jtime decode_time].

Definition item_ok (j : json) : Prop := numbers_ok j = true ∧ strings_ok j = true ∧ (nesting j ≤ 2)%N.

Lemma list_document {A} k (f : A → json) l : valid_utf8 k = true → Forall (λ x, item_ok (f x)) l →
  document (JObj [(k, JArr (map f l))]).
Proof.
  intros Hk Hl. unfold document. cbn [numbers_ok strings_ok nesting forallb foldr fst snd]. rewrite Hk.
  assert (foldr (λ j n, N.max (nesting j) n) 0 (map f l) ≤ 2)%N as Hn.
  { induction Hl as [|x l (_ & _ & Hx) _ IH]; [done|]. cbn [map foldr]. lia. }
  split_and!; [..|unfold maxNestingDepth; lia]; clear Hn; rewrite !andb_true_r; cbn [andb];
    induction Hl as [|x l (Hx1 & Hx2 & _) _ IH]; cbn [map forallb]; by rewrite ?Hx1, ?Hx2.
Qed.

Lemma keyItem_ok i l t : valid_utf8 l = true → time_ok t = true → item_ok (keyItem (MkKeyInfo i l t)).
Proof.
  intros Hl Ht. unfold item_ok, keyItem, jint, jtime. cbn [ki_id ki_label ki_created numbers_ok strings_ok forallb fst snd].
  rewrite (bool_decide_eq_true_2 _ (FormatInt_number _)), Hl, time_text_utf8 by done. done.
Qed.

Lemma keyItem_read i l t : Strconv.in_int64 i = true → time_ok t = true →
  decode_keyItem (keyItem (MkKeyInfo i l t)) = Some (MkKeyInfo i l t).
Proof.
  intros Hi Ht. unfold decode_keyItem, keyItem, struct_int, struct_string, struct_field. cbn [ki_id ki_label ki_created].
  fields. read_fields. rewrite Strconv.ParseInt_FormatInt by done. read_fields. by rewrite parse_time_text.
Qed.

(** The keys of a caller that exists. *)
Definition existing_keys (name : string) (db : DB) : DB * result store_error (list KeyInfo) :=
  (db, match caller_by_name db name with Some _ => Ok (key_infos db name) | None => Err ErrNotFound end).

Lemma key_infos_read db name : printable db →
  document (JObj [("keys", JArr (map keyItem (key_infos db name)))]) ∧
  mapM decode_keyItem (map keyItem (key_infos db name)) = Some (key_infos db name).
Proof.
  intros Hp. assert (∀ k, k ∈ keys_of db name → k ∈ api_keys db) as Hin by (intros k [_ Hk]%list_elem_of_filter; done).
  split.
  - apply list_document; [done|]. unfold key_infos. apply Forall_fmap, Forall_forall. intros k Hk%Hin.
    apply (pr_keys _ Hp) in Hk as (Hx1 & Hx2 & _). by apply keyItem_ok.
  - apply mapM_Some_2, Forall2_fmap_l, Forall_Forall2_diag. unfold key_infos. apply Forall_fmap, Forall_forall.
    intros k Hk%Hin. apply (pr_keys _ Hp) in Hk as (_ & Hx2 & Hx3). by apply keyItem_read.
Qed.

Lemma keys_decoded db name status : printable db →
  decoded (struct_field "keys" [] (decode_list decode_keyItem))
    (MkHttpResponse status (body_text render (JSONReply (JObj [("keys", JArr (map keyItem (key_infos db name)))]))))
  = Ok (key_infos db name).
Proof.
  intros Hp. destruct (key_infos_read db name Hp) as [Hd Hm]. unfold decoded. cbn [hr_body]. rewrite reply_read by done.
  cbn [mbind option_bind struct_field]. fields. cbn [last decode_list]. by rewrite Hm.
Qed.

Lemma remote_ListKeys name e env ds h : plain_segment name = true → printable (a_store h) → keyed h → calm e env →
  simulates (Client_ListKeys name client) env ds h (existing_keys name (a_store h)).
Proof.
  intros Hn Hp Hk (He1 & He2 & Hf). unfold Client_ListKeys.
  change (caller_path name +:+ "/keys") with (caller_path name +:+ "/" +:+ "keys"). rewrite path_below.
  eapply call_does; [segments|done|routed|apply surjective_pairing|..];
    unfold listKeys; cbn [GetCaller ListKeys SQLiteStore]; rewrite He1, He2; unfold SQL_GetCaller, SQL_ListKeys, existing_keys;
    rewrite !Hf; destruct (caller_by_name (a_store h) name).
  1,2,3,4,6: done.
  cbn [snd writeJSON rp_status rp_body]. rewrite bool_decide_eq_true_2 by done. by rewrite keys_decoded.
Qed.

(** A key is made: the hash is stored, the key is what was generated. *)
Definition stored_key (e : DBEnv) (rand callerName label : string) (db : DB) : DB * result store_error string :=
  let rawKey := GenerateAPIKey rand in
  match SQL_AddKey e callerName (sha256 rawKey) label db with
  | (db, Err x) => (db, Err x)
  | (db, Ok _) => (db, Ok rawKey)
  end.

Lemma key_decoded rand label t status : valid_utf8 label = true → time_ok t = true →
  decoded (struct_string "key") (MkHttpResponse status (body_text render (JSONReply (createKeyResp (GenerateAPIKey rand) label t))))
  = Ok (GenerateAPIKey rand).
Proof.
  intros Hl Ht. unfold decoded. cbn [hr_body]. rewrite reply_read.
  - cbn [mbind option_bind]. unfold struct_string, createKeyResp. fields. done.
  - unfold document, createKeyResp, jtime. cbn [strings_ok forallb fst snd].
    assert (valid_utf8 (GenerateAPIKey rand) = true) as ->.
    { apply ascii_valid. unfold GenerateAPIKey. rewrite all_bytes_app. apply andb_true_iff. split; [done|]. apply hex_ascii. }
    rewrite Hl, time_text_utf8 by done. done.
Qed.

Lemma remote_CreateKey name label rand e env ds h : plain_segment name = true → valid_utf8 label = true →
  keyed h → calm e env → ae_random env = Some rand → time_ok (ae_now env) = true →
  simulates (Client_CreateKey name label client) env ds h (stored_key e rand name label (a_store h)).
Proof.
  intros Hn Hv Hk (He1 & He2 & Hf) Hrand Ht. unfold Client_CreateKey.
  change (caller_path name +:+ "/keys") with (caller_path name +:+ "/" +:+ "keys"). rewrite path_below.
  assert (key_label (call_request "POST" ["admin"; "callers"; name; "keys"] key (Some (JObj [("label", JStr label)]))) = Some label) as Hl.
  { unfold key_label. cbn [call_request rq_length rq_body default from_option fmap option_fmap option_map id].
    rewrite body_read by done. cbn [mbind option_bind]. rewrite own_field. done. }
  eapply call_does; [segments|done|routed|apply surjective_pairing|..];
    unfold createKey; rewrite Hl; cbn [GetCaller AddKey SQLiteStore]; rewrite He1, He2, Hrand; unfold SQL_GetCaller, stored_key;
    rewrite !Hf; destruct (caller_by_name (a_store h) name) eqn:En.
  2,4,6: unfold SQL_AddKey, select_id; rewrite ?Hf, ?En; done.
  all: destruct (SQL_AddKey _ _ _ _ _) as [db [[]|]] eqn:Ea.
  1,2,3,4,6: done.
  cbn [snd writeJSON rp_status rp_body]. rewrite bool_decide_eq_true_2 by done. by rewrite key_decoded.
Qed.

(** *** All callers *)

Definition info_of (db : DB) (c : caller_row) : CallerInfo :=
  MkCallerInfo (c_name c) (length (filter (λ k, k_caller k = c_id c) (api_keys db))) (roles_of_db db (c_name c)) (c_created c).

Lemma list_infos_calm e i db rows : (∀ i, fault e i = false) → list_infos e i db rows = Ok (map (info_of db) rows).
Proof. intros Hf. revert i. induction rows as [|c rows IH]; intros i; [done|]. cbn [list_infos map]. by rewrite Hf, IH. Qed.

Lemma insert_row_In c d l : c ∈ insert_row d l → c = d ∨ c ∈ l.
Proof. induction l as [|x l IH]; simpl; [set_solver|]. destruct (info_le d x); set_solver. Qed.

Lemma sorted_rows_In c l : c ∈ foldr insert_row [] l → c ∈ l.
Proof. induction l as [|d l IH]; simpl; [done|]. intros [->|Hc]%insert_row_In; set_solver. Qed.

Lemma strings_document l : forallb valid_utf8 l = true → numbers_ok (jstrings l) = true ∧ strings_ok (jstrings l) = true ∧ (nesting (jstrings l) ≤ 1)%N.
Proof.
  intros Hl. unfold jstrings. cbn [numbers_ok strings_ok nesting].
  assert (foldr (λ j n, N.max (nesting j) n) 0 (JStr <$> l) = 0)%N as ->.
  { clear Hl. induction l as [|x l IH]; [done|]. cbn [fmap list_fmap foldr]. by rewrite IH. }
  split_and!; [..|done]; induction l as [|x l IH]; [done| |done|]; cbn [forallb fmap list_fmap] in *.
  - apply andb_true_iff in Hl as [_ Hl]. by apply IH.
  - apply andb_true_iff in Hl as [Hx Hl]. cbn [strings_ok]. by rewrite Hx, IH.
Qed.

Lemma info_ok db c : printable db → c ∈ callers db → item_ok (callerListItem (info_of db c)).
Proof.
  intros Hp Hc. apply (pr_callers _ Hp) in Hc as [Hn Ht]. destruct (strings_document (roles_of_db db (c_name c))) as (Hx1 & Hx2 & Hx3).
  { apply forallb_forall. intros r Hr%list_elem_of_In. apply list_elem_of_fmap in Hr as (x & -> & [_ Hx]%list_elem_of_filter).
    by apply (pr_roles _ Hp). }
  unfold item_ok, callerListItem, info_of, jint, jtime.
  cbn [ci_name ci_keys ci_roles ci_created numbers_ok strings_ok nesting forallb foldr fst snd].
  rewrite (bool_decide_eq_true_2 _ (FormatInt_number _)), Hn, Hx1, Hx2, time_text_utf8 by done. split_and!; [done|done|lia].
Qed.

Lemma info_read db c : printable db → c ∈ callers db → decode_callerListItem (callerListItem (info_of db c)) = Some (info_of db c).
Proof.
  intros Hp Hc. apply (pr_callers _ Hp) in Hc as [_ Ht].
  assert (Strconv.in_int64 (Z.of_nat (length (filter (λ k, k_caller k = c_id c) (api_keys db)))) = true) as Hi.
  { pose proof (pr_count _ Hp) as Hl. pose proof (length_filter (λ k, k_caller k = c_id c) (api_keys db)).
    unfold Strconv.in_int64, Strconv.min_int64 in *. lia. }
  assert (mapM (as_string "") (JStr <$> roles_of_db db (c_name c)) = Some (roles_of_db db (c_name c))) as Hr.
  { apply mapM_Some_2, Forall2_fmap_l, Forall_Forall2_diag, Forall_true. done. }
  unfold decode_callerListItem, callerListItem, info_of, struct_int, struct_string, struct_field, jstrings.
  cbn [ci_name ci_keys ci_roles ci_created]. fields.
  read_fields. rewrite Strconv.ParseInt_FormatInt by done. read_fields. rewrite Hr. read_fields.
  rewrite parse_time_text by done. read_fields. by rewrite Nat2Z.id.
Qed.

Lemma remote_ListCallers e env ds h : printable (a_store h) → keyed h → calm e env →
  simulates (Client_ListCallers client) env ds h (SQL_ListCallers e (a_store h)).
Proof.
  intros Hp Hk (He1 & He2 & Hf). unfold Client_ListCallers.
  change callers_path with (join_path ["admin"; "callers"]).
  eapply call_does; [segments|done|routed|apply surjective_pairing|..];
    unfold listCallers; cbn [ListCallers SQLiteStore]; rewrite He1; unfold SQL_ListCallers;
    rewrite !Hf, list_infos_calm by done.
  1,2: done.
  cbn [snd writeJSON rp_status rp_body]. rewrite bool_decide_eq_true_2 by done.
  unfold decoded. cbn [hr_body]. rewrite reply_read.
  - cbn [mbind option_bind struct_field]. fields. cbn [last decode_list].
    assert (mapM decode_callerListItem (callerListItem <$> map (info_of (a_store h)) (foldr insert_row [] (callers (a_store h))))
      = Some (map (info_of (a_store h)) (foldr insert_row [] (callers (a_store h))))) as ->; [|done].
    apply mapM_Some_2, Forall2_fmap_l, Forall_Forall2_diag, Forall_fmap, Forall_forall. intros c Hc%sorted_rows_In. by apply info_read.
  - apply list_document; [done|]. apply Forall_fmap, Forall_forall. intros c Hc%sorted_rows_In. by apply info_ok.
Qed.

(** *** Revocation *)

(** The caller has at most one key of the label. *)
Definition label_unique (name label : string) (db : DB) : Prop :=
  ∀ k k', k ∈ keys_of db name → k' ∈ keys_of db name → k_label k = label → k_label k' = label → k = k'.

Lemma keys_of_In db name c k : wf db → caller_by_name db name = Some c →
  k ∈ keys_of db name ↔ k ∈ api_keys db ∧ k_caller k = c_id c.
Proof.
  intros Hwf Hc. apply caller_by_name_Some in Hc as [Hc Hn]; [|done]. unfold keys_of.
  rewrite list_elem_of_filter, owned_by_true by done. split; [|naive_solver].
  intros [(d & Hd & Hi & Hdn) Hk]. split; [done|]. rewrite <- Hi. f_equal. eapply same_name; eauto. congruence.
Qed.

Lemma same_key_id db k k' : wf db → k ∈ api_keys db → k' ∈ api_keys db → k_id k = k_id k' → k = k'.
Proof.
  intros Hwf Hk Hk' Hi. apply list_elem_of_lookup in Hk as [i Hki], Hk' as [j Hkj].
  assert (i = j) as ->; [|congruence]. eapply (NoDup_lookup _ i j); [apply (wf_key_ids _ Hwf)|..]; rewrite list_lookup_fmap.
  - rewrite Hki. reflexivity.
  - rewrite Hkj. simpl. by rewrite Hi.
Qed.

Lemma delete_by_id e name label db c k : wf db → label_unique name label db → caller_by_name db name = Some c →
  k ∈ keys_of db name → k_label k = label → SQL_DeleteKey e name (k_id k) db = SQL_RevokeKey e name label db.
Proof.
  intros Hwf Hu Hc Hk Hl. unfold SQL_DeleteKey, SQL_RevokeKey, delete_keys. rewrite Hc. destruct (fault e 0); [done|].
  pose proof (proj1 (keys_of_In _ _ _ _ Hwf Hc) Hk) as [Hin Hown].
  assert (∀ k', k' ∈ api_keys db → bool_decide (k_caller k' = c_id c) && bool_decide (k_id k' = k_id k)
            = bool_decide (k_caller k' = c_id c) && bool_decide (k_label k' = label)) as Hsame.
  { intros k' Hk'. destruct (bool_decide_reflect (k_caller k' = c_id c)) as [Ho|]; [|done]. simpl. apply bool_decide_ext. split.
    - intros Hi. rewrite (same_key_id db k' k); [done|done|done|done|done].
    - intros Hl'. f_equal. apply Hu; [|done|done|done]. by apply (keys_of_In _ _ c). }
  assert (∀ f, (f k : bool) = true → existsb f (api_keys db) = true) as Hex.
  { intros f Hfk. apply existsb_exists. exists k. split; [by apply list_elem_of_In|done]. }
  rewrite !Hex by (rewrite !bool_decide_eq_true_2; done). do 2 f_equal.
  apply filter_ext_elem. intros k' Hk'. by rewrite Hsame.
Qed.

Lemma FormatInt_segment z : plain_segment (Strconv.FormatInt z) = true.
Proof.
  pose proof (Strconv.FormatInt_bytes z) as Hb. unfold plain_segment. rewrite !andb_true_iff, !negb_true_iff, !bool_decide_eq_false.
  split_and!.
  - revert Hb. apply all_bytes_impl. intros [[] [] [] [] [] [] [] []]; vm_compute; done.
  - intros Hs. pose proof (FormatInt_number z) as Hn. by rewrite Hs in Hn.
  - intros Hs. by rewrite Hs in Hb.
  - intros Hs. by rewrite Hs in Hb.
Qed.

Lemma remote_RevokeKey name label e env1 env2 ds h : plain_segment name = true → wf (a_store h) → printable (a_store h) →
  label_unique name label (a_store h) → keyed h → calm e env1 → calm e env2 →
  let l := SQL_RevokeKey e name label (a_store h) in
  ∃ ds' r, Client_RevokeKey name label client (MkWire (Served env1 :: Served env2 :: ds) h) = (MkWire ds' (set_store h l.1), r) ∧
    agrees r l.2 ∧ ds' `suffix_of` (Served env2 :: ds).
Proof.
  intros Hn Hwf Hp Hu Hk Hx1 Hx2. simpl. unfold Client_RevokeKey.
  destruct (remote_ListKeys name e env1 (Served env2 :: ds) h Hn Hp Hk Hx1) as (r & -> & Hr).
  unfold existing_keys in *. cbn [fst snd] in *. rewrite set_store_same.
  assert (∀ c, caller_by_name (a_store h) name = c → (∀ k, k ∈ keys_of (a_store h) name → k_label k ≠ label) →
    SQL_RevokeKey e name label (a_store h) = (a_store h, Err ErrNotFound)) as Hnone.
  { intros oc Hc Hno. destruct Hx2 as (_ & _ & Hf). unfold SQL_RevokeKey, delete_keys. rewrite Hf, Hc.
    destruct (existsb _ _) eqn:He; [|done]. exfalso. apply existsb_exists in He as (k & Hin%list_elem_of_In & Hd).
    destruct oc as [c|]; [|done]. rewrite andb_true_iff, !bool_decide_eq_true in Hd. destruct Hd as [Ho Hl].
    by apply (Hno k); [apply (keys_of_In _ _ c)|]. }
  destruct (caller_by_name (a_store h) name) as [c|] eqn:Ec.
  2:{ destruct r as [keys|err]; [done|]. exists (Served env2 :: ds), (Err err).
      rewrite (Hnone None eq_refl); [by rewrite set_store_same|].
      intros k [Ho _]%list_elem_of_filter. apply owned_by_true in Ho as (d & Hd & _ & Hdn); [|done].
      apply caller_by_name_None in Ec. destruct Ec. apply list_elem_of_fmap. eauto. }
  destruct r as [keys|err]; [|done]. cbn [agrees] in Hr. subst keys.
  destruct (List.find _ (key_infos (a_store h) name)) as [ki|] eqn:Ef.
  2:{ eexists _, _. rewrite (Hnone (Some c) eq_refl); [by rewrite set_store_same|]. intros k Hk' Hl.
      eapply List.find_none in Ef; [|apply list_elem_of_In, list_elem_of_fmap_2, Hk']. simpl in Ef. by apply bool_decide_eq_false in Ef. }
  apply List.find_some in Ef as [Hin Hl]. apply list_elem_of_In, list_elem_of_fmap in Hin as (k & -> & Hkin).
  apply bool_decide_eq_true in Hl. simpl in Hl. cbn [ki_id].
  pose proof (delete_by_id e name label (a_store h) c k Hwf Hu Ec Hkin Hl) as Hdel.
  change (caller_path name +:+ "/keys/" +:+ ?x) with (caller_path name +:+ "/" +:+ "keys" +:+ "/" +:+ x). rewrite path_item.
  assert (simulates (λ w, expecting 204 done_ok (client_do "DELETE" (join_path ["admin"; "callers"; name; "keys"; Strconv.FormatInt (k_id k)])
    None client w)) env2 ds h (SQL_RevokeKey e name label (a_store h))) as (r & Hcall & Hag).
  { assert (Strconv.in_int64 (k_id k) = true) as Hid.
    { apply (pr_keys _ Hp). by apply list_elem_of_filter in Hkin as [_ ?]. }
    destruct Hx2 as (He1 & _ & Hf).
    eapply call_does; [pose proof (FormatInt_segment (k_id k)); segments|done| |apply surjective_pairing|..].
    { pose proof (plain_ne _ (FormatInt_segment (k_id k))). routed. }
    all: unfold deleteKey; rewrite Strconv.ParseInt_FormatInt by done; cbn [DeleteKey SQLiteStore]; rewrite He1, Hdel;
      destruct (SQL_RevokeKey _ _ _ _) as [db [[]|]]; done. }
  revert Hcall. unfold expecting. destruct (client_do _ _ _ _ _) as [w [resp|err]]; intros [= -> <-].
  - eexists _, _. split; [reflexivity|]. split; [by case_bool_decide|]. by eexists [_].
  - eexists _, _. split; [reflexivity|]. split; [done|]. by eexists [_].
Qed.
End refinement.
