(* ===== verification/Cli.v ===== *)
(** * The command line ([cmd/gateway/cli.go], the subcommands of [main.go])

    Flags as the package [flag] reads them, the choice of a back end
    ([openAdmin], [openStore]), and the commands over the interface [cliAdmin],
    which the local store ([localAdmin]) and the remote client implement. A run
    function gives a [plan]: it stops, or executes a command at a back end. The
    theorem compares the two implementations. *)

From S2P Require Import Prelude GoLib Json JsonRpc JsonText Transport RateLimit Router Proxy Server Http ConfigData ConfigView.
From S2P Require Import AuthStore CachedStore Auth OAuth Health AuditStore Admin AdminUI AdminClient.
Import GoStr.

(** ** Flags *)

Inductive flag_kind := StringFlag | BoolFlag | IntFlag | MultiFlag.

(** The flags of a [FlagSet], by name. *)
Definition FlagSet : Type := list (string * flag_kind).

Inductive parse_error := ErrHelp | BadFlag.

(** [strconv.ParseBool] *)
Definition ParseBool (s : string) : option bool :=
  if existsb (String.eqb s) ["1"; "t"; "T"; "true"; "TRUE"; "True"] then Some true
  else if existsb (String.eqb s) ["0"; "f"; "F"; "false"; "FALSE"; "False"] then Some false
  else None.

(** The digits of a number in a base, without its underscores. *)
Fixpoint base_digits (base : Z) (acc : Z) (s : string) : option Z :=
  match s with
  | EmptyString => Some acc
  | String c s =>
      if bool_decide (c = "_"%char) then base_digits base acc s
      else d ← hex_value c; if Z.of_N d <? base then base_digits base (acc * base + Z.of_N d) s else None
  end.

(** [underscoreOK] after the sign: an underscore separates digits; a base
    prefix counts as one. *)
Fixpoint underscores_ok (hex digit_before underscore : bool) (s : string) : bool :=
  match s with
  | EmptyString => negb underscore
  | String c s =>
      if is_digit c || (hex && between 97 102 (to_lower c)) then underscores_ok hex true false s
      else if bool_decide (c = "_"%char) then digit_before && underscores_ok hex false true s
      else negb underscore && underscores_ok hex false false s
  end.

(** [strconv.ParseInt(s, 0, 64)] *)
Definition ParseInt0 (s : string) : option Z :=
  let '(neg, body) := match s with
    | String "+" r => (false, r)
    | String "-" r => (true, r)
    | _ => (false, s)
    end in
  let '(base, prefixed, digits) := match body with
    | String "0" (String c r) =>
        if bool_decide (to_lower c = "x"%char) then (16, true, r)
        else if bool_decide (to_lower c = "o"%char) then (8, true, r)
        else if bool_decide (to_lower c = "b"%char) then (2, true, r)
        else (8, false, String c r)
    | _ => (10, false, body)
    end in
  if bool_decide (digits = "") || negb (underscores_ok (base =? 16) (prefixed || (base =? 8)) false digits) then None
  else
    n ← base_digits base 0 digits;
    let z := if neg : bool then - n else n in
    if Strconv.in_int64 z then Some z else None.

(** Whether [Set] accepts the value. *)
Definition set_ok (k : flag_kind) (v : string) : bool :=
  match k with
  | StringFlag | MultiFlag => true
  | BoolFlag => bool_decide (is_Some (ParseBool v))
  | IntFlag => bool_decide (is_Some (ParseInt0 v))
  end.

(** The name of a flag argument, without its dashes; [None]: the argument ends
    the flags. *)
Definition flag_name (s : string) : option string :=
  match s with
  | String "-" (String "-" r) => if bool_decide (r = "") then None else Some r
  | String "-" (String c r) => Some (String c r)
  | _ => None
  end.

(** [FlagSet.Parse]: the values that are set, in order. *)
Fixpoint parse_flags (fs : FlagSet) (args : list string) : result parse_error (list (string * string)) :=
  match args with
  | [] => Ok []
  | s :: args =>
      match flag_name s with
      | None => Ok []
      | Some body =>
          if HasPrefix body "-" || HasPrefix body "=" then Err BadFlag else
          let '(name, value) := match Cut "=" body with Some (n, v) => (n, Some v) | None => (body, None) end in
          match List.find (λ f, bool_decide (f.1 = name)) fs with
          | None => Err (if bool_decide (name = "help") || bool_decide (name = "h") then ErrHelp else BadFlag)
          | Some (_, k) =>
              let set v rest := if set_ok k v then l ← rest; Ok ((name, v) :: l) else Err BadFlag in
              match value, k with
              | Some v, _ => set v (parse_flags fs args)
              | None, BoolFlag => set "true" (parse_flags fs args)
              | None, _ =>
                  match args with
                  | [] => Err BadFlag
                  | v :: args => set v (parse_flags fs args)
                  end
              end
          end
      end
  end.

(** The value of a flag: the last one that was set. *)
Definition flag_value (l : list (string * string)) (name default : string) : string :=
  match List.find (λ kv, bool_decide (kv.1 = name)) (reverse l) with Some kv => kv.2 | None => default end.
Definition flag_bool (l : list (string * string)) (name : string) : bool :=
  bool_decide (ParseBool (flag_value l name "false") = Some true).

(** ** The interface of the commands *)

Class cliAdmin (W : Type) := {
  cli_AddCaller : string → W → W * result string unit;
  cli_ListCallers : W → W * result string (list CallerInfo);
  cli_DeleteCaller : string → W → W * result string unit;
  cli_KeyCountForCaller : string → W → W * result string nat;
  cli_CreateKey : string → string → W → W * result string string;
  cli_ListKeys : string → W → W * result string (list KeyInfo);
  cli_RevokeKey : string → string → W → W * result string unit;
  cli_AssignRole : string → string → W → W * result string unit;
  cli_UnassignRole : string → string → W → W * result string unit;
}.

(** The client is an implementation. *)
Definition Client_cliAdmin {W} `{Remote W} `{TimeText} (c : Client) : cliAdmin W := {|
  cli_AddCaller name := Client_AddCaller name c;
  cli_ListCallers := Client_ListCallers c;
  cli_DeleteCaller name := Client_DeleteCaller name c;
  cli_KeyCountForCaller name := Client_KeyCountForCaller name c;
  cli_CreateKey name label := Client_CreateKey name label c;
  cli_ListKeys name := Client_ListKeys name c;
  cli_RevokeKey name label := Client_RevokeKey name label c;
  cli_AssignRole name role := Client_AssignRole name role c;
  cli_UnassignRole name role := Client_UnassignRole name role c;
|}.

(** [localAdmin]: a store, with the readings of the calls on it and the random
    bytes of a new key. *)
Record localAdmin (E S : Type) := MkLocal { l_env : E; l_random : option string; l_store : S }.
Arguments MkLocal {E S}. Arguments l_env {E S}. Arguments l_random {E S}. Arguments l_store {E S}.

Section local.
Context {E S : Type} `{Store E S}.
Variable sha256 : string → string.
Variable error_text : store_error → string.

(** An operation of the store; its error as a text. *)
Definition on_store {A} (f : E → S → S * result store_error A) (a : localAdmin E S) : localAdmin E S * result string A :=
  let '(s, r) := f (l_env a) (l_store a) in
  (MkLocal (l_env a) (l_random a) s, match r with Ok x => Ok x | Err e => Err (error_text e) end).

Definition local_CreateKey (callerName label : string) (a : localAdmin E S) : localAdmin E S * result string string :=
  match l_random a with
  | None => (a, Err "generate key")
  | Some rand =>
      let rawKey := GenerateAPIKey rand in
      match on_store (λ e, AddKey e callerName (sha256 rawKey) label) a with
      | (a, Err e) => (a, Err e)
      | (a, Ok _) => (a, Ok rawKey)
      end
  end.

Definition local_cliAdmin : cliAdmin (localAdmin E S) := {|
  cli_AddCaller name := on_store (λ e, AddCaller e name);
  cli_ListCallers := on_store (λ e, ListCallers e);
  cli_DeleteCaller name := on_store (λ e, DeleteCaller e name);
  cli_KeyCountForCaller name := on_store (λ e, KeyCountForCaller e name);
  cli_CreateKey := local_CreateKey;
  cli_ListKeys name := on_store (λ e, ListKeys e name);
  cli_RevokeKey name label := on_store (λ e, RevokeKey e name label);
  cli_AssignRole name role := on_store (λ e, AssignRole e name role);
  cli_UnassignRole name role := on_store (λ e, UnassignRole e name role);
|}.
End local.

(** ** Commands *)

(** What is printed: the data of each format. *)
Inductive output :=
| Usage
| Failure (msg : string)
| CallerCreated (name : string)
| KeyIssued (caller rawKey : string)
| RoleAssigned (role caller : string)
| RoleUnassigned (role caller : string)
| CallerTable (callers : list CallerInfo)
| CallerRemoved (name : string)
| KeyTable (caller : string) (keys : list KeyInfo)
| KeyRevoked (label caller : string)
| CacheTable (stats : list Z)
| CacheFlushed.

Inductive command :=
| AddCallerCmd (name : string)
| AddKeyCmd (caller label : string)
| AssignRoleCmd (caller role : string)
| UnassignRoleCmd (caller role : string)
| ListCallersCmd
| RemoveCallerCmd (name : string) (force : bool)
| RevokeKeyCmd (caller label : string).

Section exec.
Context {W : Type} `{cliAdmin W}.

(** The end of a command: the error, or what [k] prints. *)
Definition finish {A} (k : A → output) (r : W * result string A) : W * (Z * output) :=
  match r with
  | (w, Err e) => (w, (1, Failure e))
  | (w, Ok a) => (w, (0, k a))
  end.

Definition remove_caller (name : string) (w : W) : W * (Z * output) :=
  finish (λ _, CallerRemoved name) (cli_DeleteCaller name w).

(** The rest of a run function, once a back end is open: the exit status and
    what is printed. Without a label the keys are listed. *)
Definition exec (cmd : command) (w : W) : W * (Z * output) :=
  match cmd with
  | AddCallerCmd name => finish (λ _, CallerCreated name) (cli_AddCaller name w)
  | AddKeyCmd caller label => finish (KeyIssued caller) (cli_CreateKey caller label w)
  | AssignRoleCmd caller role => finish (λ _, RoleAssigned role caller) (cli_AssignRole caller role w)
  | UnassignRoleCmd caller role => finish (λ _, RoleUnassigned role caller) (cli_UnassignRole caller role w)
  | ListCallersCmd => finish CallerTable (cli_ListCallers w)
  | RemoveCallerCmd name force =>
      if force then remove_caller name w
      else match cli_KeyCountForCaller name w with
           | (w, Err e) => (w, (1, Failure e))
           | (w, Ok count) =>
               if (0 <? count)%nat then (w, (1, Failure "caller has active keys; use --force to remove"))
               else remove_caller name w
           end
  | RevokeKeyCmd caller label =>
      if bool_decide (label = "") then
        match cli_ListKeys caller w with
        | (w, Err e) => (w, (1, Failure e))
        | (w, Ok []) => (w, (1, Failure "caller has no keys"))
        | (w, Ok keys) => (w, (0, KeyTable caller keys))
        end
      else finish (λ _, KeyRevoked label caller) (cli_RevokeKey caller label w)
  end.
End exec.

(** ** Back ends *)

Record cliFlags := MkFlags { f_db : string; f_driver : string; f_config : string; f_remote : string; f_adminKey : string }.

Definition cli_flag_set : FlagSet :=
  [("db", StringFlag); ("driver", StringFlag); ("config", StringFlag); ("remote", StringFlag); ("admin-key", StringFlag)].

(** [addCLIFlags], after [Parse]. *)
Definition addCLIFlags (l : list (string * string)) : cliFlags :=
  let v name := flag_value l name "" in MkFlags (v "db") (v "driver") (v "config") (v "remote") (v "admin-key").

(** What the commands read from the machine. *)
Record Machine := MkMachine {
  getenv : string → string;
  load_config : string → result string Config;
  can_open : string → string → bool;        (* the database of a driver and a DSN *)
}.

Inductive backend :=
| RemoteBackend (c : Client)
| LocalBackend (driver dsn : string).

Section open.
Variable m : Machine.

(** [auth.OpenStore] *)
Definition open_database (cfg : DatabaseConfig) : result string backend :=
  if bool_decide (driver cfg = "sqlite") || bool_decide (driver cfg = "") || bool_decide (driver cfg = "postgres") then
    if can_open m (driver cfg) (dsn cfg) then Ok (LocalBackend (driver cfg) (dsn cfg)) else Err "open database"
  else Err "auth: unsupported database driver".

Definition openStore (f : cliFlags) : result string backend :=
  let drv := if bool_decide (f_driver f = "") then "sqlite" else f_driver f in
  let standard := open_database (MkDatabase drv "stile.db") in
  if negb (bool_decide (f_db f = "")) then open_database (MkDatabase drv (f_db f))
  else if negb (bool_decide (f_config f = "")) then
    match load_config m (f_config f) with
    | Err e => Err ("load config: " +:+ e)
    | Ok cfg =>
        let db := database (ConfigData.server cfg) in
        if bool_decide (dsn db = "") then standard else open_database db
    end
  else standard.

(** The admin key of a flag or of the environment. *)
Definition admin_key (f : cliFlags) : result string string :=
  let key := if bool_decide (f_adminKey f = "") then getenv m "STILE_ADMIN_KEY" else f_adminKey f in
  if bool_decide (key = "") then Err "--admin-key or STILE_ADMIN_KEY is required with --remote" else Ok key.

Definition openAdmin (f : cliFlags) : result string backend :=
  if negb (bool_decide (f_remote f = "")) then
    if negb (bool_decide (f_db f = "")) then Err "--remote and --db are mutually exclusive"
    else key ← admin_key f; Ok (RemoteBackend (NewClient (f_remote f) key))
  else openStore f.

(** ** The subcommands *)

(** What a run function does after its checks. *)
Inductive plan :=
| Stop (status : Z) (out : output)
| Execute (warning : option string) (b : backend) (cmd : command)
| ShowCache (c : Client)
| FlushCache (c : Client).

(** [ExitOnError] *)
Definition with_flags (fs : FlagSet) (args : list string) (k : list (string * string) → plan) : plan :=
  match parse_flags fs args with
  | Err ErrHelp => Stop 0 Usage
  | Err BadFlag => Stop 2 Usage
  | Ok l => k l
  end.

Definition at_backend (f : cliFlags) (warning : option string) (cmd : command) : plan :=
  match openAdmin f with
  | Err e => Stop 1 (Failure e)
  | Ok b => Execute warning b cmd
  end.

Definition runAddCaller (args : list string) : plan :=
  with_flags (("name", StringFlag) :: cli_flag_set) args (λ l,
    let name := flag_value l "name" "" in
    if bool_decide (name = "") then Stop 1 (Failure "--name is required")
    else at_backend (addCLIFlags l) None (AddCallerCmd name)).

Definition runAddKey (args : list string) : plan :=
  with_flags (("caller", StringFlag) :: ("label", StringFlag) :: cli_flag_set) args (λ l,
    let caller := flag_value l "caller" "" in
    if bool_decide (caller = "") then Stop 1 (Failure "--caller is required")
    else at_backend (addCLIFlags l) None (AddKeyCmd caller (flag_value l "label" ""))).

(** A role that the configuration does not have is warned about; with
    [--remote] the configuration is not read. *)
Definition runAssignRole (args : list string) : plan :=
  with_flags (("caller", StringFlag) :: ("role", StringFlag) :: cli_flag_set) args (λ l,
    let caller := flag_value l "caller" "" in
    let role := flag_value l "role" "" in
    let f := addCLIFlags l in
    if bool_decide (caller = "") || bool_decide (role = "") then Stop 1 (Failure "--caller and --role are required")
    else if negb (bool_decide (f_config f = "")) && bool_decide (f_remote f = "") then
      match load_config m (f_config f) with
      | Err e => Stop 1 (Failure ("load config: " +:+ e))
      | Ok cfg =>
          at_backend f (if existsb (λ r, bool_decide (role_name r = role)) (roles cfg) then None
                        else Some "role not found in config") (AssignRoleCmd caller role)
      end
    else at_backend f None (AssignRoleCmd caller role)).

Definition runUnassignRole (args : list string) : plan :=
  with_flags (("caller", StringFlag) :: ("role", StringFlag) :: cli_flag_set) args (λ l,
    let caller := flag_value l "caller" "" in
    let role := flag_value l "role" "" in
    if bool_decide (caller = "") || bool_decide (role = "") then Stop 1 (Failure "--caller and --role are required")
    else at_backend (addCLIFlags l) None (UnassignRoleCmd caller role)).

Definition runListCallers (args : list string) : plan :=
  with_flags cli_flag_set args (λ l, at_backend (addCLIFlags l) None ListCallersCmd).

Definition runRemoveCaller (args : list string) : plan :=
  with_flags (("name", StringFlag) :: ("force", BoolFlag) :: cli_flag_set) args (λ l,
    let name := flag_value l "name" "" in
    if bool_decide (name = "") then Stop 1 (Failure "--name is required")
    else at_backend (addCLIFlags l) None (RemoveCallerCmd name (flag_bool l "force"))).

Definition runRevokeKey (args : list string) : plan :=
  with_flags (("caller", StringFlag) :: ("label", StringFlag) :: cli_flag_set) args (λ l,
    let caller := flag_value l "caller" "" in
    if bool_decide (caller = "") then Stop 1 (Failure "--caller is required")
    else at_backend (addCLIFlags l) None (RevokeKeyCmd caller (flag_value l "label" ""))).

(** The cache is in the running gateway: only a remote back end has one. *)
Definition with_remote (args : list string) (k : Client → plan) : plan :=
  with_flags cli_flag_set args (λ l,
    let f := addCLIFlags l in
    if bool_decide (f_remote f = "") then Stop 1 (Failure "--remote is required (cache is in-memory on the running gateway)")
    else match admin_key f with
         | Err e => Stop 1 (Failure e)
         | Ok key => k (NewClient (f_remote f) key)
         end).

Definition runCacheShow (args : list string) : plan := with_remote args ShowCache.
Definition runCacheFlush (args : list string) : plan := with_remote args FlushCache.

(** ** The start of [main] *)

Inductive entry :=
| Subcommand (p : plan)
| HealthAgent (args : list string)
| WrapMode (args : list string)
| Serve (args : list string).

Definition main_entry (args : list string) : entry :=
  match args with
  | sub :: rest =>
      if bool_decide (sub = "add-caller") then Subcommand (runAddCaller rest)
      else if bool_decide (sub = "add-key") then Subcommand (runAddKey rest)
      else if bool_decide (sub = "assign-role") then Subcommand (runAssignRole rest)
      else if bool_decide (sub = "unassign-role") then Subcommand (runUnassignRole rest)
      else if bool_decide (sub = "list-callers") then Subcommand (runListCallers rest)
      else if bool_decide (sub = "remove-caller") then Subcommand (runRemoveCaller rest)
      else if bool_decide (sub = "revoke-key") then Subcommand (runRevokeKey rest)
      else if bool_decide (sub = "health-agent") then HealthAgent rest
      else if bool_decide (sub = "wrap") then WrapMode rest
      else if bool_decide (sub = "cache-show") then Subcommand (runCacheShow rest)
      else if bool_decide (sub = "cache-flush") then Subcommand (runCacheFlush rest)
      else Serve args
  | [] => Serve args
  end.
End open.

(** The two commands of the cache. *)
Definition cache_show {W} `{Remote W} (c : Client) (w : W) : W * (Z * output) := finish CacheTable (Client_CacheStats c w).
Definition cache_flush {W} `{Remote W} (c : Client) (w : W) : W * (Z * output) := finish (λ _, CacheFlushed) (Client_CacheFlush c w).

(** ** The two implementations agree *)

(** Both failed, or both have the same result. *)
Definition same {A} (r r' : result string A) : Prop :=
  match r, r' with
  | Ok a, Ok b => a = b
  | Err _, Err _ => True
  | _, _ => False
  end.

Section agreement.
Context {T St : Type} `{Transport T} `{StatusStore St} `{TimeText} `{SQLOrder} `{GoRange}.
Variable sha256 : string → string.
Variable hmac : string → string → string.
Variable error_text : store_error → string.
Variable render : page → string.
Variable origin key : string.
Variable devMode : bool.
Implicit Types (w : Wire DBEnv DB T St) (a : localAdmin DBEnv DB).

Definition remote_admin : cliAdmin (Wire DBEnv DB T St) :=
  @Client_cliAdmin _ (gateway_at sha256 hmac error_text render origin devMode) _ (client origin key).
Definition local_admin : cliAdmin (localAdmin DBEnv DB) := local_cliAdmin sha256 error_text.

(** The request reaches a server whose clock and random bytes are those of the
    local run, and whose database does not fail. *)
Definition ready a (d : delivery DBEnv) : Prop :=
  ∃ env, d = Served env ∧ calm (l_env a) env ∧ ae_random env = l_random a ∧ time_ok (ae_now env) = true.

(** A server with the database of the local run, that [n] requests reach. *)
Record matched (n : nat) w a : Prop := {
  mt_store : a_store (admin_state w) = l_store a;
  mt_keyed : keyed sha256 key (admin_state w);
  mt_ready : Forall (ready a) (deliveries w);
  mt_count : (n ≤ length (deliveries w))%nat;
  mt_random : is_Some (l_random a);
}.

(** The names of a command stand for themselves in a path, the texts are
    UTF-8, and a label to revoke is one key. *)
Definition command_ok (db : DB) (cmd : command) : Prop :=
  match cmd with
  | AddCallerCmd name => valid_utf8 name = true ∧ name ≠ ""
  | AddKeyCmd caller label => plain_segment caller = true ∧ valid_utf8 label = true
  | AssignRoleCmd caller role => plain_segment caller = true ∧ valid_utf8 role = true ∧ role ≠ ""
  | UnassignRoleCmd caller role => plain_segment caller = true ∧ plain_segment role = true
  | ListCallersCmd => True
  | RemoveCallerCmd name _ => plain_segment name = true
  | RevokeKeyCmd caller label => plain_segment caller = true ∧ label_unique caller label db
  end.

(** A call of the client that simulates an operation of the store matches it. *)
Lemma call_matches {A} n w a (call : Wire DBEnv DB T St → Wire DBEnv DB T St * result string A)
    (op : DBEnv → DB → DB * result store_error A) :
  matched (S n) w a →
  (∀ env ds h, ready a (Served env) → a_store h = l_store a → keyed sha256 key h →
    simulates call env ds h (op (l_env a) (l_store a))) →
  ∃ w' r a' r', call w = (w', r) ∧ on_store error_text op a = (a', r') ∧ same r r' ∧ matched n w' a'.
Proof.
  intros [Hst Hk Hr Hn Hrand] Hsim. destruct w as [[|d ds] h]; simpl in *; [lia|].
  inv Hr as [|?? Hd Hds]. destruct Hd as (env & -> & Hd). destruct (Hsim env ds h) as (r & Hcall & Hag); [by exists env|done|done|].
  unfold on_store. destruct (op (l_env a) (l_store a)) as [db l]. simpl in *.
  do 4 eexists. split_and!; [exact Hcall|reflexivity|by destruct r, l|].
  split; simpl; [done|done|exact Hds|lia|done].
Qed.

(** The same exit status and the same database; the same output of a success. *)
Definition agree (x : Wire DBEnv DB T St * (Z * output)) (y : localAdmin DBEnv DB * (Z * output)) : Prop :=
  a_store (admin_state x.1) = l_store y.1 ∧ x.2.1 = y.2.1 ∧ (x.2.1 = 0 → x.2.2 = y.2.2).

Lemma finish_agree {A} (k : A → output) w r a r' n : same r r' → matched n w a → agree (finish k (w, r)) (finish k (a, r')).
Proof. intros Hs [Hst _ _ _ _]. unfold agree. destruct r, r'; simpl in *; subst; done. Qed.

Lemma call_agrees {A} (k : A → output) n w a (call : Wire DBEnv DB T St → Wire DBEnv DB T St * result string A)
    (op : DBEnv → DB → DB * result store_error A) :
  matched (S n) w a →
  (∀ env ds h, ready a (Served env) → a_store h = l_store a → keyed sha256 key h →
    simulates call env ds h (op (l_env a) (l_store a))) →
  agree (finish k (call w)) (finish k (on_store error_text op a)).
Proof.
  intros Hm Hsim. destruct (call_matches n w a call op Hm Hsim) as (w' & r & a' & r' & -> & -> & Hs & Hm').
  by eapply finish_agree.
Qed.

Ltac with_server := intros env ds h (env' & [= <-] & Hcalm & Hrand & Htime) Hst Hk; rewrite <- Hst in *;
  cbn [cli_AddCaller cli_ListCallers cli_DeleteCaller cli_CreateKey cli_ListKeys cli_AssignRole cli_UnassignRole
       remote_admin Client_cliAdmin AddCaller ListCallers DeleteCaller AssignRole UnassignRole SQLiteStore].

Lemma no_caller_no_keys db name : wf db → caller_by_name db name = None → keys_of db name = [].
Proof.
  intros Hwf Hn. unfold keys_of. apply filter_none. intros k _ Ho. apply owned_by_true in Ho as (c & Hc & _ & <-); [|done].
  apply caller_by_name_None in Hn. destruct Hn. by apply list_elem_of_fmap_2.
Qed.

Lemma remove_agrees name n w a : plain_segment name = true → matched (S n) w a →
  agree (@remove_caller _ remote_admin name w) (@remove_caller _ local_admin name a).
Proof.
  intros Hn Hm. unfold remove_caller. eapply call_agrees; [exact Hm|]. with_server. by apply remote_DeleteCaller.
Qed.

(** The keys of a caller, listed remotely and locally: only a caller that does
    not exist makes a difference. *)
Lemma list_keys_matches name n w a : plain_segment name = true → wf (l_store a) → printable (l_store a) → matched (S n) w a →
  ∃ w' r, @cli_ListKeys _ remote_admin name w = (w', r) ∧ matched n w' a ∧
    match caller_by_name (l_store a) name with
    | Some _ => r = Ok (key_infos (l_store a) name)
    | None => is_ok r = false ∧ key_infos (l_store a) name = []
    end.
Proof.
  intros Hn Hwf Hp Hm.
  destruct (call_matches n w a (@cli_ListKeys _ remote_admin name) (λ _, existing_keys name) Hm) as (w' & r & a' & r' & Hc & Hl & Hs & Hm').
  { with_server. by eapply remote_ListKeys. }
  exists w', r. split; [done|]. unfold on_store, existing_keys in Hl. injection Hl as <- <-.
  split; [by destruct a|]. destruct (caller_by_name (l_store a) name) eqn:Ec; [by destruct r; simpl in Hs; subst|].
  split; [by destruct r|]. unfold key_infos. by rewrite no_caller_no_keys.
Qed.

Lemma list_keys_local name a : (∀ i, fault (l_env a) i = false) →
  @cli_ListKeys _ local_admin name a = (a, Ok (key_infos (l_store a) name)).
Proof. intros Hf. cbn. unfold on_store. cbn. unfold SQL_ListKeys. rewrite Hf. by destruct a. Qed.

Lemma ready_calm n w a : matched (S n) w a → ∀ i, fault (l_env a) i = false.
Proof.
  intros [_ _ Hr Hn _]. destruct (deliveries w) as [|d ds]; simpl in Hn; [lia|]. inv Hr as [|?? Hd _].
  destruct Hd as (env & _ & (_ & _ & Hf) & _). exact Hf.
Qed.

Lemma revoke_agrees caller label w a : plain_segment caller = true → label_unique caller label (l_store a) →
  wf (l_store a) → printable (l_store a) → matched 2 w a →
  agree (finish (λ _, KeyRevoked label caller) (@cli_RevokeKey _ remote_admin caller label w))
        (finish (λ _, KeyRevoked label caller) (@cli_RevokeKey _ local_admin caller label a)).
Proof.
  intros Hc Hu Hwf Hp [Hst Hk Hr Hn _]. destruct w as [[|d1 [|d2 ds]] h]; cbn [deliveries admin_state length] in *; try lia.
  inv Hr as [|?? Hd1 Hr1]. inv Hr1 as [|?? Hd2 _].
  destruct Hd1 as (env1 & -> & Hc1 & _), Hd2 as (env2 & -> & Hc2 & _). rewrite <- Hst in *.
  destruct (remote_RevokeKey sha256 hmac error_text render origin key devMode caller label (l_env a) env1 env2 ds h Hc Hwf Hp Hu Hk Hc1 Hc2)
    as (ds' & r & Hcall & Hag & _).
  cbn [cli_RevokeKey remote_admin Client_cliAdmin local_admin local_cliAdmin RevokeKey SQLiteStore].
  rewrite Hcall. unfold on_store. rewrite <- Hst.
  destruct (SQL_RevokeKey _ _ _ _) as [db [[]|e]], r as [[]|]; done.
Qed.

(** C8: a command does the same at a remote gateway as on its database: the same
    exit status, the same tables afterwards, and when it succeeds the same output,
    for names that stand for themselves in a path and labels of one key. *)
Theorem remote_matches_local cmd w a :
  matched 2 w a → wf (l_store a) → printable (l_store a) → command_ok (l_store a) cmd →
  agree (@exec _ remote_admin cmd w) (@exec _ local_admin cmd a).
Proof.
  intros Hm Hwf Hp Hok. destruct cmd as [name|caller label|caller role|caller role| |name force|caller label]; cbn [exec command_ok] in *.
  - eapply call_agrees; [exact Hm|]. with_server. by apply remote_AddCaller; [apply Hok..| |].
  - destruct Hm as [Hx1 Hx2 Hx3 Hx4 [rand Hra]].
    assert (@cli_CreateKey _ local_admin caller label a = on_store error_text (λ e, stored_key sha256 e rand caller label) a) as ->.
    { cbn. unfold local_CreateKey, on_store, stored_key. rewrite Hra. cbn. by destruct (SQL_AddKey _ _ _ _ _) as [db [[]|]]. }
    eapply (call_agrees _ 1); [by split|]. with_server. apply remote_CreateKey; try apply Hok; try done. congruence.
  - eapply call_agrees; [exact Hm|]. with_server. by apply remote_AssignRole; try apply Hok.
  - eapply call_agrees; [exact Hm|]. with_server. by apply remote_UnassignRole; try apply Hok.
  - eapply call_agrees; [exact Hm|]. with_server. by apply remote_ListCallers.
  - destruct force; [by eapply remove_agrees|].
    destruct (list_keys_matches name 1 w a Hok Hwf Hp Hm) as (w' & r & Hr & Hm' & Hkeys).
    assert (@cli_KeyCountForCaller _ remote_admin name w = match r with Ok keys => (w', Ok (length keys)) | Err e => (w', Err e) end) as ->.
    { cbn in Hr |- *. unfold Client_KeyCountForCaller. rewrite Hr. by destruct r. }
    assert (@cli_KeyCountForCaller _ local_admin name a = (a, Ok (length (keys_of (l_store a) name)))) as ->.
    { cbn. unfold on_store. cbn. unfold SQL_KeyCountForCaller. rewrite (ready_calm 1 w a Hm). by destruct a. }
    destruct (caller_by_name (l_store a) name) eqn:Ec.
    + subst r. unfold key_infos. rewrite length_fmap. destruct (_ <? _)%nat; [|by eapply remove_agrees].
      split; [apply Hm'|done].
    + destruct r; [by destruct Hkeys|]. rewrite no_caller_no_keys by done. simpl. unfold remove_caller. cbn. unfold on_store. cbn.
      unfold SQL_DeleteCaller. rewrite (ready_calm 1 w a Hm), Ec. split; [apply Hm'|done].
  - destruct Hok as [Hc Hu]. case_bool_decide; [|by apply revoke_agrees].
    destruct (list_keys_matches caller 1 w a Hc Hwf Hp Hm) as (w' & r & -> & Hm' & Hkeys).
    rewrite list_keys_local by (by eapply ready_calm).
    destruct (caller_by_name (l_store a) caller) eqn:Ec.
    + subst r. destruct (key_infos (l_store a) caller); split; try apply Hm'; done.
    + destruct Hkeys as [He ->]. destruct r; [done|]. split; [apply Hm'|done].
Qed.
End agreement.

(** ** Runs *)

Import AdminRun.

Definition sample_wire (db : DB) : Wire DBEnv DB script LocalStore :=
  MkWire [Served call_env; Served call_env] (Admin.set_store handler_state db).
Definition sample_local (db : DB) : localAdmin DBEnv DB := MkLocal no_faults (Some "0123456789abcdef") db.

Definition at_gateway (cmd : command) (db : DB) : Wire DBEnv DB script LocalStore * (Z * output) :=
  @exec _ (remote_admin id toy_mac (λ _, "") (λ _, "") "http://gw" "admin-key" false) cmd (sample_wire db).
Definition at_home (cmd : command) (db : DB) : localAdmin DBEnv DB * (Z * output) :=
  @exec _ (local_admin id (λ _, "")) cmd (sample_local db).

Lemma sample_printable : printable sample_db.
Proof.
  split.
  - apply Forall_forall, (bool_decide_unpack _). vm_compute. exact I.
  - apply Forall_forall, (bool_decide_unpack _). vm_compute. exact I.
  - apply Forall_forall, (bool_decide_unpack _). vm_compute. exact I.
  - vm_compute. reflexivity.
Qed.

Lemma remote_matches_local_witness :
  agree (at_gateway (RevokeKeyCmd "ann" "laptop") sample_db) (at_home (RevokeKeyCmd "ann" "laptop") sample_db) ∧
  (at_home (RevokeKeyCmd "ann" "laptop") sample_db).2 = (0, KeyRevoked "laptop" "ann").
Proof.
  split; [|vm_compute; reflexivity].
  unfold at_gateway, at_home.
  refine (remote_matches_local id toy_mac (λ _, "") (λ _, "") "http://gw" "admin-key" false (RevokeKeyCmd "ann" "laptop")
    (sample_wire sample_db) (sample_local sample_db) _ _ _ _).
  - split; simpl; [done|by split|..|lia|by eexists]. repeat constructor; exists call_env; split_and!; done.
  - apply sample_db_wf.
  - apply sample_printable.
  - split; [vm_compute; reflexivity|]. change (label_unique "ann" "laptop" sample_db). intros k k'.
    assert (keys_of sample_db "ann" = [KeyRow 1 1 "h1" "laptop" 0]) as -> by (vm_compute; reflexivity).
    rewrite !list_elem_of_singleton. by intros -> ->.
Defined.

(** A database in which ann has two keys of one label. *)
Definition twin_db : DB := (SQL_AddKey no_faults "ann" "h4" "laptop" sample_db).1.

(** Revoked by its label at a remote gateway, the second of two keys of that
    label stays valid; on the database both are gone. *)
Theorem remote_revoke_keeps_twin :
  (at_gateway (RevokeKeyCmd "ann" "laptop") twin_db).2 = (0, KeyRevoked "laptop" "ann") ∧
  lookup_key (a_store (admin_state (at_gateway (RevokeKeyCmd "ann" "laptop") twin_db).1)) "h4" = Some (MkLookup "ann" "laptop") ∧
  (at_home (RevokeKeyCmd "ann" "laptop") twin_db).2 = (0, KeyRevoked "laptop" "ann") ∧
  lookup_key (l_store (at_home (RevokeKeyCmd "ann" "laptop") twin_db).1) "h4" = None.
Proof. split_and!; vm_compute; reflexivity. Qed.

(** A caller's name is put into the path as it is: removing the caller
    "ann/roles/dev" takes the role dev from ann and reports a removed caller. *)
Theorem remote_name_is_path :
  (at_gateway (RemoveCallerCmd "ann/roles/dev" true) sample_db).2 = (0, CallerRemoved "ann/roles/dev") ∧
  roles_of_db (a_store (admin_state (at_gateway (RemoveCallerCmd "ann/roles/dev" true) sample_db).1)) "ann" = [] ∧
  (at_home (RemoveCallerCmd "ann/roles/dev" true) sample_db).2.1 = 1 ∧
  roles_of_db (l_store (at_home (RemoveCallerCmd "ann/roles/dev" true) sample_db).1) "ann" = ["dev"].
Proof. split_and!; vm_compute; reflexivity. Qed.

(** At a gateway without a cache its statistics are shown as zeros, and the
    flush fails with "remote error: HTTP 200". *)
Theorem cache_not_enabled_misread :
  let r := gateway_at id toy_mac (λ _, "") (λ _, "") "http://gw" false in
  (@cache_show _ r (NewClient "http://gw/" "admin-key") (sample_wire sample_db)).2 = (0, CacheTable [0; 0; 0; 0; 0; 0; 0]) ∧
  (@cache_flush _ r (NewClient "http://gw/" "admin-key") (sample_wire sample_db)).2 = (1, Failure "remote error: HTTP 200").
Proof. split; vm_compute; reflexivity. Qed.

(** ** Flags are read back *)

(** A flag with its value, as one argument. *)
Definition flag_arg (kv : string * string) : string := "--" +:+ kv.1 +:+ "=" +:+ kv.2.

(** Flags of a set, with values that they take. *)
Definition known_flag (fs : FlagSet) (kv : string * string) : Prop :=
  no_byte "=" kv.1 = true ∧ no_byte "-" kv.1 = true ∧ kv.1 ≠ "" ∧
  ∃ k, List.find (λ f, bool_decide (f.1 = kv.1)) fs = Some (kv.1, k) ∧ set_ok k kv.2 = true.

(** Arguments that set flags by name are parsed as these settings, whatever
    the values are. *)
Theorem flags_read_back fs l : Forall (known_flag fs) l → parse_flags fs (map flag_arg l) = Ok l.
Proof.
  induction 1 as [|[n v] l (Heq & Hdash & Hne & k & Hf & Hok) _ IH]; [done|]. cbn [fst snd] in *. cbn [map parse_flags].
  assert (flag_name (flag_arg (n, v)) = Some (n +:+ "=" +:+ v)) as ->.
  { unfold flag_arg. cbn [fst snd]. change ("--" +:+ ?x) with (String "-" (String "-" x)). cbn [flag_name].
    rewrite bool_decide_eq_false_2; [done|]. by destruct n. }
  assert (HasPrefix (n +:+ "=" +:+ v) "-" || HasPrefix (n +:+ "=" +:+ v) "=" = false) as ->.
  { destruct n as [|c n]; [done|]. apply no_byte_cons in Heq as [H1 _], Hdash as [H2 _]. rewrite str_app_cons.
    unfold HasPrefix. cbn [CutPrefix]. by rewrite !decide_False. }
  change (n +:+ "=" +:+ v) with (n +:+ String "=" v). rewrite Cut_app by done. rewrite Hf, Hok.
  by rewrite IH.
Qed.

(** A remote back end is never opened together with a local database or
    without a key, and a local one only without [--remote]. *)
Theorem backend_choice m f b : openAdmin m f = Ok b →
  match b with
  | RemoteBackend c => f_remote f ≠ "" ∧ f_db f = "" ∧ c_adminKey c ≠ "" ∧ c_baseURL c = TrimRight_slash (f_remote f)
  | LocalBackend drv dsn => f_remote f = "" ∧ can_open m drv dsn = true ∧ (f_db f ≠ "" → dsn = f_db f)
  end.
Proof.
  unfold openAdmin. destruct (bool_decide_reflect (f_remote f = "")) as [Hr|Hr]; cbn [negb].
  - assert (∀ cfg b, open_database m cfg = Ok b → ∃ d s, b = LocalBackend d s ∧ can_open m d s = true ∧ s = dsn cfg) as Ho.
    { intros cfg b'. unfold open_database. destruct (_ || _); [|done]. destruct (can_open m _ _) eqn:Ec; [|done]. intros [= <-]. eauto. }
    unfold openStore. destruct (bool_decide_reflect (f_db f = "")) as [Hd|Hd]; cbn [negb].
    + destruct (bool_decide (f_config f = "")); cbn [negb].
      * intros (d & s & -> & Hc & _)%Ho. done.
      * destruct (load_config m (f_config f)) as [cfg|]; [|done].
        destruct (bool_decide (dsn _ = "")); intros (d & s & -> & Hc & _)%Ho; done.
    + intros (d & s & -> & Hc & ->)%Ho. done.
  - destruct (bool_decide_reflect (f_db f = "")) as [Hd|]; [|done]. cbn [negb].
    unfold admin_key. destruct (bool_decide_reflect ((if bool_decide (f_adminKey f = "") then getenv m "STILE_ADMIN_KEY" else f_adminKey f) = ""));
      [done|]. intros [= <-]. done.
Qed.
