(* ===== verification/Gateway.v ===== *)
(** * The gateway process ([cmd/gateway/main.go], [healthagent.go], [server.New])

    How [main] puts the components together: transports, health checking, the
    authentication of callers and administrators, and the mux of the server with
    the guard in front of each of its handlers. What starting reads from outside
    is in [StartEnv]. [Shutdown] is the process while it serves and after a
    signal, with its two goroutines, as a step relation, for each of the three
    programs that serve HTTP. *)

From S2P Require Import Prelude GoLib Json JsonRpc JsonText Transport Resilience RateLimit RedisLimit Router Proxy Server Tls Http ConfigData ConfigView.
From S2P Require Import AuthStore CachedStore Auth OAuth Health AuditStore Admin AdminUI AdminClient Cli.
Import GoStr.

(** ** Logging *)

Inductive slog_level := LevelDebug | LevelInfo | LevelWarn | LevelError.
Inductive log_format := TextFormat | JSONFormat.

Definition setupLogger (cfg : Config) : slog_level * log_format :=
  (if bool_decide (level (logging cfg) = "debug") then LevelDebug
   else if bool_decide (level (logging cfg) = "warn") then LevelWarn
   else if bool_decide (level (logging cfg) = "error") then LevelError
   else LevelInfo,
   if bool_decide (format (logging cfg) = "text") then TextFormat else JSONFormat).

(** ** Upstreams *)

Section upstreams.
Context {T : Type} `{Float64.GoPlatform}.
(** [NewHTTPTransport] and [NewStdioTransport]. *)
Variable new_http : HTTPUpstreamConfig → result string T.
Variable new_stdio : StdioUpstreamConfig → result string T.

Definition NewFromConfig (u : UpstreamConfig) : result string T :=
  match u with HTTPUpstream h => new_http h | StdioUpstream s => new_stdio s end.

(** An upstream whose transport cannot be made is skipped. [calls] is what
    the calls of each transport will read. *)
Definition buildTransports (cfg : Config) (m : option (list metric)) (calls : string → nat → CallEnv) : gmap string (Wrapped T) :=
  foldl (λ ts u, match NewFromConfig u with
                 | Err _ => ts
                 | Ok t => <[UpstreamName u := Wrap t u m (calls (UpstreamName u))]> ts
                 end) ∅ (upstreams cfg).

(** The transports of the health agent: only remote upstreams, not wrapped. *)
Definition agent_transports (cfg : Config) : gmap string T :=
  foldl (λ ts u, match u with
                 | StdioUpstream _ => ts
                 | HTTPUpstream _ =>
                     match NewFromConfig u with Err _ => ts | Ok t => <[UpstreamName u := t]> ts end
                 end) ∅ (upstreams cfg).
End upstreams.

Definition is_stdio (u : UpstreamConfig) : bool := match u with StdioUpstream _ => true | _ => false end.

(** The names of the stdio upstreams. *)
Definition stdio_names (cfgs : list UpstreamConfig) : gset string :=
  list_to_set (UpstreamName <$> filter (λ u, is_stdio u = true) cfgs).

Definition buildUpstreamInfos {T} (rt : RouteTable T) (cfgs : list UpstreamConfig) : list (UpstreamInfo T) :=
  (λ u, MkInfo (up_name u) (up_transport u) (length (up_tools u)) (Stale u) (bool_decide (up_name u ∈ stdio_names cfgs)))
    <$> UpstreamDetails rt.

(** A store of statuses that is chosen at run time. *)
Inductive AnyStatusStore := InProcess (s : LocalStore) | InRedis (s : RedisStore).

#[global] Instance AnyStatusStore_StatusStore : StatusStore AnyStatusStore := {|
  StatusGet deadline now name s :=
    match s with InProcess l => StatusGet deadline now name l | InRedis r => StatusGet deadline now name r end;
  StatusSet deadline now name st ttl s :=
    match s with
    | InProcess l => let '(l, e) := StatusSet deadline now name st ttl l in (InProcess l, e)
    | InRedis r => let '(r, e) := StatusSet deadline now name st ttl r in (InRedis r, e)
    end;
|}.

(** [redis] is the server at the configured address, if it answers the ping.
    [None]: the process ends, by an exit with status 1 or, where no Redis is
    configured, at a nil pointer. *)
Definition buildHealthChecker {T} `{Transport T} (cfg : Config) (rt : RouteTable T) (redis : option (gmap string (Status * Z))) :
    option (Checker T AnyStatusStore) :=
  let infos := buildUpstreamInfos rt (upstreams cfg) in
  let hc := ConfigData.health cfg in
  if bool_decide (health_store hc = "redis") then
    rc ← health_redis hc; keys ← redis;
    Some (NewChecker infos (Some [])
      (MkCheckerOptions (Some (InRedis (MkRedisStore (redis_keyPrefix rc) true keys))) true
         (negb (bool_decide (ConfigData.missingStatus hc = "unhealthy"))) (ConfigData.checkInterval hc) 0 false))
  else Some (NewChecker infos (Some []) (MkCheckerOptions None false true (ConfigData.checkInterval hc) 0 false)).

(** The checker of [runHealthAgent]: it probes and writes, with a TTL of two
    intervals. The order of the upstreams is that of a Go map. *)
Definition agent_redis (cfg : Config) : option RedisConfig :=
  match health_redis (ConfigData.health cfg) with
  | Some r => Some r
  | None => rl_redis (rateLimitDefaults cfg)
  end.

Definition agent_checker {T} `{Transport T} `{GoRange} (cfg : Config) (transports : gmap string T)
    (redis : option (gmap string (Status * Z))) : result string (Checker T RedisStore) :=
  match agent_redis cfg with
  | None => Err "health agent requires redis configuration (health.redis or rate_limits.redis)"
  | Some rc =>
      match redis with
      | None => Err "redis connection failed"
      | Some keys =>
          let interval := ConfigData.checkInterval (ConfigData.health cfg) in
          Ok (NewChecker ((λ '(name, t), MkInfo name t 0 false false) <$> go_range transports) (Some [])
                (MkCheckerOptions (Some (MkRedisStore (redis_keyPrefix rc) true keys)) false true interval (Strconv.wrap64 (2 * interval)) true))
      end
  end.

Definition hasOAuthUpstreams (cfg : Config) : bool :=
  existsb (λ u, match u with
                | HTTPUpstream h => match h_auth h with Some a => bool_decide (authType a = "oauth") | None => false end
                | StdioUpstream _ => false
                end) (upstreams cfg).

(** ** Starting *)

(** What starting reads from outside: the environment, the clock, which
    databases open, OIDC discovery, the Redis pings, telemetry, the certificates;
    and what the calls of each upstream will read. *)
Record StartEnv := MkStartEnv {
  se_getenv : string → string;
  se_now : Z;
  se_opens : DatabaseConfig → bool;
  se_discovery : option string;                      (* the userinfo URL *)
  se_limiter_redis : bool;
  se_health_redis : option (gmap string (Status * Z));
  se_telemetry : bool;
  se_files : TLSFiles;
  se_random : string;                                (* a signing key *)
  se_calls : string → nat → CallEnv;
}.

Definition has_database (cfg : Config) : bool :=
  let db := database (ConfigData.server cfg) in negb (bool_decide (driver db = "") && bool_decide (dsn db = "")).

Definition database_opens (env : StartEnv) (db : DatabaseConfig) : bool :=
  (bool_decide (driver db = "sqlite") || bool_decide (driver db = "") || bool_decide (driver db = "postgres")) && se_opens env db.

(** The options that concern authentication. *)
Record AuthOptions := MkAuthOptions {
  ao_authenticator : Authenticator;
  ao_cached : bool;                 (* the caller store is wrapped in a cache *)
  ao_adminHash : string;            (* the key hash of the admin middleware *)
}.

(** The guard in front of a handler. *)
Inductive guard :=
| NoGuard
| CallerAuth                       (* [Authenticate], or a refusal *)
| OptionalCallerAuth
| AdminAuth (keyHash : string) (devMode sessions : bool).

Inductive endpoint := MCPEndpoint | AdminRoutes (keyHash : string) | RefreshRoute | OAuthRoutes | LivenessRoute | ReadinessRoute | MetricsRoute.

(** The parts of the gateway after its start. *)
Record Gateway (T L : Type) := MkGateway {
  g_log : slog_level * log_format;
  g_router : RouteTable (Wrapped T);
  g_refresh : option Z;                        (* the interval of the background refresh *)
  g_authenticator : option Authenticator;
  g_cached : bool;
  g_limiter : SomeLimiter L;
  g_admin : option (string * guard);           (* the admin handler's key hash, and its guard *)
  g_oauth : option OAuthHandler;
  g_audit : option style;
  g_checker : Checker (Wrapped T) AnyStatusStore;
  g_listener : listener;
}.
Arguments MkGateway {T L}. Arguments g_log {T L}. Arguments g_router {T L}. Arguments g_refresh {T L}. Arguments g_authenticator {T L}.
Arguments g_cached {T L}. Arguments g_limiter {T L}. Arguments g_admin {T L}. Arguments g_oauth {T L}. Arguments g_audit {T L}.
Arguments g_checker {T L}. Arguments g_listener {T L}.

Section start.
Context {T L : Type} `{Transport T} `{Float64.GoPlatform} `{GoRange} `{TokenBucket L}.
Variable new_http : HTTPUpstreamConfig → result string T.
Variable new_stdio : StdioUpstreamConfig → result string T.
Variables (sha256 : string → string) (glob_compile : string → option Glob).

(** [Ok None]: no database is configured; an error is an exit with status 1. *)
Definition buildAuthOpts (env : StartEnv) (cfg : Config) (devMode : bool) : result string (option AuthOptions) :=
  let db := database (ConfigData.server cfg) in
  if negb (has_database cfg) then Ok None
  else if negb (database_opens env db) then Err "open caller database failed"
  else
    v ← match oidc cfg with
        | None => Ok None
        | Some c =>
            match OIDC.NewOIDCValidator c (bool_decide (is_Some (se_discovery env))) (default "" (se_discovery env)) with
            | None => Err "OIDC setup failed"
            | Some v => Ok (Some v)
            end
        end;
    let adminKey := se_getenv env "ADMIN_API_KEY" in
    let opts := MkAuthOptions (NewAuthenticator glob_compile (se_getenv env) (roles cfg) v)
                  (negb (bool_decide (authCacheTTL (ConfigData.server cfg) = 0))) in
    if negb (bool_decide (adminKey = "")) then Ok (Some (opts (sha256 adminKey)))
    else if negb devMode then Err "ADMIN_API_KEY not set and --dev not specified; refusing to start with open admin endpoints"
    else Ok (Some (opts zeroHash)).

(** The key that signs connect links: derived from the admin key, or random. *)
Definition signing_key (env : StartEnv) : string :=
  let adminKey := se_getenv env "ADMIN_API_KEY" in
  if bool_decide (adminKey = "") then "" else sha256 ("stile-connect-signing:" +:+ adminKey).

(** The rest of [main], once the configuration is loaded, with the part of
    [server.New] that can fail; an error ends the process. *)
Definition start (env : StartEnv) (cfg : Config) (devMode : bool) : result string (Gateway T L) :=
  if negb (se_telemetry env) then Err "init telemetry failed" else
  let transports := buildTransports new_http new_stdio cfg (Some []) (se_calls env) in
  let rt := Router.New transports (upstreams cfg) (se_now env) in
  let ttl := toolCacheTTL (ConfigData.server cfg) in
  auth ← buildAuthOpts env cfg devMode;
  auditStore ← (if audit_enabled (audit cfg) then
      st ← OpenStore (driver (AuditDatabaseConfig (audit cfg)));
      if se_opens env (AuditDatabaseConfig (audit cfg)) then Ok (Some st) else Err "open audit database failed"
    else Ok None);
  limiter ← (match NewRateLimiterFromConfig (se_limiter_redis env) cfg with
    | None => Err "create rate limiter failed"
    | Some l => Ok l
    end);
  oauth ← (if hasOAuthUpstreams cfg then
      if negb (has_database cfg) then Err "oauth upstreams require server.database to be configured"
      else if negb (database_opens env (database (ConfigData.server cfg))) then Err "open token store failed"
      else Ok (Some (NewOAuthHandler (se_getenv env) (oauthProviders cfg) "" (signing_key env) (se_random env)))
    else Ok None);
  checker ← (match buildHealthChecker cfg rt (se_health_redis env) with
    | None => Err "health store redis connection failed"
    | Some c => Ok c
    end);
  let adminKey := se_getenv env "ADMIN_API_KEY" in
  let hash := if bool_decide (adminKey = "") then zeroHash else sha256 adminKey in
  l ← server_listener (se_files env) (ConfigData.server cfg);
  Ok (MkGateway (setupLogger cfg) rt (if 0 <? ttl then Some ttl else None) (ao_authenticator <$> auth)
    (from_option ao_cached false auth) limiter ((λ _, (hash, AdminAuth hash devMode true)) <$> auth) oauth auditStore checker l).

(** [server.New]: the handler of a request and its guard. Without the admin
    handler only [POST /admin/refresh] is there, behind the admin guard if there
    is one. *)
Definition gateway_mux (g : Gateway T L) (r : HttpRequest) : option (endpoint * guard) :=
  let get := bool_decide (rq_method r = "GET") || bool_decide (rq_method r = "HEAD") in
  match rq_segments r with
  | [x] =>
      if bool_decide (x = "mcp") && bool_decide (rq_method r = "POST") then
        Some (MCPEndpoint, if bool_decide (is_Some (g_authenticator g)) then CallerAuth else NoGuard)
      else if bool_decide (x = "healthz") && get then Some (LivenessRoute, NoGuard)
      else if bool_decide (x = "readyz") && get then Some (ReadinessRoute, NoGuard)
      else if bool_decide (x = "metrics") && get then Some (MetricsRoute, NoGuard)
      else None
  | x :: y :: rest =>
      if bool_decide (x = "admin") then
        match g_admin g with
        | Some (hash, gd) => Some (AdminRoutes hash, gd)
        | None =>
            if bool_decide (y = "refresh") && bool_decide (rest = []) && bool_decide (rq_method r = "POST")
            then Some (RefreshRoute, NoGuard) else None
        end
      else if bool_decide (x = "oauth") then
        (λ _, (OAuthRoutes, if bool_decide (is_Some (g_authenticator g)) then OptionalCallerAuth else NoGuard)) <$> g_oauth g
      else None
  | [] => None
  end.

(** ** What a started gateway protects *)

Definition admin_hash (env : StartEnv) : string :=
  let adminKey := se_getenv env "ADMIN_API_KEY" in if bool_decide (adminKey = "") then zeroHash else sha256 adminKey.

Lemma buildAuthOpts_Ok env cfg devMode auth : buildAuthOpts env cfg devMode = Ok auth →
  bool_decide (is_Some auth) = has_database cfg ∧
  (has_database cfg = true → se_getenv env "ADMIN_API_KEY" ≠ "" ∨ devMode = true).
Proof.
  unfold buildAuthOpts. destruct (has_database cfg); cbn [negb]; [|by intros [= <-]].
  destruct (database_opens env _); [|done]. cbn [negb].
  destruct (match oidc cfg with Some _ => _ | None => _ end) as [v|]; [|done]. cbn [mbind result_bind].
  destruct (bool_decide_reflect (se_getenv env "ADMIN_API_KEY" = "")); cbn [negb].
  - destruct devMode; [|done]. intros [= <-]. eauto.
  - intros [= <-]. eauto.
Qed.

Lemma start_Ok env cfg devMode g : start env cfg devMode = Ok g →
  bool_decide (is_Some (g_authenticator g)) = has_database cfg ∧
  g_admin g = (if has_database cfg then Some (admin_hash env, AdminAuth (admin_hash env) devMode true) else None) ∧
  (has_database cfg = true → se_getenv env "ADMIN_API_KEY" ≠ "" ∨ devMode = true) ∧
  (is_Some (g_oauth g) → has_database cfg = true).
Proof.
  unfold start. destruct (se_telemetry env); [|done]. cbn [negb]. intros Hs. result_inv. simplify_eq.
  match goal with Hb : buildAuthOpts _ _ _ = Ok ?auth |- _ => destruct (buildAuthOpts_Ok _ _ _ _ Hb) as [Ha Hd]; destruct auth end;
    rewrite <- Ha in *; cbn; split_and!; try done.
  intros [oh ->]. repeat case_match; simplify_eq; done.
Qed.

(** C25: with a database, a gateway that has started serves everything under
    /admin/ behind the admin guard, and without --dev under the hash of a key that is
    set. Without a database there is no admin guard: of the admin routes only POST
    /admin/refresh is there, and it is open to everybody ([refresh_open_without_database]).
    The calls of tools are behind the authentication of callers exactly with a database,
    and the pages of the OAuth flows are only there with one. *)
Theorem started_gateway_guarded env cfg devMode g r :
  start env cfg devMode = Ok g →
  match gateway_mux g r with
  | Some (AdminRoutes hash, gd) =>
      gd = AdminAuth hash devMode true ∧ has_database cfg = true ∧
      (devMode = false → se_getenv env "ADMIN_API_KEY" ≠ "" ∧ hash = sha256 (se_getenv env "ADMIN_API_KEY"))
  | Some (MCPEndpoint, gd) => gd = (if has_database cfg then CallerAuth else NoGuard)
  | Some (OAuthRoutes, gd) => gd = OptionalCallerAuth ∧ has_database cfg = true
  | Some (RefreshRoute, gd) => has_database cfg = false ∧ gd = NoGuard ∧ rq_method r = "POST" ∧ rq_segments r = ["admin"; "refresh"]
  | Some (LivenessRoute, gd) | Some (ReadinessRoute, gd) | Some (MetricsRoute, gd) =>
      gd = NoGuard ∧ rq_segments r ∈ [["healthz"]; ["readyz"]; ["metrics"]]
  | None => has_database cfg = true → head (rq_segments r) = Some "admin" → length (rq_segments r) = 1%nat
  end.
Proof.
  intros (Hau & Hadm & Hkey & Hoa)%start_Ok. unfold gateway_mux. rewrite Hau, Hadm.
  destruct (rq_segments r) as [|x [|y rest]]; [done|..].
  - repeat match goal with |- context [bool_decide (x = ?s)] => destruct (bool_decide_reflect (x = s)) as [->|] end;
      repeat case_match; simplify_eq; try done; (split; [done|set_solver]).
  - destruct (bool_decide_reflect (x = "admin")) as [->|Hx].
    + destruct (has_database cfg).
      * split_and!; [done..|]. intros ->. destruct (Hkey eq_refl) as [Hk|]; [|done]. split; [done|].
        unfold admin_hash. by rewrite bool_decide_eq_false_2.
      * destruct (bool_decide_reflect (y = "refresh")) as [->|]; [|done]. destruct (bool_decide_reflect (rest = [])) as [->|]; [|done].
        by destruct (bool_decide_reflect (rq_method r = "POST")).
    + assert (head (x :: y :: rest) ≠ Some "admin") as Hh by (simpl; congruence).
      destruct (bool_decide (x = "oauth")); [|by intros _ ?]. destruct (g_oauth g) as [oh|]; [|by intros _ ?]. simpl.
      rewrite Hoa by eauto. done.
Qed.
End start.

(** Without a database the route table can be refreshed by anybody, and no
    admin key is asked for at the start. *)
Theorem refresh_open_without_database {T L} `{Transport T} `{Float64.GoPlatform} `{GoRange} `{TokenBucket L}
    new_http new_stdio sha256 glob_compile env cfg devMode (g : Gateway T L) :
  start new_http new_stdio sha256 glob_compile env cfg devMode = Ok g → has_database cfg = false →
  gateway_mux g (MkHttpRequest "POST" ["admin"; "refresh"] "" "" [] "" 0) = Some (RefreshRoute, NoGuard).
Proof. intros (_ & Hadm & _)%start_Ok Hdb. unfold gateway_mux. by rewrite Hadm, Hdb. Qed.

(** ** Which upstreams are checked where *)

Lemma stdio_names_In cfgs name : name ∈ stdio_names cfgs ↔ ∃ s, StdioUpstream s ∈ cfgs ∧ s_name s = name.
Proof.
  unfold stdio_names. rewrite elem_of_list_to_set, list_elem_of_fmap. split.
  - intros (u & -> & [Hs Hu]%list_elem_of_filter). destruct u as [h|s]; [done|]. eauto.
  - intros (s & Hs & <-). exists (StdioUpstream s). split; [done|]. by apply list_elem_of_filter.
Qed.

Lemma agent_transports_http {T} new_http new_stdio cfg name (t : T) :
  agent_transports new_http new_stdio cfg !! name = Some t → ∃ h, HTTPUpstream h ∈ upstreams cfg ∧ h_name h = name ∧ new_http h = Ok t.
Proof.
  unfold agent_transports. induction (upstreams cfg) as [|u l IH] using rev_ind; [cbn [foldl]; by rewrite lookup_empty|].
  rewrite foldl_app. cbn [foldl]. assert (∀ x : UpstreamConfig, x ∈ l → x ∈ l ++ [u]) as Hl by set_solver.
  destruct u as [h|s]; [|intros Ht; destruct (IH Ht) as (h & Hh & ?); eauto].
  cbn [NewFromConfig]. destruct (new_http h) as [t'|] eqn:Eh; [|intros Ht; destruct (IH Ht) as (h' & Hh & ?); eauto].
  intros [[Hn <-]|[_ Ht]]%lookup_insert_Some; [|destruct (IH Ht) as (h' & Hh & ?); eauto].
  exists h. split_and!; [set_solver|done|done].
Qed.

(** A gateway that takes statuses from Redis asks it for every upstream except
    the stdio ones, whose processes are its own; the health agent, which probes and
    writes those statuses, monitors only upstreams with an HTTP configuration. *)
Theorem health_split {T} `{Transport T} `{GoRange} cfg (rt : RouteTable T) redis c new_http new_stdio redis' c' :
  buildHealthChecker cfg rt redis = Some c → health_store (ConfigData.health cfg) = "redis" →
  agent_checker cfg (agent_transports (T:=T) new_http new_stdio cfg) redis' = Ok c' →
  (∀ u, u ∈ monitored c → useStore c u = true ↔ ¬ ∃ s, StdioUpstream s ∈ upstreams cfg ∧ s_name s = ui_name u) ∧
  (∀ u, u ∈ monitored c' → activeProbe c' = true ∧ ∃ h, HTTPUpstream h ∈ upstreams cfg ∧ h_name h = ui_name u).
Proof.
  intros Hc Hs Ha. split.
  - unfold buildHealthChecker in Hc. rewrite bool_decide_eq_true_2 in Hc by done. destruct (health_redis _) as [rc|], redis as [keys|]; try done.
    injection Hc as <-. intros u Hu. cbn [monitored NewChecker] in Hu. unfold buildUpstreamInfos in Hu.
    apply list_elem_of_fmap in Hu as (up & -> & _). unfold useStore. cbn.
    rewrite andb_true_r, negb_true_iff, bool_decide_eq_false, stdio_names_In. done.
  - unfold agent_checker in Ha. destruct (agent_redis cfg) as [rc|]; [|done]. destruct redis' as [keys|]; [|done].
    injection Ha as <-. intros u Hu. split; [done|]. cbn [monitored NewChecker] in Hu.
    apply list_elem_of_fmap in Hu as ([name t] & -> & Hin). apply elem_of_go_range, agent_transports_http in Hin as (h & Hh & Hn & _).
    eauto.
Qed.

(** ** Serving and shutting down *)

Module Shutdown.

(** What is closed. *)
Inductive resource := HealthChecker | RouterAndTransports | Tracer | RateLimiter | HealthRedis | AuditLog | TokenStore.
#[global] Instance resource_eq_dec : EqDecision resource.
Proof. solve_decision. Defined.

(** A program: what it closes before and after its server, in order, and whether
    its [main] returns as soon as [ListenAndServe] does. *)
Record program := MkProgram { before : list resource; after : list resource; returns_early : bool }.

(** What is nil is not closed: the client of the health store, the audit log and
    the token store. *)
Definition gateway_program (healthRedis auditLog tokenStore : bool) : program :=
  MkProgram []
    ([HealthChecker; RouterAndTransports; Tracer; RateLimiter]
     ++ (if healthRedis then [HealthRedis] else []) ++ (if auditLog then [AuditLog] else []) ++ (if tokenStore then [TokenStore] else []))
    true.

(** The wrapped transport; its [main] returns like that of the gateway. *)
Definition wrap_program (traced : bool) : program := MkProgram [] ((if traced then [Tracer] else []) ++ [RouterAndTransports]) true.

(** The health agent: [main] itself waits for the signal, and the server is in a
    goroutine. *)
Definition agent_program : program := MkProgram [HealthChecker] [RouterAndTransports; HealthRedis] false.

(** The programs, with the resources that each of them has opened. *)
Inductive kind := TheGateway (healthRedis auditLog tokenStore : bool) | TheWrapper (traced : bool) | TheAgent.

Definition program_of (k : kind) : program :=
  match k with
  | TheGateway hr al ts => gateway_program hr al ts
  | TheWrapper tr => wrap_program tr
  | TheAgent => agent_program
  end.

Definition opened (k : kind) (r : resource) : bool :=
  match k, r with
  | TheGateway hr _ _, HealthRedis => hr
  | TheGateway _ al _, AuditLog => al
  | TheGateway _ _ ts, TokenStore => ts
  | TheGateway _ _ _, _ => true
  | TheWrapper tr, Tracer => tr
  | TheWrapper _, RouterAndTransports => true
  | TheAgent, (HealthChecker | RouterAndTransports | HealthRedis) => true
  | _, _ => false
  end.

(** Who waits for the signals: waiting, closing what comes first, in
    [srv.Shutdown], closing the rest. *)
Inductive signal_state := Waiting | Stopping (rest : list resource) | Draining | Closing (rest : list resource).

Record process := MkProcess {
  alive : bool;
  accepting : bool;            (* the listener is open *)
  in_flight : nat;             (* requests being answered *)
  handler : signal_state;
  expired : bool;              (* the shutdown timeout has passed *)
  closed : list resource;
}.

Definition started : process := MkProcess true true 0 Waiting false [].

Section program.
Variable pr : program.

Inductive step : process → process → Prop :=
| request_arrives n s e c : step (MkProcess true true n s e c) (MkProcess true true (S n) s e c)
| request_answered a n s e c : step (MkProcess true a (S n) s e c) (MkProcess true a n s e c)
| signal_arrives n e c : step (MkProcess true true n Waiting e c) (MkProcess true true n (Stopping (before pr)) e c)
| stops n r rest e c : step (MkProcess true true n (Stopping (r :: rest)) e c) (MkProcess true true n (Stopping rest) e (c ++ [r]))
| listener_closes n e c :              (* the start of [srv.Shutdown] *)
    step (MkProcess true true n (Stopping []) e c) (MkProcess true false n Draining e c)
| timeout_passes n c : step (MkProcess true false n Draining false c) (MkProcess true false n Draining true c)
| drained n e c : n = O ∨ e = true →   (* [srv.Shutdown] returns *)
    step (MkProcess true false n Draining e c) (MkProcess true false n (Closing (after pr)) e c)
| closes n r rest e c : step (MkProcess true false n (Closing (r :: rest)) e c) (MkProcess true false n (Closing rest) e (c ++ [r]))
| exits n e c : step (MkProcess true false n (Closing []) e c) (MkProcess false false n (Closing []) e c)
| main_returns n s e c : returns_early pr = true →
    step (MkProcess true false n s e c) (MkProcess false false n s e c).

Definition reachable : process → Prop := rtc step started.

(** What is closed and what is to be closed, in every state. *)
Definition orderly (p : process) : Prop :=
  (alive p = false → accepting p = false ∧ (returns_early pr = true ∨ handler p = Closing [])) ∧
  match handler p with
  | Waiting => accepting p = true ∧ closed p = []
  | Stopping rest => accepting p = true ∧ closed p ++ rest = before pr
  | Draining => accepting p = false ∧ closed p = before pr
  | Closing rest => accepting p = false ∧ (in_flight p = O ∨ expired p = true) ∧ closed p ++ rest = before pr ++ after pr
  end.

Lemma orderly_step p p' : orderly p → step p p' → orderly p'.
Proof.
  intros [_ Ho] Hs. destruct Hs; unfold orderly in *; cbn [alive handler accepting closed in_flight expired] in *; (split; [by auto|]); try done.
  - destruct s; [done|done|naive_solver|]. naive_solver.
  - destruct s; [done|done|done|]. naive_solver.
  - destruct Ho as [_ ->]. done.
  - destruct Ho as [_ Ho]. by rewrite <- app_assoc.
  - destruct Ho as [_ Ho]. by rewrite app_nil_r in Ho.
  - destruct Ho as [_ ->]. done.
  - destruct Ho as (_ & ? & Hc). by rewrite <- app_assoc.
Qed.

Lemma reachable_orderly p : reachable p → orderly p.
Proof.
  intros Hr. assert (orderly started) as Hstart by done. revert Hstart. unfold reachable in Hr. induction Hr; [done|].
  intros Ho. eauto using orderly_step.
Qed.

(** Where [main] returns with [ListenAndServe], the process can end as soon as the
    listener is closed: requests that are in flight are cut off, and nothing that
    comes after the server is closed, long before the timeout. *)
Theorem shutdown_cut_short n : returns_early pr = true →
  ∃ p, reachable p ∧ alive p = false ∧ in_flight p = n ∧ expired p = false ∧ closed p = before pr.
Proof.
  intros He. assert (reachable (MkProcess true true n Waiting false [])) as Hn.
  { unfold reachable, started. induction n as [|n IH]; [done|]. eapply rtc_r; [exact IH|]. constructor. }
  assert (∀ l c, reachable (MkProcess true true n (Stopping l) false c) → reachable (MkProcess true true n (Stopping []) false (c ++ l))) as Hstop.
  { induction l as [|r l IH]; intros c Hc; [by rewrite app_nil_r|]. replace (c ++ r :: l) with ((c ++ [r]) ++ l) by (by rewrite <- app_assoc). apply IH. eapply rtc_r; [exact Hc|]. constructor. }
  exists (MkProcess false false n Draining false (before pr)). split_and!; [|done..].
  eapply rtc_r; [eapply rtc_r; [apply (Hstop (before pr) []); eapply rtc_r; [exact Hn|constructor]|constructor]|by constructor].
Qed.
End program.

(** The programs close what they have opened, each resource once, and the checker,
    which uses the transports and the store, first. *)
Lemma programs_close k : NoDup (before (program_of k) ++ after (program_of k)) ∧
  (∀ r, r ∈ before (program_of k) ++ after (program_of k) ↔ opened k r = true) ∧
  (opened k HealthChecker = true → head (before (program_of k) ++ after (program_of k)) = Some HealthChecker) ∧
  before (program_of k) ⊆ [HealthChecker] ∧ (k ≠ TheAgent → before (program_of k) = []).
Proof.
  split; [apply (bool_decide_unpack _); destruct k as [[] [] []|[]|]; vm_compute; exact I|].
  split; [intros r; destruct k as [[] [] []|[]|], r; rewrite <- (bool_decide_eq_true (_ ∈ _)); vm_compute; done|].
  split_and!; destruct k as [hr al ts|tr|]; try done; set_solver.
Qed.

(** C35: the shutdown of the gateway, the wrap server and the health agent, whatever
    is interleaved. Each program closes only what it has opened, each resource at
    most once, and never the transports or the client of the health store before the
    health checker that uses them is stopped. While connections are accepted, or
    requests are in flight and the shutdown timeout has not passed, nothing is closed
    (the agent has stopped its checker): no request finds its audit log or its
    transports closed. The agent ends only with everything closed; so do the other
    two, unless their [main] returns first, which it may do as soon as the listener is
    closed ([shutdown_cut_short]). *)
Theorem shutdown_orderly k p : reachable (program_of k) p →
  NoDup (closed p) ∧ (∀ r, r ∈ closed p → opened k r = true) ∧
  (opened k HealthChecker = true → RouterAndTransports ∈ closed p ∨ HealthRedis ∈ closed p → HealthChecker ∈ closed p) ∧
  (accepting p = true ∨ in_flight p ≠ O ∧ expired p = false → closed p ⊆ [HealthChecker] ∧ (k ≠ TheAgent → closed p = [])) ∧
  (alive p = false → (k ≠ TheAgent ∧ accepting p = false) ∨
    (∀ r, opened k r = true → r ∈ closed p) ∧ (in_flight p = O ∨ expired p = true)).
Proof.
  intros [Ha Hp]%reachable_orderly. destruct (programs_close k) as (Hnd & Hop & Hfirst & Hbef & Hnone).
  assert (∃ rest, closed p ++ rest = before (program_of k) ++ after (program_of k)) as [rest Hc].
  { destruct (handler p) as [|rest| |rest]; [destruct Hp as [_ ->]; by eexists| |destruct Hp as [_ ->]; by eexists|eexists; apply Hp].
    destruct Hp as [_ Hc]. exists (rest ++ after (program_of k)). by rewrite app_assoc, Hc. }
  rewrite <- Hc in Hnd. split_and!.
  - by apply NoDup_app in Hnd as (? & _).
  - intros r Hr. apply Hop. rewrite <- Hc. apply elem_of_app. by left.
  - intros Hh Hr. apply Hfirst in Hh. rewrite <- Hc in Hh. destruct (closed p); [by destruct Hr as [?%elem_of_nil|?%elem_of_nil]|].
    simpl in Hh. simplify_eq. left.
  - intros Hserving. destruct (handler p) as [|st| |st].
    + destruct Hp as [_ ->]. split; [by intros r ?%elem_of_nil|done].
    + destruct Hp as [_ Hb]. split; [intros r Hr; apply Hbef; rewrite <- Hb; apply elem_of_app; by left|]. intros Hk. rewrite (Hnone Hk) in Hb. by apply app_eq_nil in Hb as [? _].
    + destruct Hp as [_ ->]. split; [done|]. by intros Hk%Hnone.
    + destruct Hp as (Hac & Hd & _). destruct Hserving as [|[? ?]]; [congruence|]. destruct Hd; congruence.
  - intros Hdead. destruct (Ha Hdead) as [Hac [He|He]].
    + left. split; [by intros ->|done].
    + right. rewrite He in Hp. destruct Hp as (_ & Hd & Hall). rewrite app_nil_r in Hall. split; [|done]. intros r Hr. rewrite Hall. by apply Hop.
Qed.

(** A shutdown of the health agent: everything is closed. *)
Lemma shutdown_orderly_witness :
  let p := MkProcess false false 0 (Closing []) false [HealthChecker; RouterAndTransports; HealthRedis] in
  reachable agent_program p ∧ NoDup (closed p) ∧ (RouterAndTransports ∈ closed p ∨ HealthRedis ∈ closed p → HealthChecker ∈ closed p).
Proof.
  intros p. assert (reachable agent_program p) as Hr.
  { eapply rtc_l; [apply signal_arrives|]. eapply rtc_l; [apply stops|]. eapply rtc_l; [apply listener_closes|].
    eapply rtc_l; [apply drained; by left|]. do 2 (eapply rtc_l; [apply closes|]). eapply rtc_l; [apply exits|]. apply rtc_refl. }
  destruct (shutdown_orderly TheAgent p Hr) as (Hn & _ & Hf & _). split; [exact Hr|]. split; [exact Hn|]. apply Hf. reflexivity.
Defined.
End Shutdown.

(** ** Runs *)

#[local] Existing Instance scripted.

Definition stdio_upstream (name : string) : UpstreamConfig :=
  StdioUpstream (MkStdioUpstream name ["server"] ∅ [] None None 0 None None).

Definition gateway_config (db : DatabaseConfig) : Config :=
  MkConfig (MkServer ":8080" 0 "" db Duration.Second None 0) [sample_upstream "web"; stdio_upstream "files"] []
    (MkRLDefaults "" None None None None) (MkLogging "warn" "text") (MkAudit true "audit.db" "") (MkTraces false "" Float64.zero)
    (MkHealthConfig "redis" 0 "unhealthy" (Some (MkRedis "redis:6379" "" 0 "stile:"))) None [].

Definition start_env : StartEnv :=
  MkStartEnv (λ v, if bool_decide (v = "ADMIN_API_KEY") then "k" else "") 0 (λ _, true) None true (Some ∅) true sample_files "random"
    (λ _ _, Resilience.calm).

#[local] Existing Instances Float64.amd64 open_bucket.

Definition started_sample : result string (Gateway script unit) :=
  start (λ _, Ok []) (λ _, Ok []) id plain_glob start_env (gateway_config (MkDatabase "sqlite" "stile.db")) false.

Lemma started_gateway_guarded_witness :
  ∃ g, started_sample = Ok g ∧
    gateway_mux g (MkHttpRequest "GET" ["admin"; "callers"] "" "" [] "" 0) = Some (AdminRoutes "k", AdminAuth "k" false true) ∧
    "k" = id (se_getenv start_env "ADMIN_API_KEY").
Proof.
  destruct started_sample as [g|e] eqn:Eg; [|discriminate Eg].
  exists g. pose proof (started_gateway_guarded (λ _, Ok []) (λ _, Ok []) id plain_glob start_env
    (gateway_config (MkDatabase "sqlite" "stile.db")) false g (MkHttpRequest "GET" ["admin"; "callers"] "" "" [] "" 0) Eg) as Hg.
  vm_compute in Eg. injection Eg as <-. split_and!; [reflexivity|reflexivity|].
  cbn in Hg. destruct Hg as (_ & _ & Hg). by destruct (Hg eq_refl).
Defined.

Definition two_upstreams : RouteTable script :=
  New {["web" := []; "files" := []]} (upstreams (gateway_config (MkDatabase "" ""))) 0.

Lemma health_split_witness :
  ∃ c, buildHealthChecker (gateway_config (MkDatabase "" "")) two_upstreams (Some ∅) = Some c ∧
    useStore c <$> monitored c = [true; false].
Proof.
  set (cfg := gateway_config (MkDatabase "" "")).
  destruct (buildHealthChecker cfg two_upstreams (Some ∅)) as [c|] eqn:Ec; [|discriminate Ec].
  exists c. split; [done|].
  pose proof (health_split cfg two_upstreams (Some ∅) c (λ _, Ok []) (λ _, Err "") (Some ∅) _ Ec eq_refl eq_refl) as [Hs _].
  assert (∀ u, u ∈ monitored c → useStore c u = negb (bool_decide (ui_name u = "files"))) as Hu.
  { intros u Hin. pose proof (Hs u Hin) as Hi. case_bool_decide as Hf.
    - apply not_true_iff_false. rewrite Hi. intros Hn. apply Hn. eexists. split; [right; left|done].
    - apply Hi. intros (s & Hin' & Hn). cbn in Hin'. rewrite !elem_of_cons in Hin'. destruct Hin' as [|[Heq|Hnil]]; [done|..].
      + injection Heq as ->. done.
      + by apply elem_of_nil in Hnil. }
  assert (useStore c <$> monitored c = (λ u, negb (bool_decide (ui_name u = "files"))) <$> monitored c) as ->.
  { apply list_fmap_ext. intros i u Hi. apply Hu. by eapply list_elem_of_lookup_2. }
  vm_compute in Ec. injection Ec as <-. vm_compute. reflexivity.
Defined.
