(* ===== verification/Running.v ===== *)
(** * The running gateway

    One state for the gateway that [main] has started: the MCP server and its
    proxy, the callers, the admin handler, the OAuth flows, the audit log and the
    health checker, with what they share by pointer shared here too. [serve]
    takes one HTTP request through the mux of [server.New] to its handler and the
    guard in front of it; [step] adds the background work, and lookups of the
    credential cache that are under way while other requests are served: an answer of
    the database may be stored late. Otherwise a request is one step; other
    interleavings inside the handlers are in [SharedCaller], [Stdio] and [Gateway]. *)

From stdpp Require Import relations.
From Stdlib Require Import SpecFloat.
From S2P Require Import Prelude GoLib Json JsonRpc JsonText Transport Resilience RateLimit RedisLimit Router Proxy Server Tls Http ConfigData ConfigView.
From S2P Require Import AuthStore CachedStore Auth OAuth Health AuditStore Admin AdminUI Live Cli Gateway.
Import GoStr.

(** ** The limiter of the configuration *)

(** What a call reads from outside, for either limiter. *)
#[global] Instance SomeLimiter_RateLimiter {L} `{TokenBucket L} `{Float64.GoPlatform} :
    RateLimiter ((nat → Z) * RedisEnv) (SomeLimiter L * Redis) := {|
  AllowRequest env caller tool upstream roles s :=
    match s with
    | (RedisLimit.Local rl, rd) =>
        let '(rl, res) := AllowRequest env.1 caller tool upstream roles rl in ((RedisLimit.Local rl, rd), res)
    | (Shared rl, rd) =>
        let '((rl, rd), res) := AllowRequest env.2 caller tool upstream roles (rl, rd) in ((Shared rl, rd), res)
    end;
|}.

(** ** The proxy handler *)

Section options.
Context {T R X : Type}.

Definition HandlerOption : Type := Handler T R X → Handler T R X.

(** The resolver and the checker are the two faces of one value here. *)
Definition WithAuthResolver (x : X) : HandlerOption := λ h,
  MkHandler (router h) (rateLimiter h) (h_metrics h) (auditStore h) x true (connectionChecker h).
Definition WithConnectionChecker (x : X) : HandlerOption := λ h,
  MkHandler (router h) (rateLimiter h) (h_metrics h) (auditStore h) x (authResolver h) true.

(** [none] stands where no resolver is set. *)
Definition NewHandler (none : X) (rt : RouteTable T) (rl : option R) (m : option (list proxy_metric))
    (auditStore : option (list AuditEntry)) (opts : list HandlerOption) : Handler T R X :=
  foldl (λ h o, o h) (MkHandler rt rl m auditStore none false false) opts.
End options.

(** ** The state *)

Section running.
Context {T L N E S : Type} `{Transport T} `{Float64.GoPlatform} `{GoRange} `{TokenBucket L} `{TokenEndpoint N} `{JWT}
  `{Store E S} `{Cacheable S} `{Notified S} `{Caching E S} `{TimeText} `{SQLOrder}.
Variables (sha256 : string → string) (hmac : string → string → string) (error_text : store_error → string).
(** The gateway as it was started: what its mux depends on does not change. *)
Variable g : Gateway T L.

#[local] Instance flows : UpstreamAuth (Connections (N:=N)) := Connections_UpstreamAuth hmac.

(** The server with its proxy and the store of callers; the admin handler, of
    which only the settings are kept here; the checker; the audit log before the first
    entry; and the answers of lookups under way. *)
Record System := MkSystem {
  sys_server : Server (T:=Wrapped T) (R:=SomeLimiter L * Redis) (X:=Connections (N:=N)) (S:=S);
  sys_admin : AdminHandler S (Wrapped T) AnyStatusStore;
  sys_checker : Checker (Wrapped T) AnyStatusStore;
  sys_log : audit_log;
  sys_flight : list lookup_answer;
}.

Definition with_server (srv : Server) (sys : System) : System :=
  MkSystem srv (sys_admin sys) (sys_checker sys) (sys_log sys) (sys_flight sys).
Definition with_checker (c : Checker (Wrapped T) AnyStatusStore) (sys : System) : System :=
  MkSystem (sys_server sys) (sys_admin sys) c (sys_log sys) (sys_flight sys).
Definition with_flight (l : list lookup_answer) (sys : System) : System :=
  MkSystem (sys_server sys) (sys_admin sys) (sys_checker sys) (sys_log sys) l.

(** The audit log with the entries of the proxy that were written: [recordRequest]
    has dropped those that were not. A span's identifier is "" where the trace is not
    sampled. *)
Definition audit_of (sys : System) : audit_log :=
  foldl (λ db a, (Log false (entry_of "" a) db).1) (sys_log sys) (default [] (auditStore (proxy (sys_server sys)))).

(** The token table, which the resolver, the OAuth handler and the admin
    handler share. *)
Definition tokens_of (sys : System) : TokenTable := tokens (resolver (oauth (proxy (sys_server sys)))).

Definition set_proxy_tokens (ts : TokenTable) (n : N) (h : Handler (Wrapped T) (SomeLimiter L * Redis) (Connections (N:=N))) :
    Handler (Wrapped T) (SomeLimiter L * Redis) (Connections (N:=N)) :=
  let x := oauth h in
  Proxy.set_oauth h (MkConnections (OAuth.set_tokens (resolver x) ts n) (oauth_handler x) (readings x)).

(** The admin handler on the shared state, and the state after a request to it. *)
Definition admin_view (sys : System) : AdminHandler S (Wrapped T) AnyStatusStore :=
  let a := sys_admin sys in
  MkAdmin (Server.callers (sys_server sys)) (router (proxy (sys_server sys))) (Some (sys_checker sys)) (a_configView a) (a_roleNames a)
    (a_startTime a) ((λ st, (st, audit_of sys)) <$> (st ← g_audit g; _ ← auditStore (proxy (sys_server sys)); Some st))
    (a_adminKeyHash a) ((λ _, tokens_of sys) <$> g_oauth g) (a_oauthProviders a).

Definition admin_back (h : AdminHandler S (Wrapped T) AnyStatusStore) (sys : System) : System :=
  let srv := sys_server sys in
  let p := Proxy.set_router (proxy srv) (a_router h) in
  let p := match a_tokenStore h with
           | Some ts => set_proxy_tokens ts (network (resolver (oauth p))) p
           | None => p
           end in
  with_server (Server.MkServer p (authenticator srv) (a_store h)) sys.

(** ** The start *)

(** What [main] hands to the parts besides the configuration: the databases and
    Redis as they are found, the readings of later calls, the clock, and the
    formatting of numbers. *)
Record BootEnv := MkBootEnv {
  be_getenv : string → string;
  be_callers : S;
  be_tokens : TokenTable;
  be_network : N;
  be_readings : nat → OAuthEnv;
  be_redis : Redis;
  be_log : audit_log;
  be_now : Z;
  be_view : json;                                  (* the view of no configuration *)
  be_two_digits : spec_float → string;
  be_json_float : spec_float → string;
}.

Definition connections (env : BootEnv) (cfg : Config) : Connections (N:=N) :=
  MkConnections
    (MkResolver (be_tokens env) (NewTokenRefresher (be_getenv env) (oauthProviders cfg)) (NewOAuthResolver (upstreams cfg)) (be_network env))
    (default (MkOAuthHandler ∅ "" "") (g_oauth g)) (be_readings env).

Definition boot (env : BootEnv) (cfg : Config) (adminKeyHash : string) : System :=
  let x := connections env cfg in
  let proxyOpts := match g_oauth g with Some _ => [WithAuthResolver x; WithConnectionChecker x] | None => [] end in
  let handler := NewHandler x (g_router g) (Some (g_limiter g, be_redis env)) (Some []) ((λ _, []) <$> g_audit g) proxyOpts in
  let adminOpts :=
    [WithHealthChecker (g_checker g); WithConfig (be_two_digits env) (be_json_float env) cfg; WithStartTime (be_now env);
     WithAdminKeyHash adminKeyHash]
    ++ match g_audit g with Some st => [WithAuditReader st (be_log env)] | None => [] end
    ++ match g_oauth g with
       | Some _ => [WithTokenStore (be_tokens env); WithOAuthProviders (op_name <$> oauthProviders cfg)]
       | None => []
       end in
  MkSystem (Server.MkServer handler (g_authenticator g) (be_callers env))
    (Admin.NewHandler (be_view env) (be_now env) (be_callers env) (g_router g) adminOpts) (g_checker g) (be_log env) [].

(** ** One request *)

(** What a request reads from outside. *)
Record ServeEnv := MkServeEnv {
  sv_auth : AuthEnv (E:=E);
  sv_proxy : ProxyEnv (RLEnv:=(nat → Z) * RedisEnv);
  sv_admin : AdminEnv E;
  sv_oauth : OAuthEnv;
  sv_random : option string;       (* 32 bytes *)
  sv_now : Z;
  sv_bodyErr : option string;      (* the body breaks off *)
}.

Inductive answer :=
| MCPAnswer (w : ResponseWriter)
| AdminAnswer (r : Reply page)
| OAuthAnswer (r : HTTPReply)
| HealthAnswer (status : Z) (body : json)
| MetricsAnswer
| NoRoute.

Definition serve_mcp (env : ServeEnv) (r : HttpRequest) (sys : System) : System * answer :=
  let '(srv, w) := serveMCP sha256 (sv_auth env) (sv_proxy env) (rq_authorization r) (MkStream (rq_body r) (sv_bodyErr env))
                     (sys_server sys) in
  (with_server srv sys, MCPAnswer w).

Definition serve_admin_routes (gd : guard) (env : ServeEnv) (r : HttpRequest) (sys : System) : System * answer :=
  let '(h, rep) := match gd with
    | AdminAuth _ devMode _ => admin_server sha256 hmac error_text devMode (sv_admin env) r (admin_view sys)
    | _ => serve_admin sha256 hmac error_text (sv_admin env) r (admin_view sys)
    end in
  (admin_back h sys, AdminAnswer rep).

Definition serve_refresh (env : ServeEnv) (r : HttpRequest) (sys : System) : System * answer :=
  let srv := sys_server sys in
  let '(p, w) := handleRefresh Background (sv_now env) new_writer (proxy srv) in
  (with_server (Server.MkServer p (authenticator srv) (Server.callers srv)) sys, MCPAnswer w).

(** The mux of the OAuth handler, behind the middleware that tries to
    authenticate. *)
Definition oauth_context (env : ServeEnv) (r : HttpRequest) (sys : System) : System * Context :=
  let srv := sys_server sys in
  match authenticator srv with
  | None => (sys, Background)
  | Some a =>
      match OptionalMiddleware sha256 (sv_auth env) (rq_authorization r) Background a (Server.callers srv) with
      | (a, s, Next ctx) => (with_server (Server.MkServer (proxy srv) (Some a) s) sys, ctx)
      | (a, s, _) => (with_server (Server.MkServer (proxy srv) (Some a) s) sys, Background)
      end
  end.

Definition serve_oauth (h : OAuthHandler) (env : ServeEnv) (r : HttpRequest) (sys : System) : System * answer :=
  let '(sys, ctx) := oauth_context env r sys in
  let get := bool_decide (rq_method r = "GET") || bool_decide (rq_method r = "HEAD") in
  match rq_segments r with
  | [_; x; provider] =>
      if get && bool_decide (x = "connect") && negb (bool_decide (provider = ""))
      then (sys, OAuthAnswer (handleConnect hmac sha256 (sv_now env) (sv_random env) ctx provider (Get (rq_query r) "tok") h))
      else (sys, NoRoute)
  | [_; x] =>
      if get && bool_decide (x = "callback") then
        let srv := sys_server sys in
        let '(ts, n, rep) := handleCallback (sv_oauth env) (Get (rq_query r)) h (tokens_of sys)
                               (network (resolver (oauth (proxy srv)))) in
        (with_server (Server.MkServer (set_proxy_tokens ts n (proxy srv)) (authenticator srv) (Server.callers srv)) sys, OAuthAnswer rep)
      else (sys, NoRoute)
  | _ => (sys, NoRoute)
  end.

Definition serve (env : ServeEnv) (r : HttpRequest) (sys : System) : System * answer :=
  match gateway_mux g r with
  | None => (sys, NoRoute)
  | Some (MCPEndpoint, _) => serve_mcp env r sys
  | Some (AdminRoutes _, gd) => serve_admin_routes gd env r sys
  | Some (RefreshRoute, _) => serve_refresh env r sys
  | Some (OAuthRoutes, _) => match g_oauth g with Some h => serve_oauth h env r sys | None => (sys, NoRoute) end
  | Some (LivenessRoute, _) => let '(st, j) := HandleLiveness (sys_checker sys) in (sys, HealthAnswer st j)
  | Some (ReadinessRoute, _) => let '(st, j) := HandleReadiness (sys_checker sys) in (sys, HealthAnswer st j)
  | Some (MetricsRoute, _) => (sys, MetricsAnswer)
  end.

(** ** Background work *)

Definition with_callers (s : S) (sys : System) : System :=
  let srv := sys_server sys in with_server (Server.MkServer (proxy srv) (authenticator srv) s) sys.

(** A tick of [StartBackgroundRefresh]. *)
Definition background_refresh (now : Z) (sys : System) : System :=
  let srv := sys_server sys in
  with_server (Server.MkServer (Proxy.set_router (proxy srv) (Router.Refresh Background now (router (proxy srv))).1)
    (authenticator srv) (Server.callers srv)) sys.

(** A request, where [Q] says which ones are considered; a tick of the background
    refresh; a round of health checks; a notification of the database; and the parts
    of a lookup that is under way: its answer from the database, and its storing.
    [Late] are the hashes of the keys whose answer may be stored after it has become
    outdated. *)
Inductive step (Q : ServeEnv → HttpRequest → Prop) (Late : string → Prop) : System → System → Prop :=
| st_request env r sys : Q env r → step Q Late sys (serve env r sys).1
| st_refresh now sys : step Q Late sys (background_refresh now sys)
| st_check env sys : step Q Late sys (with_checker (check env (sys_checker sys)) sys)
| st_notified p sys : step Q Late sys (with_callers (on_notification p (Server.callers (sys_server sys))) sys)
| st_answered env a sys :
    misses env a (Server.callers (sys_server sys)) → answered env a (Server.callers (sys_server sys)) →
    step Q Late sys (with_flight (a :: sys_flight sys) sys)
| st_filled before a after sys :
    sys_flight sys = before ++ a :: after →
    (∀ now h k, a = KeyAnswer now h k → Late h ∨ ∃ env, answered env a (Server.callers (sys_server sys))) →
    step Q Late sys (with_flight (before ++ after) (with_callers (fills a (Server.callers (sys_server sys))) sys)).
End running.
Arguments MkServeEnv {E}. Arguments sv_auth {E}. Arguments sv_proxy {E}. Arguments sv_admin {E}. Arguments sv_oauth {E}.
Arguments sv_random {E}. Arguments sv_now {E}. Arguments sv_bodyErr {E}.
Arguments System T L N S : clear implicits.
Arguments MkBootEnv {N S}. Arguments be_callers {N S}.

(** ** What requests do to the store of callers *)

Section store.
Context {T N E S : Type} `{Transport T} `{LiveStore E S} `{GoRange} `{TimeText} `{SQLOrder}.
Variables (sha256 : string → string) (hmac : string → string → string) (error_text : store_error → string).
Implicit Types (env : AdminEnv E) (hd : AdminHandler S T AnyStatusStore).

(** A request draws no key with this hash. *)
Definition fresh (h : string) env : Prop := ∀ rand, ae_random env = Some rand → sha256 (GenerateAPIKey rand) ≠ h.

(** A handler keeps a hash out of the store. *)
Definition careful (h : string) (k : ui_handler (E:=E) (S:=S) (T:=T) (St:=AnyStatusStore)) : Prop :=
  ∀ env r hd, fresh h env → stays_out h (a_store hd) (a_store (k env r hd).1).

Lemma add_key_out h e n rand l s s' r env : fresh h env → ae_random env = Some rand →
  AddKey e n (sha256 (GenerateAPIKey rand)) l s = (s', r) → stays_out h s s'.
Proof.
  intros Hf Hr Ha. apply (write_out h e (WAddKey n (sha256 (GenerateAPIKey rand)) l) s s' r Ha).
  intros [= Heq]. by apply (Hf rand).
Qed.

Lemma careful_const h k : (∀ env r hd, a_store (k env r hd).1 = a_store hd) → careful h k.
Proof. intros Hk env r hd _. by rewrite Hk. Qed.
End store.

(** Case analysis on the calls of a handler; the steps of the store are then
    chained. *)
Ltac careful_handler h :=
  let Hf := fresh "Hf" in intros ? ? ? Hf;
  repeat first [progress simpl | case_match]; simplify_eq/=;
  try match goal with |- stays_out _ _ (fst ?x) => destruct x eqn:?; simpl end;
  try match goal with
      | Hr : ae_random _ = Some ?rand, Ha : AddKey _ _ _ _ _ = (_, _) |- _ => eapply (add_key_out _ h) in Ha; [|exact Hf|exact Hr]
      end; chain_out h.

Section routes.
Context {T N E S : Type} `{Transport T} `{LiveStore E S} `{GoRange} `{TimeText} `{SQLOrder}.
Variables (sha256 : string → string) (hmac : string → string → string) (error_text : store_error → string).

Lemma api_route_careful h r k : api_route (P:=page) sha256 r = Some k → careful (T:=T) sha256 h k.
Proof.
  unfold api_route. intros Hk. repeat case_match; simplify_eq;
    unfold createCaller, listCallers, getCaller, deleteCaller, createKey, listKeys, deleteKey, assignRole, listRoles, deleteRole,
      refresh, cacheStats, cacheFlush, getConfig, getStatus, buildStatus, queryAudit, listConnections, deleteConnection, putConnection,
      set_store, set_tokens, Admin.set_router;
    careful_handler h; by eapply flush_out.
Qed.

Lemma ui_route_careful h r k : ui_route sha256 hmac error_text r = Some k → careful (T:=T) sha256 h k.
Proof.
  unfold ui_route. intros Hk. repeat case_match; simplify_eq;
    unfold uiLoginPage, uiLoginSubmit, uiLogout, uiDashboard, uiCallers, uiCreateCaller, uiDeleteCaller, uiCallerDetail, uiCreateKey,
      uiRevokeKey, uiAssignRole, uiUnassignRole, uiConnections, uiDisconnect, uiConfig, uiAudit, buildStatus, set_store, set_tokens;
    careful_handler h.
Qed.
Lemma serve_admin_careful h : careful (T:=T) sha256 h (serve_admin sha256 hmac error_text).
Proof.
  intros env r hd Hf. unfold serve_admin, route. destruct (ui_route sha256 hmac error_text r) as [k|] eqn:Eu.
  - by eapply ui_route_careful.
  - destruct (api_route sha256 r) as [k|] eqn:Ea; [by eapply api_route_careful|done].
Qed.

Lemma admin_server_careful h devMode : careful (T:=T) sha256 h (admin_server sha256 hmac error_text devMode).
Proof.
  intros env r hd Hf. unfold admin_server. destruct (AdminAuthMiddleware _ _ _ _ _ _ _); [|done..].
  by apply serve_admin_careful.
Qed.

Lemma provision_out h aenv c id s s' o : provision aenv c id s = (s', o) → stays_out h s s'.
Proof.
  unfold provision. destruct (autoProvision c).
  - destruct (EnsureCaller _ _ _ s) eqn:Ee. intros [= <- _]. simpl. chain_out h.
  - destruct (CallerExists _ _ s) as [s1 [[]|e]] eqn:Ee; intros [= <- _]; chain_out h.
Qed.

Lemma authenticateOIDC_out h aenv token v a s a' s' r :
  authenticateOIDC sha256 aenv token v a s = (a', s', r) → stays_out h s s'.
Proof.
  unfold authenticateOIDC. destruct (OIDC.Validate _ _ _ _) as [v1 [id|e]]; [|by intros [= _ <- _]].
  destruct (provision _ _ _ s) as [s1 [e|]] eqn:Ep; apply (provision_out h) in Ep; [by intros [= _ <- _]|].
  destruct (RolesForCaller _ _ s1) as [s2 [roles|e]] eqn:Er; intros [= _ <- _]; chain_out h.
Qed.

(** Authentication adds no key. *)
Lemma Authenticate_out h aenv header a s a' s' r :
  Authenticate sha256 aenv header a s = (a', s', r) → stays_out h s s' ∧ (live_inv h s → ∀ rnd, header = "Bearer " +:+ GenerateAPIKey rnd →
    h = sha256 (GenerateAPIKey rnd) → unbound h (rows s) → is_ok r = false).
Proof.
  assert (∀ token a s a' s' r, authenticateKey sha256 aenv token a s = (a', s', r) → stays_out h s s' ∧
    (live_inv h s → h = sha256 token → unbound h (rows s) → is_ok r = false)) as Hkey.
  { clear. intros token a s a' s' r. unfold authenticateKey. destruct (LookupByKey _ _ s) as [s1 [k|e]] eqn:El.
    - destruct (RolesForCaller _ _ s1) as [s2 rr] eqn:Er. intros Heq.
      assert (s' = s2) as -> by (destruct rr; congruence). split; [chain_out h|].
      intros Hi -> Hu. apply (live_lookup (sha256 token)) in El as [_ Hk]; [|done].
      exfalso. eapply (unbound_lookup _ _ k (live_wf _ _ Hi) Hu). by apply Hk.
    - intros [= <- <- <-]. split; [chain_out h|done]. }
  unfold Authenticate. case_bool_decide; [by intros [= <- <- <-]|].
  destruct (negb _); [by intros [= <- <- <-]|].
  destruct (auth_oidc a) as [v|]; [destruct (shouldTry _ _) eqn:Et|].
  - destruct (authenticateOIDC _ _ _ _ _ _) as [[a1 s1] r1] eqn:Eo.
    apply (authenticateOIDC_out h) in Eo.
    intros Ha. destruct r1 as [c|e].
    + simplify_eq. split; [done|]. intros _ rnd ->. rewrite TrimPrefix_app in Et. by rewrite generated_key_no_oidc in Et.
    + apply Hkey in Ha as [Hs Hr]. split; [by etransitivity|]. intros _ rnd ->. rewrite TrimPrefix_app in Et.
      by rewrite generated_key_no_oidc in Et.
  - intros Ha%Hkey. destruct Ha as [Hs Hr]. split; [done|]. intros Hi rnd ->. rewrite TrimPrefix_app in Hr. by apply Hr.
  - intros Ha%Hkey. destruct Ha as [Hs Hr]. split; [done|]. intros Hi rnd ->. rewrite TrimPrefix_app in Hr. by apply Hr.
Qed.
End routes.

(** ** Revocation, end to end *)

Section revocation.
Context {T L N E S : Type} `{Transport T} `{Float64.GoPlatform} `{GoRange} `{TokenBucket L} `{TokenEndpoint N} `{JWT}
  `{LiveStore E S} `{TimeText} `{SQLOrder}.
Variables (sha256 : string → string) (hmac : string → string → string) (error_text : store_error → string).
Variable g : Gateway T L.
Implicit Types (sys : System T L N S) (env : ServeEnv (E:=E)).

Abbreviation callers_of sys := (Server.callers (sys_server sys)).
Abbreviation auth_of sys := (authenticator (sys_server sys)).
Abbreviation serve := (serve sha256 hmac error_text g).
Abbreviation steps Q Late := (rtc (step sha256 hmac error_text g Q Late)).

Lemma serveMCP_out h env r sys : stays_out h (callers_of sys) (callers_of (serve_mcp sha256 hmac env r sys).1) ∧
  (is_Some (auth_of (serve_mcp sha256 hmac env r sys).1) ↔ is_Some (auth_of sys)).
Proof.
  unfold serve_mcp, serveMCP. destruct (auth_of sys) as [a|]; [|by destruct (handleMCP _ _ _ _ _)].
  destruct (Authenticate _ _ _ _ _) as [[a' s'] [[c l]|e]] eqn:Ea; apply (Authenticate_out sha256 h) in Ea as [Ho _];
    [destruct (handleMCP _ _ _ _ _)|]; simpl; split; done || (split; eauto).
Qed.

Lemma oauth_context_out h env r sys : let sys' := (oauth_context sha256 env r sys).1 in
  stays_out h (callers_of sys) (callers_of sys') ∧ (is_Some (auth_of sys') ↔ is_Some (auth_of sys)).
Proof.
  unfold oauth_context, OptionalMiddleware. destruct (auth_of sys) as [a|] eqn:Eau; [|simpl; by rewrite ?Eau].
  destruct (Authenticate _ _ _ _ _) as [[a' s'] [[c l]|e]] eqn:Ea; apply (Authenticate_out sha256 h) in Ea as [Ho _];
    simpl; split; done || (split; eauto).
Qed.

(** Whatever a request is, it keeps a hash out of the store that it does not
    draw, and the authenticator in place. *)
Lemma serve_out h env r sys : fresh sha256 h (sv_admin env) →
  stays_out h (callers_of sys) (callers_of (serve env r sys).1) ∧ (is_Some (auth_of (serve env r sys).1) ↔ is_Some (auth_of sys)).
Proof.
  intros Hf. unfold Running.serve. destruct (gateway_mux g r) as [[[] gd]|]; [..|done].
  - apply serveMCP_out.
  - unfold serve_admin_routes. destruct gd as [| | |hash devMode sessions];
      first [pose proof (admin_server_careful sha256 hmac error_text h devMode (sv_admin env) r (admin_view g sys) Hf) as Hc
            |pose proof (serve_admin_careful sha256 hmac error_text h (sv_admin env) r (admin_view g sys) Hf) as Hc];
      [destruct (serve_admin _ _ _ _ _ _)..|destruct (admin_server _ _ _ _ _ _ _)]; done.
  - unfold serve_refresh. by destruct (handleRefresh _ _ _ _).
  - destruct (g_oauth g) as [oh|]; [|done]. pose proof (oauth_context_out h env r sys) as Ho. unfold serve_oauth.
    destruct (oauth_context _ _ _ _) as [sys1 ctx]. repeat case_match; done.
  - done.
  - by destruct (HandleReadiness _).
  - done.
Qed.

(** A run of the gateway in which no request draws the hash. *)
Definition quiet_for (h : string) env (r : HttpRequest) : Prop := fresh sha256 h (sv_admin env).

(** Some hash is not drawn. *)
Lemma fresh_exists (aenv : AdminEnv E) : ∃ h, fresh sha256 h aenv.
Proof.
  destruct (ae_random aenv) as [rand|] eqn:Er; [|exists ""; intros rand; by rewrite Er].
  exists (sha256 (GenerateAPIKey rand) +:+ "x"). intros rand'. rewrite Er. intros [= <-] Heq.
  apply (f_equal String.length) in Heq. rewrite str_length_app in Heq. simpl in Heq. lia.
Qed.

(** What a step keeps: the authenticator in place, the invariant of every hash
    whose answers are not stored late, and the absence of a hash. *)
Lemma step_live Q Late h sys sys' : step sha256 hmac error_text g Q Late sys sys' → ¬ Late h → live_inv h (callers_of sys) →
  live_inv h (callers_of sys') ∧ (is_Some (auth_of sys') ↔ is_Some (auth_of sys)) ∧
  ((∀ env r, Q env r → fresh sha256 h (sv_admin env)) → unbound h (rows (callers_of sys)) → unbound h (rows (callers_of sys'))).
Proof.
  intros Hs Hl Hi. destruct Hs as [env r sys HQ|now sys|cenv sys|p sys|env a sys Hm Ha|before a after sys Hf Hc]; try done.
  - destruct (fresh_exists (sv_admin env)) as [x Hx]. destruct (serve_out x env r sys Hx) as [Ho Ha].
    split; [by apply Ho|]. split; [exact Ha|]. intros Hq. destruct (serve_out h env r sys (Hq env r HQ)) as [Hoh _]. by apply (Hoh h).
  - destruct (notified_out h p (callers_of sys) h Hi) as [Hi' Hu]. done.
  - destruct (live_fill h a (callers_of sys) Hi) as [Hi' Hr].
    { intros now k ->. by destruct (Hc now h k eq_refl). }
    split; [done|]. split; [done|]. intros _. simpl. by rewrite Hr.
Qed.

Lemma steps_live Q Late h sys sys' : steps Q Late sys sys' → ¬ Late h → live_inv h (callers_of sys) →
  live_inv h (callers_of sys') ∧ (is_Some (auth_of sys') ↔ is_Some (auth_of sys)) ∧
  ((∀ env r, Q env r → fresh sha256 h (sv_admin env)) → unbound h (rows (callers_of sys)) → unbound h (rows (callers_of sys'))).
Proof.
  induction 1 as [|sys1 sys2 sys3 Hs _ IH]; intros Hl Hi; [done|]. destruct (step_live _ _ _ _ _ Hs Hl Hi) as (Hi2 & Ha & Hu).
  destruct (IH Hl Hi2) as (Hi3 & Ha3 & Hu3). split; [done|]. split; [tauto|auto].
Qed.

(** A request of the admin API that revokes the key with this hash: by the
    key's identifier, or by deleting its owner. *)
Definition revokes (r : HttpRequest) (db : DB) (h : string) : Prop :=
  rq_method r = "DELETE" ∧
  ((∃ n i k, rq_segments r = ["admin"; "callers"; n; "keys"; i] ∧ k ∈ api_keys db ∧ Strconv.ParseInt i = Some (k_id k) ∧ k_hash k = h) ∨
   (∃ n k, rq_segments r = ["admin"; "callers"; n] ∧ lookup_key db h = Some k ∧ lk_name k = n)).

Lemma unmatched_status r : rp_status (unmatched (T:=Wrapped T) (St:=AnyStatusStore) sha256 hmac error_text r) ≠ 204.
Proof. unfold unmatched. destruct (_ && _); [done|]. by destruct (existsb _ _). Qed.

Lemma serve_admin_revokes aenv r (hd hd' : AdminHandler S (Wrapped T) AnyStatusStore) rep h :
  serve_admin sha256 hmac error_text aenv r hd = (hd', rep) → rp_status rep = 204 →
  live_inv h (a_store hd) → revokes r (rows (a_store hd)) h → unbound h (rows (a_store hd')).
Proof.
  intros Hs Hst Hi (Hm & Hr). unfold serve_admin, route, ui_route, api_route in Hs. rewrite Hm in Hs.
  destruct Hr as [(n & i & k & Hseg & Hk & Hid & <-)|(n & k & Hseg & Hl & Hn)]; rewrite Hseg in Hs; simpl in Hs.
  - destruct (bool_decide (n = "")); [|destruct (bool_decide (i = ""))];
      [injection Hs as <- <-; by destruct (unmatched_status r Hst)..|].
    unfold deleteKey in Hs. rewrite Hid in Hs. destruct (DeleteKey _ _ _ _) as [s' [[]|e]] eqn:Ed; [|by simplify_eq/=].
    injection Hs as <- <-. simpl.
    destruct (live_write _ (ae_first aenv) (WDeleteKey n (k_id k)) _ _ _ Hi Ed) as [_ Hw].
    by eapply deleted_key_unbound; [by eapply live_wf|exact Hw|..].
  - destruct (bool_decide (n = "")); [injection Hs as <- <-; by destruct (unmatched_status r Hst)|].
    unfold deleteCaller in Hs. destruct (DeleteCaller _ _ _) as [s' [[]|e]] eqn:Ed; [|by simplify_eq/=].
    injection Hs as <- <-. simpl.
    destruct (live_write _ (ae_first aenv) (WDeleteCaller n) _ _ _ Hi Ed) as [_ Hw].
    by eapply deleted_caller_unbound; [by eapply live_wf|exact Hw|exact Hl|].
Qed.

Lemma serve_revokes env r sys sys' rep h :
  serve env r sys = (sys', AdminAnswer rep) → rp_status rep = 204 →
  live_inv h (callers_of sys) → revokes r (rows (callers_of sys)) h → unbound h (rows (callers_of sys')).
Proof.
  intros Hs Hst Hi Hr. unfold Running.serve in Hs. destruct (gateway_mux g r) as [[ep gd]|]; [|done].
  destruct ep; unfold serve_mcp, serve_refresh, serve_oauth in Hs; try (repeat case_match; done).
  unfold serve_admin_routes in Hs. destruct gd as [| | |hash devMode sessions];
    [destruct (serve_admin _ _ _ _ _ _) as [hd rep'] eqn:Ea..|].
  1-3: injection Hs as <- ->; by eapply (serve_admin_revokes (sv_admin env) r (admin_view g sys)).
  unfold admin_server in Hs. destruct (AdminAuthMiddleware _ _ _ _ _ _ _) as [ctx|status body|loc] eqn:Em; [| |by simplify_eq/=].
  2: { exfalso. injection Hs as _ <-. simpl in Hst. subst status. revert Em. unfold AdminAuthMiddleware. repeat case_match; done. }
  destruct (serve_admin _ _ _ _ _ _) as [hd rep'] eqn:Ea. injection Hs as <- ->.
  by eapply (serve_admin_revokes (sv_admin env) r (admin_view g sys)).
Qed.

(** A request to /mcp with a generated key that is not in the store. *)
Lemma mcp_refused env r sys rnd : is_Some (auth_of sys) → is_Some (g_authenticator g) → live_inv (sha256 (GenerateAPIKey rnd)) (callers_of sys) →
  unbound (sha256 (GenerateAPIKey rnd)) (rows (callers_of sys)) →
  rq_method r = "POST" → rq_segments r = ["mcp"] → rq_authorization r = "Bearer " +:+ GenerateAPIKey rnd →
  ∃ sys' w, serve env r sys = (sys', MCPAnswer w) ∧ proxy (sys_server sys') = proxy (sys_server sys) ∧
    w_body w = JSONBody (Response_MarshalJSON (NewErrorResponse None (-32000) "unauthorized")).
Proof.
  intros [a Ha] Hg Hi Hu Hm Hseg Hau. unfold Running.serve, gateway_mux. rewrite Hm, Hseg. cbn.
  unfold serve_mcp, serveMCP. rewrite Ha, Hau.
  destruct (Authenticate _ _ _ _ _) as [[a' s'] res] eqn:Eau.
  apply (Authenticate_out sha256 (sha256 (GenerateAPIKey rnd))) in Eau as [_ Hr].
  specialize (Hr Hi rnd eq_refl eq_refl Hu). destruct res as [[c l]|e]; [done|]. simpl. eauto.
Qed.

(** C2: a key that is revoked through the admin API of a gateway is refused by it
    from then on. Once a DELETE of the key or of its caller is answered with 204,
    then whatever requests, refreshes, health checks and notifications follow, and
    whether or not the store is cached, a request to /mcp with that key is answered
    with the error -32000 and changes nothing in the proxy: no upstream is
    contacted, no limit is charged and no token refreshed. Requests are served one
    after the other, except that lookups of the cache may be under way meanwhile and
    store their answers late. Two things are excluded: that a lookup of this very key
    stores its answer after the answer has become outdated (the cache then accepts
    the key until the entry expires: [revoked_key_revived]), and a later request that
    draws a key with the same hash. *)
Theorem revocation_end_to_end benv cfg hash Q Late env r sys sys1 rep rnd sys2 env2 r2 :
  let h := sha256 (GenerateAPIKey rnd) in
  live_inv h (be_callers benv) → is_Some (g_authenticator g) → ¬ Late h →
  steps Q Late (boot g benv cfg hash) sys →
  serve env r sys = (sys1, AdminAnswer rep) → rp_status rep = 204 →
  revokes r (rows (callers_of sys)) h →
  steps (quiet_for h) Late sys1 sys2 →
  rq_method r2 = "POST" → rq_segments r2 = ["mcp"] → rq_authorization r2 = "Bearer " +:+ GenerateAPIKey rnd →
  ∃ sys3 w, serve env2 r2 sys2 = (sys3, MCPAnswer w) ∧ proxy (sys_server sys3) = proxy (sys_server sys2) ∧
    w_body w = JSONBody (Response_MarshalJSON (NewErrorResponse None (-32000) "unauthorized")).
Proof.
  intros h Hi0 Hg Hl Hrun Hs Hst Hr Hrun2 Hm Hseg Hau. destruct (steps_live _ _ _ _ _ Hrun Hl Hi0) as (Hi & Ha & _).
  assert (is_Some (auth_of sys)) as Ha' by (by apply Ha).
  pose proof (serve_revokes _ _ _ _ _ _ Hs Hst Hi Hr) as Hu.
  destruct (step_live (λ _ _, True) Late h sys sys1) as (Hi1 & Ha1 & _); [|done..|].
  { change sys1 with ((sys1, AdminAnswer rep).1). rewrite <- Hs. by constructor. }
  destruct (steps_live _ _ _ _ _ Hrun2 Hl Hi1) as (Hi2 & Ha2 & Hu2).
  apply (mcp_refused env2 r2 sys2 rnd); try done; [tauto|]. by apply Hu2.
Qed.
End revocation.

(** ** The audit trail, end to end *)

Section one_call.
Context `{Float64.GoPlatform} `{GoRange} {T R X RLEnv : Type} `{Transport T} `{RateLimiter RLEnv R} `{UpstreamAuth X}.

(** What a tool call adds. *)
Lemma HandleToolsCall_audit (penv : ProxyEnv (RLEnv:=RLEnv)) ctx req w (h : Handler T R X) :
  let h' := (HandleToolsCall penv ctx req w h).1 in
  (requested_tool req = None ∧ h' = h) ∨
  ∃ tool status, requested_tool req = Some tool ∧ audited penv ctx req tool status h h'.
Proof.
  cbv zeta. destruct (requested_tool req) as [tool|] eqn:Et.
  - right. destruct (forwarded_dec penv ctx req h) as [(tool' & route & u & rtCtx & Hf)|Hn].
    + pose proof (HandleToolsCall_forwarded penv ctx req w h _ _ _ _ Hf) as Hr.
      destruct (RoundTrip _ _ _) as [t res]. destruct Hr as (_ & _ & Ha & _).
      assert (tool' = tool) as -> by (destruct (fw_routed _ _ _ _ _ _ _ _ Hf); congruence). eauto.
    + destruct (HandleToolsCall_not_forwarded penv ctx req w h Hn) as (_ & _ & Ha). eauto.
  - left. split; [done|]. unfold HandleToolsCall. by rewrite Et.
Qed.

Lemma handleMCP_audit (penv : ProxyEnv (RLEnv:=RLEnv)) ctx body w (h : Handler T R X) :
  let h' := (handleMCP penv ctx body w h).1 in
  h' = h ∨ ∃ e, auditStore h' = (λ es, if audit_fault penv then es else es ++ [e]) <$> auditStore h ∧ ae_caller e = callerNameOf ctx ∧ ae_keyLabel e = KeyLabelFromContext ctx.
Proof.
  cbv zeta. destruct (handleMCP_changes penv ctx body w h) as [Hs|(data & req & _ & _ & _ & ->)]; [by left|].
  destruct (HandleToolsCall_audit penv ctx req w h) as [[_ Hs]|(tool & status & _ & e & He & _ & Hc & _ & Hl & _)]; [by left|right; eauto].
Qed.
End one_call.

Section trail.
Context {T L N E S : Type} `{Transport T} `{Float64.GoPlatform} `{GoRange} `{TokenBucket L} `{TokenEndpoint N} `{JWT}
  `{Store E S} `{Cacheable S} `{Notified S} `{Caching E S} `{TimeText} `{SQLOrder}.
Variables (sha256 : string → string) (hmac : string → string → string) (error_text : store_error → string).
Variable g : Gateway T L.
Implicit Types (sys : System T L N S) (env : ServeEnv (E:=E)).

Abbreviation proxy_of sys := (proxy (sys_server sys)).
Abbreviation serve := (serve sha256 hmac error_text g).

(** Entries are only added, and the database under them stays. *)
Definition extends sys sys' : Prop :=
  sys_log sys' = sys_log sys ∧ ∃ l, auditStore (proxy_of sys') = (λ es, es ++ l) <$> auditStore (proxy_of sys).

#[local] Instance extends_preorder : PreOrder extends.
Proof.
  split.
  - intros sys. split; [done|]. exists []. destruct (auditStore (proxy_of sys)); csimpl; by rewrite ?app_nil_r.
  - intros s1 s2 s3 [Hl1 [l1 He1]] [Hl2 [l2 He2]]. split; [congruence|]. exists (l1 ++ l2). rewrite He2, He1.
    destruct (auditStore (proxy_of s1)); simpl; [by rewrite app_assoc|done].
Qed.

Lemma extends_same sys sys' : sys_log sys' = sys_log sys → auditStore (proxy_of sys') = auditStore (proxy_of sys) → extends sys sys'.
Proof.
  intros Hl Ha. split; [done|]. exists []. rewrite Ha. destruct (auditStore (proxy_of sys)); csimpl; by rewrite ?app_nil_r.
Qed.

Lemma extends_entry sys sys' (b : bool) e : sys_log sys' = sys_log sys →
  auditStore (proxy_of sys') = (λ es, if b then es else es ++ [e]) <$> auditStore (proxy_of sys) → extends sys sys'.
Proof.
  intros Hl Ha. split; [done|]. exists (if b then [] else [e]). rewrite Ha. destruct (auditStore (proxy_of sys)), b; csimpl; by rewrite ?app_nil_r.
Qed.

Lemma serve_mcp_extends env r sys : extends sys (serve_mcp sha256 hmac env r sys).1.
Proof.
  unfold serve_mcp, serveMCP. destruct (authenticator (sys_server sys)) as [a|].
  - destruct (Authenticate _ _ _ _ _) as [[a' s'] [[c l]|e]]; [|by apply extends_same].
    pose proof (handleMCP_audit (H3:=flows hmac) (sv_proxy env) (mcp_context Background c l) (MkStream (rq_body r) (sv_bodyErr env)) new_writer (proxy_of sys)) as Ha.
    destruct (handleMCP _ _ _ _ _) as [h' w]. simpl in Ha. destruct Ha as [->|(e & He & _)]; [by apply extends_same|by eapply extends_entry].
  - pose proof (handleMCP_audit (H3:=flows hmac) (sv_proxy env) Background (MkStream (rq_body r) (sv_bodyErr env)) new_writer (proxy_of sys)) as Ha.
    destruct (handleMCP _ _ _ _ _) as [h' w]. simpl in Ha. destruct Ha as [->|(e & He & _)]; [by apply extends_same|by eapply extends_entry].
Qed.

Lemma serve_extends env r sys : extends sys (serve env r sys).1.
Proof.
  unfold Running.serve. destruct (gateway_mux g r) as [[[] gd]|]; [..|done]; try done.
  - apply serve_mcp_extends.
  - unfold serve_admin_routes. destruct (match gd with AdminAuth _ _ _ => _ | _ => _ end) as [h rep].
    apply extends_same; [done|]. unfold admin_back. simpl. by destruct (a_tokenStore h).
  - unfold serve_refresh, handleRefresh. destruct (Refresh _ _ _). by apply extends_same.
  - destruct (g_oauth g) as [oh|]; [|done]. unfold serve_oauth.
    assert (extends sys (oauth_context sha256 env r sys).1) as Ho.
    { unfold oauth_context. destruct (authenticator _); [|done]. repeat case_match; by apply extends_same. }
    destruct (oauth_context _ _ _ _) as [sys1 ctx]. simpl in Ho. etransitivity; [exact Ho|].
    repeat case_match; simplify_eq; try done; by apply extends_same.
Qed.

Lemma audit_of_extends sys sys' : extends sys sys' → AuditStore.rows (audit_of sys) `prefix_of` AuditStore.rows (audit_of sys').
Proof.
  assert (∀ l db, AuditStore.rows db `prefix_of` AuditStore.rows (foldl (λ db a, (Log false (entry_of "" a) db).1) db l)) as Hp.
  { intros l. induction l as [|a l IH]; intros db; [done|]. cbn [foldl]. etransitivity; [|apply IH]. by apply prefix_app_r. }
  intros [Hl [l He]]. unfold audit_of. rewrite Hl, He. destruct (auditStore (proxy_of sys)); simpl; [|done]. rewrite foldl_app. apply Hp.
Qed.

(** C4: the audit log is append-only, and what is written to it is complete as far
    as the log can be written. Whatever the gateway serves (admin requests included),
    refreshes or is notified of, the rows that are in the log stay as they are; and a
    request to /mcp that changes any upstream adds exactly one entry, under the name
    and the key label of the caller who was authenticated, unless the audit store
    fails to write it: the error is only logged, the request goes on, and the log
    stays as it was. *)
Theorem audit_trail_complete Q Late sys0 sys env r :
  rtc (step sha256 hmac error_text g Q Late) sys0 sys →
  AuditStore.rows (audit_of sys0) `prefix_of` AuditStore.rows (audit_of sys) ∧
  let sys' := (serve_mcp sha256 hmac env r sys).1 in
  rt_upstreams (router (proxy_of sys')) ≠ rt_upstreams (router (proxy_of sys)) →
  if audit_fault (sv_proxy env) then auditStore (proxy_of sys') = auditStore (proxy_of sys) else
  ∃ e, auditStore (proxy_of sys') = (λ es, es ++ [e]) <$> auditStore (proxy_of sys) ∧
    ∀ a, authenticator (sys_server sys) = Some a →
      ∃ c l, (Authenticate sha256 (sv_auth env) (rq_authorization r) a (Server.callers (sys_server sys))).2 = Ok (c, l) ∧
        ae_caller e = CallerName c ∧ ae_keyLabel e = l.
Proof.
  intros Hr. split.
  { apply audit_of_extends. induction Hr as [|s1 s2 s3 Hs _ IH]; [done|]. etransitivity; [|exact IH].
    destruct Hs; [apply serve_extends|by apply extends_same..]. }
  cbv zeta. unfold serve_mcp, serveMCP. destruct (authenticator (sys_server sys)) as [a|].
  - destruct (Authenticate _ _ _ _ _) as [[a' s'] [[c l]|e]] eqn:Eau; [|done].
    pose proof (handleMCP_audit (H3:=flows hmac) (sv_proxy env) (mcp_context Background c l) (MkStream (rq_body r) (sv_bodyErr env)) new_writer (proxy_of sys)) as Ha.
    destruct (handleMCP _ _ _ _ _) as [h' w]. simpl in *. destruct Ha as [->|(e & He & Hc & Hk)]; [done|]. intros _.
    destruct (audit_fault (sv_proxy env)); [rewrite He; by destruct (auditStore (proxy_of sys))|]. exists e. split; [done|]. intros a0 [= <-]. exists c, l. rewrite Eau. split_and!; [done|..].
    + rewrite Hc. unfold callerNameOf, mcp_context. by case_bool_decide.
    + rewrite Hk. unfold mcp_context. case_bool_decide as Hl; [by rewrite Hl|done].
  - pose proof (handleMCP_audit (H3:=flows hmac) (sv_proxy env) Background (MkStream (rq_body r) (sv_bodyErr env)) new_writer (proxy_of sys)) as Ha.
    destruct (handleMCP _ _ _ _ _) as [h' w]. simpl in *. destruct Ha as [->|(e & He & _)]; [done|].
    intros _. destruct (audit_fault (sv_proxy env)); [rewrite He; by destruct (auditStore (proxy_of sys))|].
    exists e. split; [done|]. by intros a0 [=].
Qed.
End trail.

(** ** A run *)

Module Run.
#[export] Existing Instances scripted Float64.amd64 open_bucket plain_jwt fixed_endpoint.
Import AdminRun.

Definition drawn : string := "0123456789abcdef".
Definition its_key : string := GenerateAPIKey drawn.

(** An upstream with the tool "search", which ann may use. *)
Definition search_upstream : gmap string (Wrapped script) :=
  {["svc" := Wrap [reply JNull; reply JNull; reply (offer ["search"; "drop"]); reply (JBool true)] raw_upstream None (λ _, Resilience.calm)]}.

(** A gateway with a caller database, an audit log and that upstream. *)
Definition gateway : Gateway script unit :=
  MkGateway (LevelInfo, TextFormat) (Router.New search_upstream [raw_upstream] 0) None (Some sample_authenticator) true
    (RedisLimit.Local (NewLocalRateLimiter (gateway_config (MkDatabase "sqlite" "stile.db")))) (Some ("k", AdminAuth "k" false true))
    None (Some SQLiteStyle) (NewChecker [] None (MkCheckerOptions None false true 0 0 false)) Tls.PlainHTTP.

Definition its_db : DB := (SQL_AddKey no_faults "bob" its_key "phone" sample_db).1.
Definition its_cache : CachedStore DB := MkCache its_db 60 ∅ ∅ ∅ (MkStats 0 0 0 0 0) None.

Definition boot_env : BootEnv (N:=string) (S:=CachedStore DB) :=
  MkBootEnv sample_getenv its_cache ∅ "" (λ _, calm_env) ∅ (MkLog [] 1) 0 JNull (λ _, "") (λ _, "").

Definition quiet_cache : CacheEnv DBEnv := MkCacheEnv no_faults 0.
Definition any_env : ServeEnv (E:=CacheEnv DBEnv) :=
  MkServeEnv (MkAuthEnv quiet_cache quiet_cache quiet_cache quiet_cache quiet_oidc)
    (MkProxyEnv (λ _, 0, MkRedisEnv 0 0 (λ _, RedisLimit.MkCheckEnv 0 "" None)) 0 0 false)
    (MkAdminEnv quiet_cache quiet_cache 0 None (λ _, false) false) calm_env None 0 None.

Definition started : System script unit string (CachedStore DB) :=
  boot gateway boot_env (gateway_config (MkDatabase "sqlite" "stile.db")) "k".
Definition deletion : HttpRequest :=
  MkHttpRequest "DELETE" ["admin"; "callers"; "bob"; "keys"; "3"] "" "Bearer k" [] "" 0.
Definition attempt : HttpRequest := MkHttpRequest "POST" ["mcp"] "" ("Bearer " +:+ its_key) [] ping_doc 0.
Definition search_call : HttpRequest := MkHttpRequest "POST" ["mcp"] "" "Bearer h1" [] (call_doc "search") 0.
Abbreviation serve_it := (serve id toy_mac (λ _, "") gateway).
End Run.
Import AdminRun Run.

Lemma revocation_end_to_end_witness :
  (∃ w, (serve_it any_env attempt started).2 = MCPAnswer w ∧ w_body w ≠ JSONBody (Response_MarshalJSON (NewErrorResponse None (-32000) "unauthorized"))) ∧
  ∃ sys3 w, serve_it any_env attempt (serve_it any_env deletion (serve_it any_env attempt started).1).1 = (sys3, MCPAnswer w) ∧
    w_body w = JSONBody (Response_MarshalJSON (NewErrorResponse None (-32000) "unauthorized")).
Proof.
  split; [eexists; split; [vm_compute; reflexivity|vm_compute; discriminate]|].
  set (sys := (serve_it any_env attempt started).1).
  destruct (serve_it any_env deletion sys) as [sys1 ans] eqn:Es.
  assert (∃ rep, ans = AdminAnswer rep ∧ rp_status rep = 204) as (rep & -> & Hst).
  { change ans with ((sys1, ans).2). rewrite <- Es. eexists. split; vm_compute; reflexivity. }
  pose proof (revocation_end_to_end id toy_mac (λ _, "") gateway boot_env (gateway_config (MkDatabase "sqlite" "stile.db")) "k"
    (λ _ _, True) (λ h, h ≠ its_key) any_env deletion sys sys1 rep drawn sys1 any_env attempt) as Hr.
  destruct Hr as (sys3 & w & Hs & _ & Hb).
  - apply keyed_new. apply (live_write (S:=DB) its_key no_faults (WAddKey "bob" its_key "phone") sample_db its_db (Ok tt)); [apply sample_db_wf|].
    vm_compute. reflexivity.
  - vm_compute. eauto.
  - intros Hne. apply Hne. reflexivity.
  - apply rtc_once. by constructor.
  - exact Es.
  - exact Hst.
  - split; [reflexivity|]. left. exists "bob", "3", (KeyRow 3 2 its_key "phone" 0). split_and!; try reflexivity.
    vm_compute. right; right; left.
  - apply rtc_refl.
  - reflexivity.
  - reflexivity.
  - reflexivity.
  - exists sys3, w. split; [exact Hs|exact Hb].
Defined.

Lemma audit_trail_complete_witness :
  ∃ e, auditStore (proxy (sys_server (serve_mcp id toy_mac any_env search_call (serve_it any_env attempt started).1).1)) = Some [e] ∧
    ae_caller e = "ann" ∧ ae_keyLabel e = "laptop".
Proof.
  set (sys := (serve_it any_env attempt started).1).
  destruct (audit_trail_complete id toy_mac (λ _, "") gateway (λ _ _, True) (λ _, True) started sys any_env search_call) as [_ Ha].
  { apply rtc_once. by constructor. }
  destruct Ha as (e & He & Hc).
  { intros Heq. apply (f_equal (λ us, (λ u, match up_transport u with Plain t => length t | Resilient _ => O end) <$> head us)) in Heq. vm_compute in Heq. discriminate Heq. }
  destruct (Hc sample_authenticator eq_refl) as (c & l & Hau & Hn & Hl). vm_compute in Hau. injection Hau as <- <-.
  exists e. split_and!; [exact He|exact Hn|exact Hl].
Defined.
