(* ===== verification/Metrics.v ===== *)
(** * Metrics ([internal/metrics/metrics.go])

    The instruments of the gateway over a meter of OpenTelemetry, which is a
    library: class [Meter] has its operations and what they document. The
    components record their observations in lists; [replay_*] makes the calls
    that the code makes for them, and the theorems say what /metrics then shows:
    request counters that agree with the audit log, and gauges that show the
    state of the breaker and of the health checker. *)

From stdpp Require Import relations.
From Stdlib Require Import SpecFloat.
From S2P Require Import Prelude GoLib Json JsonRpc Transport Resilience RateLimit RedisLimit Router Proxy Server Http ConfigData.
From S2P Require Import AuthStore CachedStore Auth OAuth Health AuditStore Admin AdminUI Live Gateway Running.
Import GoStr.

(** ** The library *)

(** [attribute.Set]: the attributes of an observation, in no order. *)
Abbreviation attrs := (gmap string string).

(** Instruments are known by their name. A counter sums what is added to each
    set of attributes, a histogram keeps its observations (here in order; what is
    exported are the counts of the buckets), a gauge the last value. *)
Class Meter (M : Type) := {
  Add : string → attrs → Z → M → M;
  Observe : string → attrs → spec_float → M → M;
  SetGauge : string → attrs → spec_float → M → M;
  counter : string → attrs → M → Z;
  observed : string → attrs → M → list spec_float;
  gauge : string → attrs → M → option spec_float;
  fresh_meter : M;
  counter_fresh : ∀ n a, counter n a fresh_meter = 0;
  observed_fresh : ∀ n a, observed n a fresh_meter = [];
  gauge_fresh : ∀ n a, gauge n a fresh_meter = None;
  counter_Add : ∀ n a n' a' k m, counter n a (Add n' a' k m) = counter n a m + (if decide ((n, a) = (n', a')) then k else 0);
  observed_Add : ∀ n a n' a' k m, observed n a (Add n' a' k m) = observed n a m;
  gauge_Add : ∀ n a n' a' k m, gauge n a (Add n' a' k m) = gauge n a m;
  counter_Observe : ∀ n a n' a' v m, counter n a (Observe n' a' v m) = counter n a m;
  observed_Observe : ∀ n a n' a' v m,
    observed n a (Observe n' a' v m) = observed n a m ++ (if decide ((n, a) = (n', a')) then [v] else []);
  gauge_Observe : ∀ n a n' a' v m, gauge n a (Observe n' a' v m) = gauge n a m;
  counter_SetGauge : ∀ n a n' a' v m, counter n a (SetGauge n' a' v m) = counter n a m;
  observed_SetGauge : ∀ n a n' a' v m, observed n a (SetGauge n' a' v m) = observed n a m;
  gauge_SetGauge : ∀ n a n' a' v m,
    gauge n a (SetGauge n' a' v m) = if decide ((n, a) = (n', a')) then Some v else gauge n a m;
}.

(** ** The instruments *)

Record Metrics := MkMetrics {
  requestsTotal : string;
  requestDuration : string;
  upstreamHealth : string;
  rateLimitRejections : string;
  toolCacheRefresh : string;
  circuitState : string;
  retriesTotal : string;
  authCacheHits : string;
  authCacheMisses : string;
  authCacheEvictions : string;
}.

(** The names that the specification of OpenTelemetry admits: a letter, then
    letters, digits, and the characters _ . - / *)
Definition name_letter (c : ascii) : bool := between 65 90 c || between 97 122 c.
Definition name_byte (c : ascii) : bool :=
  name_letter c || between 48 57 c || existsb (λ d, bool_decide (c = d)) ["_"%char; "."%char; "-"%char; "/"%char].
Definition valid_name (s : string) : bool :=
  match s with
  | EmptyString => false
  | String c s => name_letter c && all_bytes name_byte s && bool_decide (String.length s < 255)%nat
  end.

Definition durationBuckets : list string := [".005"; ".01"; ".025"; ".05"; ".1"; ".25"; ".5"; "1"; "2.5"; "5"; "10"].

(** [newMetrics]; [exporter] is whether the exporter registers, which a second
    one on the same registry does not. An instrument is refused for its name.
    [None] is a panic. *)
Definition newMetrics (exporter : bool) : option Metrics :=
  let make n := if valid_name n then Some n else None in
  if negb exporter then None else
  a ← make "stile_requests"; b ← make "stile_request_duration_seconds"; c ← make "stile_upstream_health";
  d ← make "stile_rate_limit_rejections"; e ← make "stile_tool_cache_refresh"; f ← make "stile_circuit_state";
  h ← make "stile_retries"; i ← make "stile_auth_cache_hits"; j ← make "stile_auth_cache_misses";
  k ← make "stile_auth_cache_evictions";
  Some (MkMetrics a b c d e f h i j k).

Definition stile_metrics : Metrics :=
  MkMetrics "stile_requests" "stile_request_duration_seconds" "stile_upstream_health" "stile_rate_limit_rejections"
    "stile_tool_cache_refresh" "stile_circuit_state" "stile_retries" "stile_auth_cache_hits" "stile_auth_cache_misses"
    "stile_auth_cache_evictions".

Definition request_attrs (c t u s : string) : attrs := list_to_map [("caller", c); ("tool", t); ("upstream", u); ("status", s)].

Section record.
Context {M : Type} `{Meter M}.
Variable ms : Metrics.

Definition RecordRequest (caller tool upstream status : string) : M → M :=
  Add (requestsTotal ms) (request_attrs caller tool upstream status) 1.
Definition RecordDuration (caller tool upstream : string) (secs : spec_float) : M → M :=
  Observe (requestDuration ms) (list_to_map [("caller", caller); ("tool", tool); ("upstream", upstream)]) secs.
Definition SetUpstreamHealth (upstream : string) (val : spec_float) : M → M :=
  SetGauge (upstreamHealth ms) (list_to_map [("upstream", upstream)]) val.
Definition RecordRateLimitRejection (caller tool : string) : M → M :=
  Add (rateLimitRejections ms) (list_to_map [("caller", caller); ("tool", tool)]) 1.
Definition RecordToolCacheRefresh (upstream status : string) : M → M :=
  Add (toolCacheRefresh ms) (list_to_map [("upstream", upstream); ("status", status)]) 1.
Definition SetCircuitState (upstream : string) (val : spec_float) : M → M :=
  SetGauge (circuitState ms) (list_to_map [("upstream", upstream)]) val.
Definition RecordRetry (upstream : string) : M → M := Add (retriesTotal ms) (list_to_map [("upstream", upstream)]) 1.
Definition RecordAuthCacheHit (cacheType : string) : M → M := Add (authCacheHits ms) (list_to_map [("type", cacheType)]) 1.
Definition RecordAuthCacheMiss (cacheType : string) : M → M := Add (authCacheMisses ms) (list_to_map [("type", cacheType)]) 1.
Definition RecordAuthCacheEviction (cacheType : string) : M → M := Add (authCacheEvictions ms) (list_to_map [("type", cacheType)]) 1.

(** ** The calls of the components *)

Definition replay_proxy (l : list proxy_metric) (m : M) : M :=
  foldl (λ m e, match e with
                | RequestMetric c t u s => RecordRequest c t u s m
                | DurationMetric c t u d => RecordDuration c t u d m
                | RejectionMetric c t => RecordRateLimitRejection c t m
                end) m l.

(** [float64(rt.cb.State())] *)
Definition state_value (s : Breaker.State) : spec_float :=
  Float64.of_Z (match s with Breaker.StateClosed => 0 | Breaker.StateOpen => 1 | Breaker.StateHalfOpen => 2 end).

Definition replay_resilience (l : list metric) (m : M) : M :=
  foldl (λ m e, match e with
                | RetryMetric u => RecordRetry u m
                | CircuitMetric u s => SetCircuitState u (state_value s) m
                end) m l.

Definition replay_refresh (l : list (string * bool)) (m : M) : M :=
  foldl (λ m e, RecordToolCacheRefresh e.1 (if e.2 : bool then "success" else "failure") m) m l.

Definition health_value (b : bool) : spec_float := Float64.of_Z (if b then 1 else 0).

Definition replay_health (l : list (string * bool)) (m : M) : M :=
  foldl (λ m e, SetUpstreamHealth e.1 (health_value e.2) m) m l.
End record.

(** Every name is admitted: only the exporter can make the start panic. *)
Lemma newMetrics_names exporter : newMetrics exporter = if exporter then Some stile_metrics else None.
Proof. destruct exporter; vm_compute; reflexivity. Qed.

(** ** Request counters and the audit log *)

(** What the request counter is about, in an observation and in an entry. *)
Definition request_key (e : proxy_metric) : option (string * string * string * string) :=
  match e with RequestMetric c t u s => Some (c, t, u, s) | _ => None end.
Definition entry_key (e : AuditEntry) : string * string * string * string := (ae_caller e, ae_tool e, ae_upstream e, ae_status e).

(** The requests that were logged are among those that were counted, in order; and
    they are the same if, [written], no entry was lost. *)
Definition counted (written : Prop) {T R X} (h : Handler T R X) : Prop :=
  ∃ ms es, h_metrics h = Some ms ∧ auditStore h = Some es ∧
    (entry_key <$> es) `sublist_of` (omap request_key ms) ∧ (written → omap request_key ms = entry_key <$> es).

Lemma counted_same P {T R X} (h h' : Handler T R X) :
  h_metrics h' = h_metrics h → auditStore h' = auditStore h → counted P h → counted P h'.
Proof. intros Hm Ha (ms & es & ? & ? & ?). exists ms, es. rewrite Hm, Ha. done. Qed.

Section counting.
Context `{Float64.GoPlatform} `{GoRange} {T R X RLEnv : Type} `{Transport T} `{RateLimiter RLEnv R} `{UpstreamAuth X}.
Implicit Types (h : Handler T R X) (env : ProxyEnv (RLEnv:=RLEnv)).

Lemma counted_metric P h m : request_key m = None → counted P h → counted P (Proxy.record_metric h m).
Proof.
  intros Hk (ms & es & Hm & Ha & Ho). exists (ms ++ [m]), es. simpl. rewrite Hm.
  rewrite omap_app. simpl. by rewrite Hk, app_nil_r.
Qed.

Lemma counted_recordRequest (P : Prop) env ctx c t u s params h : (P → audit_fault env = false) →
  counted P h → counted P (recordRequest env ctx c t u s params h).
Proof.
  intros HP (ms & es & Hm & Ha & Hs & Ho). unfold recordRequest. simpl. rewrite Hm, Ha. simpl.
  do 2 eexists. split_and!; [done..| |]; rewrite !omap_app; simpl; rewrite app_nil_r.
  - destruct (audit_fault env); [by apply sublist_inserts_r|]. rewrite fmap_app. by apply sublist_app.
  - intros Hp. rewrite (HP Hp), fmap_app, (Ho Hp). done.
Qed.

Lemma counted_call (P : Prop) env ctx req w h : (P → audit_fault env = false) →
  counted P h → counted P (HandleToolsCall env ctx req w h).1.
Proof.
  intros HP Hc. unfold HandleToolsCall. destruct (requested_tool req) as [tool|]; [|done].
  destruct (negb _); [by apply counted_recordRequest|].
  destruct (Resolve _ _ ≫= _) as [[route u]|]; [|by apply counted_recordRequest].
  unfold forward. pose proof (check_rate_frame env ctx tool (up_name u) h) as (_ & F1 & _ & F2).
  destruct (check_rate env ctx tool (up_name u) h) as [h1 rl]. simpl in *.
  assert (counted P h1) as Hc1 by by eapply counted_same.
  destruct (rl ≫= Denial); [by apply counted_recordRequest, counted_metric|].
  assert (counted P (resolve_token ctx (up_name u) h1).1) as Hc2.
  { unfold resolve_token. destruct (authResolver h1); [|done]. destruct (ResolveToken _ _ _). by eapply counted_same, Hc1. }
  destruct (resolve_token _ _ _) as [h2 [rtCtx|e]]; [|by apply counted_recordRequest].
  unfold round_trip. destruct (RoundTrip _ _ _) as [t' res]. apply counted_recordRequest; [done|]. by eapply counted_same, Hc2.
Qed.

Lemma counted_handleMCP (P : Prop) env ctx body w h : (P → audit_fault env = false) →
  counted P h → counted P (handleMCP env ctx body w h).1.
Proof.
  intros HP Hc. destruct (handleMCP_changes env ctx body w h) as [->|(data & req & _ & _ & _ & ->)]; [done|by apply counted_call].
Qed.
End counting.

Lemma request_attrs_inj c t u s c' t' u' s' : request_attrs c t u s = request_attrs c' t' u' s' → (c, t, u, s) = (c', t', u', s').
Proof.
  unfold request_attrs. intros Heq. simpl in Heq.
  assert (∀ k, (<["caller":=c]> (<["tool":=t]> (<["upstream":=u]> (<["status":=s]> ∅))) : attrs) !! k
    = (<["caller":=c']> (<["tool":=t']> (<["upstream":=u']> (<["status":=s']> ∅))) : attrs) !! k) as Hl by (intros k; by rewrite Heq).
  pose proof (Hl "caller"). pose proof (Hl "tool"). pose proof (Hl "upstream"). pose proof (Hl "status").
  rewrite ?lookup_insert_eq in *. simplify_map_eq. done.
Qed.

Section replayed.
Context {M : Type} `{Meter M}.

(** The counter of a set of attributes counts its observations. *)
Lemma counter_requests ms l (m : M) c t u s :
  rateLimitRejections ms ≠ requestsTotal ms →
  counter (requestsTotal ms) (request_attrs c t u s) (replay_proxy ms l m) =
    counter (requestsTotal ms) (request_attrs c t u s) m
    + Z.of_nat (length (filter (λ k, k = (c, t, u, s)) (omap request_key l))).
Proof.
  intros Hne. revert m. induction l as [|e l IH]; intros m; cbn [replay_proxy foldl]; [simpl; lia|].
  unfold replay_proxy in IH. rewrite IH. destruct e as [c' t' u' s'|c' t' u' d|c' t']; csimpl.
  - unfold RecordRequest. rewrite counter_Add.
    destruct (decide ((c', t', u', s') = (c, t, u, s))) as [[= -> -> -> ->]|Hk].
    { rewrite decide_True by done. rewrite filter_cons_True by done. cbn [length]. lia. }
    rewrite filter_cons_False by done. rewrite decide_False; [lia|]. intros Heq%(f_equal snd). apply Hk. symmetry. by apply request_attrs_inj.
  - unfold RecordDuration. by rewrite counter_Observe.
  - unfold RecordRateLimitRejection. rewrite counter_Add. rewrite decide_False; [lia|]. by intros [= Heq _].
Qed.
End replayed.

Section agreement.
Context {M T L N E S : Type} `{Meter M} `{Transport T} `{Float64.GoPlatform} `{GoRange} `{TokenBucket L} `{TokenEndpoint N} `{JWT}
  `{Store E S} `{Cacheable S} `{Notified S} `{Caching E S} `{TimeText} `{SQLOrder}.
Variables (sha256 : string → string) (hmac : string → string → string) (error_text : store_error → string).
Variable g : Gateway T L.
Implicit Types (sys : System T L N S) (env : ServeEnv (E:=E)).

Lemma counted_serve (P : Prop) env r sys : (P → audit_fault (sv_proxy env) = false) → counted P (proxy (sys_server sys)) →
  counted P (proxy (sys_server (serve sha256 hmac error_text g env r sys).1)).
Proof.
  intros HP Hc. unfold serve. destruct (gateway_mux g r) as [[[] gd]|]; [..|done]; try done.
  - unfold serve_mcp, serveMCP. destruct (authenticator (sys_server sys)) as [a|].
    + destruct (Authenticate _ _ _ _ _) as [[a' s'] [[c l]|e]]; [|done].
      destruct (handleMCP _ _ _ _ _) as [h' w] eqn:Eh. cbn. change h' with ((h', w).1). rewrite <- Eh. by apply counted_handleMCP.
    + destruct (handleMCP _ _ _ _ _) as [h' w] eqn:Eh. cbn. change h' with ((h', w).1). rewrite <- Eh. by apply counted_handleMCP.
  - unfold serve_admin_routes. destruct (match gd with AdminAuth _ _ _ => _ | _ => _ end) as [h rep].
    unfold admin_back. cbn. destruct (a_tokenStore h); by eapply counted_same, Hc.
  - unfold serve_refresh, handleRefresh. destruct (Refresh _ _ _). by eapply counted_same, Hc.
  - destruct (g_oauth g) as [oh|]; [|done]. unfold serve_oauth.
    assert (counted P (proxy (sys_server (oauth_context sha256 env r sys).1))) as Ho.
    { unfold oauth_context. destruct (authenticator _); [|done]. repeat case_match; by eapply counted_same, Hc. }
    destruct (oauth_context _ _ _ _) as [sys1 ctx]. simpl in Ho.
    repeat case_match; simplify_eq; try done; by eapply counted_same, Ho.
Qed.

Lemma counted_steps (P : Prop) Q Late sys sys' : rtc (step sha256 hmac error_text g Q Late) sys sys' →
  (P → ∀ env r, Q env r → audit_fault (sv_proxy env) = false) →
  counted P (proxy (sys_server sys)) → counted P (proxy (sys_server sys')).
Proof.
  intros Hs HP. induction Hs as [|s1 s2 s3 Hs _ IH]; [done|]. intros Hc. apply IH.
  destruct Hs; [apply counted_serve; [eauto|done]|by eapply counted_same, Hc..].
Qed.

Lemma count_entries (es : list AuditEntry) c t u s :
  length (filter (λ k, k = (c, t, u, s)) (entry_key <$> es)) = length (filter (λ e, entry_key e = (c, t, u, s)) es).
Proof.
  induction es as [|e es IH]; [done|]. csimpl.
  destruct (decide (entry_key e = (c, t, u, s))); [rewrite !filter_cons_True by done; csimpl; lia|by rewrite !filter_cons_False by done].
Qed.

(** C33: what /metrics reports agrees with the audit log: after any run of a
    gateway with an audit log, the counter of requests for a caller, tool, upstream
    and status is at least the number of entries of the log with exactly these; and it
    is that number if the audit store failed to write no entry of the run (a call is
    counted also when its entry is lost). *)
Theorem metrics_match_audit benv cfg hash Q Late sys c t u s :
  is_Some (g_audit g) → rtc (step sha256 hmac error_text g Q Late) (boot g benv cfg hash) sys →
  ∃ ms es, h_metrics (proxy (sys_server sys)) = Some ms ∧ auditStore (proxy (sys_server sys)) = Some es ∧
    let n := counter "stile_requests" (request_attrs c t u s) (replay_proxy stile_metrics ms (fresh_meter : M)) in
    let logged := Z.of_nat (length (filter (λ e, entry_key e = (c, t, u, s)) es)) in
    logged ≤ n ∧ ((∀ env r, Q env r → audit_fault (sv_proxy env) = false) → n = logged).
Proof.
  intros [st Hst] Hr. set (P := ∀ env r, Q env r → audit_fault (sv_proxy env) = false).
  assert (counted P (proxy (sys_server (boot g benv cfg hash : System T L N S)))) as Hc.
  { exists [], []. unfold boot, NewHandler. rewrite Hst. by destruct (g_oauth g). }
  destruct (counted_steps P Q Late _ _ Hr (λ HP, HP) Hc) as (ms & es & Hm & Ha & Hs & Ho).
  exists ms, es. split; [done|]. split; [done|]. cbv zeta.
  rewrite (counter_requests stile_metrics) by done. rewrite counter_fresh, <- (count_entries es). split.
  - apply (sublist_count (λ k, k = (c, t, u, s))) in Hs. lia.
  - intros HP. by rewrite (Ho HP).
Qed.
End agreement.

(** ** The gauges *)

Section gauges.
Context {M : Type} `{Meter M}.

Lemma upstream_attrs_inj (u v : string) : (list_to_map [("upstream", u)] : attrs) = list_to_map [("upstream", v)] → u = v.
Proof. simpl. intros Heq%(f_equal (lookup "upstream")). rewrite !lookup_insert_eq in Heq. by injection Heq. Qed.

(** The gauge of an upstream after one more report. *)
Lemma gauge_circuit_snoc l u s (m : M) :
  gauge "stile_circuit_state" (list_to_map [("upstream", u)]) (replay_resilience stile_metrics (l ++ [CircuitMetric u s]) m)
    = Some (state_value s).
Proof. unfold replay_resilience. rewrite foldl_app. simpl. unfold SetCircuitState. rewrite gauge_SetGauge. by rewrite decide_True. Qed.

Lemma gauge_health_snoc l u v b (m : M) :
  gauge "stile_upstream_health" (list_to_map [("upstream", u)]) (replay_health stile_metrics (l ++ [(v, b)]) m)
    = if decide (u = v) then Some (health_value b)
      else gauge "stile_upstream_health" (list_to_map [("upstream", u)]) (replay_health stile_metrics l m).
Proof.
  unfold replay_health. rewrite foldl_app. simpl. unfold SetUpstreamHealth. rewrite gauge_SetGauge. simpl.
  destruct (decide (u = v)) as [->|Hne]; [by rewrite decide_True|]. rewrite decide_False; [done|].
  intros Heq%(f_equal snd). by apply Hne, upstream_attrs_inj.
Qed.
End gauges.

Section circuit.
Context {M T : Type} `{Meter M} `{Float64.GoPlatform} `{Transport T}.

Lemma before_retry_metrics env name rp attempt l m e :
  before_retry env name rp attempt (Some l) = (m, e) → is_Some m.
Proof. unfold before_retry. destruct attempt; [by intros [= <- _]|]. repeat case_match; intros [= <- _]; simpl; eauto. Qed.

Lemma retry_loop_metrics env ctx req name rp n k e (t : T) l : is_Some (retry_loop env ctx req name rp n k e t (Some l)).1.2.
Proof.
  revert k e t l. induction n as [|n IH]; intros k e t l; simpl; [done|].
  destruct (before_retry env name rp k (Some l)) as [m [e'|]] eqn:Eb; apply before_retry_metrics in Eb as [l' ->]; [done|].
  destruct (RoundTrip ctx req t) as [t' [r|e']]; [done|]. destruct (IsRetryable rp e'); [apply IH|done].
Qed.

(** After every call of a guarded upstream, refused ones included, the gauge
    stile_circuit_state shows the state that its breaker is in. *)
Theorem circuit_gauge_current ctx req (rt : ResilientTransport T) b l (m : M) :
  cb rt = Some b → metrics rt = Some l →
  let rt' := (Resilient_RoundTrip ctx req rt).1 in
  ∃ b' l', cb rt' = Some b' ∧ metrics rt' = Some l' ∧
    gauge "stile_circuit_state" (list_to_map [("upstream", rt_name rt)]) (replay_resilience stile_metrics l' m)
      = Some (state_value (Breaker.state b')).
Proof.
  intros Hb Hl. unfold Resilient_RoundTrip. rewrite Hb, Hl.
  destruct (Breaker.Allow _ b) as [b1 []]; cbn [negb].
  - pose proof (retry_loop_metrics (Resilience.world rt 0%nat) ctx req (rt_name rt) (retry rt) (max_attempts (retry rt)) 0 None (Resilience.inner rt) l) as [l' Hm].
    destruct (retry_loop _ _ _ _ _ _ _ _ _ _) as [[t m'] res]. simpl in Hm. subst m'.
    destruct res; do 2 eexists; (split_and!; [reflexivity..|apply gauge_circuit_snoc]).
  - do 2 eexists. split_and!; [reflexivity..|]. apply gauge_circuit_snoc.
Qed.
End circuit.

Section health_gauge.
Context {M T St : Type} `{Meter M} `{Transport T} `{StatusStore St}.
Implicit Types c : Checker T St.

(** The gauges of these upstreams show what the checker holds. *)
Definition shows (names : list string) (m : M) c : Prop :=
  ∃ l, health_metrics c = Some l ∧ ∀ u, u ∈ names →
    gauge "stile_upstream_health" (list_to_map [("upstream", u)]) (replay_health stile_metrics l m) = Some (health_value (healthy_of u c)).

Lemma check_one_metrics env i u c : ∃ c1, (check_one env i u c).2 = emit_health (ui_name u) c1 ∧
  health_metrics c1 = health_metrics c ∧ touches (ui_name u) c c1.
Proof.
  unfold check_one. destruct (if useStore c u then store c else None) as [s|].
  - eexists. split; [reflexivity|]. unfold read_status. destruct (StatusGet _ _ _ _); (split; [done|apply touches_set_health]).
  - cbv zeta. destruct (if activeProbe c then _ else _) as [t ok]. eexists. split; [reflexivity|]. split.
    + unfold write_status, record_outcome. destruct (store _), ok; simpl; repeat case_match; done.
    + eapply touches_trans; [apply touches_outcome|].
      apply (touches_write env i (MkInfo (ui_name u) t (ui_tools u) (ui_stale u) (Local u))).
Qed.

Lemma check_one_shows env i u c names m : shows names m c → shows (ui_name u :: names) m (check_one env i u c).2.
Proof.
  intros (l & Hl & Hs). destruct (check_one_metrics env i u c) as (c1 & -> & Hm & [_ _ Ho _]).
  eexists. split; [simpl; rewrite Hm, Hl; reflexivity|]. intros v Hv. rewrite gauge_health_snoc.
  destruct (decide (v = ui_name u)) as [->|Hne]; [done|]. apply elem_of_cons in Hv as [|Hv]; [done|]. rewrite Hs by done.
  unfold healthy_of. simpl. by destruct (Ho v Hne) as [-> _].
Qed.

Lemma check_loop_shows env i us c names m : shows names m c → shows (reverse (ui_name <$> us) ++ names) m (check_loop env i us c).2.
Proof.
  revert i c names. induction us as [|u us IH]; intros i c names Hs; [done|]. cbn [check_loop].
  pose proof (check_one_shows env i u c names m Hs) as Hs1. destruct (check_one env i u c) as [u1 c1].
  specialize (IH (S i) c1 _ Hs1). destruct (check_loop env (S i) us c1) as [us2 c2]. csimpl.
  rewrite reverse_cons, <- app_assoc. exact IH.
Qed.

(** After a round of checks the gauge stile_upstream_health of every upstream
    that is monitored shows what the readiness endpoint reports for it. *)
Theorem health_gauge_current env c (m : M) u :
  is_Some (health_metrics c) → u ∈ monitored c →
  ∃ l, health_metrics (check env c) = Some l ∧
    gauge "stile_upstream_health" (list_to_map [("upstream", ui_name u)]) (replay_health stile_metrics l m)
      = Some (health_value (healthy_of (ui_name u) (check env c))).
Proof.
  intros [l Hl] Hu. assert (shows [] m c) as Hs by (exists l; split; [done|]; by intros v ?%elem_of_nil).
  apply (check_loop_shows env 0 (monitored c)) in Hs. unfold check.
  destruct (check_loop env 0 (monitored c) c) as [us c']. destruct Hs as (l' & Hl' & Hs). exists l'. split; [done|].
  apply Hs. rewrite app_nil_r. apply elem_of_reverse. by apply list_elem_of_fmap_2.
Qed.
End health_gauge.

(** ** The counters of the auth cache *)

(** No component makes the calls that would move the three counters of the auth
    cache: they stay where they were, whatever the gateway records. *)
Theorem auth_cache_counters_unused {M} `{Meter M} n a p r f h (m : M) :
  n ∈ [authCacheHits stile_metrics; authCacheMisses stile_metrics; authCacheEvictions stile_metrics] →
  counter n a (replay_health stile_metrics h (replay_refresh stile_metrics f
    (replay_resilience stile_metrics r (replay_proxy stile_metrics p m)))) = counter n a m.
Proof.
  intros Hn.
  assert (∀ n', n' ∉ [authCacheHits stile_metrics; authCacheMisses stile_metrics; authCacheEvictions stile_metrics] →
    ∀ a' k (m' : M), counter n a (Add n' a' k m') = counter n a m') as Hadd.
  { intros n' Hn' a' k m'. rewrite counter_Add, decide_False; [lia|]. intros [= -> _]. done. }
  assert (∀ (A : Type) (f : M → A → M), (∀ m' x, counter n a (f m' x) = counter n a m') →
    ∀ l m', counter n a (foldl f m' l) = counter n a m') as Hfold.
  { intros A fn Hf l. induction l as [|x l IH]; intros m'; [done|]. simpl. by rewrite IH, Hf. }
  unfold replay_health, replay_refresh, replay_resilience, replay_proxy.
  rewrite !Hfold; [done|..]; [intros m' []|intros m' []|intros m' x|intros m' x];
    unfold RecordRequest, RecordDuration, RecordRateLimitRejection, RecordRetry, SetCircuitState, RecordToolCacheRefresh, SetUpstreamHealth;
    rewrite ?counter_Observe, ?counter_SetGauge; try done; apply Hadd; vm_compute; set_solver.
Qed.

(** ** A meter *)

Module TableMeter.
Record meter := MkMeter {
  sums : gmap (string * attrs) Z;
  values : gmap (string * attrs) (list spec_float);
  lasts : gmap (string * attrs) spec_float;
}.

#[refine] #[export] Instance table_meter : Meter meter := {|
  Add n a k m := MkMeter (<[(n, a) := default 0 (sums m !! (n, a)) + k]> (sums m)) (values m) (lasts m);
  Observe n a v m := MkMeter (sums m) (<[(n, a) := default [] (values m !! (n, a)) ++ [v]]> (values m)) (lasts m);
  SetGauge n a v m := MkMeter (sums m) (values m) (<[(n, a) := v]> (lasts m));
  counter n a m := default 0 (sums m !! (n, a));
  observed n a m := default [] (values m !! (n, a));
  gauge n a m := lasts m !! (n, a);
  fresh_meter := MkMeter ∅ ∅ ∅;
|}.
Proof.
  all: try done.
  - intros n a n' a' k m. simpl. case_decide as Hd; [injection Hd as -> ->; by rewrite lookup_insert_eq|].
    rewrite lookup_insert_ne by done. lia.
  - intros n a n' a' v m. simpl. case_decide as Hd; [injection Hd as -> ->; by rewrite lookup_insert_eq|].
    rewrite lookup_insert_ne by done. by rewrite app_nil_r.
  - intros n a n' a' v m. simpl. case_decide as Hd; [injection Hd as -> ->; by rewrite lookup_insert_eq|].
    by rewrite lookup_insert_ne.
Defined.
End TableMeter.
Import TableMeter AdminRun Run.

(** After ann's call of "search", the counter of that call is one. *)
Lemma metrics_match_audit_witness :
  ∃ ms es, h_metrics (proxy (sys_server (serve_it any_env search_call started).1)) = Some ms ∧
    auditStore (proxy (sys_server (serve_it any_env search_call started).1)) = Some es ∧
    counter "stile_requests" (request_attrs "ann" "search" "svc" "ok") (replay_proxy stile_metrics ms (fresh_meter : meter)) =
      Z.of_nat (length (filter (λ e, entry_key e = ("ann", "search", "svc", "ok")) es)) ∧ length es = 1%nat.
Proof.
  destruct (metrics_match_audit (M:=meter) id toy_mac (λ _, "") gateway boot_env (gateway_config (MkDatabase "sqlite" "stile.db")) "k"
    (λ env _, audit_fault (sv_proxy env) = false) (λ _, True) (serve_it any_env search_call started).1 "ann" "search" "svc" "ok")
    as (ms & es & Hm & Ha & _ & Hc).
  - vm_compute. eauto.
  - apply rtc_once. by constructor.
  - exists ms, es. split_and!; [exact Hm|exact Ha|apply Hc; intros env r Hq; exact Hq|].
    assert (length <$> auditStore (proxy (sys_server (serve_it any_env search_call started).1)) = Some 1%nat) as Hone by (vm_compute; reflexivity).
    rewrite Ha in Hone. by injection Hone.
Defined.

Lemma circuit_gauge_current_witness :
  let rt := MkResilient [lost] "svc" (Some (Breaker.NewCircuitBreaker 1 10)) None (Some []) (λ _, Resilience.calm) in
  ∃ b' l', cb (Resilient_RoundTrip Background ping rt).1 = Some b' ∧
    gauge "stile_circuit_state" (list_to_map [("upstream", "svc")]) (replay_resilience stile_metrics l' (fresh_meter : meter))
      = Some (state_value Breaker.StateOpen).
Proof.
  intros rt. destruct (circuit_gauge_current (M:=meter) Background ping rt (Breaker.NewCircuitBreaker 1 10) [] fresh_meter eq_refl eq_refl)
    as (b' & l' & Hb & Hm & Hg).
  exists b', l'. split; [exact Hb|]. vm_compute in Hb. injection Hb as <-. exact Hg.
Defined.

Lemma health_gauge_current_witness :
  let c := NewChecker [flaky; steady] (Some []) agent_options in
  ∃ l, gauge "stile_upstream_health" (list_to_map [("upstream", "b")]) (replay_health stile_metrics l (fresh_meter : meter))
    = Some (health_value (healthy_of "b" (check (quick 0) c))).
Proof.
  intros c. destruct (health_gauge_current (M:=meter) (quick 0) c fresh_meter steady) as (l & _ & Hg).
  - vm_compute. eauto.
  - right; left.
  - exists l. exact Hg.
Defined.

Lemma auth_cache_counters_unused_witness :
  counter "stile_auth_cache_hits" ∅ (replay_health stile_metrics [("svc", true)] (replay_refresh stile_metrics [("svc", false)]
    (replay_resilience stile_metrics [RetryMetric "svc"] (replay_proxy stile_metrics [RejectionMetric "ann" "x"] (fresh_meter : meter))))) = 0.
Proof. rewrite (auth_cache_counters_unused (M:=meter)); [reflexivity|left]. Defined.
