(* ===== verification/Wrap.v ===== *)
(** * Wrap mode ([internal/wrap/handler.go], [cmd/gateway/wrap.go])

    An HTTP endpoint in front of one stdio server: the handlers, over the model of
    the stdio transport in [Stdio] (whose calls return, block or panic), and the
    arguments of [stile wrap] with the setup of its tracer. Spans are left out. *)

From S2P Require Import Prelude GoLib Json JsonRpc JsonText Transport ConfigData Telemetry RateLimit Router Proxy Server Http Cli Stdio.
Import GoStr.

Module Wrap.

(** ** Handlers *)






Definition handleHealthz (t : StdioTransport) : Z * json :=
  if Stdio_Healthy t then (200, JObj [("status", JStr "ok")]) else (503, JObj [("status", JStr "unhealthy")]).

(** ** Arguments *)

(** [unicode.IsSpace] of a code point. *)
Definition space_rune (r : option string) : bool :=
  match r with
  | Some (String c "") => between 9 13 c || bool_decide (c = " "%char)
  | Some u => existsb (String.eqb u)
      (utf8 <$> [133; 160; 5760; 8192; 8193; 8194; 8195; 8196; 8197; 8198; 8199; 8200; 8201; 8202; 8232; 8233; 8239; 8287; 12288]%N)
  | None => false
  end.

(** The bytes that the runes of a string stand for, in order. *)
Fixpoint rune_bytes (s : string) (rs : list (option string)) : list (bool * string) :=
  match rs with
  | [] => []
  | Some u :: rs => (space_rune (Some u), u) :: rune_bytes (str_drop (String.length u) s) rs
  | None :: rs => (false, String.substring 0 1 s) :: rune_bytes (str_drop 1 s) rs
  end.

(** [strings.Fields] *)
Fixpoint fields_of (word : string) (l : list (bool * string)) : list string :=
  match l with
  | [] => if bool_decide (word = "") then [] else [word]
  | (true, _) :: l => if bool_decide (word = "") then fields_of "" l else word :: fields_of "" l
  | (false, u) :: l => fields_of (word +:+ u) l
  end.

Definition Fields (s : string) : list string := fields_of "" (rune_bytes s (runes (String.length s) s)).

(** [KEY=VALUE]; the first that has no equals sign is an error. *)
Fixpoint parse_env (l : list string) : result string (gmap string string) :=
  match l with
  | [] => Ok ∅
  | e :: l =>
      match Cut "=" e with
      | None => Err "invalid --env value"
      | Some (k, v) => m ← parse_env l; Ok (if bool_decide (is_Some (m !! k)) then m else <[k := v]> m)
      end
  end.

Definition wrap_flags : FlagSet :=
  [("command", StringFlag); ("port", IntFlag); ("address", StringFlag); ("otel-endpoint", StringFlag); ("env", MultiFlag)].

Inductive wrap_plan :=
| WrapStop (status : Z) (msg : string)
| WrapListen (address : string) (t : StdioTransport) (gl : Globals).

(** Every span is sampled; [exporter] and [resource] are whether these can be
    made. *)
Definition initWrapTracer (exporter resource : option string) (endpoint : string) (gl : Globals) : Globals * result string TracerProvider :=
  match exporter with
  | Some e => (gl, Err ("create OTLP exporter: " +:+ e))
  | None =>
      match resource with
      | Some e => (gl, Err ("create resource: " +:+ e))
      | None => let tp := MkTP endpoint ("stile-wrap", "0.1.0") Float64.one in (MkGlobals (Some tp) true, Ok tp)
      end
  end.

(** [runWrap], up to listening; [w] is the operating system. *)
Definition runWrap `{GoRange} (exporter resource : option string) (gl : Globals) (args : list string) (w : OS) : wrap_plan :=
  match parse_flags wrap_flags args with
  | Err ErrHelp => WrapStop 0 ""
  | Err BadFlag => WrapStop 2 ""
  | Ok l =>
      let command := flag_value l "command" "" in
      if bool_decide (command = "") then WrapStop 1 "--command is required" else
      let port := default 0 (ParseInt0 (flag_value l "port" "9090")) in
      let address := flag_value l "address" "" in
      let listenAddr := if bool_decide (address = "") then ":" +:+ Strconv.Itoa port else address in
      match parse_env (snd <$> filter (λ kv, kv.1 = "env") l) with
      | Err e => WrapStop 1 e
      | Ok env =>
          match NewStdioTransport (NewStdioUpstreamConfig "wrapped" (Fields command) env) w with
          | Err e => WrapStop 1 e
          | Ok t =>
              let otelEndpoint := flag_value l "otel-endpoint" "" in
              if bool_decide (otelEndpoint = "") then WrapListen listenAddr t gl
              else match initWrapTracer exporter resource otelEndpoint gl with
                   | (_, Err e) => WrapStop 1 e
                   | (gl, Ok _) => WrapListen listenAddr t gl
                   end
          end
      end
  end.

(** ** Properties *)














(** ** Runs *)


Example wrap_arguments :
  match runWrap None None (MkGlobals None false)
    ["--command"; " npx -y  srv "; "--env"; "A=1"; "--env=A=2"; "--port=0x10"; "--otel-endpoint=o:4318"] (os (new_transport [])) with
  | WrapListen address t gl => address = ":16" ∧ command t = ["npx"; "-y"; "srv"] ∧ env t = ["A=2"] ∧ tp_endpoint <$> global_tp gl = Some "o:4318"
  | WrapStop _ _ => False
  end.
Proof. vm_compute. auto. Qed.
End Wrap.
